(** * Beacon processing of the ath9k driver (atheros/ath9k/beacon.c)

    A shallow embedding of the beacon slot allocator, the CAB/multicast
    merge, the beacon generator, the SWBA tasklet and the beacon timer
    configuration, followed by the properties established about them.

    Conventions.
    - The driver state [struct ath_softc] is a record that is passed in and
      returned; a pointer into it ([avp], [cabq], [bf]) is modelled by the
      value it designates, written back where the C code stores through it.
      Transmit descriptors are shared through pointers ([axq_link],
      [bflink]) and live in a store of their own, [sc_descs].
    - Calls that leave beacon.c (the HAL, the transmit path, the mac80211
      glue) are appended to [sc_trace], oldest first; what they hand back
      is an input of the entry point ([mac_env], [hal_readings]).  Their
      own effect on the driver state is not part of beacon.c and is not
      modelled, with the one exception of [ath_tx_draintxq].  [DPRINTF]
      output, the cycle counters read for it, and locking are left out.
    - A run that the C code does not survive (a failed [ASSERT], [BUG_ON] or
      [KASSERT], an array access out of bounds, a division by zero, a
      dereferenced [NULL]) is [None].
    - Variables declared in beacon.c carry their width ([u_int16_t],
      [u_int32_t], [u_int64_t], [int]); the wrap-around is written out with
      [u16], [u32], [u64] and [s32].  Structure fields are declared in
      core.h and ath9k.h, which are not part of the sources at hand; they
      are integers here. *)

From stdpp Require Import base option list gmap.
From Stdlib Require Import ZArith Lia.

Local Open Scope Z_scope.

(** ** Constants and macros taken from core.h and ath9k.h *)

Class core_h := {
  ATH_BCBUF : Z;                (* number of beacon buffers and slots *)
  ATH_IF_ID_ANY : Z;            (* the empty-slot sentinel *)
  ATH_DEFAULT_BINTVAL : Z;      (* beacon interval, in TU *)
  ATH_DEFAULT_BMISS_LIMIT : Z;
  BSTUCK_THRESH : Z;            (* stuck beacon threshold *)
  ATH_ANTENNA_DIFF : Z;
  HAL_BEACON_PERIOD : Z;        (* mask of the period bits *)
  HAL_BEACON_ENA : Z;
  HAL_BEACON_RESET_TSF : Z;
  HAL_INT_BMISS : Z;
  HAL_INT_SWBA : Z;
  HAL_TXDESC_NOACK : Z;
  HAL_TXDESC_VEOL : Z;
  FCS_LEN : Z;
  ENOMEM : Z;
  IEEE80211_MS_TO_TU : Z -> Z;
  sizeof_ieee80211_hdr : Z      (* sizeof(struct ieee80211_hdr) *)
}.

(** ** Machine integers *)

Definition u16 (x : Z) : Z := x mod 2^16.
Definition u32 (x : Z) : Z := x mod 2^32.
Definition u64 (x : Z) : Z := x mod 2^64.
(** conversion to [int] *)
Definition s32 (x : Z) : Z := (x + 2^31) mod 2^32 - 2^31.

(** [a / b] and [a % b] of C: truncation toward zero, no result for [b = 0]. *)
Definition c_div (a b : Z) : option Z :=
  if decide (b = 0) then None else Some (Z.quot a b).
Definition c_mod (a b : Z) : option Z :=
  if decide (b = 0) then None else Some (Z.rem a b).

(** [howmany(x, y)] on [u_int32_t] operands and [roundup(x, y)] on [u_int32_t]
    and on [int] operands. *)
Definition howmany32 (x y : Z) : option Z := c_div (u32 (x + u32 (y - 1))) y.
Definition roundup32 (x y : Z) : option Z :=
  q ← howmany32 x y; Some (u32 (q * y)).
Definition roundup_int (x y : Z) : option Z :=
  q ← c_div (s32 (x + s32 (y - 1))) y; Some (s32 (q * y)).

(** [TSF_TO_TU(_h, _l)] *)
Definition TSF_TO_TU (h l : Z) : Z :=
  Z.lor (u32 (Z.shiftl (u32 h) 22)) (Z.shiftr (u32 l) 10).

(** The clock in TU, [TSF_TO_TU(tsf>>32, tsf)], of a 64-bit [tsf]. *)
Definition tsf_tu (tsf : Z) : Z := TSF_TO_TU (Z.shiftr tsf 32) tsf.

(** ** Arrays *)

(** [a[i]] as an rvalue and [a[i] = v]; an index outside the array has no
    result. *)
Definition arr_get {A} (a : list A) (i : Z) : option A :=
  if decide (0 <= i) then a !! Z.to_nat i else None.
Definition arr_set {A} (a : list A) (i : Z) (v : A) : option (list A) :=
  if decide (0 <= i < Z.of_nat (length a)) then Some (<[Z.to_nat i := v]> a)
  else None.

(** ** Bytes *)

(** The [n] low bytes of [v], least significant first: what
    [cpu_to_le64] followed by [memcpy] leaves in memory for [n = 8]. *)
Fixpoint le_bytes (n : nat) (v : Z) : list Z :=
  match n with
  | O => []
  | S n' => v mod 256 :: le_bytes n' (v / 256)
  end.

(** The number a little-endian byte string stands for ([LE_READ_4] on four
    bytes). *)
Fixpoint le_value (bs : list Z) : Z :=
  match bs with
  | [] => 0
  | b :: bs' => b + 256 * le_value bs'
  end.

(** [memcpy(data + off, bs, length bs)] inside a buffer. *)
Definition memcpy_at (data : list Z) (off : Z) (bs : list Z) : option (list Z) :=
  if decide (0 <= off /\ off + Z.of_nat (length bs) <= Z.of_nat (length data))
  then Some (take (Z.to_nat off) data ++ bs
             ++ drop (Z.to_nat off + length bs) data)
  else None.

(** ** Data model *)

Inductive hal_opmode := HAL_M_STA | HAL_M_IBSS | HAL_M_HOSTAP | HAL_M_MONITOR.

Global Instance hal_opmode_eq_dec : EqDecision hal_opmode.
Proof. solve_decision. Defined.

(** Slot time update state machine ([sc_updateslot]). *)
Inductive updateslot_state := OK | UPDATE | COMMIT.

Global Instance updateslot_state_eq_dec : EqDecision updateslot_state.
Proof. solve_decision. Defined.

(** A frame: the bytes at [skb->data]; [skb->len] is their number. *)
Record sk_buff := { skb_data : list Z }.

Definition skb_len (skb : sk_buff) : Z := Z.of_nat (length (skb_data skb)).

(** A transmit descriptor, as the device reads it (little-endian words, so
    [cpu_to_le32] is the identity on this view). *)
Record ath_desc := { ds_link : Z; ds_data : Z }.

(** A DMA buffer.  [bf_desc] lives in descriptor memory ([sc_descs]) at
    the bus address [bf_daddr]. *)
Record ath_buf := {
  bf_daddr : Z;
  bf_buf_addr : Z;
  bf_mpdu : option sk_buff
}.

(** A transmit queue.  [axq_link] points at the [ds_link] word of a
    descriptor, named by that descriptor's bus address; [axq_linkbuf]
    names a buffer the same way. *)
Record ath_txq := {
  axq_qnum : Z;
  axq_q : list ath_buf;
  axq_depth : Z;
  axq_totalqueued : Z;
  axq_linkbuf : option Z;
  axq_link : option Z
}.

Record ath_vap := {
  av_opmode : hal_opmode;
  av_bslot : Z;
  av_bcbuf : option ath_buf;
  av_mcastq : ath_txq;
  bo_tim : list Z;              (* av_boff.bo_tim: the TIM element *)
  txpower : Z                   (* av_btxctl.txpower *)
}.

Record hal_txq_info := { tqi_aifs : Z; tqi_cwmin : Z; tqi_cwmax : Z }.

Record hal_beacon_state := {
  bs_intval : Z;
  bs_nexttbtt : Z;
  bs_dtimperiod : Z;
  bs_nextdtim : Z;
  bs_cfpperiod : Z;
  bs_cfpnext : Z;
  bs_cfpmaxduration : Z;
  bs_bmissthreshold : Z;
  bs_sleepduration : Z
}.

(** Calls that leave beacon.c.  Reads of the HAL that change nothing are
    not among them: [ath9k_hw_numtxpending], [ath9k_hw_gettsf64] and the
    return value of [ath9k_hw_settxqueueprops] come with [hal_readings]
    below, [ath9k_hw_gettxqueueprops] fills the [qi] that
    [ath_beaconq_config] overwrites, and the cycle counts that the tasklet
    reads with [ath9k_hw_GetMibCycleCountsPct] on entry when [sc_noreset]
    is set only go into its debug messages. *)
Inductive call :=
  | ath9k_hw_puttxbuf_ (q txdp : Z)
  | ath9k_hw_txstart_ (q : Z)
  | ath9k_hw_stoptxdma_ (q : Z)
  | ath9k_hw_set11n_txdesc_ (daddr pktlen txpwr flags : Z)
  | ath9k_hw_filltxdesc_ (daddr seglen : Z)
  | ath9k_hw_set11n_ratescenario_ (daddr : Z)
  | ath_desc_swap_ (daddr : Z)
  | ath9k_hw_dmaRegDump_
  | ath9k_hw_settxqueueprops_ (q : Z) (qi : hal_txq_info)
  | ath9k_hw_resettxqueue_ (q : Z)
  | ath9k_hw_set_interrupts_ (mask : Z)
  | ath9k_hw_set_sta_beacon_timers_ (bs : hal_beacon_state)
  | ath9k_hw_beaconinit_ (nexttbtt intval : Z)
  | ath_skb_map_single_ (skb : sk_buff)
  | ath_skb_unmap_single_ (skb : sk_buff)
  | pci_dma_sync_single_for_cpu_ (addr : Z)
  | ath_tx_complete_ (skb : sk_buff)
  | ath_get_beacon_ (if_id : Z)
  | ath_update_beacon_ (if_id mcastq_depth : Z)
  | ath_tx_draintxq_ (q : Z)
  | ath_internal_reset_
  | ath_setslottime_
  | ath_setdefantenna_ (antenna : Z).

Record ath_softc := {
  sc_opmode : hal_opmode;
  sc_hasveol : bool;
  sc_stagbeacons : bool;
  sc_nostabeacons : bool;
  sc_noreset : bool;
  sc_diversity : bool;
  sc_nvaps : Z;
  sc_bhalq : Z;
  sc_beacon_qi : hal_txq_info;
  sc_imask : Z;
  sc_bslot : list Z;
  sc_nbcnvaps : Z;
  sc_bbuf : list ath_buf;
  sc_vaps : gmap Z ath_vap;
  sc_cabq : ath_txq;
  sc_descs : gmap Z ath_desc;
  sc_bmisscount : Z;
  sc_updateslot : updateslot_state;
  sc_slotupdate : Z;
  sc_defant : Z;
  sc_ant_tx : list Z;
  ast_be_xmit : Z;
  sc_trace : list call
}.

(** What the mac80211 glue and the DMA mapping hand back. *)
Record mac_env := {
  (* ath_get_beacon: the frame, the TIM element, the transmit power; or NULL *)
  ath_get_beacon : Z -> option (sk_buff * list Z * Z);
  (* ath_update_beacon: return value, refreshed frame, refreshed TIM element *)
  ath_update_beacon : Z -> sk_buff -> Z -> Z * sk_buff * list Z;
  ath_skb_map_single : sk_buff -> Z
}.

(** What the HAL reports during one entry into beacon.c. *)
Record hal_readings := {
  ath9k_hw_numtxpending : Z -> Z;       (* by queue *)
  ath9k_hw_gettsf64 : Z;
  ath9k_hw_settxqueueprops : bool
}.

(** *** Field updates *)

Definition bf_with_mpdu (m : option sk_buff) (bf : ath_buf) : ath_buf :=
  {| bf_daddr := bf_daddr bf; bf_buf_addr := bf_buf_addr bf; bf_mpdu := m |}.
Definition bf_with_buf_addr (a : Z) (bf : ath_buf) : ath_buf :=
  {| bf_daddr := bf_daddr bf; bf_buf_addr := a; bf_mpdu := bf_mpdu bf |}.

Definition ds_with_link (v : Z) (ds : ath_desc) : ath_desc :=
  {| ds_link := v; ds_data := ds_data ds |}.
Definition ds_with_data (v : Z) (ds : ath_desc) : ath_desc :=
  {| ds_link := ds_link ds; ds_data := v |}.

Definition avp_with_bslot (s : Z) (v : ath_vap) : ath_vap :=
  {| av_opmode := av_opmode v; av_bslot := s; av_bcbuf := av_bcbuf v;
     av_mcastq := av_mcastq v; bo_tim := bo_tim v; txpower := txpower v |}.
Definition avp_with_bcbuf (b : option ath_buf) (v : ath_vap) : ath_vap :=
  {| av_opmode := av_opmode v; av_bslot := av_bslot v; av_bcbuf := b;
     av_mcastq := av_mcastq v; bo_tim := bo_tim v; txpower := txpower v |}.
Definition avp_with_mcastq (q : ath_txq) (v : ath_vap) : ath_vap :=
  {| av_opmode := av_opmode v; av_bslot := av_bslot v; av_bcbuf := av_bcbuf v;
     av_mcastq := q; bo_tim := bo_tim v; txpower := txpower v |}.
Definition avp_with_boff (tim : list Z) (v : ath_vap) : ath_vap :=
  {| av_opmode := av_opmode v; av_bslot := av_bslot v; av_bcbuf := av_bcbuf v;
     av_mcastq := av_mcastq v; bo_tim := tim; txpower := txpower v |}.
Definition avp_with_btxctl (p : Z) (v : ath_vap) : ath_vap :=
  {| av_opmode := av_opmode v; av_bslot := av_bslot v; av_bcbuf := av_bcbuf v;
     av_mcastq := av_mcastq v; bo_tim := bo_tim v; txpower := p |}.

Definition sc_with_imask (m : Z) (sc : ath_softc) : ath_softc :=
  {| sc_opmode := sc_opmode sc; sc_hasveol := sc_hasveol sc;
     sc_stagbeacons := sc_stagbeacons sc;
     sc_nostabeacons := sc_nostabeacons sc; sc_noreset := sc_noreset sc;
     sc_diversity := sc_diversity sc; sc_nvaps := sc_nvaps sc;
     sc_bhalq := sc_bhalq sc; sc_beacon_qi := sc_beacon_qi sc; sc_imask := m;
     sc_bslot := sc_bslot sc; sc_nbcnvaps := sc_nbcnvaps sc;
     sc_bbuf := sc_bbuf sc; sc_vaps := sc_vaps sc; sc_cabq := sc_cabq sc;
     sc_descs := sc_descs sc; sc_bmisscount := sc_bmisscount sc;
     sc_updateslot := sc_updateslot sc; sc_slotupdate := sc_slotupdate sc;
     sc_defant := sc_defant sc; sc_ant_tx := sc_ant_tx sc;
     ast_be_xmit := ast_be_xmit sc; sc_trace := sc_trace sc |}.
Definition sc_with_bslot (t : list Z) (sc : ath_softc) : ath_softc :=
  {| sc_opmode := sc_opmode sc; sc_hasveol := sc_hasveol sc;
     sc_stagbeacons := sc_stagbeacons sc;
     sc_nostabeacons := sc_nostabeacons sc; sc_noreset := sc_noreset sc;
     sc_diversity := sc_diversity sc; sc_nvaps := sc_nvaps sc;
     sc_bhalq := sc_bhalq sc; sc_beacon_qi := sc_beacon_qi sc;
     sc_imask := sc_imask sc; sc_bslot := t; sc_nbcnvaps := sc_nbcnvaps sc;
     sc_bbuf := sc_bbuf sc; sc_vaps := sc_vaps sc; sc_cabq := sc_cabq sc;
     sc_descs := sc_descs sc; sc_bmisscount := sc_bmisscount sc;
     sc_updateslot := sc_updateslot sc; sc_slotupdate := sc_slotupdate sc;
     sc_defant := sc_defant sc; sc_ant_tx := sc_ant_tx sc;
     ast_be_xmit := ast_be_xmit sc; sc_trace := sc_trace sc |}.
Definition sc_with_nbcnvaps (n : Z) (sc : ath_softc) : ath_softc :=
  {| sc_opmode := sc_opmode sc; sc_hasveol := sc_hasveol sc;
     sc_stagbeacons := sc_stagbeacons sc;
     sc_nostabeacons := sc_nostabeacons sc; sc_noreset := sc_noreset sc;
     sc_diversity := sc_diversity sc; sc_nvaps := sc_nvaps sc;
     sc_bhalq := sc_bhalq sc; sc_beacon_qi := sc_beacon_qi sc;
     sc_imask := sc_imask sc; sc_bslot := sc_bslot sc; sc_nbcnvaps := n;
     sc_bbuf := sc_bbuf sc; sc_vaps := sc_vaps sc; sc_cabq := sc_cabq sc;
     sc_descs := sc_descs sc; sc_bmisscount := sc_bmisscount sc;
     sc_updateslot := sc_updateslot sc; sc_slotupdate := sc_slotupdate sc;
     sc_defant := sc_defant sc; sc_ant_tx := sc_ant_tx sc;
     ast_be_xmit := ast_be_xmit sc; sc_trace := sc_trace sc |}.
Definition sc_with_bbuf (l : list ath_buf) (sc : ath_softc) : ath_softc :=
  {| sc_opmode := sc_opmode sc; sc_hasveol := sc_hasveol sc;
     sc_stagbeacons := sc_stagbeacons sc;
     sc_nostabeacons := sc_nostabeacons sc; sc_noreset := sc_noreset sc;
     sc_diversity := sc_diversity sc; sc_nvaps := sc_nvaps sc;
     sc_bhalq := sc_bhalq sc; sc_beacon_qi := sc_beacon_qi sc;
     sc_imask := sc_imask sc; sc_bslot := sc_bslot sc;
     sc_nbcnvaps := sc_nbcnvaps sc; sc_bbuf := l; sc_vaps := sc_vaps sc;
     sc_cabq := sc_cabq sc; sc_descs := sc_descs sc;
     sc_bmisscount := sc_bmisscount sc; sc_updateslot := sc_updateslot sc;
     sc_slotupdate := sc_slotupdate sc; sc_defant := sc_defant sc;
     sc_ant_tx := sc_ant_tx sc; ast_be_xmit := ast_be_xmit sc;
     sc_trace := sc_trace sc |}.
Definition sc_with_vaps (m : gmap Z ath_vap) (sc : ath_softc) : ath_softc :=
  {| sc_opmode := sc_opmode sc; sc_hasveol := sc_hasveol sc;
     sc_stagbeacons := sc_stagbeacons sc;
     sc_nostabeacons := sc_nostabeacons sc; sc_noreset := sc_noreset sc;
     sc_diversity := sc_diversity sc; sc_nvaps := sc_nvaps sc;
     sc_bhalq := sc_bhalq sc; sc_beacon_qi := sc_beacon_qi sc;
     sc_imask := sc_imask sc; sc_bslot := sc_bslot sc;
     sc_nbcnvaps := sc_nbcnvaps sc; sc_bbuf := sc_bbuf sc; sc_vaps := m;
     sc_cabq := sc_cabq sc; sc_descs := sc_descs sc;
     sc_bmisscount := sc_bmisscount sc; sc_updateslot := sc_updateslot sc;
     sc_slotupdate := sc_slotupdate sc; sc_defant := sc_defant sc;
     sc_ant_tx := sc_ant_tx sc; ast_be_xmit := ast_be_xmit sc;
     sc_trace := sc_trace sc |}.
Definition sc_with_cabq (q : ath_txq) (sc : ath_softc) : ath_softc :=
  {| sc_opmode := sc_opmode sc; sc_hasveol := sc_hasveol sc;
     sc_stagbeacons := sc_stagbeacons sc;
     sc_nostabeacons := sc_nostabeacons sc; sc_noreset := sc_noreset sc;
     sc_diversity := sc_diversity sc; sc_nvaps := sc_nvaps sc;
     sc_bhalq := sc_bhalq sc; sc_beacon_qi := sc_beacon_qi sc;
     sc_imask := sc_imask sc; sc_bslot := sc_bslot sc;
     sc_nbcnvaps := sc_nbcnvaps sc; sc_bbuf := sc_bbuf sc;
     sc_vaps := sc_vaps sc; sc_cabq := q; sc_descs := sc_descs sc;
     sc_bmisscount := sc_bmisscount sc; sc_updateslot := sc_updateslot sc;
     sc_slotupdate := sc_slotupdate sc; sc_defant := sc_defant sc;
     sc_ant_tx := sc_ant_tx sc; ast_be_xmit := ast_be_xmit sc;
     sc_trace := sc_trace sc |}.
Definition sc_with_descs (d : gmap Z ath_desc) (sc : ath_softc) : ath_softc :=
  {| sc_opmode := sc_opmode sc; sc_hasveol := sc_hasveol sc;
     sc_stagbeacons := sc_stagbeacons sc;
     sc_nostabeacons := sc_nostabeacons sc; sc_noreset := sc_noreset sc;
     sc_diversity := sc_diversity sc; sc_nvaps := sc_nvaps sc;
     sc_bhalq := sc_bhalq sc; sc_beacon_qi := sc_beacon_qi sc;
     sc_imask := sc_imask sc; sc_bslot := sc_bslot sc;
     sc_nbcnvaps := sc_nbcnvaps sc; sc_bbuf := sc_bbuf sc;
     sc_vaps := sc_vaps sc; sc_cabq := sc_cabq sc; sc_descs := d;
     sc_bmisscount := sc_bmisscount sc; sc_updateslot := sc_updateslot sc;
     sc_slotupdate := sc_slotupdate sc; sc_defant := sc_defant sc;
     sc_ant_tx := sc_ant_tx sc; ast_be_xmit := ast_be_xmit sc;
     sc_trace := sc_trace sc |}.
Definition sc_with_bmisscount (n : Z) (sc : ath_softc) : ath_softc :=
  {| sc_opmode := sc_opmode sc; sc_hasveol := sc_hasveol sc;
     sc_stagbeacons := sc_stagbeacons sc;
     sc_nostabeacons := sc_nostabeacons sc; sc_noreset := sc_noreset sc;
     sc_diversity := sc_diversity sc; sc_nvaps := sc_nvaps sc;
     sc_bhalq := sc_bhalq sc; sc_beacon_qi := sc_beacon_qi sc;
     sc_imask := sc_imask sc; sc_bslot := sc_bslot sc;
     sc_nbcnvaps := sc_nbcnvaps sc; sc_bbuf := sc_bbuf sc;
     sc_vaps := sc_vaps sc; sc_cabq := sc_cabq sc; sc_descs := sc_descs sc;
     sc_bmisscount := n; sc_updateslot := sc_updateslot sc;
     sc_slotupdate := sc_slotupdate sc; sc_defant := sc_defant sc;
     sc_ant_tx := sc_ant_tx sc; ast_be_xmit := ast_be_xmit sc;
     sc_trace := sc_trace sc |}.
Definition sc_with_updateslot (u : updateslot_state) (sc : ath_softc) : ath_softc :=
  {| sc_opmode := sc_opmode sc; sc_hasveol := sc_hasveol sc;
     sc_stagbeacons := sc_stagbeacons sc;
     sc_nostabeacons := sc_nostabeacons sc; sc_noreset := sc_noreset sc;
     sc_diversity := sc_diversity sc; sc_nvaps := sc_nvaps sc;
     sc_bhalq := sc_bhalq sc; sc_beacon_qi := sc_beacon_qi sc;
     sc_imask := sc_imask sc; sc_bslot := sc_bslot sc;
     sc_nbcnvaps := sc_nbcnvaps sc; sc_bbuf := sc_bbuf sc;
     sc_vaps := sc_vaps sc; sc_cabq := sc_cabq sc; sc_descs := sc_descs sc;
     sc_bmisscount := sc_bmisscount sc; sc_updateslot := u;
     sc_slotupdate := sc_slotupdate sc; sc_defant := sc_defant sc;
     sc_ant_tx := sc_ant_tx sc; ast_be_xmit := ast_be_xmit sc;
     sc_trace := sc_trace sc |}.
Definition sc_with_slotupdate (s : Z) (sc : ath_softc) : ath_softc :=
  {| sc_opmode := sc_opmode sc; sc_hasveol := sc_hasveol sc;
     sc_stagbeacons := sc_stagbeacons sc;
     sc_nostabeacons := sc_nostabeacons sc; sc_noreset := sc_noreset sc;
     sc_diversity := sc_diversity sc; sc_nvaps := sc_nvaps sc;
     sc_bhalq := sc_bhalq sc; sc_beacon_qi := sc_beacon_qi sc;
     sc_imask := sc_imask sc; sc_bslot := sc_bslot sc;
     sc_nbcnvaps := sc_nbcnvaps sc; sc_bbuf := sc_bbuf sc;
     sc_vaps := sc_vaps sc; sc_cabq := sc_cabq sc; sc_descs := sc_descs sc;
     sc_bmisscount := sc_bmisscount sc; sc_updateslot := sc_updateslot sc;
     sc_slotupdate := s; sc_defant := sc_defant sc;
     sc_ant_tx := sc_ant_tx sc; ast_be_xmit := ast_be_xmit sc;
     sc_trace := sc_trace sc |}.
Definition sc_with_ant_tx (a : list Z) (sc : ath_softc) : ath_softc :=
  {| sc_opmode := sc_opmode sc; sc_hasveol := sc_hasveol sc;
     sc_stagbeacons := sc_stagbeacons sc;
     sc_nostabeacons := sc_nostabeacons sc; sc_noreset := sc_noreset sc;
     sc_diversity := sc_diversity sc; sc_nvaps := sc_nvaps sc;
     sc_bhalq := sc_bhalq sc; sc_beacon_qi := sc_beacon_qi sc;
     sc_imask := sc_imask sc; sc_bslot := sc_bslot sc;
     sc_nbcnvaps := sc_nbcnvaps sc; sc_bbuf := sc_bbuf sc;
     sc_vaps := sc_vaps sc; sc_cabq := sc_cabq sc; sc_descs := sc_descs sc;
     sc_bmisscount := sc_bmisscount sc; sc_updateslot := sc_updateslot sc;
     sc_slotupdate := sc_slotupdate sc; sc_defant := sc_defant sc;
     sc_ant_tx := a; ast_be_xmit := ast_be_xmit sc;
     sc_trace := sc_trace sc |}.
Definition sc_with_be_xmit (n : Z) (sc : ath_softc) : ath_softc :=
  {| sc_opmode := sc_opmode sc; sc_hasveol := sc_hasveol sc;
     sc_stagbeacons := sc_stagbeacons sc;
     sc_nostabeacons := sc_nostabeacons sc; sc_noreset := sc_noreset sc;
     sc_diversity := sc_diversity sc; sc_nvaps := sc_nvaps sc;
     sc_bhalq := sc_bhalq sc; sc_beacon_qi := sc_beacon_qi sc;
     sc_imask := sc_imask sc; sc_bslot := sc_bslot sc;
     sc_nbcnvaps := sc_nbcnvaps sc; sc_bbuf := sc_bbuf sc;
     sc_vaps := sc_vaps sc; sc_cabq := sc_cabq sc; sc_descs := sc_descs sc;
     sc_bmisscount := sc_bmisscount sc; sc_updateslot := sc_updateslot sc;
     sc_slotupdate := sc_slotupdate sc; sc_defant := sc_defant sc;
     sc_ant_tx := sc_ant_tx sc; ast_be_xmit := n; sc_trace := sc_trace sc |}.
(** Record the calls [cs], in order. *)
Definition called (cs : list call) (sc : ath_softc) : ath_softc :=
  {| sc_opmode := sc_opmode sc; sc_hasveol := sc_hasveol sc;
     sc_stagbeacons := sc_stagbeacons sc;
     sc_nostabeacons := sc_nostabeacons sc; sc_noreset := sc_noreset sc;
     sc_diversity := sc_diversity sc; sc_nvaps := sc_nvaps sc;
     sc_bhalq := sc_bhalq sc; sc_beacon_qi := sc_beacon_qi sc;
     sc_imask := sc_imask sc; sc_bslot := sc_bslot sc;
     sc_nbcnvaps := sc_nbcnvaps sc; sc_bbuf := sc_bbuf sc;
     sc_vaps := sc_vaps sc; sc_cabq := sc_cabq sc; sc_descs := sc_descs sc;
     sc_bmisscount := sc_bmisscount sc; sc_updateslot := sc_updateslot sc;
     sc_slotupdate := sc_slotupdate sc; sc_defant := sc_defant sc;
     sc_ant_tx := sc_ant_tx sc; ast_be_xmit := ast_be_xmit sc;
     sc_trace := sc_trace sc ++ cs |}.

Section beacon.
Context {K : core_h}.

(** ** ath_beaconq_config *)

(** The return value and the new state; [qi] starts as the properties
    read back by [ath9k_hw_gettxqueueprops], of which only the three
    fields below are written and passed on. *)
Definition ath_beaconq_config (H : hal_readings) (sc : ath_softc)
  : Z * ath_softc :=
  let qi :=
    if decide (sc_opmode sc = HAL_M_HOSTAP) then
      {| tqi_aifs := 1; tqi_cwmin := 0; tqi_cwmax := 0 |}
    else
      {| tqi_aifs := tqi_aifs (sc_beacon_qi sc);
         tqi_cwmin := 2 * tqi_cwmin (sc_beacon_qi sc);
         tqi_cwmax := tqi_cwmax (sc_beacon_qi sc) |} in
  let sc := called [ath9k_hw_settxqueueprops_ (sc_bhalq sc) qi] sc in
  if ath9k_hw_settxqueueprops H then
    (1, called [ath9k_hw_resettxqueue_ (sc_bhalq sc)] sc)
  else (0, sc).

(** ** ath_beacon_setup *)

(** The antenna picked for a beacon that is not self-linked. *)
Definition beacon_antenna (sc : ath_softc) : option Z :=
  if sc_stagbeacons sc then
    q ← c_div (ast_be_xmit sc) (sc_nbcnvaps sc);
    Some (if decide (Z.land q 1 ≠ 0) then 2 else 1)
  else Some (if decide (Z.land (ast_be_xmit sc) 1 ≠ 0) then 2 else 1).

(** [ath_beacon_setup(sc, avp, bf)].  The rate code is looked up in tables
    that stay behind [ath9k_hw_set11n_ratescenario]. *)
Definition ath_beacon_setup (avp : ath_vap) (bf : ath_buf) (sc : ath_softc)
  : option ath_softc :=
  skb ← bf_mpdu bf;
  ds ← sc_descs sc !! bf_daddr bf;
  '(ds, flags, antenna) ←
    (if bool_decide (sc_opmode sc = HAL_M_IBSS) && sc_hasveol sc then
       Some (ds_with_link (bf_daddr bf) ds,          (* self-linked *)
             Z.lor HAL_TXDESC_NOACK HAL_TXDESC_VEOL, 0)
     else
       antenna ← beacon_antenna sc;
       Some (ds_with_link 0 ds, HAL_TXDESC_NOACK, antenna));
  let ds := ds_with_data (bf_buf_addr bf) ds in
  seglen ← roundup32 (skb_len skb) 4;
  Some (called [ath9k_hw_set11n_txdesc_ (bf_daddr bf) (skb_len skb + FCS_LEN)
                  (txpower avp) flags;
                ath9k_hw_filltxdesc_ (bf_daddr bf) seglen;
                ath9k_hw_set11n_ratescenario_ (bf_daddr bf);
                ath_desc_swap_ (bf_daddr bf)]
          (sc_with_descs (<[bf_daddr bf := ds]> (sc_descs sc)) sc)).

(** ** empty_mcastq_into_cabq and trigger_mcastq *)

(** The queues are passed by value and handed back: the vap's multicast
    queue, the CAB queue, the state. *)
Definition empty_mcastq_into_cabq (mcastq cabq : ath_txq) (sc : ath_softc)
  : option (ath_txq * ath_txq * ath_softc) :=
  match axq_q mcastq with
  | [] => None                                  (* BUG_ON(list_empty) *)
  | bfmcast :: _ =>
    (* link the descriptors *)
    sc ← match axq_link cabq with
         | None =>
           Some (called [ath9k_hw_puttxbuf_ (axq_qnum cabq) (bf_daddr bfmcast)] sc)
         | Some p =>
           ds ← sc_descs sc !! p;
           Some (sc_with_descs
                   (<[p := ds_with_link (bf_daddr bfmcast) ds]> (sc_descs sc)) sc)
         end;
    (* append the private vap mcast list to the cabq *)
    Some ({| axq_qnum := axq_qnum mcastq;
             axq_q := [];
             axq_depth := 0;
             axq_totalqueued := 0;
             axq_linkbuf := None;
             axq_link := None |},
          {| axq_qnum := axq_qnum cabq;
             axq_q := axq_q cabq ++ axq_q mcastq;    (* list_splice_tail_init *)
             axq_depth := axq_depth cabq + axq_depth mcastq;
             axq_totalqueued := axq_totalqueued cabq + axq_totalqueued mcastq;
             axq_linkbuf := axq_linkbuf mcastq;
             axq_link := axq_link mcastq |},
          sc)
  end.

Definition trigger_mcastq (mcastq cabq : ath_txq) (sc : ath_softc)
  : option (ath_txq * ath_txq * ath_softc) :=
  '(mcastq, cabq, sc) ←
    (if decide (axq_q mcastq ≠ []) then empty_mcastq_into_cabq mcastq cabq sc
     else Some (mcastq, cabq, sc));
  (* cabq is gated by beacon so it is safe to start here *)
  if decide (axq_q cabq ≠ []) then
    Some (mcastq, cabq, called [ath9k_hw_txstart_ (axq_qnum cabq)] sc)
  else Some (mcastq, cabq, sc).

(** Modelled from the spec: [ath_tx_draintxq] is part of the transmit path
    (xmit.c), which is not among the sources.  Of its effect the spec
    says that the queue's content "is forcibly drained (discarded)", and
    that depth and tail link stay consistent with the descriptor chain: the
    queue is left empty, with depth 0 and no tail link. *)
Definition ath_tx_draintxq (txq : ath_txq) : ath_txq :=
  {| axq_qnum := axq_qnum txq;
     axq_q := [];
     axq_depth := 0;
     axq_totalqueued := axq_totalqueued txq;
     axq_linkbuf := None;
     axq_link := None |}.

(** ** ath_beacon_generate *)

(** The returned buffer ([None] for [NULL]) and the new state. *)
Definition ath_beacon_generate (E : mac_env) (if_id : Z) (sc : ath_softc)
  : option (option ath_buf * ath_softc) :=
  avp ← sc_vaps sc !! if_id;                         (* ASSERT(avp) *)
  match av_bcbuf avp with
  | None => Some (None, sc)
  | Some bf =>
    skb ← bf_mpdu bf;                                (* skb->len *)
    let mcastq := av_mcastq avp in
    let cabq := sc_cabq sc in
    let mcastq_depth := s32 (axq_depth mcastq) in
    (* update dynamic beacon contents *)
    let sc := called [ath_update_beacon_ if_id mcastq_depth] sc in
    let '(changed, skb, tim) := ath_update_beacon E if_id skb mcastq_depth in
    let avp := avp_with_boff tim avp in
    let bf := bf_with_mpdu (Some skb) bf in
    let '(bf, sc) :=
      if decide (changed = 1) then
        (bf_with_buf_addr (ath_skb_map_single E skb) bf,
         called [ath_skb_unmap_single_ skb; ath_skb_map_single_ skb] sc)
      else (bf, called [pci_dma_sync_single_for_cpu_ (bf_buf_addr bf)] sc) in
    let cabq_depth := s32 (axq_depth cabq) in
    tim4 ← arr_get (bo_tim avp) 4;
    let is_beacon_dtim := Z.land tim4 1 in
    (* flush previous cabq traffic *)
    let '(cabq, sc) :=
      if decide (mcastq_depth ≠ 0 ∧ is_beacon_dtim ≠ 0 ∧ cabq_depth ≠ 0) then
        if bool_decide (sc_nvaps sc > 1) && sc_stagbeacons sc then
          (ath_tx_draintxq cabq, called [ath_tx_draintxq_ (axq_qnum cabq)] sc)
        else (cabq, sc)
      else (cabq, sc) in
    (* construct tx descriptor *)
    sc ← ath_beacon_setup avp bf sc;
    (* enable the CAB queue before the beacon queue *)
    '(mcastq, cabq, sc) ←
      (if decide (is_beacon_dtim ≠ 0) then trigger_mcastq mcastq cabq sc
       else Some (mcastq, cabq, sc));
    let avp := avp_with_mcastq mcastq (avp_with_bcbuf (Some bf) avp) in
    Some (Some bf,
          sc_with_cabq cabq (sc_with_vaps (<[if_id := avp]> (sc_vaps sc)) sc))
  end.

(** ** ath_beacon_start_adhoc *)

Definition ath_beacon_start_adhoc (if_id : Z) (sc : ath_softc)
  : option ath_softc :=
  avp ← sc_vaps sc !! if_id;                         (* ASSERT(avp) *)
  match av_bcbuf avp with
  | None => Some sc
  | Some bf =>
    sc ← ath_beacon_setup avp bf sc;
    (* NB: caller is known to have already stopped tx dma *)
    Some (called [ath9k_hw_puttxbuf_ (sc_bhalq sc) (bf_daddr bf);
                  ath9k_hw_txstart_ (sc_bhalq sc)] sc)
  end.

(** ** ath_beacon_alloc and ath_beacon_return *)

(** The slot search of [ath_beacon_alloc]:
    [for (slot = 0; slot < ATH_BCBUF; slot++)], with [n] iterations left,
    [bslot] the current [avp->av_bslot]. *)
Fixpoint bslot_scan (n : nat) (slot bslot : Z) (tbl : list Z) : option Z :=
  match n with
  | O => Some bslot
  | S n' =>
    owner ← arr_get tbl slot;
    if decide (owner = ATH_IF_ID_ANY) then
      if decide (slot + 1 < ATH_BCBUF) then
        next ← arr_get tbl (slot + 1);
        if decide (next = ATH_IF_ID_ANY) then Some (slot + 1)   (* break *)
        else bslot_scan n' (slot + 1) slot tbl
                                   (* NB: keep looking for a double slot *)
      else bslot_scan n' (slot + 1) slot tbl
    else bslot_scan n' (slot + 1) bslot tbl
  end.

(** [sc->sc_opmode == HAL_M_HOSTAP || !sc->sc_hasveol] *)
Definition needs_bslot (sc : ath_softc) : bool :=
  bool_decide (sc_opmode sc = HAL_M_HOSTAP) || negb (sc_hasveol sc).

(** Release the previous frame of a beacon buffer, if there is one. *)
Definition release_mpdu (bf : ath_buf) (sc : ath_softc) : ath_buf * ath_softc :=
  match bf_mpdu bf with
  | Some skb =>
    (bf_with_mpdu None bf,
     called [ath_skb_unmap_single_ skb; ath_tx_complete_ skb] sc)
  | None => (bf, sc)
  end.

(** The first block of [ath_beacon_alloc]: "Allocate a beacon descriptor if
    we haven't done so", with the slot assignment. *)
Definition beacon_state_alloc (if_id : Z) (avp : ath_vap) (sc : ath_softc)
  : option (ath_vap * ath_softc) :=
  match av_bcbuf avp with
  | Some _ => Some (avp, sc)
  | None =>
    match sc_bbuf sc with
    | [] => None                   (* list_first_entry of an empty list *)
    | bf :: bbuf =>
      let avp := avp_with_bcbuf (Some bf) avp in
      let sc := sc_with_bbuf bbuf sc in              (* list_del *)
      if needs_bslot sc then
        bslot ← bslot_scan (Z.to_nat ATH_BCBUF) 0 0 (sc_bslot sc);
        let avp := avp_with_bslot bslot avp in
        owner ← arr_get (sc_bslot sc) bslot;
        if decide (owner = ATH_IF_ID_ANY) then       (* KASSERT *)
          tbl ← arr_set (sc_bslot sc) bslot if_id;
          Some (avp,
                sc_with_nbcnvaps (sc_nbcnvaps sc + 1) (sc_with_bslot tbl sc))
        else None
      else Some (avp, sc)
    end
  end.

(** The TSF adjustment of a staggered beacon in slot [bslot], in TU. *)
Definition tsfadjust_tu (bslot : Z) : option Z :=
  let intval := s32 ATH_DEFAULT_BINTVAL in
  q ← c_div (s32 (intval * s32 (ATH_BCBUF - bslot))) ATH_BCBUF;
  Some (u64 q).

(** The frame of a new beacon: for a staggered beacon in a slot other
    than 0 the TSF adjustment, [tsfadjust<<10] as a little-endian
    [u_int64_t], is copied right behind the header ([&wh[1]]). *)
Definition beacon_frame (stag : bool) (bslot : Z) (skb : sk_buff)
  : option sk_buff :=
  if stag && bool_decide (bslot > 0) then
    tsfadjust ← tsfadjust_tu bslot;
    data ← memcpy_at (skb_data skb) sizeof_ieee80211_hdr
             (le_bytes 8 (u64 (Z.shiftl tsfadjust 10)));
    Some {| skb_data := data |}
  else Some skb.

(** [ath_beacon_alloc(sc, if_id)]: the return value and the new state. *)
Definition ath_beacon_alloc (E : mac_env) (if_id : Z) (sc : ath_softc)
  : option (Z * ath_softc) :=
  avp ← sc_vaps sc !! if_id;                         (* ASSERT(avp) *)
  '(avp, sc) ← beacon_state_alloc if_id avp sc;
  bf ← av_bcbuf avp;
  (* release the previous beacon frame, if it already exists *)
  let '(bf, sc) := release_mpdu bf sc in
  let sc := called [ath_get_beacon_ if_id] sc in
  match ath_get_beacon E if_id with
  | None =>
    Some (- ENOMEM,
          sc_with_vaps (<[if_id := avp_with_bcbuf (Some bf) avp]> (sc_vaps sc)) sc)
  | Some (skb, tim, pwr) =>
    let avp := avp_with_btxctl pwr (avp_with_boff tim avp) in
    skb ← beacon_frame (sc_stagbeacons sc) (av_bslot avp) skb;
    let bf := bf_with_mpdu (Some skb)
                (bf_with_buf_addr (ath_skb_map_single E skb) bf) in
    Some (0,
          sc_with_vaps (<[if_id := avp_with_bcbuf (Some bf) avp]> (sc_vaps sc))
            (called [ath_skb_map_single_ skb] sc))
  end.

(** [ath_beacon_return(sc, avp)] for [avp = sc->sc_vaps[if_id]]. *)
Definition ath_beacon_return (if_id : Z) (sc : ath_softc) : option ath_softc :=
  avp ← sc_vaps sc !! if_id;
  match av_bcbuf avp with
  | None => Some sc
  | Some bf =>
    sc ← (if decide (av_bslot avp ≠ -1) then
            tbl ← arr_set (sc_bslot sc) (av_bslot avp) ATH_IF_ID_ANY;
            Some (sc_with_nbcnvaps (sc_nbcnvaps sc - 1) (sc_with_bslot tbl sc))
          else Some sc);
    let '(bf, sc) := release_mpdu bf sc in
    let sc := sc_with_bbuf (sc_bbuf sc ++ [bf]) sc in      (* list_add_tail *)
    Some (sc_with_vaps (<[if_id := avp_with_bcbuf None avp]> (sc_vaps sc)) sc)
  end.

(** ** ath_beacon_free *)

(** [list_for_each_entry(bf, &sc->sc_bbuf, list)]: the frame still attached
    to a buffer of the pool is released; the buffers stay where they are. *)
Fixpoint beacon_free_loop (bbuf : list ath_buf) (sc : ath_softc)
  : list ath_buf * ath_softc :=
  match bbuf with
  | [] => ([], sc)
  | bf :: bbuf =>
    let '(bf, sc) := release_mpdu bf sc in
    let '(bbuf, sc) := beacon_free_loop bbuf sc in
    (bf :: bbuf, sc)
  end.

Definition ath_beacon_free (sc : ath_softc) : ath_softc :=
  let '(bbuf, sc) := beacon_free_loop (sc_bbuf sc) sc in
  sc_with_bbuf bbuf sc.

(** ** ath_bstuck_process *)

Definition ath_bstuck_process (sc : ath_softc) : ath_softc :=
  called [ath_internal_reset_] sc.

(** ** ath9k_beacon_tasklet *)

(** The miss accounting at the head of the tasklet, entered when the beacon
    queue still has frames pending; the tasklet returns after it. *)
Definition beacon_missed (sc : ath_softc) : ath_softc :=
  let sc := sc_with_bmisscount (sc_bmisscount sc + 1) sc in
  if decide (sc_bmisscount sc < BSTUCK_THRESH) then sc
  else if decide (sc_bmisscount sc >= BSTUCK_THRESH) then
    if sc_noreset sc then
      if decide (sc_bmisscount sc = BSTUCK_THRESH) then
        called [ath9k_hw_dmaRegDump_] sc
      else sc
    else ath_bstuck_process sc
  else sc.

(** The slot of a staggered beacon at clock [tsf]. *)
Definition stagger_slot (tsf : Z) : option Z :=
  let intval := u16 ATH_DEFAULT_BINTVAL in
  let tsftu := tsf_tu tsf in
  r ← c_mod tsftu intval;
  q ← c_div (u32 (r * u32 ATH_BCBUF)) intval;
  Some (s32 q).

(** Staggered beacons: [slot], [bfaddr], [bc] and the state. *)
Definition staggered_beacons (E : mac_env) (H : hal_readings) (sc : ath_softc)
  : option (Z * Z * Z * ath_softc) :=
  slot ← stagger_slot (ath9k_hw_gettsf64 H);
  idx ← c_mod (s32 (slot + 1)) ATH_BCBUF;
  if_id ← arr_get (sc_bslot sc) idx;
  if decide (if_id ≠ ATH_IF_ID_ANY) then
    '(bf, sc) ← ath_beacon_generate E if_id sc;
    match bf with
    | Some bf => Some (slot, u32 (bf_daddr bf), 1, sc)
    | None => Some (slot, 0, 0, sc)
    end
  else Some (slot, 0, 0, sc).

(** [*bflink = v], where [bflink] is [&bfaddr] ([None]) or the address of
    the [ds_link] word of the descriptor at [p] ([Some p]). *)
Definition store_bflink (bflink : option Z) (v : Z) (bfaddr : Z)
  (sc : ath_softc) : option (Z * ath_softc) :=
  match bflink with
  | None => Some (u32 v, sc)
  | Some p =>
    ds ← sc_descs sc !! p;
    Some (bfaddr, sc_with_descs (<[p := ds_with_link (u32 v) ds]> (sc_descs sc)) sc)
  end.

(** Burst beacons: the loop over the slots, [n] iterations left. *)
Fixpoint burst_loop (E : mac_env) (n : nat) (slot : Z) (bflink : option Z)
  (bfaddr bc : Z) (sc : ath_softc) : option (option Z * Z * Z * ath_softc) :=
  match n with
  | O => Some (bflink, bfaddr, bc, sc)
  | S n' =>
    if_id ← arr_get (sc_bslot sc) slot;
    if decide (if_id ≠ ATH_IF_ID_ANY) then
      '(bf, sc) ← ath_beacon_generate E if_id sc;
      match bf with
      | Some bf =>
        '(bfaddr, sc) ← store_bflink bflink (bf_daddr bf) bfaddr sc;
        burst_loop E n' (slot + 1) (Some (bf_daddr bf)) bfaddr (u32 (bc + 1)) sc
      | None => burst_loop E n' (slot + 1) bflink bfaddr bc sc
      end
    else burst_loop E n' (slot + 1) bflink bfaddr bc sc
  end.

(** Burst beacons: [slot], [bfaddr], [bc] and the state.  [bfaddr] is
    written through [bflink] before it is read, so its initial value (0
    here) does not show. *)
Definition burst_beacons (E : mac_env) (sc : ath_softc)
  : option (Z * Z * Z * ath_softc) :=
  '(bflink, bfaddr, bc, sc) ←
    burst_loop E (Z.to_nat ATH_BCBUF) 0 None 0 0 sc;
  '(bfaddr, sc) ← store_bflink bflink 0 bfaddr sc;       (* link of last frame *)
  Some (Z.max 0 ATH_BCBUF, bfaddr, bc, sc).

(** The slot time change state machine. *)
Definition slot_time_update (slot : Z) (sc : ath_softc) : ath_softc :=
  if decide (sc_updateslot sc = UPDATE) then
    sc_with_slotupdate slot (sc_with_updateslot COMMIT sc)
  else if decide (sc_updateslot sc = COMMIT ∧ sc_slotupdate sc = slot) then
    called [ath_setslottime_] sc
  else sc.

(** The default antenna check. *)
Definition antenna_check (slot : Z) (sc : ath_softc) : option ath_softc :=
  if (negb (sc_stagbeacons sc) || bool_decide (slot = 0))
     && negb (sc_diversity sc) then
    let otherant := if decide (Z.land (sc_defant sc) 1 ≠ 0) then 2 else 1 in
    other ← arr_get (sc_ant_tx sc) otherant;
    def ← arr_get (sc_ant_tx sc) (sc_defant sc);
    let sc :=
      if decide (other > def + ATH_ANTENNA_DIFF) then
        called [ath_setdefantenna_ otherant] sc
      else sc in
    a ← arr_set (sc_ant_tx sc) 2 0;
    a ← arr_set a 1 0;
    Some (sc_with_ant_tx a sc)
  else Some sc.

(** Hand the frames to the hardware. *)
Definition beacon_submit (bfaddr bc : Z) (sc : ath_softc) : ath_softc :=
  if decide (bfaddr ≠ 0) then
    sc_with_be_xmit (ast_be_xmit sc + bc)
      (called [ath9k_hw_stoptxdma_ (sc_bhalq sc);
               ath9k_hw_puttxbuf_ (sc_bhalq sc) bfaddr;
               ath9k_hw_txstart_ (sc_bhalq sc)] sc)
  else sc.

Definition ath9k_beacon_tasklet (E : mac_env) (H : hal_readings)
  (sc : ath_softc) : option ath_softc :=
  if decide (ath9k_hw_numtxpending H (sc_bhalq sc) ≠ 0) then
    Some (beacon_missed sc)
  else
    let sc := if decide (sc_bmisscount sc ≠ 0) then sc_with_bmisscount 0 sc
              else sc in
    '(slot, bfaddr, bc, sc) ←
      (if sc_stagbeacons sc then staggered_beacons E H sc
       else burst_beacons E sc);
    let sc := slot_time_update slot sc in
    sc ← antenna_check slot sc;
    Some (beacon_submit bfaddr bc sc).

(** ** ath_beacon_config *)

(** What [ath_beacon_config] sets in [conf]; [last_tstamp] is left as
    [memzero] made it. *)
Record ath_beacon_config_t := {
  beacon_interval : Z;
  listen_interval : Z;
  dtim_period : Z;
  dtim_count : Z;
  bmiss_timeout : Z;
  last_tstamp : list Z
}.

Definition default_conf : ath_beacon_config_t :=
  {| beacon_interval := ATH_DEFAULT_BINTVAL;
     listen_interval := 1;
     dtim_period := ATH_DEFAULT_BINTVAL;
     dtim_count := 1;
     bmiss_timeout := ATH_DEFAULT_BMISS_LIMIT * ATH_DEFAULT_BINTVAL;
     last_tstamp := replicate 8 0 |}.

(** [FUDGE] *)
Definition FUDGE : Z := 2.

(** The variables of the loop that pulls [nexttbtt] forward. *)
Record tbtt_state := {
  st_nexttbtt : Z;
  st_dtimcount : Z;
  st_cfpcount : Z
}.

(** The body of the [do ... while] loop of the station branch. *)
Definition tbtt_step (intval dtimperiod cfpperiod : Z) (s : tbtt_state)
  : tbtt_state :=
  let nexttbtt := u32 (st_nexttbtt s + intval) in
  let dtimcount := s32 (st_dtimcount s - 1) in
  if decide (dtimcount < 0) then
    let dtimcount := s32 (dtimperiod - 1) in
    let cfpcount := s32 (st_cfpcount s - 1) in
    if decide (cfpcount < 0) then
      {| st_nexttbtt := nexttbtt; st_dtimcount := dtimcount;
         st_cfpcount := s32 (cfpperiod - 1) |}
    else {| st_nexttbtt := nexttbtt; st_dtimcount := dtimcount;
            st_cfpcount := cfpcount |}
  else {| st_nexttbtt := nexttbtt; st_dtimcount := dtimcount;
          st_cfpcount := st_cfpcount s |}.

(** [do { body } while (nexttbtt < tsftu)]; no result when the loop is
    still running after [fuel] rounds. *)
Fixpoint tbtt_loop (fuel : nat) (intval dtimperiod cfpperiod tsftu : Z)
  (s : tbtt_state) : option tbtt_state :=
  match fuel with
  | O => None
  | S fuel' =>
    let s := tbtt_step intval dtimperiod cfpperiod s in
    if decide (st_nexttbtt s < tsftu) then
      tbtt_loop fuel' intval dtimperiod cfpperiod tsftu s
    else Some s
  end.

(** The loop of the ad-hoc branch: [do nexttbtt += intval; while
    (nexttbtt < tsftu)]. *)
Fixpoint ibss_tbtt_loop (fuel : nat) (intval tsftu nexttbtt : Z) : option Z :=
  match fuel with
  | O => None
  | S fuel' =>
    let nexttbtt := u32 (nexttbtt + intval) in
    if decide (nexttbtt < tsftu) then ibss_tbtt_loop fuel' intval tsftu nexttbtt
    else Some nexttbtt
  end.

(** [intval] and [nexttbtt] as they stand before the branch on the
    operating mode. *)
Definition beacon_config_base (conf : ath_beacon_config_t)
  (av_opmode : hal_opmode) (sc : ath_softc) : option (Z * Z) :=
  let nexttbtt := TSF_TO_TU (le_value (take 4 (drop 4 (last_tstamp conf))))
                            (le_value (take 4 (last_tstamp conf))) in
  '(intval, nexttbtt) ←
    (if decide (sc_opmode sc = HAL_M_HOSTAP) then
       let intval := u32 (Z.land (beacon_interval conf) HAL_BEACON_PERIOD) in
       intval ← (if sc_stagbeacons sc then c_div intval (u32 ATH_BCBUF)
                 else Some intval);
       if sc_nostabeacons sc && bool_decide (av_opmode = HAL_M_HOSTAP) then
         Some (intval, 0)
       else Some (intval, nexttbtt)
     else Some (u32 (Z.land (beacon_interval conf) HAL_BEACON_PERIOD), nexttbtt));
  if decide (nexttbtt = 0) then Some (intval, intval)
  else if decide (intval ≠ 0) then
    nexttbtt ← roundup32 nexttbtt intval; Some (intval, nexttbtt)
  else Some (intval, nexttbtt).

(** The miss threshold of the station branch. *)
Definition sta_bmissthreshold (conf : ath_beacon_config_t)
  (intval sleepduration : Z) : option Z :=
  if decide (u32 sleepduration > intval) then
    c_div (listen_interval conf * ATH_DEFAULT_BMISS_LIMIT) 2
  else
    t ← howmany32 (bmiss_timeout conf) intval;
    if decide (t > 15) then Some 15
    else if decide (t <= 0) then Some 1
    else Some t.

(** The dtim parameters of the station branch, according to the last
    beacon received (which may be none). *)
Definition sta_dtimperiod (conf : ath_beacon_config_t) : Z :=
  if decide (dtim_period conf <= 0) then 1 else dtim_period conf.
Definition sta_dtimcount (conf : ath_beacon_config_t) : Z :=
  if decide (dtim_count conf >= sta_dtimperiod conf) then 0
  else dtim_count conf.

(** [sleepduration] of the station branch. *)
Definition sta_sleepduration (conf : ath_beacon_config_t) (intval : Z) : Z :=
  let sleepduration := s32 (u32 (listen_interval conf * intval)) in
  if decide (sleepduration <= 0) then s32 intval else sleepduration.

(** The station branch, from the dtim and cfp parameters to the beacon
    state handed to [ath9k_hw_set_sta_beacon_timers]. *)
Definition sta_beacon_state (fuel : nat) (conf : ath_beacon_config_t)
  (tsf intval nexttbtt : Z) : option hal_beacon_state :=
  let dtimperiod := sta_dtimperiod conf in
  let dtimcount := sta_dtimcount conf in
  let cfpperiod := 1 in                             (* NB: no PCF support yet *)
  let cfpcount := 0 in
  let sleepduration := sta_sleepduration conf intval in
  let tsftu := u32 (tsf_tu tsf + FUDGE) in
  s ← tbtt_loop fuel intval dtimperiod cfpperiod tsftu
        {| st_nexttbtt := nexttbtt; st_dtimcount := dtimcount;
           st_cfpcount := cfpcount |};
  let bs_dtimperiod := u32 (dtimperiod * intval) in
  let bs_nextdtim := u32 (st_nexttbtt s + st_dtimcount s * intval) in
  bmiss ← sta_bmissthreshold conf intval sleepduration;
  sleep ← roundup_int (IEEE80211_MS_TO_TU 100) sleepduration;
  Some {| bs_intval := intval;
          bs_nexttbtt := st_nexttbtt s;
          bs_dtimperiod := bs_dtimperiod;
          bs_nextdtim := bs_nextdtim;
          bs_cfpperiod := u32 (cfpperiod * bs_dtimperiod);
          bs_cfpnext := u32 (bs_nextdtim + st_cfpcount s * bs_dtimperiod);
          bs_cfpmaxduration := 0;
          bs_bmissthreshold := bmiss;
          bs_sleepduration := if decide (sleep > bs_dtimperiod) then bs_dtimperiod
                              else sleep |}.

(** The branch taken by [ath_beacon_config]. *)
Definition sta_timers (av_opmode : hal_opmode) (sc : ath_softc) : bool :=
  bool_decide (sc_opmode sc = HAL_M_STA)
  || (bool_decide (sc_opmode sc = HAL_M_HOSTAP)
      && bool_decide (av_opmode = HAL_M_STA) && sc_nostabeacons sc).

(** What [ath_beacon_config] programs: the station timers (computed also
    when [sc_nostabeacons] keeps them from the hardware) or the beacon
    timer of an AP or an ad-hoc station. *)
Inductive beacon_timers :=
  | sta_beacon_timers (bs : hal_beacon_state)
  | ap_beacon_timers (nexttbtt intval : Z).

(** The operating mode [ath_beacon_config] goes by. *)
Definition beacon_config_opmode (if_id : Z) (sc : ath_softc)
  : option hal_opmode :=
  if decide (if_id ≠ ATH_IF_ID_ANY) then
    avp ← sc_vaps sc !! if_id; Some (av_opmode avp)
  else Some (sc_opmode sc).

Definition ath_beacon_config (fuel : nat) (H : hal_readings) (if_id : Z)
  (sc : ath_softc) : option (beacon_timers * ath_softc) :=
  av_opmode ← beacon_config_opmode if_id sc;
  let conf := default_conf in
  '(intval, nexttbtt) ← beacon_config_base conf av_opmode sc;
  if sta_timers av_opmode sc then
    bs ← sta_beacon_state fuel conf (ath9k_hw_gettsf64 H) intval nexttbtt;
    if sc_nostabeacons sc then Some (sta_beacon_timers bs, sc)
    else
      let imask := Z.lor (sc_imask sc) HAL_INT_BMISS in
      Some (sta_beacon_timers bs,
            called [ath9k_hw_set_interrupts_ 0;
                    ath9k_hw_set_sta_beacon_timers_ bs;
                    ath9k_hw_set_interrupts_ imask]
              (sc_with_imask imask sc))
  else
    let sc := called [ath9k_hw_set_interrupts_ 0] sc in
    let intval := if decide (nexttbtt = intval)
                  then u32 (Z.lor intval HAL_BEACON_RESET_TSF) else intval in
    '(nexttbtt, intval, sc) ←
      (if decide (sc_opmode sc = HAL_M_IBSS) then
         nexttbtt ←
           (if decide (Z.land intval HAL_BEACON_RESET_TSF = 0) then
              ibss_tbtt_loop fuel intval
                (u32 (tsf_tu (ath9k_hw_gettsf64 H) + FUDGE)) nexttbtt
            else Some nexttbtt);
         let intval := u32 (Z.lor intval HAL_BEACON_ENA) in
         let sc := if sc_hasveol sc then sc
                   else sc_with_imask (Z.lor (sc_imask sc) HAL_INT_SWBA) sc in
         Some (nexttbtt, intval, (ath_beaconq_config H sc).2)
       else if decide (sc_opmode sc = HAL_M_HOSTAP) then
         let intval := u32 (Z.lor intval HAL_BEACON_ENA) in
         let sc := sc_with_imask (Z.lor (sc_imask sc) HAL_INT_SWBA) sc in
         Some (nexttbtt, intval, (ath_beaconq_config H sc).2)
       else Some (nexttbtt, intval, sc));
    let sc := called [ath9k_hw_beaconinit_ nexttbtt intval] sc in
    let sc := sc_with_bmisscount 0 sc in
    let sc := called [ath9k_hw_set_interrupts_ (sc_imask sc)] sc in
    sc ← (if bool_decide (sc_opmode sc = HAL_M_IBSS) && sc_hasveol sc then
            ath_beacon_start_adhoc 0 sc
          else Some sc);
    Some (ap_beacon_timers nexttbtt intval, sc).

End beacon.

(** ** The constants of the scenarios

    Four beacon slots, an interval of 100 TU. *)
Definition scenario : core_h := {|
  ATH_BCBUF := 4;
  ATH_IF_ID_ANY := 255;
  ATH_DEFAULT_BINTVAL := 100;
  ATH_DEFAULT_BMISS_LIMIT := 10;
  BSTUCK_THRESH := 9;
  ATH_ANTENNA_DIFF := 2;
  HAL_BEACON_PERIOD := 65535;
  HAL_BEACON_ENA := 8388608;
  HAL_BEACON_RESET_TSF := 16777216;
  HAL_INT_BMISS := 262144;
  HAL_INT_SWBA := 65536;
  HAL_TXDESC_NOACK := 2;
  HAL_TXDESC_VEOL := 32;
  FCS_LEN := 4;
  ENOMEM := 12;
  IEEE80211_MS_TO_TU := fun x => x * 1000 / 1024;
  sizeof_ieee80211_hdr := 24
|}.

(** ** Vocabulary of the properties *)

Section vocabulary.
Context {K : core_h}.

(** *** Slot table *)

Definition slot_empty (tbl : list Z) (i : Z) : Prop :=
  arr_get tbl i = Some ATH_IF_ID_ANY.

(** Slots [i] and [i+1] are both empty. *)
Definition double_slot (tbl : list Z) (i : Z) : Prop :=
  slot_empty tbl i ∧ i + 1 < ATH_BCBUF ∧ slot_empty tbl (i + 1).

Definition first_empty_slot (tbl : list Z) (f : Z) : Prop :=
  slot_empty tbl f ∧ f < ATH_BCBUF ∧ ∀ j, j < f → ¬ slot_empty tbl j.

Definition last_empty_slot (tbl : list Z) (e : Z) : Prop :=
  slot_empty tbl e ∧ e < ATH_BCBUF ∧
  ∀ j, e < j < ATH_BCBUF → ¬ slot_empty tbl j.

Definition first_double_slot (tbl : list Z) (i : Z) : Prop :=
  double_slot tbl i ∧ ∀ j, j < i → ¬ double_slot tbl j.

(** The choice described as "first empty slot, or the one after it when
    that is empty too". *)
Definition first_fit_slot (tbl : list Z) (r : Z) : Prop :=
  ∃ f, first_empty_slot tbl f ∧
       ((double_slot tbl f ∧ r = f + 1) ∨ (¬ double_slot tbl f ∧ r = f)).

(** The choice the search makes: the second slot of the first pair of
    adjacent empty slots; without such a pair, the last empty slot. *)
Definition spaced_slot (tbl : list Z) (r : Z) : Prop :=
  (∃ i, first_double_slot tbl i ∧ r = i + 1)
  ∨ ((∀ j, ¬ double_slot tbl j) ∧ last_empty_slot tbl r).

(** Number of occupied slots. *)
Definition occupied (tbl : list Z) : Z :=
  Z.of_nat (length (filter (λ id, id ≠ ATH_IF_ID_ANY) tbl)).

(** The slot table invariant. *)
Record bslot_inv (sc : ath_softc) : Prop := {
  (* the table has ATH_BCBUF slots *)
  inv_size : Z.of_nat (length (sc_bslot sc)) = ATH_BCBUF;
  (* the sentinel names no interface *)
  inv_if_id : ∀ id avp, sc_vaps sc !! id = Some avp → id ≠ ATH_IF_ID_ANY;
  (* an occupied slot belongs to an interface with beacon state, and that
     interface knows the slot as its own *)
  inv_owner : ∀ s id,
    arr_get (sc_bslot sc) s = Some id → id ≠ ATH_IF_ID_ANY →
    ∃ avp, sc_vaps sc !! id = Some avp ∧ is_Some (av_bcbuf avp)
           ∧ av_bslot avp = s;
  (* under slot management an interface with beacon state has its slot *)
  inv_slot : needs_bslot sc = true → ∀ id avp,
    sc_vaps sc !! id = Some avp → is_Some (av_bcbuf avp) →
    arr_get (sc_bslot sc) (av_bslot avp) = Some id;
  (* without slot management no interface has a slot *)
  inv_noslot : needs_bslot sc = false → ∀ id avp,
    sc_vaps sc !! id = Some avp → av_bslot avp = -1;
  (* the count of beaconing interfaces is the number of occupied slots *)
  inv_count : sc_nbcnvaps sc = occupied (sc_bslot sc)
}.

(** A sequence of allocations and releases. *)
Inductive beacon_op :=
  | op_alloc (E : mac_env) (if_id : Z)
  | op_return (if_id : Z).

Definition run_op (o : beacon_op) (sc : ath_softc) : option ath_softc :=
  match o with
  | op_alloc E if_id => snd <$> ath_beacon_alloc E if_id sc
  | op_return if_id => ath_beacon_return if_id sc
  end.

Fixpoint run_ops (os : list beacon_op) (sc : ath_softc) : option ath_softc :=
  match os with
  | [] => Some sc
  | o :: os => sc ← run_op o sc; run_ops os sc
  end.

(** *** Transmit queues *)

(** Bookkeeping consistent with the chain: the depth counts the buffers,
    and the link pointer is at the last buffer's descriptor, or [NULL] for
    an empty queue. *)
Definition txq_consistent (q : ath_txq) : Prop :=
  axq_depth q = Z.of_nat (length (axq_q q))
  ∧ axq_link q = bf_daddr <$> last (axq_q q).

(** *** Traces *)

(** The interfaces for which a beacon was generated: whose frame was
    refreshed by [ath_update_beacon]. *)
Definition generated_for (tr : list call) : list Z :=
  omap (λ c, match c with ath_update_beacon_ id _ => Some id | _ => None end) tr.

(** The queues drained through [ath_tx_draintxq]. *)
Definition drained (tr : list call) : list Z :=
  omap (λ c, match c with ath_tx_draintxq_ q => Some q | _ => None end) tr.

(** Calls that hand frames to a hardware queue. *)
Definition is_submit (c : call) : bool :=
  match c with
  | ath9k_hw_puttxbuf_ _ _ | ath9k_hw_txstart_ _ => true
  | _ => false
  end.

Definition submitted (tr : list call) : list call := List.filter is_submit tr.

Definition is_reset (c : call) : bool :=
  match c with ath_internal_reset_ => true | _ => false end.

(** Number of times the reset path was taken. *)
Definition resets (tr : list call) : nat := length (List.filter is_reset tr).

(** From [sc] to [sc'] the calls [tr] were made and the miss counter was
    left alone. *)
Definition steps (sc sc' : ath_softc) (tr : list call) : Prop :=
  sc_trace sc' = sc_trace sc ++ tr
  ∧ sc_bmisscount sc' = sc_bmisscount sc.

(** Calls that neither reset the device nor refresh a beacon. *)
Definition quiet (tr : list call) : Prop :=
  resets tr = 0%nat ∧ generated_for tr = [].

(** The beacon queue has not drained. *)
Definition pending (H : hal_readings) (sc : ath_softc) : Prop :=
  ath9k_hw_numtxpending H (sc_bhalq sc) ≠ 0.

(** Consecutive runs of the tasklet, one per set of readings. *)
Fixpoint tasklet_run (E : mac_env) (Hs : list hal_readings) (sc : ath_softc)
  : option ath_softc :=
  match Hs with
  | [] => Some sc
  | H :: Hs => sc ← ath9k_beacon_tasklet E H sc; tasklet_run E Hs sc
  end.

End vocabulary.

(** ** Sample states

    An access point with four beacon buffers and two interfaces, used to
    run the definitions on concrete inputs. *)

Definition sample_txq (qnum : Z) (q : list ath_buf) : ath_txq :=
  {| axq_qnum := qnum; axq_q := q; axq_depth := Z.of_nat (length q);
     axq_totalqueued := Z.of_nat (length q);
     axq_linkbuf := bf_daddr <$> last q; axq_link := bf_daddr <$> last q |}.

Definition sample_buf (daddr : Z) : ath_buf :=
  {| bf_daddr := daddr; bf_buf_addr := 0; bf_mpdu := None |}.

Definition sample_frame : sk_buff := {| skb_data := replicate 40 0 |}.

Definition sample_vap : ath_vap :=
  {| av_opmode := HAL_M_HOSTAP; av_bslot := -1; av_bcbuf := None;
     av_mcastq := sample_txq 8 []; bo_tim := [5; 4; 0; 1; 0; 0];
     txpower := 30 |}.

Definition sample_descs : gmap Z ath_desc :=
  list_to_map ((λ a, (a, {| ds_link := 0; ds_data := 0 |}))
                 <$> [4096; 4160; 4224; 4288; 8192; 8256; 8320]).

Definition sample_softc (opmode : hal_opmode) (stag noreset : bool)
  : ath_softc :=
  {| sc_opmode := opmode; sc_hasveol := false;
     sc_stagbeacons := stag; sc_nostabeacons := false; sc_noreset := noreset;
     sc_diversity := true; sc_nvaps := 2; sc_bhalq := 9;
     sc_beacon_qi := {| tqi_aifs := 1; tqi_cwmin := 0; tqi_cwmax := 0 |};
     sc_imask := 0;
     sc_bslot := [255; 255; 255; 255]; sc_nbcnvaps := 0;
     sc_bbuf := sample_buf <$> [4096; 4160; 4224; 4288];
     sc_vaps := {[ 0 := sample_vap; 1 := sample_vap ]};
     sc_cabq := sample_txq 7 [];
     sc_descs := sample_descs;
     sc_bmisscount := 0; sc_updateslot := OK; sc_slotupdate := 0;
     sc_defant := 1; sc_ant_tx := [0; 0; 0];
     ast_be_xmit := 0; sc_trace := [] |}.

(** A staggering access point that resets when beacons are stuck. *)
Definition sample_sc : ath_softc := sample_softc HAL_M_HOSTAP true false.

(** The glue hands out a frame of 40 bytes; [dtim] is the bitmap control
    byte of the TIM element after a refresh. *)
Definition sample_env (dtim : Z) : mac_env :=
  {| ath_get_beacon := λ _, Some (sample_frame, [5; 4; 0; 1; 0; 0], 30);
     ath_update_beacon := λ _ skb _, (0, skb, [5; 4; 0; 1; dtim; 0]);
     ath_skb_map_single := λ _, 12288 |}.

(** Readings with [n] frames pending on every queue at clock [tsf]. *)
Definition sample_readings (n tsf : Z) : hal_readings :=
  {| ath9k_hw_numtxpending := λ _, n;
     ath9k_hw_gettsf64 := tsf;
     ath9k_hw_settxqueueprops := true |}.

(** The sample access point after interface 0 was given its beacon state:
    it sits in slot 1. *)
Definition sample_sc_one : ath_softc :=
  sc_with_vaps
    (<[0 := avp_with_bslot 1
              (avp_with_bcbuf
                 (Some {| bf_daddr := 4096; bf_buf_addr := 12288;
                          bf_mpdu := Some sample_frame |})
                 sample_vap)]> (sc_vaps sample_sc))
    (sc_with_nbcnvaps 1
       (sc_with_bslot [255; 0; 255; 255]
          (sc_with_bbuf (sample_buf <$> [4160; 4224; 4288]) sample_sc))).

(** The same, with two multicast frames queued on interface 0 and a stale
    frame left on the CAB queue. *)
Definition sample_sc_dtim : ath_softc :=
  sc_with_cabq (sample_txq 7 [sample_buf 8320])
    (sc_with_vaps
       (<[0 := avp_with_mcastq
                 (sample_txq 8 [sample_buf 8192; sample_buf 8256])
                 (avp_with_bslot 1
                    (avp_with_bcbuf
                       (Some {| bf_daddr := 4096; bf_buf_addr := 12288;
                                bf_mpdu := Some sample_frame |})
                       sample_vap))]> (sc_vaps sample_sc))
       sample_sc_one).

(** A station, and a clock of 1000 TU. *)
Definition sample_sta : ath_softc := sample_softc HAL_M_STA false false.
Definition sample_clock : hal_readings := sample_readings 0 (1024 * 1000).

(** ** Vocabulary of the further properties *)

Section more_vocabulary.
Context {K : core_h}.

(** *** Beacon buffers *)

(** The bus addresses of the beacon buffers held by interfaces, and of
    all beacon buffers: those of the pool followed by those held. *)
Definition held_bufs (sc : ath_softc) : list Z :=
  omap (λ kv : Z * ath_vap, bf_daddr <$> av_bcbuf kv.2)
       (map_to_list (sc_vaps sc)).

Definition beacon_bufs (sc : ath_softc) : list Z :=
  (bf_daddr <$> sc_bbuf sc) ++ held_bufs sc.

(** No buffer of the pool has a frame attached. *)
Definition pool_clean (sc : ath_softc) : Prop :=
  Forall (λ bf, bf_mpdu bf = None) (sc_bbuf sc).

(** The calls that release the frame of a buffer: one unmap and one
    completion; none for a buffer without a frame. *)
Definition release_calls (bf : ath_buf) : list call :=
  match bf_mpdu bf with
  | Some skb => [ath_skb_unmap_single_ skb; ath_tx_complete_ skb]
  | None => []
  end.

(** The frames handed to [ath_tx_complete]. *)
Definition completed (tr : list call) : list sk_buff :=
  omap (λ c, match c with ath_tx_complete_ skb => Some skb | _ => None end) tr.

(** *** Calls *)

(** The calls [ath_beacon_generate] can make: the refresh of the frame and
    of its mapping, the drain of the CAB queue, the set-up of the
    descriptor and the start of the CAB queue. *)
Definition is_generate_call (c : call) : bool :=
  match c with
  | ath_update_beacon_ _ _ | ath_skb_unmap_single_ _ | ath_skb_map_single_ _
  | pci_dma_sync_single_for_cpu_ _ | ath_tx_draintxq_ _
  | ath9k_hw_set11n_txdesc_ _ _ _ _ | ath9k_hw_filltxdesc_ _ _
  | ath9k_hw_set11n_ratescenario_ _ | ath_desc_swap_ _
  | ath9k_hw_puttxbuf_ _ _ | ath9k_hw_txstart_ _ => true
  | _ => false
  end.

(** Number of times the slot time was committed to the hardware. *)
Definition is_setslottime (c : call) : bool :=
  match c with ath_setslottime_ => true | _ => false end.

Definition slottime_commits (tr : list call) : nat :=
  length (List.filter is_setslottime tr).

(** Number of times the DMA registers were dumped. *)
Definition is_regdump (c : call) : bool :=
  match c with ath9k_hw_dmaRegDump_ => true | _ => false end.

Definition reg_dumps (tr : list call) : nat :=
  length (List.filter is_regdump tr).

(** *** What the tasklet leaves alone *)

(** The mode, the capabilities, the interrupt mask, the slot table, the
    count of beaconing interfaces and the pool. *)
Definition slot_state (sc : ath_softc) :=
  (sc_opmode sc, sc_hasveol sc, sc_stagbeacons sc, sc_imask sc,
   sc_bslot sc, sc_nbcnvaps sc, sc_bbuf sc).

(** The same interfaces, each with the slot and the beacon buffer (by bus
    address) it had. *)
Definition vaps_kept (m m' : gmap Z ath_vap) : Prop :=
  ∀ id, av_bslot <$> m' !! id = av_bslot <$> m !! id
      ∧ bf_daddr <$> (m' !! id ≫= av_bcbuf)
        = bf_daddr <$> (m !! id ≫= av_bcbuf).

(** From [sc] to [sc'] the calls [tr] were made, and nothing but the
    interfaces, the CAB queue and the descriptors was written. *)
Definition generated (sc sc' : ath_softc) (tr : list call) : Prop :=
  ∃ cq v d,
    sc' = sc_with_cabq cq (sc_with_vaps v (sc_with_descs d (called tr sc))).

(** *** States the tasklet can run on *)

(** The slot table invariant holds; a beacon buffer held by an interface
    has a frame and a descriptor in descriptor memory; the link pointers of
    the CAB queue and of the multicast queues point into descriptor
    memory; the antenna counters are there for antennas 1 and 2 and for
    the default antenna. *)
Record beacon_ready (sc : ath_softc) : Prop := {
  ready_inv : bslot_inv sc;
  ready_bufs : ∀ id avp bf,
    sc_vaps sc !! id = Some avp → av_bcbuf avp = Some bf →
    is_Some (bf_mpdu bf) ∧ is_Some (sc_descs sc !! bf_daddr bf);
  ready_cabq : ∀ p,
    axq_link (sc_cabq sc) = Some p → is_Some (sc_descs sc !! p);
  ready_mcastq : ∀ id avp p,
    sc_vaps sc !! id = Some avp → axq_link (av_mcastq avp) = Some p →
    is_Some (sc_descs sc !! p);
  ready_ant_tx : 3 <= Z.of_nat (length (sc_ant_tx sc));
  ready_defant : 0 <= sc_defant sc < Z.of_nat (length (sc_ant_tx sc))
}.

(** [ath_update_beacon] leaves a TIM element with a bitmap control
    byte. *)
Definition env_ready (E : mac_env) : Prop :=
  ∀ id skb depth, is_Some (arr_get (ath_update_beacon E id skb depth).2 4).

(** What [ath_beaconq_config] leaves behind: the queue parameters, and
    the queue reset when they were taken. *)
Definition beaconq_calls (H : hal_readings) (sc : ath_softc) : list call :=
  ath9k_hw_settxqueueprops_ (sc_bhalq sc)
    (if decide (sc_opmode sc = HAL_M_HOSTAP) then
       {| tqi_aifs := 1; tqi_cwmin := 0; tqi_cwmax := 0 |}
     else
       {| tqi_aifs := tqi_aifs (sc_beacon_qi sc);
          tqi_cwmin := 2 * tqi_cwmin (sc_beacon_qi sc);
          tqi_cwmax := tqi_cwmax (sc_beacon_qi sc) |})
  :: (if ath9k_hw_settxqueueprops H then [ath9k_hw_resettxqueue_ (sc_bhalq sc)]
      else []).

(** The calls that set the interrupt mask, and those that program a
    beacon timer. *)
Definition is_set_interrupts (c : call) : bool :=
  match c with ath9k_hw_set_interrupts_ _ => true | _ => false end.
Definition is_timer_call (c : call) : bool :=
  match c with
  | ath9k_hw_beaconinit_ _ _ | ath9k_hw_set_sta_beacon_timers_ _ => true
  | _ => false
  end.

(** The call that programs the timers [ath_beacon_config] hands back. *)
Definition timer_call (t : beacon_timers) : call :=
  match t with
  | sta_beacon_timers bs => ath9k_hw_set_sta_beacon_timers_ bs
  | ap_beacon_timers nexttbtt intval => ath9k_hw_beaconinit_ nexttbtt intval
  end.

(** *** Burst beacons *)

(** The bus address of the beacon buffer behind an entry of the slot
    table. *)
Definition slot_beacon (sc : ath_softc) (if_id : Z) : option Z :=
  if decide (if_id = ATH_IF_ID_ANY) then None
  else avp ← sc_vaps sc !! if_id; bf ← av_bcbuf avp; Some (bf_daddr bf).

(** The beacon buffers of the occupied slots, in slot order. *)
Definition burst_chain (sc : ath_softc) : list Z :=
  omap (slot_beacon sc) (take (Z.to_nat ATH_BCBUF) (sc_bslot sc)).

(** Each descriptor of the list links to the next one, the last one
    to 0. *)
Definition linked (d : gmap Z ath_desc) (l : list Z) : Prop :=
  ∀ (i : nat) a, l !! i = Some a →
    ds_link <$> d !! a = Some (default 0 (u32 <$> l !! S i)).

(** No link pointer of the CAB queue or of a multicast queue is at one of
    the descriptors [l]. *)
Definition links_apart (sc : ath_softc) (l : list Z) : Prop :=
  (∀ a, a ∈ l → axq_link (sc_cabq sc) ≠ Some a)
  ∧ ∀ id avp a, sc_vaps sc !! id = Some avp → a ∈ l →
      axq_link (av_mcastq avp) ≠ Some a.

(** *** The antenna check *)

(** The antennas handed to [ath_setdefantenna]. *)
Definition antenna_flips (tr : list call) : list Z :=
  omap (λ c, match c with ath_setdefantenna_ a => Some a | _ => None end) tr.

End more_vocabulary.

(** ** More sample states *)

(** The glue out of memory: no beacon frame to be had. *)
Definition sample_env_nomem : mac_env :=
  {| ath_get_beacon := λ _, None;
     ath_update_beacon := λ _ skb _, (0, skb, [5; 4; 0; 1; 0; 0]);
     ath_skb_map_single := λ _, 12288 |}.

(** The sample access point with every slot taken. *)
Definition sample_sc_full : ath_softc := sc_with_bslot [1; 1; 1; 1] sample_sc.

(** A staggering access point that does not reset. *)
Definition sample_sc_noreset : ath_softc := sample_softc HAL_M_HOSTAP true true.

(** An ad-hoc station whose hardware repeats a self-linked beacon;
    interface 0 holds the beacon. *)
Definition sample_adhoc : ath_softc :=
  {| sc_opmode := HAL_M_IBSS; sc_hasveol := true;
     sc_stagbeacons := false; sc_nostabeacons := false; sc_noreset := false;
     sc_diversity := true; sc_nvaps := 1; sc_bhalq := 9;
     sc_beacon_qi := {| tqi_aifs := 2; tqi_cwmin := 15; tqi_cwmax := 1023 |};
     sc_imask := 1;
     sc_bslot := [255; 255; 255; 255]; sc_nbcnvaps := 0;
     sc_bbuf := sample_buf <$> [4160; 4224; 4288];
     sc_vaps := {[ 0 := avp_with_bcbuf
                          (Some {| bf_daddr := 4096; bf_buf_addr := 12288;
                                   bf_mpdu := Some sample_frame |})
                          sample_vap ]};
     sc_cabq := sample_txq 7 [];
     sc_descs := sample_descs;
     sc_bmisscount := 3; sc_updateslot := OK; sc_slotupdate := 0;
     sc_defant := 1; sc_ant_tx := [0; 0; 0];
     ast_be_xmit := 0; sc_trace := [] |}.

(** An access point that bursts its beacons, with antenna diversity off:
    interfaces 0 and 1 hold the beacons of slots 0 and 2, and more frames
    went out on antenna 2 than on the default antenna 1. *)
Definition sample_sc_burst : ath_softc :=
  {| sc_opmode := HAL_M_HOSTAP; sc_hasveol := false;
     sc_stagbeacons := false; sc_nostabeacons := false; sc_noreset := false;
     sc_diversity := false; sc_nvaps := 2; sc_bhalq := 9;
     sc_beacon_qi := {| tqi_aifs := 1; tqi_cwmin := 0; tqi_cwmax := 0 |};
     sc_imask := 0;
     sc_bslot := [0; 255; 1; 255]; sc_nbcnvaps := 2;
     sc_bbuf := sample_buf <$> [4224; 4288];
     sc_vaps := {[ 0 := avp_with_bslot 0
                          (avp_with_bcbuf
                             (Some {| bf_daddr := 4096; bf_buf_addr := 12288;
                                      bf_mpdu := Some sample_frame |})
                             sample_vap);
                   1 := avp_with_bslot 2
                          (avp_with_bcbuf
                             (Some {| bf_daddr := 4160; bf_buf_addr := 12288;
                                      bf_mpdu := Some sample_frame |})
                             sample_vap) ]};
     sc_cabq := sample_txq 7 [];
     sc_descs := sample_descs;
     sc_bmisscount := 0; sc_updateslot := OK; sc_slotupdate := 0;
     sc_defant := 1; sc_ant_tx := [0; 1; 5];
     ast_be_xmit := 0; sc_trace := [] |}.

(** * Properties *)

(** ** Arrays, bytes and machine integers *)

Lemma arr_get_Some_range {A} (a : list A) (i : Z) (x : A) :
  arr_get a i = Some x → 0 <= i < Z.of_nat (length a).
Proof.
  unfold arr_get. case_decide; [|done].
  intros Hl. apply lookup_lt_Some in Hl. lia.
Qed.

Lemma arr_get_in_range {A} (a : list A) (i : Z) :
  0 <= i < Z.of_nat (length a) → is_Some (arr_get a i).
Proof.
  intros Hi. unfold arr_get. case_decide; [|lia].
  apply lookup_lt_is_Some. lia.
Qed.

Lemma arr_get_out_of_range {A} (a : list A) (i : Z) :
  ¬ (0 <= i < Z.of_nat (length a)) → arr_get a i = None.
Proof.
  intros Hi. destruct (arr_get a i) eqn:E; [|done].
  apply arr_get_Some_range in E. lia.
Qed.

Lemma arr_set_Some {A} (a : list A) (i : Z) (v : A) :
  0 <= i < Z.of_nat (length a) →
  arr_set a i v = Some (<[Z.to_nat i := v]> a).
Proof. intros Hi. unfold arr_set. by case_decide. Qed.

Lemma arr_get_insert_eq {A} (a : list A) (i : Z) (v : A) :
  0 <= i < Z.of_nat (length a) →
  arr_get (<[Z.to_nat i := v]> a) i = Some v.
Proof.
  intros Hi. unfold arr_get. case_decide; [|lia].
  apply list_lookup_insert_eq. lia.
Qed.

Lemma arr_get_insert_ne {A} (a : list A) (i j : Z) (v : A) :
  0 <= i → i ≠ j →
  arr_get (<[Z.to_nat i := v]> a) j = arr_get a j.
Proof.
  intros Hi Hne. unfold arr_get. case_decide; [|done].
  apply list_lookup_insert_ne. lia.
Qed.

Lemma s32_small (x : Z) : - 2^31 <= x < 2^31 → s32 x = x.
Proof. intros Hx. unfold s32. rewrite Z.mod_small; lia. Qed.

Lemma u32_small (x : Z) : 0 <= x < 2^32 → u32 x = x.
Proof. intros Hx. unfold u32. by rewrite Z.mod_small. Qed.

Lemma u64_small (x : Z) : 0 <= x < 2^64 → u64 x = x.
Proof. intros Hx. unfold u64. by rewrite Z.mod_small. Qed.

Lemma u32_range (x : Z) : 0 <= u32 x < 2^32.
Proof. unfold u32. apply Z.mod_pos_bound. lia. Qed.

Lemma tsf_tu_nonneg (tsf : Z) : 0 <= tsf_tu tsf.
Proof.
  unfold tsf_tu, TSF_TO_TU. apply Z.lor_nonneg. split.
  - apply u32_range.
  - apply Z.shiftr_nonneg. apply u32_range.
Qed.

Lemma length_le_bytes (n : nat) (v : Z) : length (le_bytes n v) = n.
Proof. revert v. induction n as [|n IH]; intros v; cbn; [done|]. by rewrite IH. Qed.

(** Reading back what [le_bytes] wrote. *)
Lemma le_value_le_bytes (n : nat) (v : Z) :
  le_value (le_bytes n v) = v mod 256 ^ Z.of_nat n.
Proof.
  revert v. induction n as [|n IH]; intros v.
  - cbn. by rewrite Z.mod_1_r.
  - cbn [le_bytes le_value]. rewrite IH.
    replace (256 ^ Z.of_nat (S n)) with (256 * 256 ^ Z.of_nat n).
    + rewrite Z.rem_mul_r; [done|lia|]. apply Z.pow_pos_nonneg; lia.
    + rewrite Nat2Z.inj_succ, Z.pow_succ_r; lia.
Qed.

Lemma memcpy_at_Some (data : list Z) (off : Z) (bs : list Z) :
  0 <= off → off + Z.of_nat (length bs) <= Z.of_nat (length data) →
  memcpy_at data off bs
  = Some (take (Z.to_nat off) data ++ bs
          ++ drop (Z.to_nat off + length bs) data)
  ∧ take (length bs) (drop (Z.to_nat off)
      (take (Z.to_nat off) data ++ bs
       ++ drop (Z.to_nat off + length bs) data)) = bs.
Proof.
  intros H0 Hlen. split.
  - unfold memcpy_at. case_decide; [done|lia].
  - rewrite drop_app_length'; [|rewrite length_take; lia].
    by rewrite take_app_length.
Qed.

(** ** The slot search *)

Section slot_search.
Context {K : core_h}.

Lemma slot_empty_range tbl i :
  slot_empty tbl i → 0 <= i < Z.of_nat (length tbl).
Proof. apply arr_get_Some_range. Qed.

Lemma double_slot_range tbl i :
  double_slot tbl i → 0 <= i ∧ i + 1 < Z.of_nat (length tbl).
Proof.
  intros (H1 & _ & H2).
  apply slot_empty_range in H1. apply slot_empty_range in H2. lia.
Qed.

(** What the search returns when it is entered at [slot] with [n] slots
    left: it stops behind the first double slot from [slot] on; failing
    that it ends on the last empty slot from [slot] on; failing that too
    it keeps [bslot]. *)
Lemma bslot_scan_spec (tbl : list Z) :
  Z.of_nat (length tbl) = ATH_BCBUF →
  ∀ (n : nat) (slot bslot : Z),
    0 <= slot → slot + Z.of_nat n = ATH_BCBUF →
    ∃ r, bslot_scan n slot bslot tbl = Some r ∧
      ((∃ i, slot <= i ∧ double_slot tbl i
             ∧ (∀ j, slot <= j < i → ¬ double_slot tbl j) ∧ r = i + 1)
       ∨ ((∀ j, slot <= j → ¬ double_slot tbl j) ∧
          ((slot_empty tbl r ∧ slot <= r
            ∧ ∀ j, r < j → ¬ slot_empty tbl j)
           ∨ ((∀ j, slot <= j → ¬ slot_empty tbl j) ∧ r = bslot)))).
Proof.
  intros Hlen n. induction n as [|n IH]; intros slot bslot Hslot Hn.
  - exists bslot. split; [done|]. right. split.
    + intros j Hj Hd. apply double_slot_range in Hd. lia.
    + right. split; [|done].
      intros j Hj He. apply slot_empty_range in He. lia.
  - destruct (arr_get_in_range tbl slot) as [owner Howner]; [lia|].
    simpl. rewrite Howner. simpl.
    destruct (IH (slot + 1) slot) as (r1 & Hr1 & Hspec1); [lia|lia|].
    destruct (IH (slot + 1) bslot) as (r2 & Hr2 & Hspec2); [lia|lia|].
    case_decide as Hown.
    + (* this slot is empty *)
      assert (slot_empty tbl slot) as Hempty by (unfold slot_empty; congruence).
      assert (∀ next, arr_get tbl (slot + 1) = Some next →
                next ≠ ATH_IF_ID_ANY → ¬ double_slot tbl slot) as Hnd.
      { intros next Hnext Hne (_ & _ & He). unfold slot_empty in He. congruence. }
      assert (¬ double_slot tbl slot →
        ∃ r, bslot_scan n (slot + 1) slot tbl = Some r ∧
        ((∃ i, slot <= i ∧ double_slot tbl i
             ∧ (∀ j, slot <= j < i → ¬ double_slot tbl j) ∧ r = i + 1)
         ∨ ((∀ j, slot <= j → ¬ double_slot tbl j) ∧
            ((slot_empty tbl r ∧ slot <= r
              ∧ ∀ j, r < j → ¬ slot_empty tbl j)
            ∨ ((∀ j, slot <= j → ¬ slot_empty tbl j) ∧ r = bslot))))) as Hgo.
      { intros Hnot. exists r1. split; [done|].
        destruct Hspec1 as [(i & Hi & Hd & Hmin & ->)|(Hno & Hlast)].
        - left. exists i. split_and!; [lia|done| |done].
          intros j Hj. destruct (decide (j = slot)) as [->|]; [done|].
          apply Hmin. lia.
        - right. split.
          { intros j Hj. destruct (decide (j = slot)) as [->|]; [done|].
            apply Hno. lia. }
          left. destruct Hlast as [(He & Hle & Hmax)|(Hnone & ->)].
          + split_and!; [done|lia|done].
          + split_and!; [done|lia|].
            intros j Hj. apply Hnone. lia. }
      case_decide as Hlt.
      * destruct (arr_get_in_range tbl (slot + 1)) as [next Hnext]; [lia|].
        rewrite Hnext. simpl. case_decide as Hnx.
        -- exists (slot + 1). split; [done|]. left. exists slot.
           split_and!; [lia| |intros; lia|done].
           split_and!; [done|lia|unfold slot_empty; congruence].
        -- apply Hgo. by eapply Hnd.
      * apply Hgo. intros (_ & Hlt' & _). lia.
    + (* this slot is occupied *)
      assert (¬ slot_empty tbl slot) as Hocc.
      { unfold slot_empty. congruence. }
      exists r2. split; [done|].
      destruct Hspec2 as [(i & Hi & Hd & Hmin & ->)|(Hno & Hlast)].
      * left. exists i. split_and!; [lia|done| |done].
        intros j Hj. destruct (decide (j = slot)) as [->|].
        -- intros (He & _). done.
        -- apply Hmin. lia.
      * right. split.
        { intros j Hj. destruct (decide (j = slot)) as [->|].
          - intros (He & _). done.
          - apply Hno. lia. }
        destruct Hlast as [(He & Hle & Hmax)|(Hnone & ->)].
        -- left. split_and!; [done|lia|done].
        -- right. split; [|done].
           intros j Hj. destruct (decide (j = slot)) as [->|]; [done|].
           apply Hnone. lia.
Qed.

(** With an empty slot in the table, the search ends on an empty slot:
    behind the first double slot, or on the last empty slot. *)
Lemma bslot_scan_spaced (tbl : list Z) (e : Z) :
  Z.of_nat (length tbl) = ATH_BCBUF → slot_empty tbl e →
  ∃ r, bslot_scan (Z.to_nat ATH_BCBUF) 0 0 tbl = Some r
       ∧ slot_empty tbl r ∧ spaced_slot tbl r.
Proof.
  intros Hlen He.
  destruct (bslot_scan_spec tbl Hlen (Z.to_nat ATH_BCBUF) 0 0)
    as (r & Hr & Hspec); [lia|lia|].
  exists r. split; [done|].
  destruct Hspec as [(i & Hi & Hd & Hmin & ->)|(Hno & Hlast)].
  - split; [by destruct Hd as (_ & _ & ?)|].
    left. exists i. split; [|done]. split; [done|].
    intros j Hj. destruct (decide (0 <= j)).
    + apply Hmin. lia.
    + intros Hdj. apply double_slot_range in Hdj. lia.
  - destruct Hlast as [(Hre & Hle & Hmax)|(Hnone & ->)].
    + split; [done|]. right. split.
      * intros j. destruct (decide (0 <= j)); [by apply Hno|].
        intros Hdj. apply double_slot_range in Hdj. lia.
      * split; [done|]. apply slot_empty_range in Hre.
        split; [lia|]. intros j Hj. apply Hmax. lia.
    + exfalso. apply (Hnone e); [|done]. apply slot_empty_range in He. lia.
Qed.

End slot_search.

(** ** Allocation and release of beacon state *)

Section alloc_return.
Context {K : core_h}.

Local Arguments le_bytes : simpl never.
Local Arguments memcpy_at : simpl never.

(** The two ways through the first block of [ath_beacon_alloc]. *)
Lemma beacon_state_alloc_cases (if_id : Z) (avp avp1 : ath_vap)
    (sc sc1 : ath_softc) :
  beacon_state_alloc if_id avp sc = Some (avp1, sc1) →
  (is_Some (av_bcbuf avp) ∧ avp1 = avp ∧ sc1 = sc)
  ∨ (av_bcbuf avp = None ∧ ∃ bf bbuf, sc_bbuf sc = bf :: bbuf ∧
      ((needs_bslot sc = false
        ∧ avp1 = avp_with_bcbuf (Some bf) avp ∧ sc1 = sc_with_bbuf bbuf sc)
       ∨ (needs_bslot sc = true ∧ ∃ r,
            bslot_scan (Z.to_nat ATH_BCBUF) 0 0 (sc_bslot sc) = Some r
            ∧ slot_empty (sc_bslot sc) r
            ∧ avp1 = avp_with_bslot r (avp_with_bcbuf (Some bf) avp)
            ∧ sc1 = sc_with_nbcnvaps (sc_nbcnvaps sc + 1)
                      (sc_with_bslot (<[Z.to_nat r := if_id]> (sc_bslot sc))
                         (sc_with_bbuf bbuf sc))))).
Proof.
  unfold beacon_state_alloc. intros Halloc.
  destruct (av_bcbuf avp) as [bf0|] eqn:Hbc.
  { left. by simplify_eq. }
  right. split; [done|].
  destruct (sc_bbuf sc) as [|bf bbuf]; [done|].
  exists bf, bbuf. split; [done|].
  change (needs_bslot (sc_with_bbuf bbuf sc)) with (needs_bslot sc) in Halloc.
  destruct (needs_bslot sc); [|left; by simplify_eq].
  right. split; [done|]. cbn in Halloc.
  destruct (bslot_scan _ 0 0 (sc_bslot sc)) as [r|]; [|done].
  exists r. cbn in Halloc.
  destruct (arr_get (sc_bslot sc) r) as [owner|] eqn:Hown; [|done].
  cbn in Halloc. case_decide as Hany; [|done].
  rewrite arr_set_Some in Halloc by (by eapply arr_get_Some_range).
  cbn in Halloc. simplify_eq.
  split_and!; first [done | unfold slot_empty; by rewrite Hown].
Qed.

(** [ath_beacon_alloc] leaves the slot table, the slot of the interface
    and the count as its first block made them; the other interfaces are
    not touched. *)
Lemma ath_beacon_alloc_decompose (E : mac_env) (if_id ret : Z)
    (sc sc' : ath_softc) :
  ath_beacon_alloc E if_id sc = Some (ret, sc') →
  ∃ avp avp1 sc1 avp',
    sc_vaps sc !! if_id = Some avp
    ∧ beacon_state_alloc if_id avp sc = Some (avp1, sc1)
    ∧ sc_vaps sc' = <[if_id := avp']> (sc_vaps sc)
    ∧ av_bslot avp' = av_bslot avp1
    ∧ is_Some (av_bcbuf avp')
    ∧ sc_bslot sc' = sc_bslot sc1
    ∧ sc_nbcnvaps sc' = sc_nbcnvaps sc1
    ∧ sc_bbuf sc' = sc_bbuf sc1
    ∧ needs_bslot sc' = needs_bslot sc.
Proof.
  unfold ath_beacon_alloc. intros Halloc.
  destruct (sc_vaps sc !! if_id) as [avp|] eqn:Hvap; [|done].
  cbn in Halloc.
  destruct (beacon_state_alloc if_id avp sc) as [[avp1 sc1]|] eqn:H1; [|done].
  cbn in Halloc.
  assert (sc_vaps sc1 = sc_vaps sc ∧ needs_bslot sc1 = needs_bslot sc)
    as [Hvaps Hneeds].
  { apply beacon_state_alloc_cases in H1
      as [(_ & _ & ->)|(_ & bf & bbuf & _ & [(_ & _ & ->)|(_ & r & _ & _ & _ & ->)])];
      done. }
  destruct (av_bcbuf avp1) as [bf|] eqn:Hbf; [|done]. cbn in Halloc.
  destruct (release_mpdu bf sc1) as [bf1 sc2] eqn:Hrel.
  assert (sc_vaps sc2 = sc_vaps sc1 ∧ sc_bslot sc2 = sc_bslot sc1
          ∧ sc_nbcnvaps sc2 = sc_nbcnvaps sc1 ∧ sc_bbuf sc2 = sc_bbuf sc1
          ∧ needs_bslot sc2 = needs_bslot sc1
          ∧ sc_stagbeacons sc2 = sc_stagbeacons sc1) as (Hv2 & Hb2 & Hn2 & Hp2 & Hm2 & Hs2).
  { unfold release_mpdu in Hrel. destruct (bf_mpdu bf); by simplify_eq. }
  exists avp, avp1, sc1.
  destruct (ath_get_beacon E if_id) as [[[skb tim] pwr]|].
  - cbn in Halloc.
    destruct (beacon_frame _ _ skb) as [skb'|]; [|done]. cbn in Halloc.
    simplify_eq. eexists. cbn. rewrite Hv2, Hvaps.
    split_and!; try done. by rewrite <- Hneeds, <- Hm2.
  - simplify_eq. eexists. cbn. rewrite Hv2, Hvaps.
    split_and!; try done. by rewrite <- Hneeds, <- Hm2.
Qed.

(** The ways through [ath_beacon_return]. *)
Lemma ath_beacon_return_cases (if_id : Z) (sc sc' : ath_softc) :
  ath_beacon_return if_id sc = Some sc' →
  ∃ avp, sc_vaps sc !! if_id = Some avp ∧
    ((av_bcbuf avp = None ∧ sc' = sc)
     ∨ (∃ bf, av_bcbuf avp = Some bf
          ∧ sc_vaps sc' = <[if_id := avp_with_bcbuf None avp]> (sc_vaps sc)
          ∧ needs_bslot sc' = needs_bslot sc
          ∧ sc_bbuf sc' = sc_bbuf sc ++ [bf_with_mpdu None bf]
          ∧ ((av_bslot avp = -1 ∧ sc_bslot sc' = sc_bslot sc
              ∧ sc_nbcnvaps sc' = sc_nbcnvaps sc)
             ∨ (av_bslot avp ≠ -1
                ∧ 0 <= av_bslot avp < Z.of_nat (length (sc_bslot sc))
                ∧ sc_bslot sc'
                  = <[Z.to_nat (av_bslot avp) := ATH_IF_ID_ANY]> (sc_bslot sc)
                ∧ sc_nbcnvaps sc' = sc_nbcnvaps sc - 1)))).
Proof.
  unfold ath_beacon_return. intros Hret.
  destruct (sc_vaps sc !! if_id) as [avp|] eqn:Hvap; [|done].
  exists avp. split; [done|]. cbn in Hret.
  destruct (av_bcbuf avp) as [bf|] eqn:Hbc; [|left; by simplify_eq].
  right. exists bf. split; [done|].
  assert (∀ sc0, (release_mpdu bf sc0).1 = bf_with_mpdu None bf) as Hbf.
  { intros sc0. unfold release_mpdu. destruct bf as [a b [m|]]; done. }
  assert (∀ sc0, let sc1 := (release_mpdu bf sc0).2 in
            sc_vaps sc1 = sc_vaps sc0 ∧ sc_bslot sc1 = sc_bslot sc0
            ∧ sc_nbcnvaps sc1 = sc_nbcnvaps sc0 ∧ sc_bbuf sc1 = sc_bbuf sc0
            ∧ needs_bslot sc1 = needs_bslot sc0) as Hsc.
  { intros sc0. unfold release_mpdu. destruct (bf_mpdu bf); done. }
  case_decide as Hslot.
  - unfold arr_set in Hret. case_decide as Hrange; [|done]. cbn in Hret.
    destruct (release_mpdu bf _) as [bf1 sc1] eqn:Hrel.
    specialize (Hbf (sc_with_nbcnvaps (sc_nbcnvaps sc - 1)
      (sc_with_bslot (<[Z.to_nat (av_bslot avp):=ATH_IF_ID_ANY]> (sc_bslot sc)) sc))).
    specialize (Hsc (sc_with_nbcnvaps (sc_nbcnvaps sc - 1)
      (sc_with_bslot (<[Z.to_nat (av_bslot avp):=ATH_IF_ID_ANY]> (sc_bslot sc)) sc))).
    rewrite Hrel in Hbf, Hsc. cbn in Hbf, Hsc.
    destruct Hsc as (Hv & Hb & Hn & Hp & Hm). simplify_eq. cbn.
    rewrite Hv, Hp, Hb, Hn. split_and!; try done. right. done.
  - cbn in Hret. destruct (release_mpdu bf sc) as [bf1 sc1] eqn:Hrel.
    specialize (Hbf sc). specialize (Hsc sc).
    rewrite Hrel in Hbf, Hsc. cbn in Hbf, Hsc.
    destruct Hsc as (Hv & Hb & Hn & Hp & Hm). simplify_eq. cbn.
    rewrite Hv, Hp. split_and!; try done. left.
    split_and!; try done.
Qed.

(** *** The count of occupied slots *)

Lemma occupied_insert (tbl : list Z) (i : nat) (old new : Z) :
  tbl !! i = Some old →
  occupied (<[i := new]> tbl)
  = occupied tbl - (if decide (old ≠ ATH_IF_ID_ANY) then 1 else 0)
                 + (if decide (new ≠ ATH_IF_ID_ANY) then 1 else 0).
Proof.
  unfold occupied. revert i. induction tbl as [|x tbl IH]; intros i Hi; [done|].
  destruct i as [|i]; cbn in Hi.
  - simplify_eq. change (<[0%nat := new]> (old :: tbl)) with (new :: tbl).
    rewrite !filter_cons. repeat case_decide; cbn; lia.
  - change (<[S i := new]> (x :: tbl)) with (x :: <[i := new]> tbl).
    rewrite !filter_cons. specialize (IH i Hi).
    destruct (decide (x ≠ ATH_IF_ID_ANY)); cbn [length]; lia.
Qed.

(** *** The slot table invariant is kept *)

Lemma bslot_inv_alloc (E : mac_env) (if_id ret : Z) (sc sc' : ath_softc) :
  bslot_inv sc → ath_beacon_alloc E if_id sc = Some (ret, sc') →
  bslot_inv sc'.
Proof.
  intros [Hsize Hid Hown Hslot Hno Hcnt] Halloc.
  apply ath_beacon_alloc_decompose in Halloc
    as (avp & avp1 & sc1 & avp' & Hvap & Hblock & Hvaps & Hbs & Hsome
        & Htbl & Hnb & _ & Hneeds).
  assert (if_id ≠ ATH_IF_ID_ANY) as Hne by (by eapply Hid).
  apply beacon_state_alloc_cases in Hblock
    as [(Hbc & -> & ->)
       |(Hbc & bf & bbuf & _ & [(Hm & -> & ->)|(Hm & r & _ & Hre & -> & ->)])];
    cbn in Hbs, Htbl, Hnb.
  - (* the interface had its beacon state already *)
    split; rewrite ?Hvaps, ?Htbl, ?Hnb, ?Hneeds; try done.
    + intros id v Hv. destruct (decide (id = if_id)) as [->|]; [done|].
      rewrite lookup_insert_ne in Hv by done. by eapply Hid.
    + intros s id Hs Hany. destruct (Hown s id Hs Hany) as (v & Hv & Hvb & Hvs).
      destruct (decide (id = if_id)) as [->|].
      * exists avp'. rewrite lookup_insert_eq. simplify_eq. by rewrite Hbs.
      * exists v. by rewrite lookup_insert_ne.
    + intros Hmode id v Hv Hvb. destruct (decide (id = if_id)) as [->|].
      * rewrite lookup_insert_eq in Hv. simplify_eq. rewrite Hbs. by eapply Hslot.
      * rewrite lookup_insert_ne in Hv by done. by eapply Hslot.
    + intros Hmode id v Hv. destruct (decide (id = if_id)) as [->|].
      * rewrite lookup_insert_eq in Hv. simplify_eq. rewrite Hbs. by eapply Hno.
      * rewrite lookup_insert_ne in Hv by done. by eapply Hno.
  - (* new beacon state, no slot management *)
    split; rewrite ?Hvaps, ?Htbl, ?Hnb, ?Hneeds; try done.
    + intros id v Hv. destruct (decide (id = if_id)) as [->|]; [done|].
      rewrite lookup_insert_ne in Hv by done. by eapply Hid.
    + intros s id Hs Hany. destruct (Hown s id Hs Hany) as (v & Hv & Hvb & Hvs).
      destruct (decide (id = if_id)) as [->|].
      * simplify_eq. rewrite Hbc in Hvb. by destruct Hvb.
      * exists v. by rewrite lookup_insert_ne.
    + intros Hmode. congruence.
    + intros Hmode id v Hv. destruct (decide (id = if_id)) as [->|].
      * rewrite lookup_insert_eq in Hv. simplify_eq. rewrite Hbs. by eapply Hno.
      * rewrite lookup_insert_ne in Hv by done. by eapply Hno.
  - (* new beacon state in slot r *)
    pose proof (slot_empty_range _ _ Hre) as Hr. subst r.
    split; rewrite ?Hvaps, ?Htbl, ?Hnb, ?Hneeds; cbn.
    + by rewrite length_insert.
    + intros id v Hv. destruct (decide (id = if_id)) as [->|]; [done|].
      rewrite lookup_insert_ne in Hv by done. by eapply Hid.
    + intros s id Hs Hany.
      destruct (decide (s = av_bslot avp')) as [->|Hsr].
      * rewrite arr_get_insert_eq in Hs by done. simplify_eq.
        exists avp'. by rewrite lookup_insert_eq.
      * rewrite arr_get_insert_ne in Hs by lia.
        destruct (Hown s id Hs Hany) as (v & Hv & Hvb & Hvs).
        destruct (decide (id = if_id)) as [->|].
        -- simplify_eq. rewrite Hbc in Hvb. by destruct Hvb.
        -- exists v. by rewrite lookup_insert_ne.
    + intros _ id v Hv Hvb. destruct (decide (id = if_id)) as [->|].
      * rewrite lookup_insert_eq in Hv. simplify_eq.
        by apply arr_get_insert_eq.
      * rewrite lookup_insert_ne in Hv by done.
        pose proof (Hslot Hm id v Hv Hvb) as Hs.
        rewrite arr_get_insert_ne; [done|lia|].
        intros Heq. unfold slot_empty in Hre. rewrite Heq, Hs in Hre.
        simplify_eq. by eapply Hid.
    + intros Hmode. congruence.
    + unfold slot_empty, arr_get in Hre. case_decide; [|done].
      rewrite (occupied_insert _ _ _ _ Hre), Hcnt.
      repeat case_decide; try done; lia.
Qed.

Lemma bslot_inv_return (if_id : Z) (sc sc' : ath_softc) :
  bslot_inv sc → ath_beacon_return if_id sc = Some sc' → bslot_inv sc'.
Proof.
  intros Hinv Hret.
  apply ath_beacon_return_cases in Hret
    as (avp & Hvap & [(_ & ->)|(bf & Hbc & Hvaps & Hneeds & _ & Hcase)]);
    [done|].
  destruct Hinv as [Hsize Hid Hown Hslot Hno Hcnt].
  assert (∀ id v, <[if_id := avp_with_bcbuf None avp]> (sc_vaps sc) !! id = Some v →
            is_Some (av_bcbuf v) → id ≠ if_id ∧ sc_vaps sc !! id = Some v) as Hother.
  { intros id v Hv Hvb. destruct (decide (id = if_id)) as [->|].
    - rewrite lookup_insert_eq in Hv. simplify_eq. by destruct Hvb.
    - by rewrite lookup_insert_ne in Hv. }
  assert (∀ id v, <[if_id := avp_with_bcbuf None avp]> (sc_vaps sc) !! id = Some v →
            ∃ v0, sc_vaps sc !! id = Some v0 ∧ av_bslot v = av_bslot v0) as Hsame.
  { intros id v Hv. destruct (decide (id = if_id)) as [->|].
    - rewrite lookup_insert_eq in Hv. simplify_eq. by exists avp.
    - rewrite lookup_insert_ne in Hv by done. by exists v. }
  destruct Hcase as [(Hm1 & Htbl & Hnb)|(Hm1 & Hrange & Htbl & Hnb)].
  - (* no slot to give back *)
    assert (needs_bslot sc = false) as Hmode.
    { destruct (needs_bslot sc) eqn:Hm; [|done].
      pose proof (Hslot eq_refl if_id avp Hvap) as Hs.
      rewrite Hbc, Hm1 in Hs. by specialize (Hs (mk_is_Some _ _ eq_refl)). }
    split; rewrite ?Hvaps, ?Htbl, ?Hnb, ?Hneeds; try done.
    + intros id v Hv. destruct (Hsame id v Hv) as (v0 & Hv0 & _). by eapply Hid.
    + intros s id Hs Hany. destruct (Hown s id Hs Hany) as (v & Hv & Hvb & Hvs).
      apply arr_get_Some_range in Hs. pose proof (Hno Hmode id v Hv). lia.
    + intros Hm. congruence.
    + intros _ id v Hv. destruct (Hsame id v Hv) as (v0 & Hv0 & ->).
      by eapply Hno.
  - (* the slot of the interface is cleared *)
    assert (needs_bslot sc = true) as Hmode.
    { destruct (needs_bslot sc) eqn:Hm; [done|].
      by pose proof (Hno eq_refl if_id avp Hvap). }
    pose proof (Hslot Hmode if_id avp Hvap) as Hmine.
    rewrite Hbc in Hmine. specialize (Hmine (mk_is_Some _ _ eq_refl)).
    split; rewrite ?Hvaps, ?Htbl, ?Hnb, ?Hneeds; cbn.
    + by rewrite length_insert.
    + intros id v Hv. destruct (Hsame id v Hv) as (v0 & Hv0 & _). by eapply Hid.
    + intros s id Hs Hany.
      destruct (decide (s = av_bslot avp)) as [->|Hsr].
      { rewrite arr_get_insert_eq in Hs by done. by simplify_eq. }
      rewrite arr_get_insert_ne in Hs by lia.
      destruct (Hown s id Hs Hany) as (v & Hv & Hvb & Hvs).
      exists v. rewrite lookup_insert_ne; [done|].
      intros <-. by simplify_eq.
    + intros _ id v Hv Hvb. destruct (Hother id v Hv Hvb) as (Hne & Hv0).
      pose proof (Hslot Hmode id v Hv0 Hvb) as Hs.
      rewrite arr_get_insert_ne; [done|lia|].
      intros Heq. rewrite Heq in Hmine. congruence.
    + intros Hm. congruence.
    + unfold arr_get in Hmine. case_decide; [|done].
      rewrite (occupied_insert _ _ _ _ Hmine), Hcnt.
      assert (if_id ≠ ATH_IF_ID_ANY) by (by eapply Hid).
      repeat case_decide; try done; lia.
Qed.

Lemma bslot_inv_run_ops (os : list beacon_op) (sc sc' : ath_softc) :
  bslot_inv sc → run_ops os sc = Some sc' → bslot_inv sc'.
Proof.
  revert sc. induction os as [|o os IH]; intros sc Hinv Hrun.
  - cbn in Hrun. by simplify_eq.
  - cbn in Hrun. destruct (run_op o sc) as [sc1|] eqn:Hop; [|done].
    cbn in Hrun. apply (IH sc1); [|done].
    destruct o as [E if_id|if_id]; cbn in Hop.
    + destruct (ath_beacon_alloc E if_id sc) as [[ret sc2]|] eqn:Ha; [|done].
      cbn in Hop. simplify_eq. by eapply bslot_inv_alloc.
    + by eapply bslot_inv_return.
Qed.

(** The first block on an interface without beacon state, under slot
    management and with an empty slot in the table: a buffer is taken from
    the pool and the slot found by the search is entered in the table. *)
Lemma beacon_state_alloc_new (if_id : Z) (sc : ath_softc) (avp : ath_vap)
    (e : Z) :
  av_bcbuf avp = None →
  sc_bbuf sc ≠ [] →
  needs_bslot sc = true →
  Z.of_nat (length (sc_bslot sc)) = ATH_BCBUF →
  slot_empty (sc_bslot sc) e →
  ∃ r, slot_empty (sc_bslot sc) r ∧ spaced_slot (sc_bslot sc) r
    ∧ beacon_state_alloc if_id avp sc
      = Some (avp_with_bslot r (avp_with_bcbuf (sc_bbuf sc !! 0%nat) avp),
              sc_with_nbcnvaps (sc_nbcnvaps sc + 1)
                (sc_with_bslot (<[Z.to_nat r := if_id]> (sc_bslot sc))
                   (sc_with_bbuf (tail (sc_bbuf sc)) sc))).
Proof.
  intros Hbc Hpool Hneeds Hlen He.
  destruct (bslot_scan_spaced (sc_bslot sc) e Hlen He)
    as (r & Hscan & Hre & Hsp).
  exists r. split_and!; [done|done|].
  unfold beacon_state_alloc. rewrite Hbc.
  destruct (sc_bbuf sc) as [|bf bbuf]; [done|].
  change (needs_bslot (sc_with_bbuf bbuf sc)) with (needs_bslot sc).
  rewrite Hneeds. cbn. rewrite Hscan. cbn.
  unfold slot_empty in Hre. rewrite Hre. cbn.
  case_decide; [|done].
  rewrite arr_set_Some by (by eapply arr_get_Some_range). done.
Qed.

(** ** The slot assigned by the allocator *)

(** C1, as the code has it.  An interface that needs slot management and
    has no beacon state yet is given an empty slot: the second slot of the
    first (leftmost) pair of adjacent empty slots of the table or, when no
    two adjacent slots are empty, the last (rightmost) empty slot.  The
    first block of [ath_beacon_alloc] does not fail, and whenever
    [ath_beacon_alloc] returns, the interface holds that slot and the slot
    table names it there. *)
Theorem ath_beacon_alloc_spaced_slot (E : mac_env) (if_id : Z)
    (sc : ath_softc) (avp : ath_vap) (e : Z) :
  sc_vaps sc !! if_id = Some avp →
  av_bcbuf avp = None →
  sc_bbuf sc ≠ [] →
  needs_bslot sc = true →
  Z.of_nat (length (sc_bslot sc)) = ATH_BCBUF →
  slot_empty (sc_bslot sc) e →
  ∃ r avp1 sc1,
    beacon_state_alloc if_id avp sc = Some (avp1, sc1)
    ∧ av_bslot avp1 = r
    ∧ slot_empty (sc_bslot sc) r
    ∧ spaced_slot (sc_bslot sc) r
    ∧ sc_bslot sc1 = <[Z.to_nat r := if_id]> (sc_bslot sc)
    ∧ ∀ ret sc', ath_beacon_alloc E if_id sc = Some (ret, sc') →
        av_bslot <$> sc_vaps sc' !! if_id = Some r
        ∧ sc_bslot sc' = <[Z.to_nat r := if_id]> (sc_bslot sc).
Proof.
  intros Hvap Hbc Hpool Hneeds Hlen He.
  destruct (beacon_state_alloc_new if_id sc avp e Hbc Hpool Hneeds Hlen He)
    as (r & Hre & Hsp & Hblock).
  eexists r, _, _. split; [exact Hblock|].
  split_and!; try done.
  intros ret sc' Halloc.
  apply ath_beacon_alloc_decompose in Halloc
    as (avp0 & avp1 & sc1 & avp' & Hv0 & Hb1 & Hvaps & Hslot & _ & Htbl & _).
  rewrite Hvap in Hv0. simplify_eq.
  rewrite Hvaps, lookup_insert_eq. cbn. rewrite Hslot, Htbl. done.
Qed.

(** ** The slot table under allocation and release *)

(** Under the invariant, releasing the beacon state of an interface under
    slot management goes through and clears its slot. *)
Lemma ath_beacon_return_slot (if_id : Z) (sc : ath_softc) (avp : ath_vap) :
  bslot_inv sc → needs_bslot sc = true →
  sc_vaps sc !! if_id = Some avp → is_Some (av_bcbuf avp) →
  ∃ sc', ath_beacon_return if_id sc = Some sc'
    ∧ sc_bslot sc' = <[Z.to_nat (av_bslot avp) := ATH_IF_ID_ANY]> (sc_bslot sc)
    ∧ slot_empty (sc_bslot sc') (av_bslot avp)
    ∧ sc_nbcnvaps sc' = sc_nbcnvaps sc - 1
    ∧ sc_bbuf sc' ≠ [].
Proof.
  intros Hinv Hmode Hvap Hsome.
  pose proof (inv_slot sc Hinv Hmode if_id avp Hvap Hsome) as Hmine.
  pose proof (arr_get_Some_range _ _ _ Hmine) as Hrange.
  destruct (ath_beacon_return if_id sc) as [sc'|] eqn:Hret.
  - exists sc'. split; [done|].
    apply ath_beacon_return_cases in Hret
      as (avp0 & Hvap0 & [(Hnone & _)|(bf & _ & _ & _ & Hpool & Hcase)]).
    { simplify_eq. rewrite Hnone in Hsome. by destruct Hsome. }
    simplify_eq.
    destruct Hcase as [(Hm1 & _)|(_ & _ & Htbl & Hnb)]; [lia|].
    rewrite Htbl. split_and!; [done| |done|].
    + by apply arr_get_insert_eq.
    + rewrite Hpool. by destruct (sc_bbuf sc).
  - exfalso. unfold ath_beacon_return in Hret. rewrite Hvap in Hret.
    cbn in Hret. destruct Hsome as [bf Hbf]. rewrite Hbf in Hret.
    case_decide; [|lia]. rewrite arr_set_Some in Hret by done.
    cbn in Hret. by destruct (release_mpdu bf _).
Qed.

(** C8.  The slot table invariant [bslot_inv] (an occupied slot belongs to
    one interface with beacon state, which knows the slot as its own;
    under slot management every interface with beacon state has its slot;
    the count of beaconing interfaces is the number of occupied slots)
    holds after every sequence of allocations and releases that starts in
    a state where it holds.  In such a state no two interfaces share a
    slot; releasing the beacon state of an interface under slot management
    clears its slot and takes one off the count; and an allocation after
    that finds an empty slot and keeps the invariant. *)
Theorem bslot_inv_alloc_return (sc : ath_softc) :
  bslot_inv sc →
  (∀ os sc', run_ops os sc = Some sc' → bslot_inv sc')
  ∧ (∀ id1 id2 v1 v2,
       needs_bslot sc = true →
       sc_vaps sc !! id1 = Some v1 → sc_vaps sc !! id2 = Some v2 →
       is_Some (av_bcbuf v1) → is_Some (av_bcbuf v2) →
       av_bslot v1 = av_bslot v2 → id1 = id2)
  ∧ (∀ if_id avp,
       needs_bslot sc = true →
       sc_vaps sc !! if_id = Some avp → is_Some (av_bcbuf avp) →
       ∃ sc', ath_beacon_return if_id sc = Some sc'
         ∧ slot_empty (sc_bslot sc') (av_bslot avp)
         ∧ sc_nbcnvaps sc' = sc_nbcnvaps sc - 1
         ∧ bslot_inv sc'
         ∧ ∀ E id2 avp2,
             sc_vaps sc' !! id2 = Some avp2 → av_bcbuf avp2 = None →
             ∃ avp2' sc2,
               beacon_state_alloc id2 avp2 sc' = Some (avp2', sc2)
               ∧ slot_empty (sc_bslot sc') (av_bslot avp2')
               ∧ sc_nbcnvaps sc2 = sc_nbcnvaps sc
               ∧ ∀ ret sc3, ath_beacon_alloc E id2 sc' = Some (ret, sc3) →
                   bslot_inv sc3
                   ∧ arr_get (sc_bslot sc3) (av_bslot avp2') = Some id2).
Proof.
  intros Hinv. split_and!.
  - intros os sc'. by apply bslot_inv_run_ops.
  - intros id1 id2 v1 v2 Hmode Hv1 Hv2 Hs1 Hs2 Heq.
    pose proof (inv_slot sc Hinv Hmode id1 v1 Hv1 Hs1) as H1.
    pose proof (inv_slot sc Hinv Hmode id2 v2 Hv2 Hs2) as H2.
    rewrite Heq in H1. congruence.
  - intros if_id avp Hmode Hvap Hsome.
    destruct (ath_beacon_return_slot if_id sc avp Hinv Hmode Hvap Hsome)
      as (sc' & Hret & Htbl & Hempty & Hnb & Hpool).
    pose proof (bslot_inv_return if_id sc sc' Hinv Hret) as Hinv'.
    exists sc'. split_and!; try done.
    intros E id2 avp2 Hvap2 Hbc2.
    assert (needs_bslot sc' = true) as Hmode'.
    { apply ath_beacon_return_cases in Hret
        as (avp0 & _ & [(_ & ->)|(bf & _ & _ & Hneeds & _)]); congruence. }
    destruct (beacon_state_alloc_new id2 sc' avp2 (av_bslot avp)
                Hbc2 Hpool Hmode' (inv_size sc' Hinv') Hempty)
      as (r & Hre & _ & Hblock).
    eexists _, _. split; [exact Hblock|]. cbn. split_and!; [done|lia|].
    intros ret sc3 Halloc.
    pose proof (bslot_inv_alloc E id2 ret sc' sc3 Hinv' Halloc) as Hinv3.
    split; [done|].
    apply ath_beacon_alloc_decompose in Halloc
      as (avp0 & avp1 & sc1 & avp' & Hv0 & Hb1 & Hvaps & Hslot & _ & Htbl3 & _).
    simplify_eq. rewrite Htbl3. cbn.
    apply arr_get_insert_eq. by apply slot_empty_range in Hre.
Qed.

(** ** Releases that leave the slot table alone *)

(** C10.  Releasing the beacon state of an interface that holds no beacon
    buffer changes nothing at all.  For an interface that holds a buffer
    and whose slot is -1, the buffer goes back to the end of the pool
    (without a frame) and the interface is left without one, while the
    slot table and the count of beaconing interfaces stay as they were. *)
Theorem ath_beacon_return_no_slot (if_id : Z) (sc : ath_softc)
    (avp : ath_vap) :
  sc_vaps sc !! if_id = Some avp →
  (av_bcbuf avp = None → ath_beacon_return if_id sc = Some sc)
  ∧ (∀ bf, av_bcbuf avp = Some bf → av_bslot avp = -1 →
       ∃ sc', ath_beacon_return if_id sc = Some sc'
         ∧ sc_bslot sc' = sc_bslot sc
         ∧ sc_nbcnvaps sc' = sc_nbcnvaps sc
         ∧ sc_bbuf sc' = sc_bbuf sc ++ [bf_with_mpdu None bf]
         ∧ av_bcbuf <$> sc_vaps sc' !! if_id = Some None).
Proof.
  intros Hvap. split.
  - intros Hbc. unfold ath_beacon_return. rewrite Hvap. cbn. by rewrite Hbc.
  - intros bf Hbc Hslot.
    destruct (ath_beacon_return if_id sc) as [sc'|] eqn:Hret.
    + exists sc'. split; [done|].
      apply ath_beacon_return_cases in Hret
        as (avp0 & Hvap0 & [(Hnone & _)|(bf0 & Hbc0 & Hvaps & _ & Hpool & Hcase)]);
        simplify_eq.
      destruct Hcase as [(_ & Htbl & Hnb)|(Hm1 & _)]; [|done].
      rewrite Hvaps, lookup_insert_eq. done.
    + exfalso. unfold ath_beacon_return in Hret. rewrite Hvap in Hret.
      cbn in Hret. rewrite Hbc in Hret. case_decide; [done|].
      cbn in Hret. by destruct (release_mpdu bf sc).
Qed.

(** ** The TSF adjustment of staggered beacons *)

Lemma beacon_state_alloc_bcbuf (if_id : Z) (avp avp1 : ath_vap)
    (sc sc1 : ath_softc) :
  beacon_state_alloc if_id avp sc = Some (avp1, sc1) →
  is_Some (av_bcbuf avp1) ∧ sc_stagbeacons sc1 = sc_stagbeacons sc.
Proof.
  intros Hblock. apply beacon_state_alloc_cases in Hblock
    as [(Hbc & -> & ->)
       |(Hbc & bf & bbuf & _ & [(Hm & -> & ->)|(Hm & r & _ & Hre & -> & ->)])];
    done.
Qed.

(** The adjustment in TU when the constants keep the [int] arithmetic in
    range. *)
Lemma tsfadjust_tu_in_range (s : Z) :
  0 < ATH_DEFAULT_BINTVAL → 0 < ATH_BCBUF →
  ATH_DEFAULT_BINTVAL * ATH_BCBUF < 2^31 →
  0 < s < ATH_BCBUF →
  tsfadjust_tu s
  = Some (ATH_DEFAULT_BINTVAL * (ATH_BCBUF - s) / ATH_BCBUF)
  ∧ 0 <= ATH_DEFAULT_BINTVAL * (ATH_BCBUF - s) / ATH_BCBUF < 2^31.
Proof.
  intros Hi Hb Hprod Hs.
  assert (0 <= ATH_DEFAULT_BINTVAL * (ATH_BCBUF - s) < 2^31) as Hp by nia.
  assert (0 <= ATH_DEFAULT_BINTVAL * (ATH_BCBUF - s) / ATH_BCBUF < 2^31) as Hq.
  { split; [apply Z.div_pos; lia|].
    apply Z.div_lt_upper_bound; [lia|]. nia. }
  split; [|done].
  unfold tsfadjust_tu, c_div. case_decide; [lia|]. cbn.
  rewrite (s32_small ATH_DEFAULT_BINTVAL) by nia.
  rewrite (s32_small (ATH_BCBUF - s)) by nia.
  rewrite s32_small by lia.
  rewrite Z.quot_div_nonneg by lia.
  rewrite u64_small by lia. done.
Qed.

(** C9.  With staggered beacons, [ath_beacon_alloc] on an interface in
    slot [s > 0] returns the frame handed out by [ath_get_beacon] with the
    eight bytes behind the 802.11 header overwritten: read as a
    little-endian number they are [(interval * (ATH_BCBUF - s)) /
    ATH_BCBUF] TU shifted left by 10.  The rest of the frame is as it was
    handed out, and an interface in slot 0 gets the frame unchanged.  (The
    constants are such that [interval * ATH_BCBUF] fits an [int], and the
    frame has room for the eight bytes.) *)
Theorem ath_beacon_alloc_tsfadjust (E : mac_env) (if_id : Z)
    (sc sc1 : ath_softc) (avp avp1 : ath_vap) (skb0 : sk_buff)
    (tim : list Z) (pwr : Z) :
  sc_vaps sc !! if_id = Some avp →
  beacon_state_alloc if_id avp sc = Some (avp1, sc1) →
  ath_get_beacon E if_id = Some (skb0, tim, pwr) →
  sc_stagbeacons sc = true →
  0 < ATH_DEFAULT_BINTVAL → 0 < ATH_BCBUF →
  ATH_DEFAULT_BINTVAL * ATH_BCBUF < 2^31 →
  av_bslot avp1 < ATH_BCBUF →
  0 <= sizeof_ieee80211_hdr →
  sizeof_ieee80211_hdr + 8 <= skb_len skb0 →
  let s := av_bslot avp1 in
  let hdr := Z.to_nat sizeof_ieee80211_hdr in
  let adj := Z.shiftl (ATH_DEFAULT_BINTVAL * (ATH_BCBUF - s) / ATH_BCBUF) 10 in
  ∃ sc' bf skb,
    ath_beacon_alloc E if_id sc = Some (0, sc')
    ∧ av_bslot <$> sc_vaps sc' !! if_id = Some s
    ∧ sc_vaps sc' !! if_id ≫= av_bcbuf = Some bf
    ∧ bf_mpdu bf = Some skb
    ∧ (0 < s →
         skb_data skb
         = take hdr (skb_data skb0) ++ le_bytes 8 adj
           ++ drop (hdr + 8) (skb_data skb0)
         ∧ le_value (take 8 (drop hdr (skb_data skb))) = adj)
    ∧ (s <= 0 → skb = skb0).
Proof.
  intros Hvap Hblock Hget Hstag Hi Hb Hprod Hs Hhdr Hlen s hdr adj.
  destruct (beacon_state_alloc_bcbuf _ _ _ _ _ Hblock) as [[bf Hbf] Hstag1].
  unfold ath_beacon_alloc. rewrite Hvap. cbn. rewrite Hblock. cbn.
  rewrite Hbf. cbn.
  destruct (release_mpdu bf sc1) as [bf1 sc2] eqn:Hrel.
  assert (sc_stagbeacons sc2 = true) as Hstag2.
  { unfold release_mpdu in Hrel. destruct (bf_mpdu bf); simplify_eq; cbn; congruence. }
  rewrite Hget. cbn. rewrite Hstag2. unfold beacon_frame.
  fold s. destruct (decide (0 < s)) as [Hpos|Hneg].
  - rewrite bool_decide_eq_true_2 by lia. cbn.
    destruct (tsfadjust_tu_in_range s) as [-> Hq]; [done|done|done|lia|].
    cbn.
    assert (u64 (Z.shiftl (ATH_DEFAULT_BINTVAL * (ATH_BCBUF - s) / ATH_BCBUF) 10)
            = adj) as ->.
    { unfold adj. rewrite Z.shiftl_mul_pow2 by lia. apply u64_small. lia. }
    destruct (memcpy_at_Some (skb_data skb0) sizeof_ieee80211_hdr (le_bytes 8 adj))
      as [-> Hread]; [done|rewrite length_le_bytes; unfold skb_len in Hlen; lia|].
    rewrite length_le_bytes in Hread |- *. cbn.
    eexists _, _, _. split; [done|]. cbn. rewrite lookup_insert_eq. cbn.
    split_and!; [done|done|done| |lia].
    intros _. split; [done|]. unfold hdr. cbn [skb_data]. rewrite Hread.
    rewrite le_value_le_bytes. apply Z.mod_small.
    unfold adj. rewrite Z.shiftl_mul_pow2 by lia. lia.
  - rewrite bool_decide_eq_false_2 by lia. cbn.
    eexists _, _, _. split; [done|]. cbn. rewrite lookup_insert_eq. cbn.
    split_and!; [done|done|done|lia|done].
Qed.

End alloc_return.

(** ** The CAB merge *)

Section cab_merge.
Context {K : core_h}.

(** What [trigger_mcastq] leaves behind when there is something to
    merge. *)
Lemma trigger_mcastq_merge (mcastq cabq : ath_txq) (sc : ath_softc)
    (bfmcast : ath_buf) (rest : list ath_buf) :
  axq_q mcastq = bfmcast :: rest →
  txq_consistent cabq →
  (∀ tail, last (axq_q cabq) = Some tail →
           is_Some (sc_descs sc !! bf_daddr tail)) →
  ∃ mcastq' cabq' sc',
    trigger_mcastq mcastq cabq sc
    = Some (mcastq', cabq', called [ath9k_hw_txstart_ (axq_qnum cabq)] sc')
    ∧ axq_depth cabq' = axq_depth cabq + axq_depth mcastq
    ∧ axq_q cabq' = axq_q cabq ++ axq_q mcastq
    ∧ axq_depth mcastq' = 0
    ∧ axq_q mcastq' = []
    ∧ sc_trace sc'
      = sc_trace sc
        ++ (if decide (axq_q cabq = [])
            then [ath9k_hw_puttxbuf_ (axq_qnum cabq) (bf_daddr bfmcast)]
            else []).
Proof.
  intros Hq [_ Hlink] Hdesc.
  unfold trigger_mcastq, empty_mcastq_into_cabq. rewrite Hq.
  rewrite decide_True by done. rewrite Hlink.
  destruct (axq_q cabq) as [|b0 q0] eqn:Hcq using rev_ind.
  - cbn. eexists _, _, _. split; [reflexivity|]. by cbn.
  - clear IHq0. rewrite last_snoc in *. cbn.
    destruct (Hdesc b0 eq_refl) as [ds ->]. cbn.
    rewrite decide_True by (by destruct q0).
    rewrite decide_False by (by destruct q0).
    eexists _, _, _. split; [reflexivity|]. cbn.
    by rewrite app_nil_r.
Qed.

(** C3.  Merging a non-empty multicast queue into a CAB queue whose
    bookkeeping is consistent (and whose last descriptor is in descriptor
    memory) goes through.  Afterwards the CAB queue holds its old chain
    followed by the multicast chain and its depth is the sum of the two
    depths; the multicast queue is empty, with depth 0 and both link
    fields cleared.  If the CAB queue was empty, the head of the appended
    chain is put on the hardware queue with [ath9k_hw_puttxbuf] and no
    descriptor is written; otherwise the link word of the descriptor of
    the old last buffer is set to the bus address of that head, no other
    descriptor is written and the hardware queue head is not touched.
    [trigger_mcastq] does just this merge and then starts the CAB queue.
    The merged queue is consistent again when the multicast queue was. *)
Theorem empty_mcastq_into_cabq_merge (mcastq cabq : ath_txq) (sc : ath_softc)
    (bfmcast : ath_buf) (rest : list ath_buf) :
  axq_q mcastq = bfmcast :: rest →
  txq_consistent cabq →
  (∀ tail, last (axq_q cabq) = Some tail →
           is_Some (sc_descs sc !! bf_daddr tail)) →
  ∃ mcastq' cabq' sc',
    empty_mcastq_into_cabq mcastq cabq sc = Some (mcastq', cabq', sc')
    ∧ trigger_mcastq mcastq cabq sc
      = Some (mcastq', cabq', called [ath9k_hw_txstart_ (axq_qnum cabq)] sc')
    ∧ axq_depth cabq' = axq_depth cabq + axq_depth mcastq
    ∧ axq_q cabq' = axq_q cabq ++ axq_q mcastq
    ∧ axq_depth mcastq' = 0
    ∧ axq_q mcastq' = []
    ∧ axq_link mcastq' = None
    ∧ axq_linkbuf mcastq' = None
    ∧ (axq_q cabq = [] →
         sc_trace sc'
         = sc_trace sc ++ [ath9k_hw_puttxbuf_ (axq_qnum cabq) (bf_daddr bfmcast)]
         ∧ sc_descs sc' = sc_descs sc)
    ∧ (∀ tail, last (axq_q cabq) = Some tail →
         ds_link <$> sc_descs sc' !! bf_daddr tail = Some (bf_daddr bfmcast)
         ∧ (∀ a, a ≠ bf_daddr tail → sc_descs sc' !! a = sc_descs sc !! a)
         ∧ sc_trace sc' = sc_trace sc)
    ∧ (txq_consistent mcastq → txq_consistent cabq').
Proof.
  intros Hq [Hdepth Hlink] Hdesc.
  assert (∀ mq cq sc1,
            empty_mcastq_into_cabq mcastq cabq sc = Some (mq, cq, sc1) →
            axq_q cq = axq_q cabq ++ axq_q mcastq →
            axq_qnum cq = axq_qnum cabq →
            trigger_mcastq mcastq cabq sc
            = Some (mq, cq, called [ath9k_hw_txstart_ (axq_qnum cabq)] sc1))
    as Htrigger.
  { intros mq cq sc1 Hmerge Hcq Hnum. unfold trigger_mcastq.
    case_decide as Hne; [|by rewrite Hq in Hne].
    rewrite Hmerge. cbn. rewrite Hcq, Hnum.
    case_decide as Hne'; [done|].
    exfalso. rewrite Hq in Hne'. by destruct (axq_q cabq). }
  assert (∀ lk, txq_consistent mcastq →
            txq_consistent
              {| axq_qnum := axq_qnum cabq;
                 axq_q := axq_q cabq ++ axq_q mcastq;
                 axq_depth := axq_depth cabq + axq_depth mcastq;
                 axq_totalqueued := axq_totalqueued cabq + axq_totalqueued mcastq;
                 axq_linkbuf := lk; axq_link := axq_link mcastq |}) as Hcons.
  { intros lk [Hd Hl]. split; cbn.
    - rewrite length_app. lia.
    - rewrite Hl, Hq. by rewrite last_app_cons. }
  unfold empty_mcastq_into_cabq in *. rewrite Hq in *.
  destruct (last (axq_q cabq)) as [tail|] eqn:Hlast.
  - (* the CAB queue has a last buffer *)
    rewrite Hlink in *. cbn in *.
    destruct (Hdesc tail eq_refl) as [ds Hds]. rewrite Hds in *. cbn in *.
    eexists _, _, _. split; [done|]. split; [by apply Htrigger|]. cbn.
    split_and!; try done.
    + intros Hnil. apply last_None in Hnil. congruence.
    + intros tail' ?. simplify_eq. rewrite lookup_insert_eq. split_and!; [done| |done].
      intros a Ha. by rewrite lookup_insert_ne.
    + apply Hcons.
  - (* the CAB queue is empty *)
    rewrite Hlink in *. cbn in *.
    eexists _, _, _. split; [done|]. split; [by apply Htrigger|]. cbn.
    split_and!; try done. apply Hcons.
Qed.


End cab_merge.

(** ** Calls made while beacons are generated *)

Section traces.
Context {K : core_h}.

Lemma resets_app (a b : list call) : resets (a ++ b) = (resets a + resets b)%nat.
Proof. unfold resets. by rewrite List.filter_app, length_app. Qed.

Lemma generated_for_app (a b : list call) :
  generated_for (a ++ b) = generated_for a ++ generated_for b.
Proof. unfold generated_for. apply omap_app. Qed.

Lemma steps_refl (sc : ath_softc) : steps sc sc [].
Proof. split; [by rewrite app_nil_r|done]. Qed.

Lemma steps_trans (sc sc1 sc2 : ath_softc) (t1 t2 : list call) :
  steps sc sc1 t1 → steps sc1 sc2 t2 → steps sc sc2 (t1 ++ t2).
Proof.
  intros [H1 B1] [H2 B2]. split; [|congruence].
  by rewrite H2, H1, app_assoc.
Qed.

Lemma steps_called (sc : ath_softc) (cs : list call) :
  steps sc (called cs sc) cs.
Proof. done. Qed.

Lemma quiet_nil : quiet [].
Proof. done. Qed.

Lemma quiet_app (a b : list call) : quiet a → quiet b → quiet (a ++ b).
Proof.
  intros [Ra Ga] [Rb Gb]. split.
  - rewrite resets_app. lia.
  - by rewrite generated_for_app, Ga, Gb.
Qed.

Lemma ath_beacon_setup_steps (avp : ath_vap) (bf : ath_buf)
    (sc sc' : ath_softc) :
  ath_beacon_setup avp bf sc = Some sc' →
  ∃ tr, steps sc sc' tr ∧ quiet tr
    ∧ sc_bslot sc' = sc_bslot sc ∧ sc_vaps sc' = sc_vaps sc
    ∧ sc_cabq sc' = sc_cabq sc
    ∧ (∀ a, is_Some (sc_descs sc !! a) → is_Some (sc_descs sc' !! a)).
Proof.
  unfold ath_beacon_setup. intros Hs.
  repeat (case_match; simplify_option_eq; try done).
  all: eexists; split_and!; [by split|done|done|done|done|].
  all: intros a Ha; cbn; rewrite lookup_insert_is_Some;
    destruct (decide (bf_daddr bf = a)); auto.
Qed.

Lemma trigger_mcastq_steps (mcastq cabq mcastq' cabq' : ath_txq)
    (sc sc' : ath_softc) :
  trigger_mcastq mcastq cabq sc = Some (mcastq', cabq', sc') →
  ∃ tr, steps sc sc' tr ∧ quiet tr
    ∧ sc_bslot sc' = sc_bslot sc ∧ sc_vaps sc' = sc_vaps sc.
Proof.
  unfold trigger_mcastq, empty_mcastq_into_cabq. intros Hs.
  repeat (case_match; simplify_option_eq; try done).
  all: try (eexists; split_and!;
            [split; [cbn; rewrite <- ?app_assoc; reflexivity|done]
            |done|done|done]).
  all: exists []; split_and!;
    [split; [cbn; by rewrite app_nil_r|done]|done|done|done].
Qed.

(** A generated beacon shows in the trace as one refresh of the frame of
    that interface; nothing is reset. *)
Lemma ath_beacon_generate_steps (E : mac_env) (if_id : Z)
    (sc sc' : ath_softc) (r : option ath_buf) :
  ath_beacon_generate E if_id sc = Some (r, sc') →
  ∃ tr, steps sc sc' tr ∧ resets tr = 0%nat
    ∧ generated_for tr = match r with Some _ => [if_id] | None => [] end
    ∧ sc_bslot sc' = sc_bslot sc.
Proof.
  unfold ath_beacon_generate. intros Hg.
  destruct (sc_vaps sc !! if_id) as [avp|]; [|done]. cbn in Hg.
  destruct (av_bcbuf avp) as [bf|].
  2:{ simplify_eq. exists []. split_and!; [apply steps_refl|done|done|done]. }
  destruct (bf_mpdu bf) as [skb|]; [|done]. cbn in Hg.
  destruct (ath_update_beacon E if_id skb _) as [[changed skb'] tim].
  set (sc1 := called [ath_update_beacon_ if_id (s32 (axq_depth (av_mcastq avp)))] sc) in Hg.
  match type of Hg with
  | context [let '(bf, sc) := ?x in _] => destruct x as [bf1 sc2] eqn:Hmap
  end.
  assert (∃ t2, steps sc1 sc2 t2 ∧ quiet t2 ∧ sc_bslot sc2 = sc_bslot sc1)
    as (t2 & Hs2 & Hq2 & Hb2).
  { case_decide; simplify_eq; eexists; (split; [apply steps_called|done]). }
  destruct (arr_get _ 4) as [tim4|]; [|done]. cbn in Hg.
  match type of Hg with
  | context [let '(cabq, sc) := ?x in _] => destruct x as [cabq sc3] eqn:Hdrain
  end.
  assert (∃ t3, steps sc2 sc3 t3 ∧ quiet t3 ∧ sc_bslot sc3 = sc_bslot sc2)
    as (t3 & Hs3 & Hq3 & Hb3).
  { repeat case_match; simplify_eq;
      first [by (exists []; split; [apply steps_refl|done])
            |eexists; (split; [apply steps_called|done])]. }
  destruct (ath_beacon_setup _ bf1 sc3) as [sc4|] eqn:Hsetup; [|done].
  cbn in Hg.
  apply ath_beacon_setup_steps in Hsetup as (t4 & Hs4 & Hq4 & Hb4 & _).
  match type of Hg with
  | context [mbind _ ?x] => destruct x as [[[mq cq] sc5]|] eqn:Htrig
  end; [|done].
  assert (∃ t5, steps sc4 sc5 t5 ∧ quiet t5 ∧ sc_bslot sc5 = sc_bslot sc4)
    as (t5 & Hs5 & Hq5 & Hb5).
  { case_decide.
    - apply trigger_mcastq_steps in Htrig as (t5 & ? & ? & ? & _). by exists t5.
    - simplify_eq. exists []. split; [apply steps_refl|done]. }
  cbn in Hg. simplify_eq.
  exists ([ath_update_beacon_ if_id (s32 (axq_depth (av_mcastq avp)))]
          ++ t2 ++ t3 ++ t4 ++ t5).
  pose proof (steps_trans _ _ _ _ _ (steps_called sc _)
                (steps_trans _ _ _ _ _ Hs2
                   (steps_trans _ _ _ _ _ Hs3
                      (steps_trans _ _ _ _ _ Hs4 Hs5)))) as [Htr Hbm].
  destruct (quiet_app _ _ Hq2 (quiet_app _ _ Hq3 (quiet_app _ _ Hq4 Hq5)))
    as [Hr Hgen].
  split_and!.
  - split; cbn; [exact Htr|exact Hbm].
  - rewrite resets_app, Hr. done.
  - rewrite generated_for_app, Hgen. done.
  - cbn. by rewrite Hb5, Hb4, Hb3, Hb2.
Qed.

End traces.

(** ** The beacon tasklet *)

Section tasklet.
Context {K : core_h}.

Lemma store_bflink_steps (bflink : option Z) (v bfaddr bfaddr' : Z)
    (sc sc' : ath_softc) :
  store_bflink bflink v bfaddr sc = Some (bfaddr', sc') → steps sc sc' [].
Proof.
  unfold store_bflink. intros Hs.
  repeat (case_match; simplify_option_eq; try done).
  all: split; [cbn; by rewrite app_nil_r|done].
Qed.

Lemma burst_loop_steps (E : mac_env) (n : nat) (slot : Z)
    (bflink bflink' : option Z) (bfaddr bc bfaddr' bc' : Z)
    (sc sc' : ath_softc) :
  burst_loop E n slot bflink bfaddr bc sc = Some (bflink', bfaddr', bc', sc') →
  ∃ tr, steps sc sc' tr ∧ resets tr = 0%nat.
Proof.
  revert slot bflink bfaddr bc sc.
  induction n as [|n IH]; intros slot bflink bfaddr bc sc Hl; cbn in Hl.
  { simplify_eq. exists []. split; [apply steps_refl|done]. }
  destruct (arr_get (sc_bslot sc) slot) as [if_id|]; [|done]. cbn in Hl.
  case_decide; [|by eapply IH].
  destruct (ath_beacon_generate E if_id sc) as [[bf sc1]|] eqn:Hgen; [|done].
  cbn in Hl.
  apply ath_beacon_generate_steps in Hgen as (t1 & Hs1 & Hr1 & _).
  destruct bf as [bf|].
  - destruct (store_bflink bflink (bf_daddr bf) bfaddr sc1)
      as [[bfaddr1 sc2]|] eqn:Hst; [|done].
    cbn in Hl. apply store_bflink_steps in Hst.
    apply IH in Hl as (t3 & Hs3 & Hr3).
    exists (t1 ++ [] ++ t3). split.
    + eapply steps_trans; [done|]. by eapply steps_trans.
    + rewrite !resets_app, Hr1, Hr3. done.
  - apply IH in Hl as (t3 & Hs3 & Hr3).
    exists (t1 ++ t3). split; [by eapply steps_trans|].
    rewrite !resets_app, Hr1, Hr3. done.
Qed.

Lemma burst_beacons_steps (E : mac_env) (slot bfaddr bc : Z)
    (sc sc' : ath_softc) :
  burst_beacons E sc = Some (slot, bfaddr, bc, sc') →
  ∃ tr, steps sc sc' tr ∧ resets tr = 0%nat.
Proof.
  unfold burst_beacons. intros Hb.
  destruct (burst_loop E _ 0 None 0 0 sc) as [[[[bflink a] c] sc1]|] eqn:Hl;
    [|done].
  cbn in Hb.
  destruct (store_bflink bflink 0 a sc1) as [[a' sc2]|] eqn:Hst; [|done].
  cbn in Hb. simplify_eq.
  apply burst_loop_steps in Hl as (t1 & Hs1 & Hr1).
  apply store_bflink_steps in Hst.
  exists (t1 ++ []). split; [by eapply steps_trans|].
  by rewrite app_nil_r.
Qed.

(** A staggered cycle generates for the interface in the slot behind the
    current one, if there is one, and for no other. *)
Lemma staggered_beacons_steps (E : mac_env) (H : hal_readings)
    (slot bfaddr bc : Z) (sc sc' : ath_softc) :
  staggered_beacons E H sc = Some (slot, bfaddr, bc, sc') →
  stagger_slot (ath9k_hw_gettsf64 H) = Some slot
  ∧ ∃ tr, steps sc sc' tr ∧ resets tr = 0%nat
    ∧ (generated_for tr = []
       ∨ ∃ idx if_id, c_mod (s32 (slot + 1)) ATH_BCBUF = Some idx
           ∧ arr_get (sc_bslot sc) idx = Some if_id
           ∧ if_id ≠ ATH_IF_ID_ANY
           ∧ generated_for tr = [if_id]).
Proof.
  unfold staggered_beacons. intros Hs.
  destruct (stagger_slot _) as [slot0|]; [|done]. cbn in Hs.
  destruct (c_mod _ ATH_BCBUF) as [idx|] eqn:Hidx; [|done]. cbn in Hs.
  destruct (arr_get (sc_bslot sc) idx) as [if_id|] eqn:Hid; [|done].
  cbn in Hs. case_decide as Hany.
  - destruct (ath_beacon_generate E if_id sc) as [[bf sc1]|] eqn:Hgen; [|done].
    cbn in Hs.
    apply ath_beacon_generate_steps in Hgen as (t1 & Hs1 & Hr1 & Hg1 & _).
    destruct bf as [bf|]; simplify_eq; (split; [done|]);
      exists t1; split_and!; try done.
    + right. by exists idx, if_id.
    + by left.
  - simplify_eq. split; [done|].
    exists []. split_and!; [apply steps_refl|done|by left].
Qed.

Lemma slot_time_update_steps (slot : Z) (sc : ath_softc) :
  ∃ tr, steps sc (slot_time_update slot sc) tr ∧ quiet tr.
Proof.
  unfold slot_time_update. repeat case_decide.
  - exists []. split; [|done]. split; [cbn; by rewrite app_nil_r|done].
  - eexists. split; [apply steps_called|done].
  - exists []. split; [apply steps_refl|done].
Qed.

Lemma antenna_check_steps (slot : Z) (sc sc' : ath_softc) :
  antenna_check slot sc = Some sc' → ∃ tr, steps sc sc' tr ∧ quiet tr.
Proof.
  unfold antenna_check. intros Ha.
  repeat (case_match; simplify_option_eq; try done).
  all: first [ by (eexists; split; [by split|done])
             | exists []; split; [|done];
               split; [cbn; by rewrite app_nil_r|done] ].
Qed.

Lemma beacon_submit_steps (bfaddr bc : Z) (sc : ath_softc) :
  ∃ tr, steps sc (beacon_submit bfaddr bc sc) tr ∧ quiet tr.
Proof.
  unfold beacon_submit. case_decide.
  - eexists. split; [by split|done].
  - exists []. split; [apply steps_refl|done].
Qed.

(** The tasklet on a cycle whose beacon queue has drained: the miss
    counter is 0 afterwards and the device is not reset. *)
Lemma tasklet_drained (E : mac_env) (H : hal_readings) (sc sc' : ath_softc) :
  ¬ pending H sc →
  ath9k_beacon_tasklet E H sc = Some sc' →
  sc_bmisscount sc' = 0
  ∧ ∃ tr, sc_trace sc' = sc_trace sc ++ tr ∧ resets tr = 0%nat
      ∧ (sc_stagbeacons sc = true →
         ∃ slot, stagger_slot (ath9k_hw_gettsf64 H) = Some slot ∧
           (generated_for tr = []
            ∨ ∃ idx if_id, c_mod (s32 (slot + 1)) ATH_BCBUF = Some idx
                ∧ arr_get (sc_bslot sc) idx = Some if_id
                ∧ if_id ≠ ATH_IF_ID_ANY
                ∧ generated_for tr = [if_id])).
Proof.
  unfold pending, ath9k_beacon_tasklet. intros Hnp Ht.
  case_decide; [done|].
  set (sc0 := if decide (sc_bmisscount sc ≠ 0) then sc_with_bmisscount 0 sc
              else sc) in Ht.
  assert (sc_bmisscount sc0 = 0 ∧ sc_trace sc0 = sc_trace sc
          ∧ sc_stagbeacons sc0 = sc_stagbeacons sc
          ∧ sc_bslot sc0 = sc_bslot sc) as (Hb0 & Ht0 & Hst0 & Hbs0).
  { unfold sc0. case_decide; [done|]. split; [lia|done]. }
  clearbody sc0.
  match type of Ht with
  | context [mbind _ ?x] => destruct x as [[[[slot bfaddr] bc] sc1]|] eqn:Hgen
  end; [|done].
  cbn in Ht.
  destruct (antenna_check slot (slot_time_update slot sc1)) as [sc2|] eqn:Hant;
    [|done].
  cbn in Ht. simplify_eq.
  destruct (slot_time_update_steps slot sc1) as (t2 & Hs2 & Hq2).
  apply antenna_check_steps in Hant as (t3 & Hs3 & Hq3).
  destruct (beacon_submit_steps bfaddr bc sc2) as (t4 & Hs4 & Hq4).
  pose proof (steps_trans _ _ _ _ _ Hs2 (steps_trans _ _ _ _ _ Hs3 Hs4))
    as Hrest.
  destruct (quiet_app _ _ Hq2 (quiet_app _ _ Hq3 Hq4)) as [Hr Hg].
  rewrite <- Hst0, <- Hbs0.
  destruct (sc_stagbeacons sc0) eqn:Hstag.
  - apply staggered_beacons_steps in Hgen
      as (Hslot & t1 & Hs1 & Hr1 & Hg1).
    destruct (steps_trans _ _ _ _ _ Hs1 Hrest) as [Htr Hbm].
    split; [congruence|].
    exists (t1 ++ t2 ++ t3 ++ t4). split_and!.
    + by rewrite Htr, Ht0.
    + rewrite resets_app, Hr1, Hr. done.
    + intros _. exists slot. split; [done|].
      rewrite generated_for_app, Hg, app_nil_r. done.
  - apply burst_beacons_steps in Hgen as (t1 & Hs1 & Hr1).
    destruct (steps_trans _ _ _ _ _ Hs1 Hrest) as [Htr Hbm].
    split; [congruence|].
    exists (t1 ++ t2 ++ t3 ++ t4). split_and!.
    + by rewrite Htr, Ht0.
    + rewrite resets_app, Hr1, Hr. done.
    + done.
Qed.

(** The tasklet on a cycle whose beacon queue has not drained. *)
Lemma tasklet_pending (E : mac_env) (H : hal_readings) (sc : ath_softc) :
  pending H sc → ath9k_beacon_tasklet E H sc = Some (beacon_missed sc).
Proof.
  unfold pending, ath9k_beacon_tasklet. intros Hp. by case_decide.
Qed.

(** Below the threshold a miss is counted and nothing else happens. *)
Lemma beacon_missed_below (sc : ath_softc) :
  sc_bmisscount sc + 1 < BSTUCK_THRESH →
  beacon_missed sc = sc_with_bmisscount (sc_bmisscount sc + 1) sc.
Proof. intros Hlt. unfold beacon_missed. cbn. by case_decide. Qed.

(** The miss that reaches the threshold: the reset path is taken unless
    [sc_noreset] is set, in which case the DMA registers are dumped. *)
Lemma beacon_missed_at (sc : ath_softc) :
  sc_bmisscount sc + 1 = BSTUCK_THRESH →
  beacon_missed sc
  = called [if sc_noreset sc then ath9k_hw_dmaRegDump_ else ath_internal_reset_]
      (sc_with_bmisscount (sc_bmisscount sc + 1) sc).
Proof.
  intros Heq. unfold beacon_missed, ath_bstuck_process. cbn.
  case_decide; [lia|]. case_decide; [|lia].
  destruct (sc_noreset sc); [|done]. by case_decide.
Qed.

(** Past the threshold every further miss takes the reset path again,
    unless [sc_noreset] is set. *)
Lemma beacon_missed_above (sc : ath_softc) :
  sc_bmisscount sc + 1 > BSTUCK_THRESH →
  beacon_missed sc
  = (if sc_noreset sc then sc_with_bmisscount (sc_bmisscount sc + 1) sc
     else called [ath_internal_reset_]
            (sc_with_bmisscount (sc_bmisscount sc + 1) sc)).
Proof.
  intros Hgt. unfold beacon_missed, ath_bstuck_process. cbn.
  case_decide; [lia|]. case_decide; [|lia].
  destruct (sc_noreset sc); [|done]. case_decide; [lia|done].
Qed.

Lemma tasklet_run_app (E : mac_env) (Hs1 Hs2 : list hal_readings)
    (sc : ath_softc) :
  tasklet_run E (Hs1 ++ Hs2) sc = tasklet_run E Hs1 sc ≫= tasklet_run E Hs2.
Proof.
  revert sc. induction Hs1 as [|H Hs1 IH]; intros sc; [done|].
  cbn. destruct (ath9k_beacon_tasklet E H sc); [apply IH|done].
Qed.

(** Misses that stay below the threshold only move the counter. *)
Lemma tasklet_run_pending_below (E : mac_env) (Hs : list hal_readings)
    (sc : ath_softc) :
  Forall (λ H, pending H sc) Hs →
  sc_bmisscount sc + Z.of_nat (length Hs) < BSTUCK_THRESH →
  ∃ sc', tasklet_run E Hs sc = Some sc'
    ∧ sc_bmisscount sc' = sc_bmisscount sc + Z.of_nat (length Hs)
    ∧ sc_trace sc' = sc_trace sc
    ∧ sc_noreset sc' = sc_noreset sc
    ∧ sc_bhalq sc' = sc_bhalq sc.
Proof.
  revert sc. induction Hs as [|H Hs IH]; intros sc Hall Hlt.
  { exists sc. cbn. split_and!; try done. lia. }
  apply Forall_cons in Hall as [Hp Hall]. cbn [length] in Hlt.
  cbn. rewrite (tasklet_pending E H sc Hp). cbn.
  rewrite beacon_missed_below by lia.
  destruct (IH (sc_with_bmisscount (sc_bmisscount sc + 1) sc))
    as (sc' & Hrun & Hb & Ht & Hn & Hq); [done|cbn; lia|].
  exists sc'. cbn in Hb. split_and!; try done. lia.
Qed.

(** What a missed beacon leaves behind: no frame is refreshed, nothing is
    handed to a hardware queue, and the interfaces, the CAB queue and the
    count of beacons sent are as before. *)
Lemma beacon_missed_steps (sc : ath_softc) :
  ∃ tr, sc_trace (beacon_missed sc) = sc_trace sc ++ tr
    ∧ generated_for tr = [] ∧ submitted tr = []
    ∧ sc_vaps (beacon_missed sc) = sc_vaps sc
    ∧ sc_cabq (beacon_missed sc) = sc_cabq sc
    ∧ sc_descs (beacon_missed sc) = sc_descs sc
    ∧ ast_be_xmit (beacon_missed sc) = ast_be_xmit sc.
Proof.
  destruct (Z.lt_trichotomy (sc_bmisscount sc + 1) BSTUCK_THRESH)
    as [Hlt|[Heq|Hgt]].
  - rewrite beacon_missed_below by done. exists []. cbn.
    by rewrite app_nil_r.
  - rewrite beacon_missed_at by done. eexists. cbn. split; [done|].
    by destruct (sc_noreset sc).
  - rewrite beacon_missed_above by lia. destruct (sc_noreset sc).
    + exists []. cbn. by rewrite app_nil_r.
    + by eexists.
Qed.

(** ** Consecutive misses *)

(** C2, as the code has it.  From a miss counter of 0:
    - [BSTUCK_THRESH - 1] cycles in a row that find the beacon queue
      pending go through, leave the counter at [BSTUCK_THRESH - 1] and
      make no call; a cycle after them that finds the queue drained
      leaves the counter at 0, and the reset path has not been taken;
    - [BSTUCK_THRESH] pending cycles in a row take the reset path exactly
      once when [sc_noreset] is clear; when it is set they do not take it
      at all and dump the DMA registers once instead;
    - every pending cycle returns from the tasklet without refreshing a
      frame and without handing anything to a hardware queue. *)
Theorem beacon_miss_escalation (E : mac_env) (sc : ath_softc) :
  sc_bmisscount sc = 0 →
  0 < BSTUCK_THRESH →
  (∀ Hs, Z.of_nat (length Hs) = BSTUCK_THRESH - 1 →
         Forall (λ H, pending H sc) Hs →
     ∃ sc1, tasklet_run E Hs sc = Some sc1
       ∧ sc_bmisscount sc1 = BSTUCK_THRESH - 1
       ∧ sc_trace sc1 = sc_trace sc
       ∧ ∀ Hd sc', ¬ pending Hd sc →
           tasklet_run E (Hs ++ [Hd]) sc = Some sc' →
           sc_bmisscount sc' = 0
           ∧ ∃ tr, sc_trace sc' = sc_trace sc ++ tr ∧ resets tr = 0%nat)
  ∧ (∀ Hs, Z.of_nat (length Hs) = BSTUCK_THRESH →
           Forall (λ H, pending H sc) Hs →
       ∃ sc' tr, tasklet_run E Hs sc = Some sc'
         ∧ sc_bmisscount sc' = BSTUCK_THRESH
         ∧ sc_trace sc' = sc_trace sc ++ tr
         ∧ tr = [if sc_noreset sc then ath9k_hw_dmaRegDump_
                 else ath_internal_reset_]
         ∧ resets tr = (if sc_noreset sc then 0 else 1)%nat)
  ∧ (∀ H sc0, pending H sc0 →
       ∃ sc1 tr, ath9k_beacon_tasklet E H sc0 = Some sc1
         ∧ sc_trace sc1 = sc_trace sc0 ++ tr
         ∧ generated_for tr = [] ∧ submitted tr = []
         ∧ sc_vaps sc1 = sc_vaps sc0
         ∧ sc_cabq sc1 = sc_cabq sc0
         ∧ sc_descs sc1 = sc_descs sc0
         ∧ ast_be_xmit sc1 = ast_be_xmit sc0).
Proof.
  intros Hzero Hpos. split_and!.
  - intros Hs Hlen Hall.
    destruct (tasklet_run_pending_below E Hs sc Hall)
      as (sc1 & Hrun & Hb & Ht & Hn & Hq); [lia|].
    exists sc1. split_and!; [done|lia|done|].
    intros Hd sc' Hnp Hrun'.
    rewrite tasklet_run_app, Hrun in Hrun'. cbn in Hrun'.
    destruct (ath9k_beacon_tasklet E Hd sc1) as [sc2|] eqn:Hd2; [|done].
    cbn in Hrun'. simplify_eq.
    destruct (tasklet_drained E Hd sc1 sc') as (Hb' & tr & Htr & Hr & _);
      [unfold pending in *; by rewrite Hq|done|].
    split; [done|]. exists tr. by rewrite Htr, Ht.
  - intros Hs Hlen Hall.
    induction Hs as [|H0 Hs0 _] using rev_ind; [cbn in Hlen; lia|].
    rewrite length_app in Hlen. cbn in Hlen.
    apply Forall_app in Hall as [Hall Hlast].
    rewrite Forall_singleton in Hlast.
    destruct (tasklet_run_pending_below E Hs0 sc Hall)
      as (sc1 & Hrun & Hb & Ht & Hn & Hq); [lia|].
    rewrite tasklet_run_app, Hrun. cbn.
    assert (pending H0 sc1) as Hp1 by (unfold pending in *; by rewrite Hq).
    rewrite (tasklet_pending E H0 sc1 Hp1).
    cbn. rewrite beacon_missed_at by lia.
    eexists _, _. split; [done|]. cbn. rewrite Ht, Hn.
    split_and!; [lia|done|done|]. by destruct (sc_noreset sc).
  - intros H sc0 Hp. rewrite (tasklet_pending E H sc0 Hp).
    destruct (beacon_missed_steps sc0) as (tr & ?).
    by exists (beacon_missed sc0), tr.
Qed.

(** ** The slot of a staggered beacon *)

Lemma stagger_slot_in_range (tsf : Z) :
  0 < u16 ATH_DEFAULT_BINTVAL → 0 < ATH_BCBUF →
  u16 ATH_DEFAULT_BINTVAL * ATH_BCBUF < 2^31 →
  let intval := u16 ATH_DEFAULT_BINTVAL in
  let slot := (tsf_tu tsf mod intval) * ATH_BCBUF / intval in
  stagger_slot tsf = Some slot
  ∧ 0 <= slot <= ATH_BCBUF - 1
  ∧ c_mod (s32 (slot + 1)) ATH_BCBUF = Some ((slot + 1) mod ATH_BCBUF).
Proof.
  intros Hi Hb Hprod intval slot.
  pose proof (tsf_tu_nonneg tsf) as Htu.
  pose proof (Z.mod_pos_bound (tsf_tu tsf) intval Hi) as Hr.
  assert (0 <= (tsf_tu tsf mod intval) * ATH_BCBUF < intval * ATH_BCBUF)
    as Hm by (fold intval in Hprod; nia).
  assert (0 <= slot < ATH_BCBUF) as Hslot.
  { unfold slot. split; [apply Z.div_pos; lia|].
    apply Z.div_lt_upper_bound; lia. }
  fold intval in Hprod. split_and!; [|lia|lia|].
  - unfold stagger_slot, c_mod, c_div. fold intval.
    case_decide; [lia|]. cbn.
    rewrite Z.rem_mod_nonneg by lia.
    rewrite (u32_small ATH_BCBUF) by nia.
    rewrite u32_small by lia.
    rewrite Z.quot_div_nonneg by lia.
    fold slot. rewrite s32_small by nia. done.
  - unfold c_mod. case_decide; [lia|].
    rewrite s32_small by nia.
    rewrite Z.rem_mod_nonneg by lia. done.
Qed.


End tasklet.

(** ** Stale CAB traffic at a DTIM beacon *)

Section generate.
Context {K : core_h}.

Lemma ath_beacon_setup_spec (avp : ath_vap) (bf : ath_buf) (sc : ath_softc)
    (skb : sk_buff) (ds : ath_desc) :
  bf_mpdu bf = Some skb →
  sc_descs sc !! bf_daddr bf = Some ds →
  sc_nbcnvaps sc ≠ 0 →
  ∃ ds' flags seglen,
    ath_beacon_setup avp bf sc
    = Some (called [ath9k_hw_set11n_txdesc_ (bf_daddr bf)
                      (skb_len skb + FCS_LEN) (txpower avp) flags;
                    ath9k_hw_filltxdesc_ (bf_daddr bf) seglen;
                    ath9k_hw_set11n_ratescenario_ (bf_daddr bf);
                    ath_desc_swap_ (bf_daddr bf)]
              (sc_with_descs (<[bf_daddr bf := ds']> (sc_descs sc)) sc)).
Proof.
  intros Hskb Hds Hn. unfold ath_beacon_setup.
  rewrite Hskb. cbn. rewrite Hds. cbn.
  assert (∃ seglen, roundup32 (skb_len skb) 4 = Some seglen) as [seglen Hseg].
  { unfold roundup32, howmany32, c_div. case_decide; [done|]. by eexists. }
  destruct (bool_decide (sc_opmode sc = HAL_M_IBSS) && sc_hasveol sc).
  - cbn. rewrite Hseg. cbn. by eexists _, _, _.
  - assert (∃ antenna, beacon_antenna sc = Some antenna) as [antenna Hant].
    { unfold beacon_antenna, c_div. destruct (sc_stagbeacons sc); [|by eexists].
      case_decide; [done|]. by eexists. }
    rewrite Hant. cbn. rewrite Hseg. cbn. by eexists _, _, _.
Qed.

Lemma txq_consistent_drained (txq : ath_txq) :
  txq_consistent (ath_tx_draintxq txq).
Proof. done. Qed.

Lemma txq_consistent_depth (txq : ath_txq) :
  txq_consistent txq → axq_q txq ≠ [] → axq_depth txq < 2^31 →
  s32 (axq_depth txq) = axq_depth txq ∧ axq_depth txq ≠ 0.
Proof.
  intros [Hd _] Hne Hlt. rewrite Hd in *.
  destruct (axq_q txq); [done|]. cbn [length] in *.
  split; [apply s32_small|]; lia.
Qed.

(** C4.  A beacon is generated for an interface whose refreshed TIM says
    DTIM, whose multicast queue is not empty, while the CAB queue still
    holds frames (both queues with consistent bookkeeping, the
    descriptors involved in descriptor memory, the count of beaconing
    interfaces not 0).  Then [ath_beacon_generate] returns the beacon
    buffer and leaves the multicast queue empty.  If more than one
    interface is up and beacons are staggered, the CAB queue is drained
    once, before the merge: afterwards it holds the multicast chain only,
    with that chain's depth, and the head of the chain has been put on
    the hardware queue.  Otherwise the CAB queue is not drained: it holds
    its old frames followed by the multicast chain, and its depth is the
    sum of the depths. *)
Theorem ath_beacon_generate_stale_cab (E : mac_env) (if_id : Z)
    (sc : ath_softc) (avp : ath_vap) (bf : ath_buf) (skb skb' : sk_buff)
    (changed tim4 : Z) (tim : list Z) (bfmcast : ath_buf)
    (rest : list ath_buf) :
  let mcastq := av_mcastq avp in
  let cabq := sc_cabq sc in
  sc_vaps sc !! if_id = Some avp →
  av_bcbuf avp = Some bf →
  bf_mpdu bf = Some skb →
  ath_update_beacon E if_id skb (axq_depth mcastq) = (changed, skb', tim) →
  arr_get tim 4 = Some tim4 → Z.land tim4 1 ≠ 0 →
  axq_q mcastq = bfmcast :: rest →
  txq_consistent mcastq → axq_depth mcastq < 2^31 →
  axq_q cabq ≠ [] →
  txq_consistent cabq → axq_depth cabq < 2^31 →
  is_Some (sc_descs sc !! bf_daddr bf) →
  (∀ tail, last (axq_q cabq) = Some tail →
           is_Some (sc_descs sc !! bf_daddr tail)) →
  sc_nbcnvaps sc ≠ 0 →
  ∃ bf' sc' avp' tr,
    ath_beacon_generate E if_id sc = Some (Some bf', sc')
    ∧ bf_daddr bf' = bf_daddr bf
    ∧ sc_vaps sc' !! if_id = Some avp'
    ∧ axq_q (av_mcastq avp') = [] ∧ axq_depth (av_mcastq avp') = 0
    ∧ sc_trace sc' = sc_trace sc ++ tr
    ∧ generated_for tr = [if_id]
    ∧ if decide (sc_nvaps sc > 1 ∧ sc_stagbeacons sc = true) then
        axq_q (sc_cabq sc') = axq_q mcastq
        ∧ axq_depth (sc_cabq sc') = axq_depth mcastq
        ∧ drained tr = [axq_qnum cabq]
        ∧ submitted tr = [ath9k_hw_puttxbuf_ (axq_qnum cabq) (bf_daddr bfmcast);
                          ath9k_hw_txstart_ (axq_qnum cabq)]
      else
        axq_q (sc_cabq sc') = axq_q cabq ++ axq_q mcastq
        ∧ axq_depth (sc_cabq sc') = axq_depth cabq + axq_depth mcastq
        ∧ drained tr = []
        ∧ submitted tr = [ath9k_hw_txstart_ (axq_qnum cabq)].
Proof.
  intros mcastq cabq Hvap Hbc Hskb Hupd Htim Hdtim Hmq Hmc Hmd Hcq Hcc Hcd
    [ds Hds] Htail Hnb.
  destruct (txq_consistent_depth mcastq Hmc) as [Hms Hm0];
    [by rewrite Hmq|done|].
  destruct (txq_consistent_depth cabq Hcc Hcq Hcd) as [Hcs Hc0].
  remember (ath_beacon_generate E if_id sc) as res eqn:Hgen.
  unfold ath_beacon_generate in Hgen. rewrite Hvap in Hgen. cbn in Hgen.
  rewrite Hbc, Hskb in Hgen. cbn in Hgen.
  fold mcastq cabq in Hgen. rewrite Hms, Hcs, Hupd in Hgen. cbn in Hgen.
  rewrite Htim in Hgen. cbn in Hgen.
  (* the buffer and the state after the refresh *)
  set (bf1 := if decide (changed = 1)
              then bf_with_buf_addr (ath_skb_map_single E skb')
                     (bf_with_mpdu (Some skb') bf)
              else bf_with_mpdu (Some skb') bf).
  set (t1 := if decide (changed = 1)
             then [ath_skb_unmap_single_ skb'; ath_skb_map_single_ skb']
             else [pci_dma_sync_single_for_cpu_ (bf_buf_addr bf)]).
  set (sc1 := called t1 (called [ath_update_beacon_ if_id (axq_depth mcastq)] sc)).
  assert ((if decide (changed = 1)
           then (bf_with_buf_addr (ath_skb_map_single E skb')
                   (bf_with_mpdu (Some skb') bf),
                 called [ath_skb_unmap_single_ skb'; ath_skb_map_single_ skb']
                   (called [ath_update_beacon_ if_id (axq_depth mcastq)] sc))
           else (bf_with_mpdu (Some skb') bf,
                 called [pci_dma_sync_single_for_cpu_ (bf_buf_addr bf)]
                   (called [ath_update_beacon_ if_id (axq_depth mcastq)] sc)))
          = (bf1, sc1)) as Hrefresh.
  { unfold bf1, sc1, t1. by destruct (decide (changed = 1)). }
  rewrite Hrefresh in Hgen. clear Hrefresh. cbv beta iota in Hgen.
  rewrite (decide_True (P := axq_depth mcastq ≠ 0 ∧ _)) in Hgen by done.
  assert (bf_mpdu bf1 = Some skb' ∧ bf_daddr bf1 = bf_daddr bf) as [Hskb1 Hda1].
  { unfold bf1. by destruct (decide (changed = 1)). }
  assert (generated_for t1 = [] ∧ drained t1 = [] ∧ submitted t1 = [])
    as (Hg1 & Hd1 & Hsub1).
  { unfold t1. by destruct (decide (changed = 1)). }
  clearbody bf1 t1.
  change (sc_nvaps sc1) with (sc_nvaps sc) in Hgen.
  change (sc_stagbeacons sc1) with (sc_stagbeacons sc) in Hgen.
  destruct (decide (sc_nvaps sc > 1 ∧ sc_stagbeacons sc = true)) as [[Hnv Hst]|Hno].
  - (* the stale frames are dropped *)
    rewrite bool_decide_eq_true_2, Hst in Hgen by done.
    cbn [andb] in Hgen. cbv beta iota in Hgen.
    set (sc2 := called [ath_tx_draintxq_ (axq_qnum cabq)] sc1) in Hgen.
    destruct (ath_beacon_setup_spec (avp_with_boff tim avp) bf1 sc2 skb' ds)
      as (ds' & flags & seglen & Hsetup); [done| |done|].
    { unfold sc2, sc1. cbn. by rewrite Hda1. }
    rewrite Hsetup in Hgen. cbn [mbind option_bind] in Hgen.
    rewrite (decide_True (P := Z.land tim4 1 ≠ 0)) in Hgen by done.
    match type of Hgen with
    | context [trigger_mcastq ?mq ?cq ?s] =>
        destruct (trigger_mcastq_merge mq cq s bfmcast rest)
          as (mq' & cq' & s' & Htrig & Hdepth & Hq & Hmq0 & Hmq1 & Htr)
    end; [done|apply txq_consistent_drained|done|].
    cbn [ath_tx_draintxq axq_q axq_qnum] in Htr.
    rewrite decide_True in Htr by done.
    rewrite Htrig in Hgen. cbn [mbind option_bind] in Hgen. subst res.
    eexists _, _, _, _.
    split; [reflexivity|]. cbn. rewrite lookup_insert_eq, Htr. cbn.
    do 4 (split; [done|]).
    split; [unfold sc2, sc1; cbn; rewrite <- !app_assoc; reflexivity|].
    split_and!; try done.
    + rewrite !generated_for_app, Hg1. done.
    + unfold drained in *. rewrite !omap_app, Hd1. done.
    + unfold submitted in *. rewrite !List.filter_app, Hsub1. done.
  - (* the stale frames stay *)
    assert (bool_decide (sc_nvaps sc > 1) && sc_stagbeacons sc = false) as Hcond.
    { destruct (sc_stagbeacons sc); [|by rewrite andb_false_r].
      rewrite bool_decide_eq_false_2; [done|]. intros ?. by apply Hno. }
    rewrite Hcond in Hgen. cbv beta iota in Hgen.
    destruct (ath_beacon_setup_spec (avp_with_boff tim avp) bf1 sc1 skb' ds)
      as (ds' & flags & seglen & Hsetup); [done| |done|].
    { unfold sc1. cbn. by rewrite Hda1. }
    rewrite Hsetup in Hgen. cbn [mbind option_bind] in Hgen.
    rewrite (decide_True (P := Z.land tim4 1 ≠ 0)) in Hgen by done.
    match type of Hgen with
    | context [trigger_mcastq ?mq ?cq ?s] =>
        destruct (trigger_mcastq_merge mq cq s bfmcast rest)
          as (mq' & cq' & s' & Htrig & Hdepth & Hq & Hmq0 & Hmq1 & Htr)
    end; [done|done| |].
    { intros tail Hlast. cbn. rewrite lookup_insert_is_Some'. right.
      by apply Htail. }
    rewrite decide_False in Htr by done.
    rewrite Htrig in Hgen. cbn [mbind option_bind] in Hgen. subst res.
    eexists _, _, _, _.
    split; [reflexivity|]. cbn. rewrite lookup_insert_eq, Htr. cbn.
    do 4 (split; [done|]).
    split; [unfold sc1; cbn; rewrite <- !app_assoc; reflexivity|].
    split_and!; try done.
    + rewrite !generated_for_app, Hg1. done.
    + unfold drained in *. rewrite !omap_app, Hd1. done.
    + unfold submitted in *. rewrite !List.filter_app, Hsub1. done.
Qed.

End generate.

(** ** The beacon timers of a station *)

Section config.
Context {K : core_h}.

Lemma u32_s32 (x : Z) : 0 <= x < 2^32 → u32 (s32 x) = x.
Proof.
  intros Hx. unfold u32, s32.
  rewrite Zminus_mod_idemp_l.
  replace (x + 2^31 - 2^31) with x by lia. by apply Z.mod_small.
Qed.

Lemma s32_range (x : Z) : - 2^31 <= s32 x < 2^31.
Proof.
  unfold s32. pose proof (Z.mod_pos_bound (x + 2^31) (2^32)). lia.
Qed.

Lemma s32_zero (x : Z) : 0 <= x < 2^32 → s32 x = 0 → x = 0.
Proof.
  intros Hx Hs. rewrite <- (u32_s32 x Hx), Hs. done.
Qed.

(** *** The loop that pulls nexttbtt forward *)

Lemma tbtt_step_nexttbtt (intval dp cp : Z) (s : tbtt_state) :
  st_nexttbtt (tbtt_step intval dp cp s) = u32 (st_nexttbtt s + intval).
Proof. unfold tbtt_step. by repeat case_decide. Qed.

Lemma tbtt_iter_nexttbtt (intval dp cp : Z) (s0 : tbtt_state) (k : nat) :
  st_nexttbtt (Nat.iter k (tbtt_step intval dp cp) s0)
  = u32 (st_nexttbtt s0 + Z.of_nat k * intval) ∨ k = 0%nat.
Proof.
  induction k as [|k IH]; [by right|]. left.
  rewrite Nat.iter_succ, tbtt_step_nexttbtt.
  destruct IH as [->| ->].
  - unfold u32. rewrite Zplus_mod_idemp_l. f_equal. lia.
  - simpl Nat.iter. f_equal. lia.
Qed.

(** On exit the loop has run its body [k >= 1] times, the last of which
    is the first to reach [tsftu]. *)
Lemma tbtt_loop_exit (fuel : nat) (intval dp cp tsftu : Z)
    (s0 s : tbtt_state) :
  tbtt_loop fuel intval dp cp tsftu s0 = Some s →
  ∃ k : nat, (1 <= k <= fuel)%nat
    ∧ s = Nat.iter k (tbtt_step intval dp cp) s0
    ∧ tsftu <= st_nexttbtt s
    ∧ ∀ j : nat, (1 <= j < k)%nat →
        st_nexttbtt (Nat.iter j (tbtt_step intval dp cp) s0) < tsftu.
Proof.
  revert s0. induction fuel as [|fuel IH]; intros s0 Hl; [done|].
  cbn in Hl. case_decide as Hlt.
  - apply IH in Hl as (k & Hk & -> & Hge & Hmin).
    exists (S k). split; [lia|]. split; [by rewrite Nat.iter_succ_r|].
    split; [done|].
    intros j Hj. destruct j as [|j]; [lia|].
    rewrite Nat.iter_succ_r.
    destruct j as [|j]; [done|]. apply Hmin. lia.
  - simplify_eq. exists 1%nat. split; [lia|]. split; [done|].
    split; [lia|]. intros j Hj. lia.
Qed.

(** Where the 32-bit sums do not wrap, the loop exits, and the sums are
    the plain ones. *)
Lemma tbtt_loop_terminates (intval dp cp tsftu : Z) (d : nat)
    (s0 : tbtt_state) :
  0 < intval → tsftu + intval <= 2^32 →
  0 <= st_nexttbtt s0 → st_nexttbtt s0 + intval < 2^32 →
  tsftu - st_nexttbtt s0 <= Z.of_nat d →
  ∃ s (k : nat), tbtt_loop (S d) intval dp cp tsftu s0 = Some s
    ∧ (1 <= k)%nat
    ∧ st_nexttbtt s = st_nexttbtt s0 + Z.of_nat k * intval
    ∧ tsftu <= st_nexttbtt s
    ∧ ∀ j : nat, (1 <= j < k)%nat →
        st_nexttbtt s0 + Z.of_nat j * intval < tsftu.
Proof.
  intros Hi Hw. revert s0.
  induction d as [|d IH]; intros s0 H0 Hn Hd.
  - exists (tbtt_step intval dp cp s0), 1%nat.
    cbn [tbtt_loop]. rewrite tbtt_step_nexttbtt, u32_small by lia.
    case_decide; [lia|]. split_and!; [done|lia|lia|lia|]. intros j Hj. lia.
  - cbn [tbtt_loop].
    pose proof (tbtt_step_nexttbtt intval dp cp s0) as Hstep.
    rewrite u32_small in Hstep by lia.
    case_decide as Hlt.
    + destruct (IH (tbtt_step intval dp cp s0)) as (s & k & Hl & Hk & Hs & Hge & Hmin);
        [lia|lia|lia|].
      exists s, (S k). split_and!; [done|lia|lia|done|].
      intros j Hj. destruct j as [|j]; [lia|].
      destruct j as [|j]; [lia|].
      specialize (Hmin (S j)). lia.
    + exists (tbtt_step intval dp cp s0), 1%nat.
      split_and!; [done|lia|lia|lia|]. intros j Hj. lia.
Qed.

(** Where they do wrap the loop need not exit: with an interval of 100
    and [tsftu] at [2^32 - 1], [nexttbtt] stays a multiple of 4 and never
    gets there. *)
Remark tbtt_loop_wraps (fuel : nat) (dp cp : Z) (s0 : tbtt_state) :
  st_nexttbtt s0 mod 4 = 0 →
  tbtt_loop fuel 100 dp cp (2^32 - 1) s0 = None.
Proof.
  revert s0. induction fuel as [|fuel IH]; intros s0 H4; [done|].
  cbn [tbtt_loop].
  pose proof (tbtt_step_nexttbtt 100 dp cp s0) as Hn.
  assert (st_nexttbtt (tbtt_step 100 dp cp s0) mod 4 = 0
          ∧ st_nexttbtt (tbtt_step 100 dp cp s0) < 2^32 - 1) as [Hm Hlt].
  { rewrite Hn. unfold u32. change (2^32) with 4294967296.
    Z.div_mod_to_equations. lia. }
  case_decide; [by apply IH|lia].
Qed.

(** The body of the loop on counters in range: the DTIM count goes down
    by one and starts over from [dtimperiod - 1] below 0, and each time it
    starts over the CFP count does the same with [cfpperiod]. *)
Lemma tbtt_step_countdown (intval dp cp : Z) (s : tbtt_state) :
  0 <= st_dtimcount s < 2^31 → 0 <= st_cfpcount s < 2^31 →
  0 < dp <= 2^31 → 0 < cp <= 2^31 →
  tbtt_step intval dp cp s
  = {| st_nexttbtt := u32 (st_nexttbtt s + intval);
       st_dtimcount := if decide (st_dtimcount s = 0) then dp - 1
                       else st_dtimcount s - 1;
       st_cfpcount := if decide (st_dtimcount s = 0) then
                        if decide (st_cfpcount s = 0) then cp - 1
                        else st_cfpcount s - 1
                      else st_cfpcount s |}.
Proof.
  intros Hd Hc Hdp Hcp. unfold tbtt_step.
  rewrite (s32_small (st_dtimcount s - 1)) by lia.
  rewrite (s32_small (st_cfpcount s - 1)) by lia.
  rewrite (s32_small (dp - 1)), (s32_small (cp - 1)) by lia.
  repeat case_decide; try lia; done.
Qed.

(** *** The station branch of ath_beacon_config *)

(** [conf.u.last_tstamp] is zero, so [nexttbtt] starts out as [intval]. *)
Lemma beacon_config_base_default (m : hal_opmode) (sc : ath_softc)
    (intval nexttbtt : Z) :
  beacon_config_base default_conf m sc = Some (intval, nexttbtt) →
  nexttbtt = intval ∧ 0 <= intval < 2^32.
Proof.
  assert (∀ a b q, c_div (u32 a) (u32 b) = Some q → 0 <= q < 2^32) as Hq.
  { intros a b q. unfold c_div.
    destruct (decide (u32 b = 0)); intros ?; simplify_eq.
    pose proof (u32_range a). pose proof (u32_range b).
    rewrite Z.quot_div_nonneg by lia.
    split; [apply Z.div_pos; lia|].
    apply Z.div_lt_upper_bound; nia. }
  unfold beacon_config_base. intros Hb.
  assert (TSF_TO_TU (le_value (take 4 (drop 4 (last_tstamp default_conf))))
            (le_value (take 4 (last_tstamp default_conf))) = 0) as Hz
    by reflexivity.
  rewrite Hz in Hb. clear Hz.
  pose proof (u32_range (Z.land (beacon_interval default_conf) HAL_BEACON_PERIOD)).
  repeat (case_match; simplify_option_eq; try done); eauto.
Qed.

(** With a listen interval of 1 the sleep duration is the interval. *)
Lemma sta_sleepduration_default (intval : Z) :
  0 <= intval < 2^32 → sta_sleepduration default_conf intval = s32 intval.
Proof.
  intros Hi. unfold sta_sleepduration. cbn [listen_interval default_conf].
  rewrite Z.mul_1_l, u32_small by done. by case_decide.
Qed.

(** The miss threshold is [howmany(bmiss_timeout, intval)] clamped to 1
    up to 15; the other way of setting it is out of reach. *)
Lemma sta_bmissthreshold_default (intval : Z) :
  0 < intval < 2^32 →
  ∃ t, sta_bmissthreshold default_conf intval (s32 intval) = Some t
       ∧ 1 <= t <= 15.
Proof.
  intros Hi. unfold sta_bmissthreshold. rewrite u32_s32 by lia.
  case_decide; [lia|]. unfold howmany32, c_div.
  case_decide; [lia|]. cbn.
  repeat case_decide; eexists; (split; [done|lia]).
Qed.

(** The beacon state of the station branch, for a positive interval: the
    loop decides whether there is one, and gives [nexttbtt] and the dtim
    count. *)
Lemma sta_beacon_state_default (tsf intval : Z) :
  0 < intval < 2^32 →
  ∃ t sleep, 1 <= t <= 15 ∧ ∀ fuel,
    sta_beacon_state fuel default_conf tsf intval intval
    = s ← tbtt_loop fuel intval (sta_dtimperiod default_conf) 1
            (u32 (tsf_tu tsf + FUDGE))
            {| st_nexttbtt := intval;
               st_dtimcount := sta_dtimcount default_conf;
               st_cfpcount := 0 |};
      Some {| bs_intval := intval;
              bs_nexttbtt := st_nexttbtt s;
              bs_dtimperiod := u32 (sta_dtimperiod default_conf * intval);
              bs_nextdtim := u32 (st_nexttbtt s + st_dtimcount s * intval);
              bs_cfpperiod := u32 (1 * u32 (sta_dtimperiod default_conf * intval));
              bs_cfpnext := u32 (u32 (st_nexttbtt s + st_dtimcount s * intval)
                                 + st_cfpcount s
                                   * u32 (sta_dtimperiod default_conf * intval));
              bs_cfpmaxduration := 0;
              bs_bmissthreshold := t;
              bs_sleepduration := sleep |}.
Proof.
  intros Hi.
  destruct (sta_bmissthreshold_default intval Hi) as (t & Ht & Hrange).
  assert (∃ r, roundup_int (IEEE80211_MS_TO_TU 100) (s32 intval) = Some r)
    as [r Hr].
  { unfold roundup_int, c_div. case_decide as Hz; [|by eexists].
    apply s32_zero in Hz; lia. }
  eexists t, _. split; [done|]. intros fuel.
  unfold sta_beacon_state.
  rewrite sta_sleepduration_default by lia. rewrite Ht, Hr.
  destruct (tbtt_loop _ _ _ _ _ _); done.
Qed.

Lemma sta_beacon_state_zero (fuel : nat) (tsf : Z) :
  sta_beacon_state fuel default_conf tsf 0 0 = None.
Proof.
  unfold sta_beacon_state.
  destruct (tbtt_loop _ _ _ _ _ _); [|done]. cbn [mbind option_bind].
  rewrite sta_sleepduration_default by lia.
  unfold sta_bmissthreshold, howmany32, c_div. by case_decide.
Qed.

(** [ath_beacon_config] computes station timers exactly in the station
    branch, from the interval and the clock. *)
Lemma ath_beacon_config_sta (fuel : nat) (H : hal_readings) (if_id : Z)
    (sc sc' : ath_softc) (bs : hal_beacon_state) :
  ath_beacon_config fuel H if_id sc = Some (sta_beacon_timers bs, sc') →
  ∃ m intval,
    beacon_config_opmode if_id sc = Some m
    ∧ sta_timers m sc = true
    ∧ beacon_config_base default_conf m sc = Some (intval, intval)
    ∧ 0 < intval < 2^32
    ∧ sta_beacon_state fuel default_conf (ath9k_hw_gettsf64 H) intval intval
      = Some bs.
Proof.
  unfold ath_beacon_config. intros Hc.
  destruct (beacon_config_opmode if_id sc) as [m|]; [|done]. cbn in Hc.
  destruct (beacon_config_base default_conf m sc) as [[intval n]|] eqn:Hb;
    [|done].
  cbn in Hc.
  destruct (beacon_config_base_default _ _ _ _ Hb) as [-> Hrange].
  destruct (sta_timers m sc) eqn:Hsta.
  - destruct (sta_beacon_state fuel _ _ intval intval) as [bs0|] eqn:Hs; [|done].
    cbn in Hc. exists m, intval.
    assert (bs0 = bs) as -> by (destruct (sc_nostabeacons sc); by simplify_eq).
    assert (intval ≠ 0) as Hnz.
    { intros ->. by rewrite sta_beacon_state_zero in Hs. }
    split_and!; try done; lia.
  - exfalso. repeat (case_match; simplify_option_eq; try done).
Qed.

Lemma ath_beacon_config_sta_total (fuel : nat) (H : hal_readings) (if_id : Z)
    (sc : ath_softc) (m : hal_opmode) (intval nexttbtt : Z)
    (bs : hal_beacon_state) :
  beacon_config_opmode if_id sc = Some m →
  sta_timers m sc = true →
  beacon_config_base default_conf m sc = Some (intval, nexttbtt) →
  sta_beacon_state fuel default_conf (ath9k_hw_gettsf64 H) intval nexttbtt
  = Some bs →
  ∃ sc', ath_beacon_config fuel H if_id sc = Some (sta_beacon_timers bs, sc').
Proof.
  intros Hm Hsta Hb Hs. unfold ath_beacon_config.
  rewrite Hm. cbn. rewrite Hb. cbn. rewrite Hsta, Hs. cbn.
  destruct (sc_nostabeacons sc); by eexists.
Qed.

(** The station branch goes through when the interval is positive and the
    additions in the loop stay below [2^32]. *)
Lemma ath_beacon_config_sta_exit (H : hal_readings) (if_id : Z)
    (sc : ath_softc) (m : hal_opmode) (intval nexttbtt : Z) :
  beacon_config_opmode if_id sc = Some m →
  sta_timers m sc = true →
  beacon_config_base default_conf m sc = Some (intval, nexttbtt) →
  0 < intval < 2^31 →
  tsf_tu (ath9k_hw_gettsf64 H) + FUDGE + intval <= 2^32 →
  ∃ fuel bs sc' (k : nat),
    ath_beacon_config fuel H if_id sc = Some (sta_beacon_timers bs, sc')
    ∧ (1 <= k)%nat
    ∧ nexttbtt = intval
    ∧ bs_intval bs = intval
    ∧ bs_nexttbtt bs = nexttbtt + Z.of_nat k * intval
    ∧ tsf_tu (ath9k_hw_gettsf64 H) + FUDGE <= bs_nexttbtt bs
    ∧ (∀ j : nat, (1 <= j < k)%nat →
         nexttbtt + Z.of_nat j * intval < tsf_tu (ath9k_hw_gettsf64 H) + FUDGE)
    ∧ 1 <= bs_bmissthreshold bs <= 15.
Proof.
  intros Hm Hsta Hb Hi Hw.
  destruct (beacon_config_base_default _ _ _ _ Hb) as [-> _].
  pose proof (tsf_tu_nonneg (ath9k_hw_gettsf64 H)) as Htu.
  unfold FUDGE in *.
  set (tsftu := tsf_tu (ath9k_hw_gettsf64 H) + 2) in *.
  destruct (tbtt_loop_terminates intval (sta_dtimperiod default_conf) 1 tsftu
              (Z.to_nat (tsftu - intval))
              {| st_nexttbtt := intval;
                 st_dtimcount := sta_dtimcount default_conf;
                 st_cfpcount := 0 |})
    as (s & k & Hl & Hk & Hs & Hge & Hmin); cbn; try lia.
  cbn in Hs, Hmin.
  destruct (sta_beacon_state_default (ath9k_hw_gettsf64 H) intval)
    as (t & sleep & Ht & Hstate); [lia|].
  specialize (Hstate (S (Z.to_nat (tsftu - intval)))).
  unfold FUDGE in Hstate. fold tsftu in Hstate.
  rewrite (u32_small tsftu) in Hstate by lia.
  rewrite Hl in Hstate. cbn [mbind option_bind] in Hstate.
  destruct (ath_beacon_config_sta_total _ H if_id sc m intval intval _
              Hm Hsta Hb Hstate) as [sc' Hc].
  eexists _, _, sc', k. split; [exact Hc|]. cbn.
  split_and!; try done; lia.
Qed.

(** *** The miss threshold *)

(** C5.  Whenever [ath_beacon_config] computes station timers, the beacon
    miss threshold among them is at least 1 and at most 15.  It does
    compute them, given enough rounds of the loop, in the station branch
    with a positive interval when clock, fudge and interval add up to no
    more than [2^32]. *)
Theorem sta_bmissthreshold_bounds (H : hal_readings) (if_id : Z)
    (sc : ath_softc) :
  (∀ fuel bs sc',
     ath_beacon_config fuel H if_id sc = Some (sta_beacon_timers bs, sc') →
     1 <= bs_bmissthreshold bs <= 15)
  ∧ (∀ m intval nexttbtt,
       beacon_config_opmode if_id sc = Some m →
       sta_timers m sc = true →
       beacon_config_base default_conf m sc = Some (intval, nexttbtt) →
       0 < intval < 2^31 →
       tsf_tu (ath9k_hw_gettsf64 H) + FUDGE + intval <= 2^32 →
       ∃ fuel bs sc',
         ath_beacon_config fuel H if_id sc = Some (sta_beacon_timers bs, sc')
         ∧ 1 <= bs_bmissthreshold bs <= 15).
Proof.
  split.
  - intros fuel bs sc' Hc.
    apply ath_beacon_config_sta in Hc as (m & intval & _ & _ & _ & Hi & Hs).
    destruct (sta_beacon_state_default (ath9k_hw_gettsf64 H) intval Hi)
      as (t & sleep & Ht & Hstate).
    rewrite Hstate in Hs.
    destruct (tbtt_loop _ _ _ _ _ _) as [s|]; [|done].
    cbn in Hs. by simplify_eq.
  - intros m intval nexttbtt Hm Hsta Hb Hi Hw.
    destruct (ath_beacon_config_sta_exit H if_id sc m intval nexttbtt
                Hm Hsta Hb Hi Hw)
      as (fuel & bs & sc' & k & Hc & _ & _ & _ & _ & _ & _ & Hbm).
    by exists fuel, bs, sc'.
Qed.

(** *** Pulling nexttbtt forward *)

(** C6.  In the station branch [ath_beacon_config] starts [nexttbtt] at
    the interval (the timestamp of the last beacon is zero) and runs the
    loop [tbtt_loop], whose body [tbtt_step] adds the interval to
    [nexttbtt] and counts the DTIM count down, starting it over at
    [dtimperiod - 1] below 0 and then doing the same to the CFP count.
    With [tsftu] the clock in TU plus the fudge of 2, as a 32-bit sum:
    - whenever station timers come back, the body has run [k >= 1] times,
      [nexttbtt] is the 32-bit sum of its start and [k] intervals, it is
      at least [tsftu], and it was below [tsftu] after each earlier round;
    - with a positive interval, and clock, fudge and interval adding up
      to no more than [2^32], station timers do come back given enough
      rounds, none of the sums wraps, and [nexttbtt] is its start plus [k]
      intervals and at least the clock in TU plus 2;
    - on counters in range the body is the countdown described. *)
Theorem sta_nexttbtt_alignment (H : hal_readings) (if_id : Z)
    (sc : ath_softc) :
  let tsf := ath9k_hw_gettsf64 H in
  let tsftu := u32 (tsf_tu tsf + FUDGE) in
  (∀ fuel bs sc',
     ath_beacon_config fuel H if_id sc = Some (sta_beacon_timers bs, sc') →
     let intval := bs_intval bs in
     let step := tbtt_step intval (sta_dtimperiod default_conf) 1 in
     let s0 := {| st_nexttbtt := intval;
                  st_dtimcount := sta_dtimcount default_conf;
                  st_cfpcount := 0 |} in
     0 < intval
     ∧ ∃ k : nat, (1 <= k <= fuel)%nat
         ∧ bs_nexttbtt bs = st_nexttbtt (Nat.iter k step s0)
         ∧ bs_nextdtim bs
           = u32 (bs_nexttbtt bs + st_dtimcount (Nat.iter k step s0) * intval)
         ∧ bs_nexttbtt bs = u32 (intval + Z.of_nat k * intval)
         ∧ tsftu <= bs_nexttbtt bs
         ∧ ∀ j : nat, (1 <= j < k)%nat →
             u32 (intval + Z.of_nat j * intval) < tsftu)
  ∧ (∀ m intval nexttbtt,
       beacon_config_opmode if_id sc = Some m →
       sta_timers m sc = true →
       beacon_config_base default_conf m sc = Some (intval, nexttbtt) →
       0 < intval < 2^31 →
       tsf_tu tsf + FUDGE + intval <= 2^32 →
       ∃ fuel bs sc' (k : nat),
         ath_beacon_config fuel H if_id sc = Some (sta_beacon_timers bs, sc')
         ∧ (1 <= k)%nat
         ∧ nexttbtt = intval
         ∧ bs_nexttbtt bs = nexttbtt + Z.of_nat k * intval
         ∧ tsf_tu tsf + FUDGE <= bs_nexttbtt bs
         ∧ ∀ j : nat, (1 <= j < k)%nat →
             nexttbtt + Z.of_nat j * intval < tsf_tu tsf + FUDGE)
  ∧ (∀ intval dtimperiod cfpperiod s,
       0 <= st_dtimcount s < 2^31 → 0 <= st_cfpcount s < 2^31 →
       0 < dtimperiod <= 2^31 → 0 < cfpperiod <= 2^31 →
       tbtt_step intval dtimperiod cfpperiod s
       = {| st_nexttbtt := u32 (st_nexttbtt s + intval);
            st_dtimcount := if decide (st_dtimcount s = 0) then dtimperiod - 1
                            else st_dtimcount s - 1;
            st_cfpcount := if decide (st_dtimcount s = 0) then
                             if decide (st_cfpcount s = 0) then cfpperiod - 1
                             else st_cfpcount s - 1
                           else st_cfpcount s |}).
Proof.
  intros tsf tsftu. split_and!.
  - intros fuel bs sc' Hc.
    apply ath_beacon_config_sta in Hc as (m & intval & _ & _ & _ & Hi & Hs).
    destruct (sta_beacon_state_default tsf intval Hi)
      as (t & sleep & Ht & Hstate).
    rewrite Hstate in Hs. fold tsftu in Hs.
    destruct (tbtt_loop _ _ _ _ _ _) as [s|] eqn:Hl; [|done].
    cbn in Hs. simplify_eq. cbn.
    apply tbtt_loop_exit in Hl as (k & Hk & -> & Hge & Hmin).
    split; [lia|]. exists k.
    assert (∀ j : nat, (1 <= j)%nat →
              st_nexttbtt (Nat.iter j
                (tbtt_step intval (sta_dtimperiod default_conf) 1)
                {| st_nexttbtt := intval;
                   st_dtimcount := sta_dtimcount default_conf;
                   st_cfpcount := 0 |})
              = u32 (intval + Z.of_nat j * intval)) as Hsum.
    { intros j Hj.
      by destruct (tbtt_iter_nexttbtt intval (sta_dtimperiod default_conf) 1
                     {| st_nexttbtt := intval;
                        st_dtimcount := sta_dtimcount default_conf;
                        st_cfpcount := 0 |} j) as [->|?]; [|lia]. }
    split; [done|]. split; [done|]. split; [done|].
    split; [apply Hsum; lia|]. split; [done|].
    intros j Hj. rewrite <- Hsum by lia. by apply Hmin.
  - intros m intval nexttbtt Hm Hsta Hb Hi Hw.
    destruct (ath_beacon_config_sta_exit H if_id sc m intval nexttbtt
                Hm Hsta Hb Hi Hw)
      as (fuel & bs & sc' & k & Hc & Hk & Hn & _ & Hs & Hge & Hmin & _).
    by exists fuel, bs, sc', k.
  - intros. by apply tbtt_step_countdown.
Qed.

End config.

(** ** The properties on the sample states *)

Section scenarios.
Local Existing Instance scenario.

(** On the sample access point, interface 0 is given the second slot of
    the double slot (0, 1). *)
Lemma ath_beacon_alloc_spaced_slot_witness :
  sc_vaps sample_sc !! 0 = Some sample_vap
  ∧ av_bcbuf sample_vap = None
  ∧ sc_bbuf sample_sc ≠ []
  ∧ needs_bslot sample_sc = true
  ∧ Z.of_nat (length (sc_bslot sample_sc)) = ATH_BCBUF
  ∧ slot_empty (sc_bslot sample_sc) 0
  ∧ ∃ r avp1 sc1,
      beacon_state_alloc 0 sample_vap sample_sc = Some (avp1, sc1)
      ∧ av_bslot avp1 = r
      ∧ spaced_slot (sc_bslot sample_sc) r.
Proof.
  assert (sc_vaps sample_sc !! 0 = Some sample_vap) as H1 by reflexivity.
  assert (av_bcbuf sample_vap = None) as H2 by reflexivity.
  assert (sc_bbuf sample_sc ≠ []) as H3 by discriminate.
  assert (needs_bslot sample_sc = true) as H4 by reflexivity.
  assert (Z.of_nat (length (sc_bslot sample_sc)) = ATH_BCBUF) as H5
    by reflexivity.
  assert (slot_empty (sc_bslot sample_sc) 0) as H6 by reflexivity.
  split_and!; try assumption.
  destruct (ath_beacon_alloc_spaced_slot (sample_env 0) 0 sample_sc
              sample_vap 0 H1 H2 H3 H4 H5 H6)
    as (r & avp1 & sc1 & Hb & Hr & _ & Hs & _).
  exists r, avp1, sc1. split_and!; assumption.
Defined.

(** C1 as stated does not hold.  With interface 0 in slot 1, the first
    empty slot of the table [255; 0; 255; 255] is slot 0 and the slot
    after it is taken, so the described choice is slot 0; interface 1 is
    given slot 3, the second slot of the double slot (2, 3). *)
Lemma first_fit_slot_counterexample :
  needs_bslot sample_sc_one = true
  ∧ sc_bslot sample_sc_one = [255; 0; 255; 255]
  ∧ first_empty_slot (sc_bslot sample_sc_one) 0
  ∧ ¬ double_slot (sc_bslot sample_sc_one) 0
  ∧ (av_bslot ∘ fst) <$> beacon_state_alloc 1 sample_vap sample_sc_one
    = Some 3
  ∧ (ath_beacon_alloc (sample_env 0) 1 sample_sc_one
       ≫= λ r, av_bslot <$> sc_vaps r.2 !! 1) = Some 3
  ∧ ¬ first_fit_slot (sc_bslot sample_sc_one) 3.
Proof.
  assert (first_empty_slot (sc_bslot sample_sc_one) 0) as Hfirst.
  { split; [reflexivity|]. split; [reflexivity|].
    intros j Hj He. apply slot_empty_range in He. lia. }
  split_and!; try reflexivity; try assumption.
  - intros (_ & _ & He). discriminate He.
  - intros (f & (He & Hlt & Hmin) & Hchoice).
    assert (f <= 0) as Hf.
    { destruct (decide (f <= 0)); [done|].
      exfalso. apply (Hmin 0); [lia|reflexivity]. }
    apply slot_empty_range in He. assert (f = 0) as -> by lia.
    destruct Hchoice as [[_ Hr]|[_ Hr]]; discriminate Hr.
Qed.

(** Nine misses in a row on the sample access point take the reset
    path once. *)
Lemma beacon_miss_escalation_witness :
  sc_bmisscount sample_sc = 0
  ∧ 0 < BSTUCK_THRESH
  ∧ ∃ sc' tr,
      tasklet_run (sample_env 0) (replicate 9 (sample_readings 1 0)) sample_sc
      = Some sc'
      ∧ sc_trace sc' = sc_trace sample_sc ++ tr
      ∧ resets tr = 1%nat.
Proof.
  assert (sc_bmisscount sample_sc = 0) as H1 by reflexivity.
  assert (0 < BSTUCK_THRESH) as H2 by reflexivity.
  split; [assumption|]. split; [assumption|].
  destruct (beacon_miss_escalation (sample_env 0) sample_sc H1 H2)
    as (_ & Hstuck & _).
  destruct (Hstuck (replicate 9 (sample_readings 1 0)))
    as (sc' & tr & Hrun & _ & Htr & _ & Hr).
  - reflexivity.
  - repeat constructor; discriminate.
  - exists sc', tr. split_and!; assumption.
Defined.

(** C2 as stated does not hold.  With [sc_noreset] set, nine (that is,
    [BSTUCK_THRESH]) cycles in a row that find the beacon queue pending,
    starting from a miss counter of 0, never take the reset path. *)
Lemma reset_once_counterexample :
  let sc := sample_softc HAL_M_HOSTAP true true in
  let Hs := replicate 9 (sample_readings 1 0) in
  sc_bmisscount sc = 0
  ∧ Z.of_nat (length Hs) = BSTUCK_THRESH
  ∧ Forall (λ H, pending H sc) Hs
  ∧ (resets ∘ sc_trace) <$> tasklet_run (sample_env 0) Hs sc = Some 0%nat
  ∧ sc_trace <$> tasklet_run (sample_env 0) Hs sc
    = Some [ath9k_hw_dmaRegDump_].
Proof.
  split_and!; try reflexivity. repeat constructor; discriminate.
Qed.

(** A multicast queue of two frames merged into a CAB queue of one. *)
Lemma empty_mcastq_into_cabq_merge_witness :
  let mcastq := sample_txq 8 [sample_buf 8192; sample_buf 8256] in
  let cabq := sample_txq 7 [sample_buf 8320] in
  axq_q mcastq = [sample_buf 8192; sample_buf 8256]
  ∧ txq_consistent cabq
  ∧ (∀ tail, last (axq_q cabq) = Some tail →
             is_Some (sc_descs sample_sc !! bf_daddr tail))
  ∧ ∃ mcastq' cabq' sc',
      empty_mcastq_into_cabq mcastq cabq sample_sc = Some (mcastq', cabq', sc')
      ∧ axq_depth cabq' = 3
      ∧ axq_depth mcastq' = 0
      ∧ ds_link <$> sc_descs sc' !! 8320 = Some 8192.
Proof.
  intros mcastq cabq.
  assert (axq_q mcastq = [sample_buf 8192; sample_buf 8256]) as H1
    by reflexivity.
  assert (txq_consistent cabq) as H2 by (split; reflexivity).
  assert (∀ tail, last (axq_q cabq) = Some tail →
                  is_Some (sc_descs sample_sc !! bf_daddr tail)) as H3.
  { intros tail Ht. injection Ht as <-.
    exists {| ds_link := 0; ds_data := 0 |}. reflexivity. }
  split_and!; try assumption.
  destruct (empty_mcastq_into_cabq_merge mcastq cabq sample_sc
              (sample_buf 8192) [sample_buf 8256] H1 H2 H3)
    as (mq & cq & sc' & Hm & _ & Hd & _ & Hd0 & _ & _ & _ & _ & Hlink & _).
  destruct (Hlink (sample_buf 8320) eq_refl) as (Hl & _).
  exists mq, cq, sc'. split_and!; assumption.
Defined.

(** A DTIM beacon of interface 0 with two staggering interfaces up: the
    stale frame is dropped from the CAB queue. *)
Lemma ath_beacon_generate_stale_cab_witness :
  ∃ bf' sc',
    ath_beacon_generate (sample_env 1) 0 sample_sc_dtim = Some (Some bf', sc')
    ∧ axq_q (sc_cabq sc') = [sample_buf 8192; sample_buf 8256]
    ∧ axq_depth (sc_cabq sc') = 2.
Proof.
  destruct (ath_beacon_generate_stale_cab (sample_env 1) 0 sample_sc_dtim
              (avp_with_mcastq
                 (sample_txq 8 [sample_buf 8192; sample_buf 8256])
                 (avp_with_bslot 1
                    (avp_with_bcbuf
                       (Some {| bf_daddr := 4096; bf_buf_addr := 12288;
                                bf_mpdu := Some sample_frame |})
                       sample_vap)))
              {| bf_daddr := 4096; bf_buf_addr := 12288;
                 bf_mpdu := Some sample_frame |}
              sample_frame sample_frame 0 1 [5; 4; 0; 1; 1; 0]
              (sample_buf 8192) [sample_buf 8256])
    as (bf' & sc' & avp' & tr & Hg & _ & _ & _ & _ & _ & _ & Hcab).
  - reflexivity.
  - reflexivity.
  - reflexivity.
  - reflexivity.
  - reflexivity.
  - discriminate.
  - reflexivity.
  - split; reflexivity.
  - reflexivity.
  - discriminate.
  - split; reflexivity.
  - reflexivity.
  - exists {| ds_link := 0; ds_data := 0 |}. reflexivity.
  - intros tail Ht. injection Ht as <-.
    exists {| ds_link := 0; ds_data := 0 |}. reflexivity.
  - discriminate.
  - exists bf', sc'. destruct Hcab as (Hq & Hd & _). split_and!; assumption.
Defined.

(** A station with the clock at 1000 TU. *)
Lemma sta_bmissthreshold_bounds_witness :
  beacon_config_opmode 255 sample_sta = Some HAL_M_STA
  ∧ sta_timers HAL_M_STA sample_sta = true
  ∧ beacon_config_base default_conf HAL_M_STA sample_sta = Some (100, 100)
  ∧ 0 < 100 < 2^31
  ∧ tsf_tu (ath9k_hw_gettsf64 sample_clock) + FUDGE + 100 <= 2^32
  ∧ ∃ fuel bs sc',
      ath_beacon_config fuel sample_clock 255 sample_sta
      = Some (sta_beacon_timers bs, sc')
      ∧ 1 <= bs_bmissthreshold bs <= 15.
Proof.
  assert (beacon_config_opmode 255 sample_sta = Some HAL_M_STA) as H1
    by reflexivity.
  assert (sta_timers HAL_M_STA sample_sta = true) as H2 by reflexivity.
  assert (beacon_config_base default_conf HAL_M_STA sample_sta
          = Some (100, 100)) as H3 by reflexivity.
  assert (0 < 100 < 2^31) as H4 by (split; reflexivity).
  assert (tsf_tu (ath9k_hw_gettsf64 sample_clock) + FUDGE + 100 <= 2^32) as H5
    by discriminate.
  do 5 (split; [assumption|]).
  exact (proj2 (sta_bmissthreshold_bounds sample_clock 255 sample_sta)
           HAL_M_STA 100 100 H1 H2 H3 H4 H5).
Defined.

Lemma sta_nexttbtt_alignment_witness :
  beacon_config_opmode 255 sample_sta = Some HAL_M_STA
  ∧ sta_timers HAL_M_STA sample_sta = true
  ∧ beacon_config_base default_conf HAL_M_STA sample_sta = Some (100, 100)
  ∧ 0 < 100 < 2^31
  ∧ tsf_tu (ath9k_hw_gettsf64 sample_clock) + FUDGE + 100 <= 2^32
  ∧ ∃ fuel bs sc' (k : nat),
      ath_beacon_config fuel sample_clock 255 sample_sta
      = Some (sta_beacon_timers bs, sc')
      ∧ (1 <= k)%nat
      ∧ bs_nexttbtt bs = 100 + Z.of_nat k * 100
      ∧ tsf_tu (ath9k_hw_gettsf64 sample_clock) + FUDGE <= bs_nexttbtt bs.
Proof.
  assert (beacon_config_opmode 255 sample_sta = Some HAL_M_STA) as H1
    by reflexivity.
  assert (sta_timers HAL_M_STA sample_sta = true) as H2 by reflexivity.
  assert (beacon_config_base default_conf HAL_M_STA sample_sta
          = Some (100, 100)) as H3 by reflexivity.
  assert (0 < 100 < 2^31) as H4 by (split; reflexivity).
  assert (tsf_tu (ath9k_hw_gettsf64 sample_clock) + FUDGE + 100 <= 2^32) as H5
    by discriminate.
  do 5 (split; [assumption|]).
  destruct (proj1 (proj2 (sta_nexttbtt_alignment sample_clock 255 sample_sta))
              HAL_M_STA 100 100 H1 H2 H3 H4 H5)
    as (fuel & bs & sc' & k & Hc & Hk & _ & Hn & Hge & _).
  exists fuel, bs, sc', k. split_and!; assumption.
Defined.

(** C6 as stated does not hold.  At a clock of [2^32 - 1] TU the
    [u_int32_t] sum of clock and fudge wraps to 1, so the loop of the
    station is left after its first round: [nexttbtt] is 200, two
    intervals of 100, and below the clock in TU plus 2. *)
Lemma sta_nexttbtt_wrap_counterexample :
  let H := sample_readings 0 ((2^32 - 1) * 1024) in
  let nexttbtt (r : beacon_timers * ath_softc) :=
    match r.1 with
    | sta_beacon_timers bs => Some (bs_intval bs, bs_nexttbtt bs)
    | ap_beacon_timers _ _ => None
    end in
  beacon_config_opmode 255 sample_sta = Some HAL_M_STA
  ∧ sta_timers HAL_M_STA sample_sta = true
  ∧ tsf_tu (ath9k_hw_gettsf64 H) = 2^32 - 1
  ∧ u32 (tsf_tu (ath9k_hw_gettsf64 H) + FUDGE) = 1
  ∧ ath_beacon_config 1 H 255 sample_sta ≫= nexttbtt = Some (100, 200)
  ∧ ath_beacon_config 20 H 255 sample_sta ≫= nexttbtt = Some (100, 200)
  ∧ ¬ (tsf_tu (ath9k_hw_gettsf64 H) + FUDGE <= 200).
Proof.
  split_and!; try reflexivity. intros Hle. by vm_compute in Hle.
Qed.


(** The sample access point satisfies the slot table invariant. *)
Lemma sample_sc_inv : bslot_inv sample_sc.
Proof.
  assert (∀ id avp, sc_vaps sample_sc !! id = Some avp →
            (id = 0 ∨ id = 1) ∧ avp = sample_vap) as Hvaps.
  { intros id avp Hv. unfold sample_sc, sample_softc in Hv. cbn in Hv.
    apply lookup_insert_Some in Hv as [[<- <-]|[_ Hv]]; [auto|].
    apply lookup_singleton_Some in Hv as [<- <-]. auto. }
  split.
  - reflexivity.
  - intros id avp Hv. destruct (Hvaps id avp Hv) as [[->| ->] _]; discriminate.
  - intros s id Hs Hany. exfalso.
    pose proof (arr_get_Some_range _ _ _ Hs) as Hr. cbn in Hr.
    assert (s = 0 ∨ s = 1 ∨ s = 2 ∨ s = 3) as [->|[->|[->| ->]]] by lia;
      cbv in Hs; injection Hs as <-; by apply Hany.
  - intros _ id avp Hv [bf Hbf].
    destruct (Hvaps id avp Hv) as [_ ->]. discriminate Hbf.
  - discriminate.
  - reflexivity.
Defined.

(** Allocations and a release on the sample access point. *)
Lemma bslot_inv_alloc_return_witness :
  bslot_inv sample_sc
  ∧ ∀ sc', run_ops [op_alloc (sample_env 0) 0; op_alloc (sample_env 0) 1;
                    op_return 0; op_alloc (sample_env 0) 0] sample_sc
           = Some sc' →
           bslot_inv sc'.
Proof.
  split; [exact sample_sc_inv|].
  exact (proj1 (bslot_inv_alloc_return sample_sc sample_sc_inv) _).
Defined.

(** Interface 1 of the sample access point is given slot 3: its frame
    carries 25 TU, shifted left by 10, behind the header. *)
Lemma ath_beacon_alloc_tsfadjust_witness :
  ∃ sc' bf skb,
    ath_beacon_alloc (sample_env 0) 1 sample_sc_one = Some (0, sc')
    ∧ av_bslot <$> sc_vaps sc' !! 1 = Some 3
    ∧ sc_vaps sc' !! 1 ≫= av_bcbuf = Some bf
    ∧ bf_mpdu bf = Some skb
    ∧ le_value (take 8 (drop 24 (skb_data skb))) = 25 * 1024.
Proof.
  destruct (ath_beacon_alloc_tsfadjust (sample_env 0) 1 sample_sc_one
              (sc_with_nbcnvaps 2
                 (sc_with_bslot [255; 0; 255; 1]
                    (sc_with_bbuf (sample_buf <$> [4224; 4288]) sample_sc_one)))
              sample_vap
              (avp_with_bslot 3 (avp_with_bcbuf (Some (sample_buf 4160)) sample_vap))
              sample_frame [5; 4; 0; 1; 0; 0] 30)
    as (sc' & bf & skb & Ha & Hs & Hb & Hm & Hadj & _).
  - reflexivity.
  - reflexivity.
  - reflexivity.
  - reflexivity.
  - reflexivity.
  - reflexivity.
  - reflexivity.
  - reflexivity.
  - discriminate.
  - discriminate.
  - exists sc', bf, skb. split_and!; try assumption.
    exact (proj2 (Hadj eq_refl)).
Defined.

(** Releasing the beacon state of an interface that has none. *)
Lemma ath_beacon_return_no_slot_witness :
  sc_vaps sample_sc !! 0 = Some sample_vap
  ∧ av_bcbuf sample_vap = None
  ∧ ath_beacon_return 0 sample_sc = Some sample_sc.
Proof.
  assert (sc_vaps sample_sc !! 0 = Some sample_vap) as H1 by reflexivity.
  assert (av_bcbuf sample_vap = None) as H2 by reflexivity.
  split_and!; try assumption.
  exact (proj1 (ath_beacon_return_no_slot 0 sample_sc sample_vap H1) H2).
Defined.

End scenarios.

(** * Further properties *)

(** ** The clock in TU *)

(** X1.  [TSF_TO_TU(tsf>>32, tsf)], as the tasklet and [ath_beacon_config]
    apply it to the 64-bit clock, is the clock in units of 1024
    microseconds, cut to 32 bits. *)
Theorem tsf_tu_div (tsf : Z) : tsf_tu tsf = (tsf / 1024) mod 2^32.
Proof.
  unfold tsf_tu, TSF_TO_TU, u32.
  apply Z.bits_inj'. intros n Hn.
  rewrite Z.lor_spec.
  change 1024 with (2^10). rewrite <- Z.shiftr_div_pow2 by lia.
  destruct (decide (n < 32)) as [Hlt|Hge].
  - rewrite (Z.mod_pow2_bits_low _ 32 n) by lia.
    rewrite (Z.mod_pow2_bits_low (Z.shiftr tsf 10) 32 n) by lia.
    rewrite !Z.shiftr_spec by lia.
    destruct (decide (n < 22)) as [Hlow|Hhigh].
    + rewrite Z.shiftl_spec_low by lia.
      by rewrite Z.mod_pow2_bits_low by lia.
    + rewrite Z.shiftl_spec by lia.
      rewrite Z.mod_pow2_bits_low by lia.
      rewrite Z.shiftr_spec by lia.
      rewrite (Z.mod_pow2_bits_high tsf 32 (n + 10)) by lia.
      rewrite orb_false_r. f_equal. lia.
  - rewrite (Z.mod_pow2_bits_high _ 32 n) by lia.
    rewrite (Z.mod_pow2_bits_high (Z.shiftr tsf 10) 32 n) by lia.
    rewrite Z.shiftr_spec by lia.
    by rewrite (Z.mod_pow2_bits_high tsf 32 (n + 10)) by lia.
Qed.

(** ** Allocation, release and the buffer pool *)

Section pool.
Context {K : core_h}.

Lemma called_nil (sc : ath_softc) : called [] sc = sc.
Proof. destruct sc. unfold called. cbn. by rewrite app_nil_r. Qed.

Lemma called_called (a b : list call) (sc : ath_softc) :
  called b (called a sc) = called (a ++ b) sc.
Proof. unfold called. cbn. by rewrite app_assoc. Qed.

Lemma bf_with_mpdu_id (bf : ath_buf) :
  bf_mpdu bf = None → bf_with_mpdu None bf = bf.
Proof. destruct bf. cbn. by intros ->. Qed.

Lemma release_mpdu_eq (bf : ath_buf) (sc : ath_softc) :
  release_mpdu bf sc = (bf_with_mpdu None bf, called (release_calls bf) sc).
Proof.
  unfold release_mpdu, release_calls. destruct (bf_mpdu bf) eqn:Hm; [done|].
  by rewrite called_nil, bf_with_mpdu_id.
Qed.

(** What [ath_beacon_alloc] returns, by the answer of [ath_get_beacon]. *)
Lemma ath_beacon_alloc_result (E : mac_env) (if_id ret : Z)
    (sc sc' : ath_softc) :
  ath_beacon_alloc E if_id sc = Some (ret, sc') →
  ∃ avp avp1 sc1 bf1,
    sc_vaps sc !! if_id = Some avp
    ∧ beacon_state_alloc if_id avp sc = Some (avp1, sc1)
    ∧ av_bcbuf avp1 = Some bf1
    ∧ sc_vaps sc1 = sc_vaps sc
    ∧ sc_stagbeacons sc1 = sc_stagbeacons sc
    ∧ sc_trace sc1 = sc_trace sc
    ∧ match ath_get_beacon E if_id with
      | None =>
        ret = - ENOMEM
        ∧ sc' = sc_with_vaps
                  (<[if_id := avp_with_bcbuf (Some (bf_with_mpdu None bf1)) avp1]>
                     (sc_vaps sc))
                  (called (release_calls bf1 ++ [ath_get_beacon_ if_id]) sc1)
      | Some (skb0, tim, pwr) =>
        ∃ skb, beacon_frame (sc_stagbeacons sc) (av_bslot avp1) skb0 = Some skb
          ∧ ret = 0
          ∧ sc' = sc_with_vaps
                    (<[if_id := avp_with_bcbuf
                                  (Some (bf_with_mpdu (Some skb)
                                           (bf_with_buf_addr
                                              (ath_skb_map_single E skb)
                                              (bf_with_mpdu None bf1))))
                                  (avp_with_btxctl pwr (avp_with_boff tim avp1))]>
                       (sc_vaps sc))
                    (called (release_calls bf1
                             ++ [ath_get_beacon_ if_id; ath_skb_map_single_ skb])
                       sc1)
      end.
Proof.
  unfold ath_beacon_alloc. intros Halloc.
  destruct (sc_vaps sc !! if_id) as [avp|] eqn:Hvap; [|done].
  cbn in Halloc.
  destruct (beacon_state_alloc if_id avp sc) as [[avp1 sc1]|] eqn:H1; [|done].
  cbn in Halloc.
  assert (sc_vaps sc1 = sc_vaps sc ∧ sc_stagbeacons sc1 = sc_stagbeacons sc
          ∧ sc_trace sc1 = sc_trace sc) as (Hvaps & Hstag & Htr).
  { apply beacon_state_alloc_cases in H1
      as [(_ & _ & ->)|(_ & bf & bbuf & _ & [(_ & _ & ->)|(_ & r & _ & _ & _ & ->)])];
      done. }
  destruct (av_bcbuf avp1) as [bf|] eqn:Hbf; [|done]. cbn in Halloc.
  rewrite release_mpdu_eq in Halloc. cbn in Halloc.
  exists avp, avp1, sc1, bf. split_and!; try done.
  destruct (ath_get_beacon E if_id) as [[[skb0 tim] pwr]|].
  - cbn in Halloc. rewrite Hstag in Halloc.
    destruct (beacon_frame _ _ skb0) as [skb|] eqn:Hframe; [|done].
    cbn in Halloc. simplify_eq. exists skb. split; [done|]. split; [done|].
    cbn. rewrite Hvaps. unfold called, sc_with_vaps. cbn.
    by rewrite <- !app_assoc.
  - simplify_eq. split; [done|].
    cbn. rewrite Hvaps. unfold called, sc_with_vaps. cbn.
    by rewrite <- !app_assoc.
Qed.

(** X2.  Under slot management an interface without beacon state cannot be
    given any when no slot is empty: the search ends on slot 0 and the
    KASSERT on it fails (or the pool is empty, and the beacon buffer is
    taken from an empty list). *)
Theorem ath_beacon_alloc_full_table (E : mac_env) (if_id : Z)
    (sc : ath_softc) (avp : ath_vap) :
  sc_vaps sc !! if_id = Some avp →
  av_bcbuf avp = None →
  needs_bslot sc = true →
  (∀ i, ¬ slot_empty (sc_bslot sc) i) →
  ath_beacon_alloc E if_id sc = None.
Proof.
  intros Hvap Hbc Hneeds Hfull.
  unfold ath_beacon_alloc. rewrite Hvap. cbn.
  enough (beacon_state_alloc if_id avp sc = None) as -> by done.
  destruct (beacon_state_alloc if_id avp sc) as [[avp1 sc1]|] eqn:Hb; [|done].
  apply beacon_state_alloc_cases in Hb
    as [([? ?] & _)|(_ & bf & bbuf & _ & [(Hm & _)|(_ & r & _ & Hre & _)])].
  - congruence.
  - congruence.
  - by apply Hfull in Hre.
Qed.

(** X3.  When [ath_get_beacon] has no frame to give, [ath_beacon_alloc]
    returns [-ENOMEM] and undoes nothing: the interface keeps the beacon
    buffer, now without a frame, and the slot table, the count of
    beaconing interfaces and the pool stay as the first block left them.
    For an interface that had no beacon state this means that the buffer
    is gone from the pool and, under slot management, that the slot is
    taken and counted. *)
Theorem ath_beacon_alloc_enomem (E : mac_env) (if_id : Z)
    (sc sc1 : ath_softc) (avp avp1 : ath_vap) :
  sc_vaps sc !! if_id = Some avp →
  beacon_state_alloc if_id avp sc = Some (avp1, sc1) →
  ath_get_beacon E if_id = None →
  ∃ sc' avp' bf,
    ath_beacon_alloc E if_id sc = Some (- ENOMEM, sc')
    ∧ sc_vaps sc' = <[if_id := avp']> (sc_vaps sc)
    ∧ av_bcbuf avp' = Some bf
    ∧ bf_mpdu bf = None
    ∧ av_bslot avp' = av_bslot avp1
    ∧ sc_bslot sc' = sc_bslot sc1
    ∧ sc_nbcnvaps sc' = sc_nbcnvaps sc1
    ∧ sc_bbuf sc' = sc_bbuf sc1
    ∧ (av_bcbuf avp = None →
         (∃ bf0, sc_bbuf sc = bf0 :: sc_bbuf sc' ∧ bf_daddr bf = bf_daddr bf0)
         ∧ (needs_bslot sc = true →
              sc_nbcnvaps sc' = sc_nbcnvaps sc + 1
              ∧ slot_empty (sc_bslot sc) (av_bslot avp')
              ∧ arr_get (sc_bslot sc') (av_bslot avp') = Some if_id)).
Proof.
  intros Hvap Hblock Hget.
  destruct (ath_beacon_alloc E if_id sc) as [[ret sc']|] eqn:Halloc.
  - apply ath_beacon_alloc_result in Halloc
      as (avp0 & avp2 & sc2 & bf1 & Hvap0 & Hblock0 & Hbf & _ & _ & _ & Hres).
    rewrite Hget in Hres. destruct Hres as [-> ->]. simplify_eq.
    eexists _, _, _. split; [done|]. cbn. split_and!; try done.
    intros Hnone.
    apply beacon_state_alloc_cases in Hblock
      as [([? ?] & _)
         |(_ & bf & bbuf & Hpool & [(Hm & -> & ->)|(Hm & r & _ & Hre & -> & ->)])];
      [congruence| |]; cbn in *; simplify_eq.
    + split; [by exists bf1|]. congruence.
    + split; [by exists bf1|]. intros _. split_and!; [done|done|].
      apply arr_get_insert_eq. by eapply slot_empty_range.
  - exfalso. unfold ath_beacon_alloc in Halloc.
    rewrite Hvap in Halloc. cbn in Halloc. rewrite Hblock in Halloc.
    cbn in Halloc.
    assert (is_Some (av_bcbuf avp1)) as [bf Hbf].
    { apply beacon_state_alloc_cases in Hblock
        as [(Hbc & -> & ->)|(_ & bf & bbuf & _ & [(_ & -> & ->)|(_ & r & _ & _ & -> & ->)])];
        done. }
    rewrite Hbf in Halloc. cbn in Halloc.
    rewrite release_mpdu_eq, Hget in Halloc. done.
Qed.

(** X4.  After [ath_beacon_alloc] has failed for want of a frame, the
    interface holds a beacon buffer without a frame, and
    [ath_beacon_generate] for it does not return: it reads the length of
    the frame through the [NULL] pointer. *)
Theorem ath_beacon_generate_after_enomem (E E' : mac_env) (if_id ret : Z)
    (sc sc' : ath_softc) :
  ath_get_beacon E if_id = None →
  ath_beacon_alloc E if_id sc = Some (ret, sc') →
  ath_beacon_generate E' if_id sc' = None.
Proof.
  intros Hget Halloc.
  apply ath_beacon_alloc_result in Halloc
    as (avp & avp1 & sc1 & bf1 & _ & _ & _ & _ & _ & _ & Hres).
  rewrite Hget in Hres. destruct Hres as [_ ->].
  unfold ath_beacon_generate. cbn. by rewrite lookup_insert_eq.
Qed.


(** X6.  Allocation followed by release, on an interface that had no beacon
    state: the slot table and the count of beaconing interfaces are back
    where they were, the interface is without beacon state again, and the
    buffer that was taken from the head of the pool is at its end, without
    a frame. *)
Theorem ath_beacon_alloc_return_round_trip (E : mac_env) (if_id ret : Z)
    (sc sc1 : ath_softc) (avp : ath_vap) :
  bslot_inv sc →
  sc_vaps sc !! if_id = Some avp →
  av_bcbuf avp = None →
  ath_beacon_alloc E if_id sc = Some (ret, sc1) →
  ∃ sc2 bf bf' rest avp2,
    ath_beacon_return if_id sc1 = Some sc2
    ∧ sc_bslot sc2 = sc_bslot sc
    ∧ sc_nbcnvaps sc2 = sc_nbcnvaps sc
    ∧ sc_bbuf sc = bf :: rest
    ∧ sc_bbuf sc2 = rest ++ [bf']
    ∧ bf_daddr bf' = bf_daddr bf
    ∧ bf_mpdu bf' = None
    ∧ sc_vaps sc2 = <[if_id := avp2]> (sc_vaps sc)
    ∧ av_bcbuf avp2 = None.
Proof.
  intros Hinv Hvap Hnone Halloc.
  pose proof (bslot_inv_alloc E if_id ret sc sc1 Hinv Halloc) as Hinv1.
  apply ath_beacon_alloc_result in Halloc
    as (avp0 & avp1 & sc0 & bf1 & Hvap0 & Hblock & Hbf & _ & _ & _ & Hres).
  simplify_eq.
  assert (∃ avp' bf2 tr,
            sc1 = sc_with_vaps (<[if_id := avp']> (sc_vaps sc)) (called tr sc0)
            ∧ av_bcbuf avp' = Some bf2 ∧ av_bslot avp' = av_bslot avp1
            ∧ bf_daddr bf2 = bf_daddr bf1) as (avp' & bf2 & tr & -> & Hbf2 & Hs2 & Hd2).
  { destruct (ath_get_beacon E if_id) as [[[skb0 tim] pwr]|].
    - destruct Hres as (skb & _ & _ & ->). by eexists _, _, _.
    - destruct Hres as (_ & ->). by eexists _, _, _. }
  clear Hres.
  apply beacon_state_alloc_cases in Hblock
    as [([? ?] & _)
       |(_ & bf & bbuf & Hpool & [(Hm & -> & ->)|(Hm & r & _ & Hre & -> & ->)])];
    [congruence| |]; cbn in *; simplify_eq.
  - (* no slot management: the interface has no slot *)
    pose proof (inv_noslot sc Hinv Hm if_id avp Hvap) as Hslot.
    unfold ath_beacon_return. cbn. rewrite lookup_insert_eq. cbn.
    rewrite Hbf2. rewrite decide_False by (rewrite Hs2; cbn; lia). cbn.
    rewrite release_mpdu_eq. cbn.
    eexists _, bf1, _, bbuf, (avp_with_bcbuf None avp'). split; [done|]. cbn.
    split_and!; try done. by rewrite insert_insert_eq.
  - (* the interface gives back the slot it was given *)
    pose proof (slot_empty_range _ _ Hre) as Hr.
    unfold ath_beacon_return. cbn. rewrite lookup_insert_eq. cbn.
    rewrite Hbf2. cbn.
    rewrite decide_True by lia.
    rewrite arr_set_Some by (rewrite length_insert; lia). cbn.
    rewrite release_mpdu_eq. cbn.
    eexists _, bf1, _, bbuf, (avp_with_bcbuf None avp'). split; [done|]. cbn.
    split_and!; try done.
    + rewrite list_insert_insert_eq. apply list_insert_id.
      unfold slot_empty, arr_get in Hre. by case_decide.
    + lia.
    + by rewrite insert_insert_eq.
Qed.

(** X7.  Releasing twice is releasing once: [ath_beacon_return] on an
    interface it has just been through changes nothing. *)
Theorem ath_beacon_return_twice (if_id : Z) (sc sc' : ath_softc) :
  ath_beacon_return if_id sc = Some sc' →
  ath_beacon_return if_id sc' = Some sc'.
Proof.
  intros Hret. pose proof Hret as Hret'.
  apply ath_beacon_return_cases in Hret
    as (avp & Hvap & [(_ & ->)|(bf & _ & Hvaps & _)]); [done|].
  unfold ath_beacon_return. rewrite Hvaps, lookup_insert_eq. done.
Qed.

(** *** No beacon buffer is lost or handed out twice *)

Lemma held_bufs_insert (sc sc' : ath_softc) (if_id : Z) (avp avp' : ath_vap) :
  sc_vaps sc !! if_id = Some avp →
  sc_vaps sc' = <[if_id := avp']> (sc_vaps sc) →
  ∃ others,
    held_bufs sc ≡ₚ option_list (bf_daddr <$> av_bcbuf avp) ++ others
    ∧ held_bufs sc' ≡ₚ option_list (bf_daddr <$> av_bcbuf avp') ++ others.
Proof.
  intros Hvap Hvaps.
  exists (omap (λ kv : Z * ath_vap, bf_daddr <$> av_bcbuf kv.2)
            (map_to_list (delete if_id (sc_vaps sc)))).
  unfold held_bufs. split.
  - rewrite <- (map_to_list_delete (sc_vaps sc) if_id avp Hvap). cbn.
    by destruct (av_bcbuf avp).
  - rewrite Hvaps, <- insert_delete_eq.
    rewrite map_to_list_insert by apply lookup_delete_eq. cbn.
    by destruct (av_bcbuf avp').
Qed.

Lemma beacon_bufs_alloc (E : mac_env) (if_id ret : Z) (sc sc' : ath_softc) :
  ath_beacon_alloc E if_id sc = Some (ret, sc') →
  beacon_bufs sc' ≡ₚ beacon_bufs sc.
Proof.
  intros Halloc.
  apply ath_beacon_alloc_result in Halloc
    as (avp & avp1 & sc1 & bf1 & Hvap & Hblock & Hbf & _ & _ & _ & Hres).
  assert (∃ avp' bf2,
            sc_vaps sc' = <[if_id := avp']> (sc_vaps sc)
            ∧ sc_bbuf sc' = sc_bbuf sc1
            ∧ av_bcbuf avp' = Some bf2
            ∧ bf_daddr bf2 = bf_daddr bf1) as (avp' & bf2 & Hvaps & Hpool & Hbf2 & Hd2).
  { destruct (ath_get_beacon E if_id) as [[[skb0 tim] pwr]|].
    - destruct Hres as (skb & _ & _ & ->). by eexists _, _.
    - destruct Hres as (_ & ->). by eexists _, _. }
  destruct (held_bufs_insert sc sc' if_id avp avp' Hvap Hvaps)
    as (others & Hold & Hnew).
  unfold beacon_bufs. rewrite Hold, Hnew, Hpool, Hbf2. cbn. rewrite Hd2.
  apply beacon_state_alloc_cases in Hblock
    as [(Hbc & -> & ->)
       |(Hbc & bf & bbuf & Hp & [(_ & -> & ->)|(_ & r & _ & _ & -> & ->)])];
    cbn in *.
  - by rewrite Hbf.
  - simplify_eq. rewrite Hbc, Hp. cbn.
    by rewrite <- Permutation_middle.
  - simplify_eq. rewrite Hbc, Hp. cbn.
    by rewrite <- Permutation_middle.
Qed.

Lemma beacon_bufs_return (if_id : Z) (sc sc' : ath_softc) :
  ath_beacon_return if_id sc = Some sc' →
  beacon_bufs sc' ≡ₚ beacon_bufs sc.
Proof.
  intros Hret.
  apply ath_beacon_return_cases in Hret
    as (avp & Hvap & [(_ & ->)|(bf & Hbc & Hvaps & _ & Hpool & _)]); [done|].
  destruct (held_bufs_insert sc sc' if_id avp _ Hvap Hvaps)
    as (others & Hold & Hnew).
  unfold beacon_bufs. rewrite Hold, Hnew, Hpool, Hbc. cbn.
  rewrite fmap_app. cbn. rewrite <- app_assoc. cbn.
  by rewrite <- Permutation_middle.
Qed.

(** X8.  Over any sequence of allocations and releases the beacon buffers, in
    the pool or held by an interface, stay the same buffers: none is lost
    and none is added.  If they were distinct they stay distinct, so no
    buffer is held by two interfaces, or held and in the pool at once. *)
Theorem beacon_bufs_run_ops (os : list beacon_op) (sc sc' : ath_softc) :
  run_ops os sc = Some sc' →
  beacon_bufs sc' ≡ₚ beacon_bufs sc
  ∧ (NoDup (beacon_bufs sc) → NoDup (beacon_bufs sc')).
Proof.
  intros Hrun.
  enough (beacon_bufs sc' ≡ₚ beacon_bufs sc) as Hp.
  { split; [done|]. by rewrite Hp. }
  revert sc Hrun. induction os as [|o os IH]; intros sc Hrun.
  - cbn in Hrun. by simplify_eq.
  - cbn in Hrun. destruct (run_op o sc) as [sc1|] eqn:Hop; [|done].
    cbn in Hrun. rewrite (IH sc1 Hrun).
    destruct o as [E if_id|if_id]; cbn in Hop.
    + destruct (ath_beacon_alloc E if_id sc) as [[ret sc2]|] eqn:Ha; [|done].
      cbn in Hop. simplify_eq. by eapply beacon_bufs_alloc.
    + by eapply beacon_bufs_return.
Qed.

(** *** ath_beacon_free *)

Lemma beacon_free_loop_eq (bbuf : list ath_buf) (sc : ath_softc) :
  beacon_free_loop bbuf sc
  = (bf_with_mpdu None <$> bbuf, called (bbuf ≫= release_calls) sc).
Proof.
  revert sc. induction bbuf as [|bf bbuf IH]; intros sc; cbn.
  { by rewrite called_nil. }
  rewrite release_mpdu_eq, IH. by rewrite called_called.
Qed.

Lemma completed_release_calls (bbuf : list ath_buf) :
  completed (bbuf ≫= release_calls) = omap bf_mpdu bbuf.
Proof.
  induction bbuf as [|bf bbuf IH]; [done|].
  cbn. unfold completed in *. rewrite omap_app, IH.
  unfold release_calls. by destruct (bf_mpdu bf).
Qed.

Lemma pool_clean_free (sc : ath_softc) :
  pool_clean sc → ath_beacon_free sc = sc.
Proof.
  unfold pool_clean, ath_beacon_free. intros Hclean.
  rewrite beacon_free_loop_eq.
  assert (bf_with_mpdu None <$> sc_bbuf sc = sc_bbuf sc
          ∧ sc_bbuf sc ≫= release_calls = []) as [-> ->].
  { induction Hclean as [|bf bbuf Hbf _ [IH1 IH2]]; [done|]. cbn.
    rewrite IH1, IH2, bf_with_mpdu_id by done.
    unfold release_calls. by rewrite Hbf. }
  rewrite called_nil. by destruct sc.
Qed.

(** X9.  [ath_beacon_free] releases the frames still attached to buffers of
    the pool, each with one completion, in the order of the pool, and
    leaves the pool without frames; the buffers stay in place.  The
    interfaces are not looked at: a frame on a buffer held by an
    interface is not released.  Freeing again changes nothing. *)
Theorem ath_beacon_free_pool (sc : ath_softc) :
  let sc' := ath_beacon_free sc in
  pool_clean sc'
  ∧ sc_bbuf sc' = bf_with_mpdu None <$> sc_bbuf sc
  ∧ sc_vaps sc' = sc_vaps sc
  ∧ sc_bslot sc' = sc_bslot sc
  ∧ sc_nbcnvaps sc' = sc_nbcnvaps sc
  ∧ (∃ tr, sc_trace sc' = sc_trace sc ++ tr
       ∧ completed tr = omap bf_mpdu (sc_bbuf sc))
  ∧ ath_beacon_free sc' = sc'.
Proof.
  intros sc'.
  assert (sc' = sc_with_bbuf (bf_with_mpdu None <$> sc_bbuf sc)
                  (called (sc_bbuf sc ≫= release_calls) sc)) as Hsc'.
  { unfold sc', ath_beacon_free. by rewrite beacon_free_loop_eq. }
  assert (pool_clean sc') as Hclean.
  { rewrite Hsc'. unfold pool_clean. cbn.
    apply Forall_fmap, Forall_true. done. }
  split_and!; try done; try (by rewrite Hsc').
  - exists (sc_bbuf sc ≫= release_calls). rewrite Hsc'. split; [done|].
    apply completed_release_calls.
  - by apply pool_clean_free.
Qed.

(** X10.  Frames are attached to buffers held by interfaces only: from a pool
    without frames, allocations and releases leave the pool without
    frames, and [ath_beacon_free] then has nothing to release. *)
Theorem ath_beacon_free_after_ops (os : list beacon_op) (sc sc' : ath_softc) :
  pool_clean sc →
  run_ops os sc = Some sc' →
  pool_clean sc' ∧ ath_beacon_free sc' = sc'.
Proof.
  intros Hclean Hrun.
  enough (pool_clean sc') by (split; [done|by apply pool_clean_free]).
  revert sc Hclean Hrun. induction os as [|o os IH]; intros sc Hclean Hrun.
  - cbn in Hrun. by simplify_eq.
  - cbn in Hrun. destruct (run_op o sc) as [sc1|] eqn:Hop; [|done].
    cbn in Hrun. apply (IH sc1); [|done].
    unfold pool_clean in *.
    destruct o as [E if_id|if_id]; cbn in Hop.
    + destruct (ath_beacon_alloc E if_id sc) as [[ret sc2]|] eqn:Ha; [|done].
      cbn in Hop. simplify_eq.
      apply ath_beacon_alloc_decompose in Ha
        as (avp & avp1 & sc0 & avp' & _ & Hblock & _ & _ & _ & _ & _ & -> & _).
      apply beacon_state_alloc_cases in Hblock
        as [(_ & _ & ->)
           |(_ & bf & bbuf & Hp & [(_ & _ & ->)|(_ & r & _ & _ & _ & ->)])];
        [done| |]; cbn; rewrite Hp in Hclean; by apply Forall_cons in Hclean as [_ ?].
    + apply ath_beacon_return_cases in Hop
        as (avp & _ & [(_ & ->)|(bf & _ & _ & _ & -> & _)]); [done|].
      apply Forall_app. split; [done|]. by apply Forall_singleton.
Qed.

End pool.

(** ** The descriptor and the queues of a generated beacon *)

Section generate_more.
Context {K : core_h}.

Lemma sc_with_descs_id (sc : ath_softc) : sc_with_descs (sc_descs sc) sc = sc.
Proof. by destruct sc. Qed.

Lemma sc_with_descs_called (d : gmap Z ath_desc) (tr : list call)
    (sc : ath_softc) :
  sc_with_descs d (called tr sc) = called tr (sc_with_descs d sc).
Proof. done. Qed.

Lemma roundup32_4 (len : Z) :
  0 <= len → len + 3 < 2^32 →
  ∃ seglen, roundup32 len 4 = Some seglen
    ∧ seglen mod 4 = 0 ∧ len <= seglen < len + 4.
Proof.
  intros H0 Hlen. unfold roundup32, howmany32, c_div.
  case_decide; [done|]. cbn [mbind option_bind].
  change (u32 (4 - 1)) with 3. rewrite (u32_small (len + 3)) by lia.
  rewrite Z.quot_div_nonneg by lia.
  assert (0 <= (len + 3) / 4 * 4 <= len + 3) as Hq.
  { pose proof (Z.mod_pos_bound (len + 3) 4).
    pose proof (Z.div_mod (len + 3) 4). lia. }
  rewrite u32_small by lia.
  eexists. split; [done|]. split; [apply Z.mod_mul; lia|].
  pose proof (Z.mod_pos_bound (len + 3) 4).
  pose proof (Z.div_mod (len + 3) 4). lia.
Qed.

(** [ath_beacon_setup], when it returns. *)
Lemma ath_beacon_setup_result (avp : ath_vap) (bf : ath_buf)
    (sc sc' : ath_softc) :
  ath_beacon_setup avp bf sc = Some sc' →
  let veol := bool_decide (sc_opmode sc = HAL_M_IBSS) && sc_hasveol sc in
  ∃ skb ds seglen,
    bf_mpdu bf = Some skb
    ∧ sc_descs sc !! bf_daddr bf = Some ds
    ∧ roundup32 (skb_len skb) 4 = Some seglen
    ∧ sc' = called [ath9k_hw_set11n_txdesc_ (bf_daddr bf)
                      (skb_len skb + FCS_LEN) (txpower avp)
                      (if veol then Z.lor HAL_TXDESC_NOACK HAL_TXDESC_VEOL
                       else HAL_TXDESC_NOACK);
                    ath9k_hw_filltxdesc_ (bf_daddr bf) seglen;
                    ath9k_hw_set11n_ratescenario_ (bf_daddr bf);
                    ath_desc_swap_ (bf_daddr bf)]
            (sc_with_descs
               (<[bf_daddr bf := {| ds_link := if veol then bf_daddr bf else 0;
                                    ds_data := bf_buf_addr bf |}]> (sc_descs sc))
               sc).
Proof.
  intros Hs veol. unfold ath_beacon_setup in Hs.
  destruct (bf_mpdu bf) as [skb|]; [|done]. cbn in Hs.
  destruct (sc_descs sc !! bf_daddr bf) as [ds|]; [|done]. cbn in Hs.
  fold veol in Hs. exists skb, ds.
  destruct veol; cbn in Hs.
  - destruct (roundup32 (skb_len skb) 4) as [seglen|]; [|done].
    cbn in Hs. simplify_eq. by exists seglen.
  - destruct (beacon_antenna sc) as [antenna|]; [|done]. cbn in Hs.
    destruct (roundup32 (skb_len skb) 4) as [seglen|]; [|done].
    cbn in Hs. simplify_eq. by exists seglen.
Qed.

(** X11.  [ath_beacon_setup] writes the descriptor of the buffer and no other:
    the data word is the bus address of the frame; the link word is the
    descriptor's own address in ad-hoc mode with VEOL (self-linked) and 0
    otherwise.  The frame length handed on is the length of the frame plus
    [FCS_LEN], the buffer length is the length rounded up to a multiple
    of 4, and the flags are no-ack, with VEOL for the self-linked
    descriptor. *)
Theorem ath_beacon_setup_descriptor (avp : ath_vap) (bf : ath_buf)
    (sc sc' : ath_softc) :
  ath_beacon_setup avp bf sc = Some sc' →
  let veol := bool_decide (sc_opmode sc = HAL_M_IBSS) && sc_hasveol sc in
  ∃ skb seglen,
    bf_mpdu bf = Some skb
    ∧ sc_descs sc' !! bf_daddr bf
      = Some {| ds_link := if veol then bf_daddr bf else 0;
                ds_data := bf_buf_addr bf |}
    ∧ (∀ a, a ≠ bf_daddr bf → sc_descs sc' !! a = sc_descs sc !! a)
    ∧ sc_trace sc'
      = sc_trace sc
        ++ [ath9k_hw_set11n_txdesc_ (bf_daddr bf) (skb_len skb + FCS_LEN)
              (txpower avp)
              (if veol then Z.lor HAL_TXDESC_NOACK HAL_TXDESC_VEOL
               else HAL_TXDESC_NOACK);
            ath9k_hw_filltxdesc_ (bf_daddr bf) seglen;
            ath9k_hw_set11n_ratescenario_ (bf_daddr bf);
            ath_desc_swap_ (bf_daddr bf)]
    ∧ (skb_len skb + 3 < 2^32 →
       seglen mod 4 = 0 ∧ skb_len skb <= seglen < skb_len skb + 4).
Proof.
  intros Hs veol.
  apply ath_beacon_setup_result in Hs
    as (skb & ds & seglen & Hskb & Hds & Hseg & ->).
  fold veol. exists skb, seglen. cbn. split_and!; try done.
  - by rewrite lookup_insert_eq.
  - intros a Ha. by rewrite lookup_insert_ne.
  - intros Hlen.
    destruct (roundup32_4 (skb_len skb)) as (s & Hs & Hmod & Hrange);
      [unfold skb_len; lia|done|].
    by simplify_eq.
Qed.

Lemma is_submit_generate_call (tr : list call) :
  Forall (λ c, is_submit c = true) tr →
  Forall (λ c, is_generate_call c = true) tr.
Proof. intros Hall. eapply Forall_impl; [done|]. by intros []. Qed.

(** [trigger_mcastq], when it returns. *)
Lemma trigger_mcastq_result (mq cq mq' cq' : ath_txq) (sc sc' : ath_softc) :
  trigger_mcastq mq cq sc = Some (mq', cq', sc') →
  ∃ d tr,
    sc' = called tr (sc_with_descs d sc)
    ∧ Forall (λ c, is_submit c = true) tr
    ∧ dom d = dom (sc_descs sc)
    ∧ (∀ a, axq_link cq ≠ Some a → d !! a = sc_descs sc !! a)
    ∧ (∀ a, ds_data <$> d !! a = ds_data <$> sc_descs sc !! a)
    ∧ (axq_link mq' = None ∨ mq' = mq)
    ∧ (axq_link cq' = axq_link cq ∨ axq_link cq' = axq_link mq)
    ∧ axq_qnum cq' = axq_qnum cq.
Proof.
  unfold trigger_mcastq. intros Ht.
  match type of Ht with
  | context [mbind _ ?x] => destruct x as [[[mq1 cq1] sc1]|] eqn:Hmerge
  end; [|done].
  cbn in Ht.
  assert (∃ d t1,
            sc1 = called t1 (sc_with_descs d sc)
            ∧ Forall (λ c, is_submit c = true) t1
            ∧ dom d = dom (sc_descs sc)
            ∧ (∀ a, axq_link cq ≠ Some a → d !! a = sc_descs sc !! a)
            ∧ (∀ a, ds_data <$> d !! a = ds_data <$> sc_descs sc !! a)
            ∧ (axq_link mq1 = None ∨ mq1 = mq)
            ∧ (axq_link cq1 = axq_link cq ∨ axq_link cq1 = axq_link mq)
            ∧ axq_qnum cq1 = axq_qnum cq)
    as (d & t1 & -> & Hsub & Hdom & Hframe & Hdata & Hmq & Hcq & Hnum).
  { destruct (decide (axq_q mq ≠ [])) as [Hne|He].
    - unfold empty_mcastq_into_cabq in Hmerge.
      destruct (axq_q mq) as [|bfm rest] eqn:Hq; [done|].
      destruct (axq_link cq) as [p|] eqn:Hlink.
      + destruct (sc_descs sc !! p) as [ds|] eqn:Hds; [|done]. cbn in Hmerge.
        exists (<[p := ds_with_link (bf_daddr bfm) ds]> (sc_descs sc)), [].
        rewrite called_nil. simplify_eq. cbn. split_and!; try done.
        * apply dom_insert_lookup_L. by rewrite Hds.
        * intros a Ha. rewrite lookup_insert_ne; [done|congruence].
        * intros a. destruct (decide (p = a)) as [->|].
          -- by rewrite lookup_insert_eq, Hds.
          -- by rewrite lookup_insert_ne.
        * by left.
        * by right.
      + cbn in Hmerge.
        exists (sc_descs sc), [ath9k_hw_puttxbuf_ (axq_qnum cq) (bf_daddr bfm)].
        rewrite sc_with_descs_id. simplify_eq. cbn. split_and!; try done.
        * by repeat constructor.
        * by left.
        * by right.
    - exists (sc_descs sc), [].
      rewrite called_nil, sc_with_descs_id. simplify_eq.
      split_and!; try done; [by right|by left]. }
  clear Hmerge. case_decide; simplify_eq.
  - exists d, (t1 ++ [ath9k_hw_txstart_ (axq_qnum cq')]).
    rewrite called_called. split_and!; try done.
    apply Forall_app. split; [done|]. by repeat constructor.
  - by exists d, t1.
Qed.

(** [ath_beacon_generate], when it returns: the buffer handed back, and
    what has become of the interface, the CAB queue and the
    descriptors. *)
Lemma ath_beacon_generate_result (E : mac_env) (if_id : Z)
    (sc sc' : ath_softc) (r : option ath_buf) :
  ath_beacon_generate E if_id sc = Some (r, sc') →
  ∃ avp, sc_vaps sc !! if_id = Some avp ∧
    match av_bcbuf avp with
    | None => r = None ∧ sc' = sc
    | Some bf =>
      ∃ skb changed skb' tim tim4 bf' mq cq d tr,
        bf_mpdu bf = Some skb
        ∧ ath_update_beacon E if_id skb (s32 (axq_depth (av_mcastq avp)))
          = (changed, skb', tim)
        ∧ arr_get tim 4 = Some tim4
        ∧ r = Some bf'
        ∧ bf_daddr bf' = bf_daddr bf
        ∧ bf_mpdu bf' = Some skb'
        ∧ bf_buf_addr bf'
          = (if decide (changed = 1) then ath_skb_map_single E skb'
             else bf_buf_addr bf)
        ∧ sc' = sc_with_cabq cq
                  (sc_with_vaps
                     (<[if_id := avp_with_mcastq mq
                                   (avp_with_bcbuf (Some bf')
                                      (avp_with_boff tim avp))]> (sc_vaps sc))
                     (sc_with_descs d (called tr sc)))
        ∧ Forall (λ c, is_generate_call c = true) tr
        ∧ dom d = dom (sc_descs sc)
        ∧ (∃ ds', d !! bf_daddr bf = Some ds'
                  ∧ ds_data ds' = bf_buf_addr bf')
        ∧ (∀ a, a ≠ bf_daddr bf → axq_link (sc_cabq sc) ≠ Some a →
                d !! a = sc_descs sc !! a)
        ∧ (Z.land tim4 1 = 0 →
             mq = av_mcastq avp ∧ cq = sc_cabq sc
             ∧ submitted tr = [] ∧ drained tr = [])
        ∧ (axq_link mq = None ∨ mq = av_mcastq avp)
        ∧ (axq_link cq = None ∨ axq_link cq = axq_link (sc_cabq sc)
           ∨ axq_link cq = axq_link (av_mcastq avp))
    end.
Proof.
  unfold ath_beacon_generate. intros Hg.
  destruct (sc_vaps sc !! if_id) as [avp|] eqn:Hvap; [|done]. cbn in Hg.
  exists avp. split; [done|].
  destruct (av_bcbuf avp) as [bf|] eqn:Hbc; [|by simplify_eq].
  destruct (bf_mpdu bf) as [skb|] eqn:Hskb; [|done]. cbn in Hg.
  destruct (ath_update_beacon E if_id skb _) as [[changed skb'] tim] eqn:Hupd.
  exists skb, changed, skb', tim.
  (* the refresh of the frame and of its mapping *)
  match type of Hg with
  | context [let '(bf, sc) := ?x in _] => destruct x as [bf1 sc2] eqn:Hmap
  end.
  assert (∃ t2, sc2 = called t2 sc
            ∧ Forall (λ c, is_generate_call c = true) t2
            ∧ submitted t2 = [] ∧ drained t2 = []
            ∧ bf_daddr bf1 = bf_daddr bf ∧ bf_mpdu bf1 = Some skb'
            ∧ bf_buf_addr bf1
              = (if decide (changed = 1) then ath_skb_map_single E skb'
                 else bf_buf_addr bf))
    as (t2 & -> & Hg2 & Hsub2 & Hdr2 & Hda1 & Hskb1 & Hba1).
  { case_decide; simplify_eq; rewrite called_called;
      (eexists; split; [done|]); split_and!; try done; by repeat constructor. }
  destruct (arr_get tim 4) as [tim4|] eqn:Htim; [|done]. cbn in Hg.
  exists tim4, bf1.
  (* the stale frames of the CAB queue *)
  match type of Hg with
  | context [let '(cabq, sc) := ?x in _] => destruct x as [cq0 sc3] eqn:Hdrain
  end.
  assert (∃ t3, sc3 = called t3 sc
            ∧ Forall (λ c, is_generate_call c = true) t3
            ∧ (axq_link cq0 = None ∨ cq0 = sc_cabq sc)
            ∧ (Z.land tim4 1 = 0 →
               cq0 = sc_cabq sc ∧ submitted t3 = [] ∧ drained t3 = []))
    as (t3 & -> & Hg3 & Hcq0 & Hnd3).
  { cbn in Hdrain.
    destruct (decide (_ ∧ Z.land tim4 1 ≠ 0 ∧ _)) as [(_ & Hd & _)|_].
    - destruct (bool_decide _ && _); simplify_eq.
      + rewrite called_called. eexists. split; [done|].
        split_and!; [|by left|done].
        apply Forall_app. split; [done|]. by repeat constructor.
      + exists t2. split_and!; [done|done|by right|done].
    - simplify_eq. exists t2. split_and!; [done|done|by right|done]. }
  (* the descriptor *)
  destruct (ath_beacon_setup _ bf1 _) as [sc4|] eqn:Hsetup; [|done].
  cbn in Hg.
  apply ath_beacon_setup_result in Hsetup
    as (skb1 & ds & seglen & Hskb1' & Hds & _ & ->).
  change (sc_descs (called t3 sc)) with (sc_descs sc) in Hds, Hg.
  change (sc_opmode (called t3 sc)) with (sc_opmode sc) in Hg.
  change (sc_hasveol (called t3 sc)) with (sc_hasveol sc) in Hg.
  rewrite sc_with_descs_called, called_called in Hg.
  match type of Hg with
  | context [called (t3 ++ ?t) _] => set (t4 := t) in Hg
  end.
  assert (Forall (λ c, is_generate_call c = true) t4
          ∧ submitted t4 = [] ∧ drained t4 = []) as (Hg4 & Hsub4 & Hdr4).
  { split_and!; [by repeat constructor|done|done]. }
  clearbody t4.
  (* the CAB queue *)
  match type of Hg with
  | context [mbind _ ?x] => destruct x as [[[mq cq] sc5]|] eqn:Htrig
  end; [|done].
  cbn in Hg. simplify_eq.
  set (d4 := <[bf_daddr bf1 := _]> (sc_descs sc)) in *.
  assert (dom d4 = dom (sc_descs sc)) as Hdom4.
  { unfold d4. apply dom_insert_lookup_L. by rewrite Hds. }
  assert (∃ d t5,
            sc5 = called ((t3 ++ t4) ++ t5) (sc_with_descs d sc)
            ∧ Forall (λ c, is_submit c = true) t5
            ∧ dom d = dom d4
            ∧ (∀ a, axq_link cq0 ≠ Some a → d !! a = d4 !! a)
            ∧ (∀ a, ds_data <$> d !! a = ds_data <$> d4 !! a)
            ∧ (axq_link mq = None ∨ mq = av_mcastq avp)
            ∧ (axq_link cq = axq_link cq0
               ∨ axq_link cq = axq_link (av_mcastq avp))
            ∧ (Z.land tim4 1 = 0 →
               mq = av_mcastq avp ∧ cq = cq0 ∧ t5 = []))
    as (d & t5 & -> & Hsub5 & Hdom5 & Hframe5 & Hdata5 & Hmq & Hcq & Hnd5).
  { destruct (decide (Z.land tim4 1 ≠ 0)) as [Hdtim|Hdtim].
    - apply trigger_mcastq_result in Htrig
        as (d & t5 & -> & Hs5 & Hd5 & Hf5 & Hdt5 & Hm5 & Hc5 & _).
      exists d, t5.
      change (sc_descs (called (t3 ++ t4) (sc_with_descs d4 sc))) with d4 in *.
      split_and!; try done.
      by rewrite sc_with_descs_called, called_called.
    - simplify_eq. exists d4, []. rewrite app_nil_r.
      split_and!; try done; try (by left); by right. }
  exists mq, cq, d, ((t3 ++ t4) ++ t5).
  split_and!; try done.
  - repeat (apply Forall_app; split); try done.
    by apply is_submit_generate_call.
  - by rewrite Hdom5.
  - pose proof (Hdata5 (bf_daddr bf)) as Hd. unfold d4 in Hd.
    rewrite Hda1, lookup_insert_eq in Hd. cbn in Hd.
    destruct (d !! bf_daddr bf) as [ds'|]; [|done].
    exists ds'. split; [done|]. cbn in Hd. by simplify_eq.
  - intros a Ha Hlink. rewrite Hframe5.
    + unfold d4. rewrite lookup_insert_ne; [done|congruence].
    + destruct Hcq0 as [Hn| ->]; [congruence|done].
  - intros Hnd. destruct (Hnd3 Hnd) as (-> & Hs3 & Hr3).
    destruct (Hnd5 Hnd) as (-> & -> & ->).
    split_and!; try done.
    + unfold submitted in *. rewrite !List.filter_app, Hs3, Hsub4. done.
    + unfold drained in *. rewrite !omap_app, Hr3, Hdr4. done.
  - destruct Hcq as [->|?]; [|by right; right].
    destruct Hcq0 as [?| ->]; [by left|by right; left].
Qed.

(** X12.  A beacon that is not a DTIM beacon leaves the multicast traffic where
    it is: after [ath_beacon_generate] the multicast queue of the
    interface and the CAB queue are as before, nothing was drained and
    nothing was put on or started on a hardware queue. *)
Theorem ath_beacon_generate_no_dtim (E : mac_env) (if_id : Z)
    (sc sc' : ath_softc) (r : option ath_buf) (avp : ath_vap) (bf : ath_buf)
    (skb skb' : sk_buff) (changed tim4 : Z) (tim : list Z) :
  sc_vaps sc !! if_id = Some avp →
  av_bcbuf avp = Some bf →
  bf_mpdu bf = Some skb →
  ath_update_beacon E if_id skb (s32 (axq_depth (av_mcastq avp)))
  = (changed, skb', tim) →
  arr_get tim 4 = Some tim4 →
  Z.land tim4 1 = 0 →
  ath_beacon_generate E if_id sc = Some (r, sc') →
  sc_cabq sc' = sc_cabq sc
  ∧ av_mcastq <$> sc_vaps sc' !! if_id = Some (av_mcastq avp)
  ∧ ∃ tr, sc_trace sc' = sc_trace sc ++ tr
      ∧ submitted tr = [] ∧ drained tr = [].
Proof.
  intros Hvap Hbc Hskb Hupd Htim Hnd Hg.
  apply ath_beacon_generate_result in Hg as (avp0 & Hvap0 & Hres).
  simplify_eq. rewrite Hbc in Hres.
  destruct Hres as (skb0 & changed0 & skb0' & tim0 & tim40 & bf' & mq & cq & d
                    & tr & Hskb0 & Hupd0 & Htim0 & _ & _ & _ & _ & -> & _ & _
                    & _ & _ & Hq & _).
  simplify_eq. rewrite Hupd in Hupd0. simplify_eq.
  destruct (Hq Hnd) as (-> & -> & Hsub & Hdr).
  cbn. rewrite lookup_insert_eq. split_and!; try done. by exists tr.
Qed.

(** X13.  The buffer [ath_beacon_generate] hands back is the beacon buffer of
    the interface with the refreshed frame attached.  When
    [ath_update_beacon] reports a change of the frame the buffer carries
    the bus address of a new mapping, otherwise its old one; either way
    the data word of its descriptor is that address.  The interface holds
    this buffer and the refreshed TIM offsets afterwards. *)
Theorem ath_beacon_generate_buffer (E : mac_env) (if_id : Z)
    (sc sc' : ath_softc) (bf' : ath_buf) :
  ath_beacon_generate E if_id sc = Some (Some bf', sc') →
  ∃ avp avp' bf skb skb' changed tim ds',
    sc_vaps sc !! if_id = Some avp
    ∧ av_bcbuf avp = Some bf
    ∧ bf_mpdu bf = Some skb
    ∧ ath_update_beacon E if_id skb (s32 (axq_depth (av_mcastq avp)))
      = (changed, skb', tim)
    ∧ bf_daddr bf' = bf_daddr bf
    ∧ bf_mpdu bf' = Some skb'
    ∧ bf_buf_addr bf'
      = (if decide (changed = 1) then ath_skb_map_single E skb'
         else bf_buf_addr bf)
    ∧ sc_vaps sc' !! if_id = Some avp'
    ∧ av_bcbuf avp' = Some bf'
    ∧ bo_tim avp' = tim
    ∧ av_bslot avp' = av_bslot avp
    ∧ sc_descs sc' !! bf_daddr bf' = Some ds'
    ∧ ds_data ds' = bf_buf_addr bf'.
Proof.
  intros Hg.
  apply ath_beacon_generate_result in Hg as (avp & Hvap & Hres).
  destruct (av_bcbuf avp) as [bf|] eqn:Hbc; [|by destruct Hres].
  destruct Hres as (skb & changed & skb' & tim & tim4 & bf1 & mq & cq & d
                    & tr & Hskb & Hupd & Htim & ? & Hda & Hmp & Hba & -> & _ & _
                    & (ds' & Hds & Hdata) & _).
  simplify_eq.
  eexists avp, _, bf, skb, skb', changed, tim, ds'.
  cbn. rewrite lookup_insert_eq, Hda. split_and!; done.
Qed.

End generate_more.

(** ** What the tasklet keeps, and where it can run *)

Section tasklet_more.
Context {K : core_h}.

Lemma generated_refl (sc : ath_softc) : generated sc sc [].
Proof.
  exists (sc_cabq sc), (sc_vaps sc), (sc_descs sc).
  rewrite called_nil. by destruct sc.
Qed.

Lemma generated_trans (sc sc1 sc2 : ath_softc) (t1 t2 : list call) :
  generated sc sc1 t1 → generated sc1 sc2 t2 → generated sc sc2 (t1 ++ t2).
Proof.
  intros (c1 & v1 & d1 & ->) (c2 & v2 & d2 & ->). exists c2, v2, d2.
  rewrite <- called_called. reflexivity.
Qed.

Lemma vaps_kept_trans (m1 m2 m3 : gmap Z ath_vap) :
  vaps_kept m1 m2 → vaps_kept m2 m3 → vaps_kept m1 m3.
Proof.
  intros H1 H2 id. destruct (H1 id) as [A B], (H2 id) as [C D].
  split; congruence.
Qed.

Lemma vaps_kept_insert (m : gmap Z ath_vap) (id : Z) (avp avp' : ath_vap) :
  m !! id = Some avp →
  av_bslot avp' = av_bslot avp →
  bf_daddr <$> av_bcbuf avp' = bf_daddr <$> av_bcbuf avp →
  vaps_kept m (<[id := avp']> m).
Proof.
  intros Hm Hs Hb j. destruct (decide (j = id)) as [->|].
  - rewrite lookup_insert_eq, Hm. cbn. by rewrite Hs, Hb.
  - by rewrite lookup_insert_ne.
Qed.

Lemma vaps_kept_lookup (m m' : gmap Z ath_vap) (id : Z) (avp' : ath_vap) :
  vaps_kept m m' → m' !! id = Some avp' →
  ∃ avp, m !! id = Some avp ∧ av_bslot avp' = av_bslot avp
         ∧ (is_Some (av_bcbuf avp') ↔ is_Some (av_bcbuf avp)).
Proof.
  intros Hk Hv. destruct (Hk id) as [A B]. rewrite Hv in A, B. cbn in A, B.
  destruct (m !! id) as [avp|]; [|done]. cbn in A, B.
  exists avp. split; [done|]. split; [by simplify_eq|].
  destruct (av_bcbuf avp'), (av_bcbuf avp); cbn in B; done.
Qed.

Lemma vaps_kept_sym (m m' : gmap Z ath_vap) :
  vaps_kept m m' → vaps_kept m' m.
Proof. intros Hk id. destruct (Hk id). by split. Qed.

(** The slot table invariant speaks of the slot table, the count, the
    mode, and of the slot and the beacon buffer of each interface only. *)
Lemma bslot_inv_kept (sc sc' : ath_softc) :
  bslot_inv sc → slot_state sc' = slot_state sc →
  vaps_kept (sc_vaps sc) (sc_vaps sc') → bslot_inv sc'.
Proof.
  intros [Hsize Hid Hown Hslot Hno Hcnt] Hst Hk.
  unfold slot_state in Hst. injection Hst as Hop Hve Hsg Him Hbs Hnb Hbb.
  assert (needs_bslot sc' = needs_bslot sc) as Hneeds.
  { unfold needs_bslot. by rewrite Hop, Hve. }
  pose proof (vaps_kept_sym _ _ Hk) as Hk'.
  split; rewrite ?Hbs, ?Hnb, ?Hneeds; try done.
  - intros id avp' Hv.
    destruct (vaps_kept_lookup _ _ _ _ Hk Hv) as (avp & Hv0 & _). by eapply Hid.
  - intros s id Hs Hany. destruct (Hown s id Hs Hany) as (avp & Hv & Hb & Hsl).
    destruct (vaps_kept_lookup _ _ _ _ Hk' Hv) as (avp' & Hv' & Hsl' & Hb').
    exists avp'. split_and!; [done|by apply Hb'|congruence].
  - intros Hm id avp' Hv Hb.
    destruct (vaps_kept_lookup _ _ _ _ Hk Hv) as (avp & Hv0 & -> & Hb0).
    apply (Hslot Hm id avp Hv0). by apply Hb0.
  - intros Hm id avp' Hv.
    destruct (vaps_kept_lookup _ _ _ _ Hk Hv) as (avp & Hv0 & -> & _).
    by eapply Hno.
Qed.

Lemma dom_is_Some (d d' : gmap Z ath_desc) (a : Z) :
  dom d' = dom d → is_Some (d !! a) → is_Some (d' !! a).
Proof. intros Hd Ha. apply elem_of_dom. rewrite Hd. by apply elem_of_dom. Qed.

Lemma beacon_ready_same (sc sc' : ath_softc) :
  beacon_ready sc →
  slot_state sc' = slot_state sc →
  sc_vaps sc' = sc_vaps sc →
  sc_cabq sc' = sc_cabq sc →
  dom (sc_descs sc') = dom (sc_descs sc) →
  length (sc_ant_tx sc') = length (sc_ant_tx sc) →
  sc_defant sc' = sc_defant sc →
  beacon_ready sc'.
Proof.
  intros [Hinv Hbufs Hcab Hmc Hant Hdef] Hst Hv Hc Hd Hl Hda.
  split; rewrite ?Hv, ?Hc, ?Hl, ?Hda; try done.
  - apply (bslot_inv_kept sc); [done|done|]. by rewrite Hv.
  - intros id avp bf Hvap Hb. destruct (Hbufs id avp bf Hvap Hb) as [? ?].
    split; [done|]. by eapply dom_is_Some.
  - intros p Hp. eapply dom_is_Some; [done|]. by apply Hcab.
  - intros id avp p Hvap Hp. eapply dom_is_Some; [done|]. by eapply Hmc.
Qed.

(** *** Generating a beacon *)

Lemma ath_beacon_generate_kept (E : mac_env) (if_id : Z)
    (sc sc' : ath_softc) (r : option ath_buf) :
  ath_beacon_generate E if_id sc = Some (r, sc') →
  ∃ tr, generated sc sc' tr
    ∧ Forall (λ c, is_generate_call c = true) tr
    ∧ vaps_kept (sc_vaps sc) (sc_vaps sc')
    ∧ dom (sc_descs sc') = dom (sc_descs sc).
Proof.
  intros Hg. apply ath_beacon_generate_result in Hg as (avp & Hvap & Hres).
  destruct (av_bcbuf avp) as [bf|] eqn:Hbc.
  - destruct Hres as (skb & changed & skb' & tim & tim4 & bf' & mq & cq & d
                      & tr & _ & _ & _ & _ & Hda & _ & _ & -> & Hall & Hdom & _).
    exists tr. split_and!; [by eexists _, _, _|done| |done].
    cbn. apply (vaps_kept_insert _ _ avp); [done|done|].
    cbn. by rewrite Hbc, Hda.
  - destruct Hres as [-> ->]. exists [].
    split_and!; [apply generated_refl|done|done|done].
Qed.

Lemma ath_beacon_generate_ready (E : mac_env) (if_id : Z)
    (sc sc' : ath_softc) (r : option ath_buf) :
  beacon_ready sc →
  ath_beacon_generate E if_id sc = Some (r, sc') →
  beacon_ready sc'
  ∧ ∀ bf, r = Some bf → is_Some (sc_descs sc' !! bf_daddr bf).
Proof.
  intros Hr Hg. pose proof Hr as [Hinv Hbufs Hcab Hmc Hant Hdef].
  apply ath_beacon_generate_result in Hg as (avp & Hvap & Hres).
  destruct (av_bcbuf avp) as [bf|] eqn:Hbc; [|by destruct Hres as [-> ->]].
  destruct Hres as (skb & changed & skb' & tim & tim4 & bf' & mq & cq & d
                    & tr & _ & _ & _ & -> & Hda & Hmp & _ & -> & _ & Hdom & _
                    & _ & _ & Hmq & Hcq).
  destruct (Hbufs if_id avp bf Hvap Hbc) as [_ Hdesc].
  assert (∀ a, is_Some (sc_descs sc !! a) → is_Some (d !! a)) as Hin.
  { intros a. by apply dom_is_Some. }
  split.
  - split; cbn; try done.
    + apply (bslot_inv_kept sc); [done|done|]. cbn.
      apply (vaps_kept_insert _ _ avp); [done|done|].
      cbn. by rewrite Hbc, Hda.
    + intros id v b Hv Hb. destruct (decide (id = if_id)) as [->|].
      * rewrite lookup_insert_eq in Hv. simplify_eq. cbn in Hb. simplify_eq.
        rewrite Hmp, Hda. split; [done|]. by apply Hin.
      * rewrite lookup_insert_ne in Hv by done.
        destruct (Hbufs id v b Hv Hb) as [? ?]. split; [done|]. by apply Hin.
    + intros p Hp. apply Hin. destruct Hcq as [Hn|[He|He]].
      * congruence.
      * apply Hcab. congruence.
      * apply (Hmc if_id avp); [done|congruence].
    + intros id v p Hv Hp. apply Hin. destruct (decide (id = if_id)) as [->|].
      * rewrite lookup_insert_eq in Hv. simplify_eq. cbn in Hp.
        destruct Hmq as [Hn| ->]; [congruence|]. by eapply Hmc.
      * rewrite lookup_insert_ne in Hv by done. by eapply Hmc.
  - intros b ?. simplify_eq. cbn. rewrite Hda. by apply Hin.
Qed.

Lemma trigger_mcastq_total (mq cq : ath_txq) (sc : ath_softc) :
  (∀ p, axq_link cq = Some p → is_Some (sc_descs sc !! p)) →
  is_Some (trigger_mcastq mq cq sc).
Proof.
  intros Hl. unfold trigger_mcastq, empty_mcastq_into_cabq.
  destruct (decide (axq_q mq ≠ [])).
  - destruct (axq_q mq) as [|bfm rest]; [done|].
    destruct (axq_link cq) as [p|].
    + destruct (Hl p eq_refl) as [ds ->]. cbn. case_decide; eauto.
    + cbn. case_decide; eauto.
  - cbn. case_decide; eauto.
Qed.

(** On a state the tasklet can run on, [ath_beacon_generate] returns. *)
Lemma ath_beacon_generate_total (E : mac_env) (if_id : Z) (sc : ath_softc)
    (avp : ath_vap) :
  env_ready E → beacon_ready sc →
  sc_vaps sc !! if_id = Some avp →
  sc_nbcnvaps sc ≠ 0 →
  is_Some (ath_beacon_generate E if_id sc).
Proof.
  intros Henv [Hinv Hbufs Hcab Hmc Hant Hdef] Hvap Hnb.
  destruct (ath_beacon_generate E if_id sc) as [res|] eqn:Hg; [done|].
  exfalso. unfold ath_beacon_generate in Hg. rewrite Hvap in Hg. cbn in Hg.
  destruct (av_bcbuf avp) as [bf|] eqn:Hbc; [|done].
  destruct (Hbufs if_id avp bf Hvap Hbc) as [[skb Hskb] [ds Hds]].
  rewrite Hskb in Hg. cbn in Hg.
  pose proof (Henv if_id skb (s32 (axq_depth (av_mcastq avp)))) as [tim4 Htim].
  destruct (ath_update_beacon E if_id skb _) as [[changed skb'] tim].
  cbn in Htim.
  match type of Hg with
  | context [let '(bf, sc) := ?x in _] => destruct x as [bf1 sc2] eqn:Hmap
  end.
  assert (bf_daddr bf1 = bf_daddr bf ∧ bf_mpdu bf1 = Some skb'
          ∧ sc_descs sc2 = sc_descs sc ∧ sc_nbcnvaps sc2 = sc_nbcnvaps sc
          ∧ sc_cabq sc2 = sc_cabq sc) as (Hda & Hmp & Hd2 & Hn2 & Hc2).
  { case_decide; by simplify_eq. }
  clear Hmap. rewrite Htim in Hg. cbn in Hg.
  match type of Hg with
  | context [let '(cabq, sc) := ?x in _] => destruct x as [cq0 sc3] eqn:Hdrain
  end.
  assert (sc_descs sc3 = sc_descs sc ∧ sc_nbcnvaps sc3 = sc_nbcnvaps sc
          ∧ (axq_link cq0 = None ∨ cq0 = sc_cabq sc)) as (Hd3 & Hn3 & Hc3).
  { cbn in Hdrain.
    repeat case_match; simplify_eq; cbn; split_and!;
      try done; try (by left); by right. }
  clear Hdrain.
  destruct (ath_beacon_setup_spec (avp_with_boff tim avp) bf1 sc3 skb' ds)
    as (ds' & flags & seglen & Hsetup);
    [done|by rewrite Hd3, Hda|by rewrite Hn3|].
  rewrite Hsetup in Hg. cbn in Hg.
  destruct (decide (Z.land tim4 1 ≠ 0)); [|done].
  match type of Hg with
  | context [trigger_mcastq ?mq ?cq ?s] =>
      destruct (trigger_mcastq_total mq cq s) as [[[mq' cq'] s'] Htrig]
  end.
  { intros p Hp. cbn. rewrite lookup_insert_is_Some'. right. rewrite Hd3.
    destruct Hc3 as [Hn| ->]; [congruence|by apply Hcab]. }
  by rewrite Htrig in Hg.
Qed.

(** *** The loops of the tasklet *)

Lemma store_bflink_ready (bflink : option Z) (v bfaddr : Z) (sc : ath_softc) :
  beacon_ready sc →
  (∀ p, bflink = Some p → is_Some (sc_descs sc !! p)) →
  ∃ bfaddr' sc',
    store_bflink bflink v bfaddr sc = Some (bfaddr', sc')
    ∧ beacon_ready sc'
    ∧ sc_bslot sc' = sc_bslot sc
    ∧ dom (sc_descs sc') = dom (sc_descs sc).
Proof.
  intros Hr Hp. unfold store_bflink.
  destruct bflink as [p|]; [|by eexists _, _].
  destruct (Hp p eq_refl) as [ds Hds]. rewrite Hds. cbn.
  assert (dom (<[p := ds_with_link (u32 v) ds]> (sc_descs sc))
          = dom (sc_descs sc)) as Hdom.
  { apply dom_insert_lookup_L. by rewrite Hds. }
  eexists _, _. split; [done|]. split_and!; [|done|done].
  by apply (beacon_ready_same sc).
Qed.

Lemma store_bflink_kept (bflink : option Z) (v bfaddr bfaddr' : Z)
    (sc sc' : ath_softc) :
  store_bflink bflink v bfaddr sc = Some (bfaddr', sc') →
  generated sc sc' [] ∧ sc_vaps sc' = sc_vaps sc.
Proof.
  unfold store_bflink. intros Hs. destruct bflink as [p|].
  - destruct (sc_descs sc !! p) as [ds|]; [|done]. cbn in Hs. simplify_eq.
    split; [|done].
    exists (sc_cabq sc), (sc_vaps sc),
      (<[p := ds_with_link (u32 v) ds]> (sc_descs sc)).
    rewrite called_nil. by destruct sc.
  - simplify_eq. split; [apply generated_refl|done].
Qed.

Lemma occupied_pos (tbl : list Z) (s id : Z) :
  arr_get tbl s = Some id → id ≠ ATH_IF_ID_ANY → 0 < occupied tbl.
Proof.
  unfold arr_get, occupied. intros Hs Hany. case_decide; [|done].
  assert (id ∈ filter (λ id, id ≠ ATH_IF_ID_ANY) tbl) as Hin.
  { apply list_elem_of_filter. split; [done|].
    by eapply list_elem_of_lookup_2. }
  destruct (filter _ tbl); [by apply not_elem_of_nil in Hin|].
  cbn [length]. lia.
Qed.

(** The interface entered in an occupied slot is there, and the count of
    beaconing interfaces is not 0. *)
Lemma slot_owner (sc : ath_softc) (s id : Z) :
  bslot_inv sc → arr_get (sc_bslot sc) s = Some id → id ≠ ATH_IF_ID_ANY →
  sc_nbcnvaps sc ≠ 0
  ∧ ∃ avp, sc_vaps sc !! id = Some avp ∧ is_Some (av_bcbuf avp).
Proof.
  intros Hinv Hs Hany. split.
  - rewrite (inv_count sc Hinv). pose proof (occupied_pos _ _ _ Hs Hany). lia.
  - destruct (inv_owner sc Hinv s id Hs Hany) as (avp & ? & ? & _). eauto.
Qed.

Lemma burst_loop_ready (E : mac_env) (n : nat) (slot : Z)
    (bflink : option Z) (bfaddr bc : Z) (sc : ath_softc) :
  env_ready E → beacon_ready sc →
  0 <= slot → slot + Z.of_nat n = ATH_BCBUF →
  (∀ p, bflink = Some p → is_Some (sc_descs sc !! p)) →
  ∃ bflink' bfaddr' bc' sc',
    burst_loop E n slot bflink bfaddr bc sc = Some (bflink', bfaddr', bc', sc')
    ∧ beacon_ready sc'
    ∧ (∀ p, bflink' = Some p → is_Some (sc_descs sc' !! p)).
Proof.
  intros Henv. revert slot bflink bfaddr bc sc.
  induction n as [|n IH]; intros slot bflink bfaddr bc sc Hr Hslot Hn Hlink.
  { by eexists _, _, _, _. }
  pose proof (ready_inv sc Hr) as Hinv.
  destruct (arr_get_in_range (sc_bslot sc) slot) as [if_id Hid].
  { rewrite (inv_size sc Hinv). lia. }
  cbn. rewrite Hid. cbn. case_decide as Hany.
  - destruct (slot_owner sc slot if_id Hinv Hid Hany) as (Hnb & avp & Hvap & _).
    destruct (ath_beacon_generate_total E if_id sc avp Henv Hr Hvap Hnb)
      as [[r sc1] Hg].
    rewrite Hg. cbn.
    destruct (ath_beacon_generate_ready E if_id sc sc1 r Hr Hg) as [Hr1 Hbf].
    destruct (ath_beacon_generate_kept E if_id sc sc1 r Hg)
      as (tr & _ & _ & _ & Hdom).
    destruct r as [bf|].
    + destruct (store_bflink_ready bflink (bf_daddr bf) bfaddr sc1 Hr1)
        as (bfaddr1 & sc2 & Hst & Hr2 & _ & Hdom2).
      { intros p Hp. eapply dom_is_Some; [done|]. by apply Hlink. }
      rewrite Hst. cbn. apply IH; [done|lia|lia|].
      intros p ?. simplify_eq. eapply dom_is_Some; [done|]. by apply Hbf.
    + apply IH; [done|lia|lia|].
      intros p Hp. eapply dom_is_Some; [done|]. by apply Hlink.
  - apply IH; [done|lia|lia|done].
Qed.

Lemma burst_loop_kept (E : mac_env) (n : nat) (slot : Z)
    (bflink bflink' : option Z) (bfaddr bc bfaddr' bc' : Z)
    (sc sc' : ath_softc) :
  burst_loop E n slot bflink bfaddr bc sc = Some (bflink', bfaddr', bc', sc') →
  ∃ tr, generated sc sc' tr
    ∧ Forall (λ c, is_generate_call c = true) tr
    ∧ vaps_kept (sc_vaps sc) (sc_vaps sc').
Proof.
  revert slot bflink bfaddr bc sc.
  induction n as [|n IH]; intros slot bflink bfaddr bc sc Hl; cbn in Hl.
  { simplify_eq. exists []. split_and!; [apply generated_refl|done|done]. }
  destruct (arr_get (sc_bslot sc) slot) as [if_id|]; [|done]. cbn in Hl.
  case_decide; [|by eapply IH].
  destruct (ath_beacon_generate E if_id sc) as [[bf sc1]|] eqn:Hgen; [|done].
  cbn in Hl.
  apply ath_beacon_generate_kept in Hgen as (t1 & Hg1 & Ha1 & Hk1 & _).
  destruct bf as [bf|].
  - destruct (store_bflink bflink (bf_daddr bf) bfaddr sc1)
      as [[bfaddr1 sc2]|] eqn:Hst; [|done].
    cbn in Hl. apply store_bflink_kept in Hst as [Hg2 Hv2].
    apply IH in Hl as (t3 & Hg3 & Ha3 & Hk3).
    exists (t1 ++ [] ++ t3). split_and!.
    + eapply generated_trans; [done|]. by eapply generated_trans.
    + apply Forall_app. by split.
    + eapply vaps_kept_trans; [done|]. by rewrite <- Hv2.
  - apply IH in Hl as (t3 & Hg3 & Ha3 & Hk3).
    exists (t1 ++ t3). split_and!.
    + by eapply generated_trans.
    + apply Forall_app. by split.
    + by eapply vaps_kept_trans.
Qed.

Lemma staggered_beacons_result (E : mac_env) (H : hal_readings)
    (slot bfaddr bc : Z) (sc sc1 : ath_softc) :
  staggered_beacons E H sc = Some (slot, bfaddr, bc, sc1) →
  stagger_slot (ath9k_hw_gettsf64 H) = Some slot
  ∧ ∃ idx if_id,
      c_mod (s32 (slot + 1)) ATH_BCBUF = Some idx
      ∧ arr_get (sc_bslot sc) idx = Some if_id
      ∧ ((if_id = ATH_IF_ID_ANY ∧ bfaddr = 0 ∧ bc = 0 ∧ sc1 = sc)
         ∨ (if_id ≠ ATH_IF_ID_ANY
            ∧ ∃ r, ath_beacon_generate E if_id sc = Some (r, sc1)
                ∧ match r with
                  | Some bf => bfaddr = u32 (bf_daddr bf) ∧ bc = 1
                  | None => bfaddr = 0 ∧ bc = 0
                  end)).
Proof.
  unfold staggered_beacons. intros Hs.
  destruct (stagger_slot _) as [slot0|]; [|done]. cbn in Hs.
  destruct (c_mod _ ATH_BCBUF) as [idx|] eqn:Hidx; [|done]. cbn in Hs.
  destruct (arr_get (sc_bslot sc) idx) as [if_id|] eqn:Hid; [|done].
  cbn in Hs. case_decide as Hany.
  - destruct (ath_beacon_generate E if_id sc) as [[r sc2]|] eqn:Hgen; [|done].
    cbn in Hs. destruct r as [bf|]; simplify_eq; (split; [done|]);
      exists idx, if_id; split_and!; try done; right; (split; [done|]);
      eexists; (split; [done|]); done.
  - assert (if_id = ATH_IF_ID_ANY) as Heq.
    { by destruct (decide (if_id = ATH_IF_ID_ANY)). }
    injection Hs as <- <- <- <-. split; [done|]. exists idx, if_id.
    split_and!; try done. by left.
Qed.

Lemma staggered_beacons_kept (E : mac_env) (H : hal_readings)
    (slot bfaddr bc : Z) (sc sc1 : ath_softc) :
  staggered_beacons E H sc = Some (slot, bfaddr, bc, sc1) →
  ∃ tr, generated sc sc1 tr
    ∧ Forall (λ c, is_generate_call c = true) tr
    ∧ vaps_kept (sc_vaps sc) (sc_vaps sc1).
Proof.
  intros Hs. apply staggered_beacons_result in Hs
    as (_ & idx & if_id & _ & _ & [(_ & _ & _ & ->)|(_ & r & Hg & _)]).
  - exists []. split_and!; [apply generated_refl|done|done].
  - apply ath_beacon_generate_kept in Hg as (tr & ? & ? & ? & _). by exists tr.
Qed.

Lemma burst_beacons_kept (E : mac_env) (slot bfaddr bc : Z)
    (sc sc1 : ath_softc) :
  burst_beacons E sc = Some (slot, bfaddr, bc, sc1) →
  slot = Z.max 0 ATH_BCBUF
  ∧ ∃ tr, generated sc sc1 tr
      ∧ Forall (λ c, is_generate_call c = true) tr
      ∧ vaps_kept (sc_vaps sc) (sc_vaps sc1).
Proof.
  unfold burst_beacons. intros Hb.
  destruct (burst_loop E _ 0 None 0 0 sc) as [[[[bflink a] c] sc2]|] eqn:Hl;
    [|done].
  cbn in Hb.
  destruct (store_bflink bflink 0 a sc2) as [[a' sc3]|] eqn:Hst; [|done].
  cbn in Hb. simplify_eq. split; [done|].
  apply burst_loop_kept in Hl as (t1 & Hg1 & Ha1 & Hk1).
  apply store_bflink_kept in Hst as [Hg2 Hv2].
  exists (t1 ++ []). split_and!.
  - by eapply generated_trans.
  - by rewrite app_nil_r.
  - by rewrite Hv2.
Qed.

Lemma sc_with_bmisscount_id (sc : ath_softc) :
  sc_bmisscount sc = 0 → sc_with_bmisscount 0 sc = sc.
Proof. destruct sc. cbn. by intros ->. Qed.

(** A cycle that finds the beacon queue drained, by its phases: the
    beacons are generated, the slot time and the antenna are looked
    after, the frames are handed to the hardware. *)
Lemma tasklet_drained_phases (E : mac_env) (H : hal_readings)
    (sc sc' : ath_softc) :
  ¬ pending H sc →
  ath9k_beacon_tasklet E H sc = Some sc' →
  ∃ slot bfaddr bc sc1 sc2 tr,
    (if sc_stagbeacons sc
     then staggered_beacons E H (sc_with_bmisscount 0 sc)
     else burst_beacons E (sc_with_bmisscount 0 sc))
    = Some (slot, bfaddr, bc, sc1)
    ∧ (sc_stagbeacons sc = false → slot = Z.max 0 ATH_BCBUF)
    ∧ generated (sc_with_bmisscount 0 sc) sc1 tr
    ∧ Forall (λ c, is_generate_call c = true) tr
    ∧ vaps_kept (sc_vaps sc) (sc_vaps sc1)
    ∧ antenna_check slot (slot_time_update slot sc1) = Some sc2
    ∧ sc' = beacon_submit bfaddr bc sc2.
Proof.
  unfold pending, ath9k_beacon_tasklet. intros Hnp Ht.
  case_decide; [done|].
  assert ((if decide (sc_bmisscount sc ≠ 0) then sc_with_bmisscount 0 sc
           else sc) = sc_with_bmisscount 0 sc) as Hsc0.
  { case_decide as Hz; [done|]. rewrite sc_with_bmisscount_id; [done|lia]. }
  rewrite Hsc0 in Ht. clear Hsc0.
  change (sc_stagbeacons (sc_with_bmisscount 0 sc)) with (sc_stagbeacons sc)
    in Ht.
  match type of Ht with
  | context [mbind _ ?x] => destruct x as [[[[slot bfaddr] bc] sc1]|] eqn:Hgen
  end; [|done].
  cbn in Ht.
  destruct (antenna_check slot (slot_time_update slot sc1)) as [sc2|] eqn:Hant;
    [|done].
  cbn in Ht. simplify_eq.
  exists slot, bfaddr, bc, sc1, sc2.
  destruct (sc_stagbeacons sc).
  - pose proof Hgen as Hgen'.
    apply staggered_beacons_kept in Hgen' as (tr & ? & ? & ?).
    exists tr. split_and!; done.
  - pose proof Hgen as Hgen'.
    apply burst_beacons_kept in Hgen' as (? & tr & ? & ? & ?).
    exists tr. split_and!; done.
Qed.

Lemma arr_set_length {A} (a a' : list A) (i : Z) (v : A) :
  arr_set a i v = Some a' → length a' = length a.
Proof.
  unfold arr_set. case_decide; [|done]. intros ?. simplify_eq.
  apply length_insert.
Qed.

(** The steps of the tasklet after the beacons are generated. *)
Lemma tasklet_tail (slot bfaddr bc : Z) (sc sc2 : ath_softc) :
  antenna_check slot (slot_time_update slot sc) = Some sc2 →
  let sc' := beacon_submit bfaddr bc sc2 in
  slot_state sc' = slot_state sc
  ∧ sc_vaps sc' = sc_vaps sc
  ∧ sc_cabq sc' = sc_cabq sc
  ∧ sc_descs sc' = sc_descs sc
  ∧ sc_defant sc' = sc_defant sc
  ∧ length (sc_ant_tx sc') = length (sc_ant_tx sc)
  ∧ sc_bmisscount sc' = sc_bmisscount sc
  ∧ sc_updateslot sc'
    = (if decide (sc_updateslot sc = UPDATE) then COMMIT
       else sc_updateslot sc)
  ∧ sc_slotupdate sc'
    = (if decide (sc_updateslot sc = UPDATE) then slot else sc_slotupdate sc)
  ∧ ast_be_xmit sc'
    = (if decide (bfaddr ≠ 0) then ast_be_xmit sc + bc else ast_be_xmit sc)
  ∧ ∃ ta,
      Forall (λ c, ∃ a, c = ath_setdefantenna_ a) ta
      ∧ sc_trace sc'
        = sc_trace sc
          ++ (if decide (sc_updateslot sc = COMMIT ∧ sc_slotupdate sc = slot)
              then [ath_setslottime_] else [])
          ++ ta
          ++ (if decide (bfaddr ≠ 0)
              then [ath9k_hw_stoptxdma_ (sc_bhalq sc);
                    ath9k_hw_puttxbuf_ (sc_bhalq sc) bfaddr;
                    ath9k_hw_txstart_ (sc_bhalq sc)]
              else []).
Proof.
  intros Hant sc'.
  (* the slot time *)
  set (sc1 := slot_time_update slot sc) in *.
  assert (slot_state sc1 = slot_state sc ∧ sc_vaps sc1 = sc_vaps sc
          ∧ sc_cabq sc1 = sc_cabq sc ∧ sc_descs sc1 = sc_descs sc
          ∧ sc_defant sc1 = sc_defant sc ∧ sc_ant_tx sc1 = sc_ant_tx sc
          ∧ sc_bmisscount sc1 = sc_bmisscount sc
          ∧ sc_diversity sc1 = sc_diversity sc
          ∧ sc_bhalq sc1 = sc_bhalq sc ∧ ast_be_xmit sc1 = ast_be_xmit sc
          ∧ sc_updateslot sc1
            = (if decide (sc_updateslot sc = UPDATE) then COMMIT
               else sc_updateslot sc)
          ∧ sc_slotupdate sc1
            = (if decide (sc_updateslot sc = UPDATE) then slot
               else sc_slotupdate sc)
          ∧ sc_trace sc1
            = sc_trace sc
              ++ (if decide (sc_updateslot sc = COMMIT ∧ sc_slotupdate sc = slot)
                  then [ath_setslottime_] else []))
    as (Hst1 & Hv1 & Hc1 & Hd1 & Hda1 & Han1 & Hbm1 & Hdv1 & Hq1 & Hx1 & Hu1
        & Hsu1 & Ht1).
  { unfold sc1, slot_time_update.
    destruct (decide (sc_updateslot sc = UPDATE)) as [Hu|Hu].
    - rewrite decide_False by (intros [? _]; congruence).
      cbn. by rewrite app_nil_r.
    - case_decide; cbn; by rewrite ?app_nil_r. }
  clearbody sc1.
  (* the antenna *)
  assert (slot_state sc2 = slot_state sc1 ∧ sc_vaps sc2 = sc_vaps sc1
          ∧ sc_cabq sc2 = sc_cabq sc1 ∧ sc_descs sc2 = sc_descs sc1
          ∧ sc_defant sc2 = sc_defant sc1
          ∧ length (sc_ant_tx sc2) = length (sc_ant_tx sc1)
          ∧ sc_bmisscount sc2 = sc_bmisscount sc1
          ∧ sc_bhalq sc2 = sc_bhalq sc1 ∧ ast_be_xmit sc2 = ast_be_xmit sc1
          ∧ sc_updateslot sc2 = sc_updateslot sc1
          ∧ sc_slotupdate sc2 = sc_slotupdate sc1
          ∧ ∃ ta, Forall (λ c, ∃ a, c = ath_setdefantenna_ a) ta
                  ∧ sc_trace sc2 = sc_trace sc1 ++ ta)
    as (Hst2 & Hv2 & Hc2 & Hd2 & Hda2 & Han2 & Hbm2 & Hq2 & Hx2 & Hu2 & Hsu2
        & ta & Hta & Ht2).
  { unfold antenna_check in Hant.
    destruct (_ && negb (sc_diversity sc1)).
    - set (otherant := if decide (Z.land (sc_defant sc1) 1 ≠ 0) then 2 else 1)
        in Hant.
      destruct (arr_get (sc_ant_tx sc1) otherant) as [other|]; [|done].
      cbn in Hant.
      destruct (arr_get (sc_ant_tx sc1) (sc_defant sc1)) as [def|]; [|done].
      cbn in Hant.
      destruct (decide (other > def + ATH_ANTENNA_DIFF)).
      + destruct (arr_set _ 2 0) as [a2|] eqn:H2; [|done]. cbn in Hant.
        destruct (arr_set a2 1 0) as [a1|] eqn:H1; [|done]. cbn in Hant.
        apply arr_set_length in H2, H1. cbn in H2.
        injection Hant as <-. cbn.
        split_and!; try done; [congruence|].
        eexists. split; [|done]. repeat constructor. by eexists.
      + destruct (arr_set _ 2 0) as [a2|] eqn:H2; [|done]. cbn in Hant.
        destruct (arr_set a2 1 0) as [a1|] eqn:H1; [|done]. cbn in Hant.
        apply arr_set_length in H2, H1.
        injection Hant as <-. cbn.
        split_and!; try done; [congruence|].
        exists []. by rewrite app_nil_r.
    - injection Hant as <-. split_and!; try done.
      exists []. by rewrite app_nil_r. }
  (* the hardware queue *)
  unfold sc', beacon_submit.
  destruct (decide (bfaddr ≠ 0)); cbn.
  - rewrite Hq2, Hq1, Hx2, Hx1, Ht2, Ht1, Hu2, Hu1, Hsu2, Hsu1.
    split_and!; try congruence.
    + by rewrite <- Hst1, <- Hst2.
    + exists ta. split; [done|]. by rewrite <- !app_assoc.
  - rewrite Ht2, Ht1, Hu2, Hu1, Hsu2, Hsu1. split_and!; try congruence.
    exists ta. split; [done|]. by rewrite <- !app_assoc, app_nil_r.
Qed.

Lemma beacon_missed_kept (sc : ath_softc) :
  let sc' := beacon_missed sc in
  slot_state sc' = slot_state sc
  ∧ sc_vaps sc' = sc_vaps sc
  ∧ sc_cabq sc' = sc_cabq sc
  ∧ sc_descs sc' = sc_descs sc
  ∧ sc_defant sc' = sc_defant sc
  ∧ sc_ant_tx sc' = sc_ant_tx sc
  ∧ sc_updateslot sc' = sc_updateslot sc
  ∧ sc_slotupdate sc' = sc_slotupdate sc.
Proof.
  unfold beacon_missed, ath_bstuck_process. cbn.
  repeat case_decide; destruct (sc_noreset sc); done.
Qed.

(** *** The tasklet keeps the slots and the buffers *)

(** X14.  Whatever a cycle of the tasklet does, it does not change the mode,
    the interrupt mask, the slot table, the count of beaconing interfaces
    or the pool, and every interface keeps its slot and its beacon buffer.
    The slot table invariant is therefore kept by the tasklet as well. *)
Theorem ath9k_beacon_tasklet_keeps (E : mac_env) (H : hal_readings)
    (sc sc' : ath_softc) :
  ath9k_beacon_tasklet E H sc = Some sc' →
  slot_state sc' = slot_state sc
  ∧ vaps_kept (sc_vaps sc) (sc_vaps sc')
  ∧ (bslot_inv sc → bslot_inv sc').
Proof.
  intros Ht.
  enough (slot_state sc' = slot_state sc
          ∧ vaps_kept (sc_vaps sc) (sc_vaps sc')) as [Hst Hk].
  { split_and!; [done|done|]. intros Hinv. by apply (bslot_inv_kept sc). }
  destruct (decide (pending H sc)) as [Hp|Hnp].
  - rewrite (tasklet_pending E H sc Hp) in Ht. simplify_eq.
    destruct (beacon_missed_kept sc) as (? & Hv & _). split; [done|].
    by rewrite Hv.
  - apply tasklet_drained_phases in Ht
      as (slot & bfaddr & bc & sc1 & sc2 & tr & _ & _ & (cq & v & d & ->)
          & _ & Hk & Hant & ->); [|done].
    destruct (tasklet_tail slot bfaddr bc _ sc2 Hant) as (Hst & Hv & _).
    split; [by rewrite Hst|]. by rewrite Hv.
Qed.

(** *** States on which the tasklet runs *)

Lemma antenna_check_ready (slot : Z) (sc : ath_softc) :
  beacon_ready sc → is_Some (antenna_check slot sc).
Proof.
  intros [_ _ _ _ Hant Hdef]. unfold antenna_check.
  destruct (_ && _); [|done].
  set (otherant := if decide (Z.land (sc_defant sc) 1 ≠ 0) then 2 else 1).
  assert (1 <= otherant <= 2) as Ho by (unfold otherant; case_decide; lia).
  destruct (arr_get_in_range (sc_ant_tx sc) otherant) as [other ->]; [lia|].
  destruct (arr_get_in_range (sc_ant_tx sc) (sc_defant sc)) as [def ->];
    [done|].
  cbn.
  assert (∀ s : ath_softc, sc_ant_tx s = sc_ant_tx sc →
            is_Some (a ← arr_set (sc_ant_tx s) 2 0;
                     a0 ← arr_set a 1 0; Some (sc_with_ant_tx a0 s))) as Hset.
  { intros s ->. rewrite arr_set_Some by lia. cbn.
    rewrite arr_set_Some by (rewrite length_insert; lia). done. }
  case_decide; by apply Hset.
Qed.

Lemma tasklet_ready (E : mac_env) (H : hal_readings) (sc : ath_softc) :
  env_ready E → beacon_ready sc →
  0 < u16 ATH_DEFAULT_BINTVAL → 0 < ATH_BCBUF →
  u16 ATH_DEFAULT_BINTVAL * ATH_BCBUF < 2^31 →
  ∃ sc', ath9k_beacon_tasklet E H sc = Some sc' ∧ beacon_ready sc'.
Proof.
  intros Henv Hr Hi Hb Hprod.
  destruct (decide (pending H sc)) as [Hp|Hnp].
  { rewrite (tasklet_pending E H sc Hp). eexists. split; [done|].
    destruct (beacon_missed_kept sc) as (? & ? & ? & Hd & ? & Ha & _).
    apply (beacon_ready_same sc); try done; congruence. }
  unfold pending in Hnp. unfold ath9k_beacon_tasklet.
  case_decide; [done|].
  set (sc0 := if decide (sc_bmisscount sc ≠ 0) then sc_with_bmisscount 0 sc
              else sc).
  assert (beacon_ready sc0 ∧ sc_stagbeacons sc0 = sc_stagbeacons sc)
    as [Hr0 Hs0].
  { unfold sc0. case_decide; [|done]. split; [|done].
    by apply (beacon_ready_same sc). }
  clearbody sc0. pose proof (ready_inv sc0 Hr0) as Hinv0.
  (* the beacons *)
  assert (∃ slot bfaddr bc sc1,
            (if sc_stagbeacons sc0 then staggered_beacons E H sc0
             else burst_beacons E sc0) = Some (slot, bfaddr, bc, sc1)
            ∧ beacon_ready sc1)
    as (slot & bfaddr & bc & sc1 & -> & Hr1).
  { destruct (sc_stagbeacons sc0).
    - unfold staggered_beacons.
      destruct (stagger_slot_in_range (ath9k_hw_gettsf64 H) Hi Hb Hprod)
        as (-> & Hrange & Hidx).
      cbn. rewrite Hidx. cbn.
      match goal with
      | |- context [arr_get (sc_bslot sc0) ?i] =>
          destruct (arr_get_in_range (sc_bslot sc0) i) as [if_id Hid]
      end.
      { rewrite (inv_size sc0 Hinv0). apply Z.mod_pos_bound. lia. }
      rewrite Hid. cbn. case_decide as Hany; [|by eexists _, _, _, _].
      destruct (slot_owner sc0 _ if_id Hinv0 Hid Hany)
        as (Hnb & avp & Hvap & _).
      destruct (ath_beacon_generate_total E if_id sc0 avp Henv Hr0 Hvap Hnb)
        as [[r sc1] Hg].
      rewrite Hg. cbn.
      destruct (ath_beacon_generate_ready E if_id sc0 sc1 r Hr0 Hg) as [Hr1 _].
      destruct r; by eexists _, _, _, _.
    - unfold burst_beacons.
      destruct (burst_loop_ready E (Z.to_nat ATH_BCBUF) 0 None 0 0 sc0)
        as (bflink & a & c & sc1 & -> & Hr1 & Hlink);
        [done|done|lia|lia|done|].
      cbn.
      destruct (store_bflink_ready bflink 0 a sc1 Hr1 Hlink)
        as (a' & sc2 & -> & Hr2 & _).
      cbn. by eexists _, _, _, _. }
  cbn.
  (* the slot time, the antenna, the hardware queue *)
  assert (beacon_ready (slot_time_update slot sc1)) as Hr2.
  { apply (beacon_ready_same sc1); try done;
      unfold slot_time_update; by repeat case_decide. }
  destruct (antenna_check_ready slot _ Hr2) as [sc3 Hant].
  rewrite Hant. cbn. eexists. split; [done|].
  destruct (tasklet_tail slot bfaddr bc sc1 sc3 Hant)
    as (? & ? & ? & Hd & ? & ? & _).
  apply (beacon_ready_same sc1); try done. by rewrite Hd.
Qed.

(** X15.  On a state on which the slot table invariant holds, the beacon
    buffers held by interfaces have a frame and a descriptor, the link
    pointers of the queues point into descriptor memory and the antenna
    counters are in place, every cycle of the tasklet runs to its end: no
    assertion fails, no index is out of bounds, no [NULL] pointer is
    followed and nothing is divided by 0; and the state it leaves is such
    a state again.  (The beacon interval is positive and its product with
    [ATH_BCBUF] fits an [int]; [ath_update_beacon] leaves a TIM element
    with a bitmap control byte.) *)
Theorem ath9k_beacon_tasklet_runs (E : mac_env) (Hs : list hal_readings)
    (sc : ath_softc) :
  env_ready E → beacon_ready sc →
  0 < u16 ATH_DEFAULT_BINTVAL → 0 < ATH_BCBUF →
  u16 ATH_DEFAULT_BINTVAL * ATH_BCBUF < 2^31 →
  ∃ sc', tasklet_run E Hs sc = Some sc' ∧ beacon_ready sc'.
Proof.
  intros Henv Hr Hi Hb Hprod. revert sc Hr.
  induction Hs as [|H Hs IH]; intros sc Hr; [by exists sc|].
  destruct (tasklet_ready E H sc Henv Hr Hi Hb Hprod) as (sc1 & Ht & Hr1).
  cbn. rewrite Ht. cbn. by apply IH.
Qed.

(** *** The slot time change *)

Lemma generate_calls_no_commit (tr : list call) :
  Forall (λ c, is_generate_call c = true) tr → slottime_commits tr = 0%nat.
Proof.
  unfold slottime_commits. induction 1 as [|c tr Hc _ IH]; [done|].
  cbn. by destruct c.
Qed.

(** X16.  The slot time change is clocked by the tasklet.  A cycle that finds
    the beacon queue pending leaves it alone.  A cycle that finds the
    queue drained and a change requested ([UPDATE]) records its slot and
    moves on to [COMMIT] without calling [ath_setslottime]; a cycle in
    [COMMIT] calls [ath_setslottime], once, if and only if its slot is the
    recorded one.  The slot of a cycle is the slot computed from the clock
    when beacons are staggered and [ATH_BCBUF] when they are burst. *)
Theorem tasklet_slot_time_change (E : mac_env) (H : hal_readings)
    (sc sc' : ath_softc) :
  ath9k_beacon_tasklet E H sc = Some sc' →
  ∃ tr, sc_trace sc' = sc_trace sc ++ tr ∧
    if decide (pending H sc) then
      sc_updateslot sc' = sc_updateslot sc
      ∧ sc_slotupdate sc' = sc_slotupdate sc
      ∧ slottime_commits tr = 0%nat
    else
      ∃ slot,
        (if sc_stagbeacons sc
         then stagger_slot (ath9k_hw_gettsf64 H) = Some slot
         else slot = Z.max 0 ATH_BCBUF)
        ∧ match sc_updateslot sc with
          | UPDATE =>
            sc_updateslot sc' = COMMIT ∧ sc_slotupdate sc' = slot
            ∧ slottime_commits tr = 0%nat
          | COMMIT =>
            sc_updateslot sc' = COMMIT
            ∧ sc_slotupdate sc' = sc_slotupdate sc
            ∧ slottime_commits tr
              = (if decide (sc_slotupdate sc = slot) then 1 else 0)%nat
          | OK =>
            sc_updateslot sc' = OK ∧ sc_slotupdate sc' = sc_slotupdate sc
            ∧ slottime_commits tr = 0%nat
          end.
Proof.
  intros Ht. destruct (decide (pending H sc)) as [Hp|Hnp].
  - rewrite (tasklet_pending E H sc Hp) in Ht. simplify_eq.
    destruct (beacon_missed_kept sc) as (_ & _ & _ & _ & _ & _ & Hu & Hsu).
    destruct (Z.lt_trichotomy (sc_bmisscount sc + 1) BSTUCK_THRESH)
      as [Hlt|[Heq|Hgt]].
    + rewrite beacon_missed_below by done. exists []. cbn.
      by rewrite app_nil_r.
    + rewrite beacon_missed_at by done. eexists. cbn. split; [done|].
      by destruct (sc_noreset sc).
    + rewrite beacon_missed_above by lia. destruct (sc_noreset sc).
      * exists []. cbn. by rewrite app_nil_r.
      * by eexists.
  - apply tasklet_drained_phases in Ht
      as (slot & bfaddr & bc & sc1 & sc2 & tr & Hgen & Hburst
          & (cq & v & d & ->) & Hall & _ & Hant & ->); [|done].
    destruct (tasklet_tail slot bfaddr bc _ sc2 Hant)
      as (_ & _ & _ & _ & _ & _ & _ & Hu & Hsu & _ & ta & Hta & Htr).
    cbn in Hu, Hsu, Htr.
    eexists. split; [rewrite Htr, <- !app_assoc; reflexivity|].
    exists slot. split.
    { destruct (sc_stagbeacons sc); [|by apply Hburst].
      by apply staggered_beacons_result in Hgen as [? _]. }
    assert (slottime_commits ta = 0%nat) as Hca.
    { unfold slottime_commits. clear -Hta.
      induction Hta as [|c ta [a ->] _ IH]; done. }
    pose proof (generate_calls_no_commit tr Hall) as Hcg.
    assert (∀ t1 t2 t3 t4,
              slottime_commits (t1 ++ t2 ++ t3 ++ t4)
              = (slottime_commits t1 + slottime_commits t2
                 + slottime_commits t3 + slottime_commits t4)%nat) as Happ.
    { intros. unfold slottime_commits.
      rewrite !List.filter_app, !length_app. lia. }
    rewrite Hu, Hsu, Happ, Hcg, Hca.
    assert (∀ q a, slottime_commits
                     (if decide (bfaddr ≠ 0)
                      then [ath9k_hw_stoptxdma_ q; ath9k_hw_puttxbuf_ q a;
                            ath9k_hw_txstart_ q] else []) = 0%nat) as ->.
    { intros q a. by destruct (decide (bfaddr ≠ 0)). }
    destruct (sc_updateslot sc) eqn:Hus.
    + rewrite decide_False by done.
      rewrite (decide_False (P := OK = COMMIT ∧ _)) by (by intros [? _]).
      done.
    + rewrite decide_True by done.
      rewrite (decide_False (P := UPDATE = COMMIT ∧ _)) by (by intros [? _]).
      done.
    + rewrite decide_False by done. split; [done|]. split; [done|].
      destruct (decide (sc_slotupdate sc = slot)).
      * by rewrite decide_True.
      * rewrite decide_False; [done|]. by intros [_ ?].
Qed.

(** *** Misses with the reset switched off *)

Lemma tasklet_run_pending_noreset (E : mac_env) (Hs : list hal_readings)
    (sc : ath_softc) :
  sc_noreset sc = true →
  Forall (λ H, pending H sc) Hs →
  BSTUCK_THRESH <= sc_bmisscount sc →
  ∃ sc', tasklet_run E Hs sc = Some sc'
    ∧ sc_bmisscount sc' = sc_bmisscount sc + Z.of_nat (length Hs)
    ∧ sc_trace sc' = sc_trace sc.
Proof.
  revert sc. induction Hs as [|H Hs IH]; intros sc Hno Hall Hge.
  { exists sc. cbn. split_and!; try done. lia. }
  apply Forall_cons in Hall as [Hp Hall].
  cbn. rewrite (tasklet_pending E H sc Hp). cbn.
  rewrite beacon_missed_above by lia. rewrite Hno.
  destruct (IH (sc_with_bmisscount (sc_bmisscount sc + 1) sc))
    as (sc' & Hrun & Hb & Ht); [done|done|cbn; lia|].
  exists sc'. cbn in Hb. cbn [length]. split_and!; try done. lia.
Qed.

(** The calls recorded over such a run. *)
Lemma noreset_miss_run_calls (E : mac_env) (Hs : list hal_readings)
    (sc : ath_softc) :
  sc_noreset sc = true →
  sc_bmisscount sc = 0 →
  0 < BSTUCK_THRESH →
  Forall (λ H, pending H sc) Hs →
  ∃ sc', tasklet_run E Hs sc = Some sc'
    ∧ sc_bmisscount sc' = Z.of_nat (length Hs)
    ∧ sc_trace sc'
      = sc_trace sc ++ (if decide (BSTUCK_THRESH <= Z.of_nat (length Hs))
                        then [ath9k_hw_dmaRegDump_] else []).
Proof.
  intros Hno Hzero Hpos Hall.
  destruct (decide (BSTUCK_THRESH <= Z.of_nat (length Hs))) as [Hge|Hlt].
  - (* the misses before the threshold, the miss that reaches it, the rest *)
    set (n := Z.to_nat (BSTUCK_THRESH - 1)).
    rewrite <- (take_drop n Hs) in Hall |- *.
    apply Forall_app in Hall as [Hall1 Hall2].
    assert (length (take n Hs) = n) as Hlen1 by (rewrite length_take; lia).
    destruct (drop n Hs) as [|H0 Hs2] eqn:Hdrop.
    { apply (f_equal length) in Hdrop. rewrite length_drop in Hdrop.
      cbn in Hdrop. lia. }
    apply Forall_cons in Hall2 as [Hp0 Hall2].
    destruct (tasklet_run_pending_below E (take n Hs) sc Hall1)
      as (sc1 & Hrun1 & Hb1 & Ht1 & Hn1 & Hq1); [lia|].
    rewrite tasklet_run_app, Hrun1. cbn.
    assert (pending H0 sc1) as Hp1 by (unfold pending in *; by rewrite Hq1).
    rewrite (tasklet_pending E H0 sc1 Hp1). cbn.
    rewrite beacon_missed_at by lia. rewrite Hn1, Hno.
    destruct (tasklet_run_pending_noreset E Hs2
                (called [ath9k_hw_dmaRegDump_]
                   (sc_with_bmisscount (sc_bmisscount sc1 + 1) sc1)))
      as (sc' & Hrun & Hb & Ht).
    { cbn. congruence. }
    { eapply Forall_impl; [exact Hall2|]. intros H2 Hp2.
      unfold pending in *. cbn. by rewrite Hq1. }
    { cbn. lia. }
    exists sc'. split; [done|]. cbn in Hb, Ht.
    rewrite length_app. cbn [length]. split; [lia|]. by rewrite Ht, Ht1.
  - destruct (tasklet_run_pending_below E Hs sc Hall)
      as (sc' & Hrun & Hb & Ht & _); [lia|].
    exists sc'. split; [done|]. split; [lia|]. by rewrite app_nil_r.
Qed.

(** X17.  With [sc_noreset] set the device is never reset, however many
    beacons are missed in a row: from a miss counter of 0 the cycles that
    find the beacon queue pending count the misses, refresh no beacon and
    hand nothing to the hardware queues, and the DMA registers are dumped
    once, in the cycle in which the counter reaches [BSTUCK_THRESH]. *)
Theorem noreset_miss_run (E : mac_env) (Hs : list hal_readings)
    (sc : ath_softc) :
  sc_noreset sc = true →
  sc_bmisscount sc = 0 →
  0 < BSTUCK_THRESH →
  Forall (λ H, pending H sc) Hs →
  ∃ sc' tr, tasklet_run E Hs sc = Some sc'
    ∧ sc_bmisscount sc' = Z.of_nat (length Hs)
    ∧ sc_trace sc' = sc_trace sc ++ tr
    ∧ resets tr = 0%nat
    ∧ reg_dumps tr
      = (if decide (BSTUCK_THRESH <= Z.of_nat (length Hs))%Z then 1 else 0)%nat
    ∧ generated_for tr = []
    ∧ submitted tr = [].
Proof.
  intros Hno Hzero Hpos Hall.
  destruct (noreset_miss_run_calls E Hs sc Hno Hzero Hpos Hall)
    as (sc' & Hrun & Hb & Ht).
  exists sc'. eexists. split; [done|]. split; [done|]. split; [exact Ht|].
  by destruct (decide (BSTUCK_THRESH <= Z.of_nat (length Hs))).
Qed.

(** *** What a staggered cycle hands to the hardware *)

(** X18.  A staggered cycle that finds the beacon queue drained either
    refreshes no frame, and then hands nothing to the beacon queue and
    counts nothing; or it refreshes the frame of one interface, and then
    ends by stopping the beacon queue, putting the bus address of that
    interface's beacon buffer on it and starting it, and counts one beacon
    sent.  Only a buffer whose bus address is 0 in its low 32 bits is left
    out after it was refreshed. *)
Theorem staggered_cycle_submit (E : mac_env) (H : hal_readings)
    (sc sc' : ath_softc) :
  sc_stagbeacons sc = true →
  ¬ pending H sc →
  ath9k_beacon_tasklet E H sc = Some sc' →
  ∃ tr, sc_trace sc' = sc_trace sc ++ tr ∧
    ((generated_for tr = []
      ∧ ast_be_xmit sc' = ast_be_xmit sc
      ∧ ∀ q, ath9k_hw_stoptxdma_ q ∉ tr)
     ∨ ∃ if_id avp bf,
         generated_for tr = [if_id]
         ∧ sc_vaps sc !! if_id = Some avp
         ∧ av_bcbuf avp = Some bf
         ∧ if decide (u32 (bf_daddr bf) ≠ 0) then
             ast_be_xmit sc' = ast_be_xmit sc + 1
             ∧ ∃ tr0, tr = tr0 ++ [ath9k_hw_stoptxdma_ (sc_bhalq sc);
                                   ath9k_hw_puttxbuf_ (sc_bhalq sc)
                                     (u32 (bf_daddr bf));
                                   ath9k_hw_txstart_ (sc_bhalq sc)]
           else
             ast_be_xmit sc' = ast_be_xmit sc
             ∧ ∀ q, ath9k_hw_stoptxdma_ q ∉ tr).
Proof.
  intros Hstag Hnp Ht.
  apply tasklet_drained_phases in Ht
    as (slot & bfaddr & bc & sc1 & sc2 & tr & Hgen & _
        & (cq & v & d & ->) & Hall & _ & Hant & ->); [|done].
  rewrite Hstag in Hgen.
  destruct (tasklet_tail slot bfaddr bc _ sc2 Hant)
    as (_ & _ & _ & _ & _ & _ & _ & _ & _ & Hx & ta & Hta & Htr).
  cbn in Hx, Htr. rewrite Htr, Hx.
  set (tc := if decide (sc_updateslot sc = COMMIT ∧ sc_slotupdate sc = slot)
             then [ath_setslottime_] else []).
  assert (generated_for (tc ++ ta) = []
          ∧ ∀ q, ath9k_hw_stoptxdma_ q ∉ tc ++ ta) as [Hgt Hst].
  { split.
    - rewrite generated_for_app.
      assert (generated_for tc = []) as -> by (unfold tc; by case_decide).
      clear -Hta. induction Hta as [|c ta [a ->] _ IH]; done.
    - intros q Hin. apply elem_of_app in Hin as [Hin|Hin].
      + unfold tc in Hin. case_decide; [|by apply not_elem_of_nil in Hin].
        by apply list_elem_of_singleton in Hin.
      + rewrite Forall_forall in Hta. by destruct (Hta _ Hin). }
  assert (∀ q, ath9k_hw_stoptxdma_ q ∉ tr) as Hsg.
  { intros q Hin. rewrite Forall_forall in Hall. by specialize (Hall _ Hin). }
  apply staggered_beacons_result in Hgen
    as (_ & idx & if_id & _ & Hid
        & [(_ & -> & -> & Heq)|(Hany & r & Hg & Hr)]).
  - (* the slot is empty *)
    assert (tr = []) as ->.
    { apply (f_equal sc_trace) in Heq. cbn in Heq.
      rewrite <- (app_nil_r (sc_trace sc)) in Heq at 2.
      by apply app_inv_head in Heq. }
    destruct (decide (0 ≠ 0)) as [?|_]; [done|].
    exists (tc ++ ta). split; [by rewrite !app_nil_r|].
    left. split_and!; done.
  - pose proof Hg as Hg'.
    apply ath_beacon_generate_steps in Hg' as (tg & [Htg _] & _ & Hgf & _).
    cbn in Htg. apply app_inv_head in Htg. subst tg.
    apply ath_beacon_generate_result in Hg as (avp & Hvap & Hres).
    cbn in Hvap.
    destruct (av_bcbuf avp) as [bf|] eqn:Hbc.
    + destruct Hres as (skb & changed & skb' & tim & tim4 & bf' & mq & cq' & d'
                        & tr' & _ & _ & _ & -> & Hda & _).
      destruct Hr as [-> ->]. rewrite Hda.
      eexists. split; [rewrite <- (app_assoc (sc_trace sc)); reflexivity|].
      right. exists if_id, avp, bf. split_and!; try done.
      { rewrite generated_for_app, Hgf.
        rewrite app_assoc, generated_for_app, Hgt.
        by destruct (decide (u32 (bf_daddr bf) ≠ 0)). }
      destruct (decide (u32 (bf_daddr bf) ≠ 0)).
      * split; [done|]. exists (tr ++ tc ++ ta). by rewrite <- !app_assoc.
      * rewrite app_nil_r. split; [done|].
        intros q Hin. apply elem_of_app in Hin as [Hin|Hin];
          [by apply (Hsg q)|by apply (Hst q)].
    + destruct Hres as [-> _]. destruct Hr as [-> ->].
      destruct (decide (0 ≠ 0)) as [?|_]; [done|].
      exists (tr ++ tc ++ ta).
      split; [by rewrite app_nil_r, <- (app_assoc (sc_trace sc))|].
      left. split_and!; try done.
      * by rewrite generated_for_app, Hgf, Hgt.
      * intros q Hin. apply elem_of_app in Hin as [Hin|Hin];
          [by apply (Hsg q)|by apply (Hst q)].
Qed.

End tasklet_more.

(** ** ath_beacon_config, the beacon timer of an AP or an ad-hoc station *)

Section config_more.
Context {K : core_h}.

(** [intval | HAL_BEACON_RESET_TSF] has the bits of [HAL_BEACON_RESET_TSF]. *)
Lemma land_lor_reset (a r : Z) :
  0 <= r < 2^32 → Z.land (u32 (Z.lor a r)) r = r.
Proof.
  intros Hr. unfold u32. apply Z.bits_inj'. intros n Hn.
  rewrite Z.land_spec.
  destruct (decide (n < 32)) as [Hlt|Hge].
  - rewrite Z.mod_pow2_bits_low, Z.lor_spec by lia.
    by destruct (Z.testbit a n), (Z.testbit r n).
  - rewrite Z.mod_pow2_bits_high by lia. cbn. symmetry.
    rewrite <- (Z.mod_small r (2^32)) by lia.
    apply Z.mod_pow2_bits_high. lia.
Qed.

(** [conf] is zeroed but for its defaults: [intval] is the default
    interval masked, split among the slots for staggered beacons of an
    AP, and [nexttbtt] starts out as [intval]. *)
Lemma beacon_config_base_value (m : hal_opmode) (sc : ath_softc) :
  (sc_opmode sc = HAL_M_HOSTAP → sc_stagbeacons sc = true →
   u32 ATH_BCBUF ≠ 0) →
  let period := u32 (Z.land ATH_DEFAULT_BINTVAL HAL_BEACON_PERIOD) in
  let intval := if bool_decide (sc_opmode sc = HAL_M_HOSTAP)
                   && sc_stagbeacons sc
                then Z.quot period (u32 ATH_BCBUF) else period in
  beacon_config_base default_conf m sc = Some (intval, intval).
Proof.
  intros Hnz period intval. unfold beacon_config_base.
  assert (TSF_TO_TU (le_value (take 4 (drop 4 (last_tstamp default_conf))))
            (le_value (take 4 (last_tstamp default_conf))) = 0) as Hz
    by reflexivity.
  rewrite Hz. clear Hz. cbn [beacon_interval default_conf]. fold period.
  subst intval.
  destruct (decide (sc_opmode sc = HAL_M_HOSTAP)) as [Hap|Hap].
  - rewrite (bool_decide_eq_true_2 _ Hap).
    destruct (sc_stagbeacons sc) eqn:Hstag; cbn.
    + unfold c_div. rewrite decide_False by by apply Hnz. cbn.
      destruct (sc_nostabeacons sc && bool_decide (m = HAL_M_HOSTAP)); cbn;
        by rewrite decide_True.
    + destruct (sc_nostabeacons sc && bool_decide (m = HAL_M_HOSTAP)); cbn;
        by rewrite decide_True.
  - rewrite (bool_decide_eq_false_2 _ Hap). cbn. by rewrite decide_True.
Qed.

Lemma ath_beaconq_config_state (H : hal_readings) (sc : ath_softc) :
  (ath_beaconq_config H sc).2 = called (beaconq_calls H sc) sc.
Proof.
  unfold ath_beaconq_config, beaconq_calls.
  destruct (ath9k_hw_settxqueueprops H); cbn [snd]; [|done].
  by rewrite called_called.
Qed.

Lemma sc_trace_called (t : list call) (sc : ath_softc) :
  sc_trace (called t sc) = sc_trace sc ++ t.
Proof. done. Qed.

Lemma sc_with_imask_called (v : Z) (t : list call) (sc : ath_softc) :
  sc_with_imask v (called t sc) = called t (sc_with_imask v sc).
Proof. done. Qed.

Lemma sc_with_bmisscount_called (v : Z) (t : list call) (sc : ath_softc) :
  sc_with_bmisscount v (called t sc) = called t (sc_with_bmisscount v sc).
Proof. done. Qed.

(** Outside the station branch: the beacon timer starts one interval
    from a reset clock whatever the clock reads, so the loop that pulls
    [nexttbtt] forward in ad-hoc mode is not entered. *)
Lemma ath_beacon_config_timer (fuel : nat) (H : hal_readings) (if_id : Z)
    (sc : ath_softc) (m : hal_opmode) :
  beacon_config_opmode if_id sc = Some m →
  sta_timers m sc = false →
  (sc_opmode sc = HAL_M_HOSTAP → sc_stagbeacons sc = true →
   u32 ATH_BCBUF ≠ 0) →
  (sc_opmode sc = HAL_M_IBSS → 0 < HAL_BEACON_RESET_TSF < 2^32) →
  let period := u32 (Z.land ATH_DEFAULT_BINTVAL HAL_BEACON_PERIOD) in
  let intval := if bool_decide (sc_opmode sc = HAL_M_HOSTAP)
                   && sc_stagbeacons sc
                then Z.quot period (u32 ATH_BCBUF) else period in
  let ap := bool_decide (sc_opmode sc = HAL_M_HOSTAP) in
  let ibss := bool_decide (sc_opmode sc = HAL_M_IBSS) in
  let reset := u32 (Z.lor intval HAL_BEACON_RESET_TSF) in
  let flags := if ap || ibss then u32 (Z.lor reset HAL_BEACON_ENA)
               else reset in
  let imask := if ap || (ibss && negb (sc_hasveol sc))
               then Z.lor (sc_imask sc) HAL_INT_SWBA else sc_imask sc in
  let sc1 :=
    called ([ath9k_hw_set_interrupts_ 0]
            ++ (if ap || ibss then beaconq_calls H sc else [])
            ++ [ath9k_hw_beaconinit_ intval flags;
                ath9k_hw_set_interrupts_ imask])
      (sc_with_bmisscount 0 (sc_with_imask imask sc)) in
  ath_beacon_config fuel H if_id sc
  = if ibss && sc_hasveol sc then
      sc2 ← ath_beacon_start_adhoc 0 sc1;
      Some (ap_beacon_timers intval flags, sc2)
    else Some (ap_beacon_timers intval flags, sc1).
Proof.
  intros Hm Hsta Hnz Hr period intval ap ibss reset flags imask sc1.
  unfold ath_beacon_config. rewrite Hm. cbn [mbind option_bind].
  rewrite (beacon_config_base_value m sc Hnz). cbn [mbind option_bind].
  fold period. fold intval. rewrite Hsta.
  destruct (decide (intval = intval)) as [_|?]; [|done]. fold reset.
  change (sc_opmode (called [ath9k_hw_set_interrupts_ 0] sc))
    with (sc_opmode sc).
  change (sc_hasveol (called [ath9k_hw_set_interrupts_ 0] sc))
    with (sc_hasveol sc).
  rewrite !ath_beaconq_config_state.
  subst sc1 imask flags ap ibss.
  destruct (decide (sc_opmode sc = HAL_M_IBSS)) as [Hibss|Hibss].
  - specialize (Hr Hibss).
    assert (Z.land reset HAL_BEACON_RESET_TSF ≠ 0) as Hland.
    { subst reset. rewrite land_lor_reset; lia. }
    destruct (decide (Z.land reset HAL_BEACON_RESET_TSF = 0)) as [?|_];
      [done|].
    rewrite (bool_decide_eq_true_2 _ Hibss).
    rewrite (bool_decide_eq_false_2 (sc_opmode sc = HAL_M_HOSTAP))
      by by rewrite Hibss.
    cbn [mbind option_bind orb andb].
    destruct (sc_hasveol sc) eqn:Hveol; cbn [negb].
    + match goal with
      | |- context [ath_beacon_start_adhoc 0 ?s] => set (st := s)
      end.
      change (sc_opmode st) with (sc_opmode sc).
      change (sc_hasveol st) with (sc_hasveol sc).
      rewrite (bool_decide_eq_true_2 _ Hibss), Hveol. cbn [andb].
      subst st.
      rewrite ?sc_with_imask_called, ?sc_with_bmisscount_called,
        !called_called, <- ?app_assoc.
      reflexivity.
    + match goal with
      | |- context [ath_beacon_start_adhoc 0 ?s] => set (st := s)
      end.
      change (sc_opmode st) with (sc_opmode sc).
      change (sc_hasveol st) with (sc_hasveol sc).
      rewrite (bool_decide_eq_true_2 _ Hibss), Hveol. cbn [andb].
      subst st. cbn [mbind option_bind].
      rewrite ?sc_with_imask_called, ?sc_with_bmisscount_called,
        !called_called, <- ?app_assoc.
      reflexivity.
  - rewrite (bool_decide_eq_false_2 _ Hibss).
    cbn [mbind option_bind orb andb].
    destruct (decide (sc_opmode sc = HAL_M_HOSTAP)) as [Hap|Hap].
    + rewrite (bool_decide_eq_true_2 _ Hap).
      cbn [mbind option_bind orb andb].
      match goal with
      | |- context [ath_beacon_start_adhoc 0 ?s] => set (st := s)
      end.
      change (sc_opmode st) with (sc_opmode sc).
      rewrite (bool_decide_eq_false_2 _ Hibss). cbn [andb].
      subst st. cbn [mbind option_bind].
      rewrite ?sc_with_imask_called, ?sc_with_bmisscount_called,
        !called_called, <- ?app_assoc.
      reflexivity.
    + rewrite (bool_decide_eq_false_2 _ Hap).
      cbn [mbind option_bind orb andb].
      match goal with
      | |- context [ath_beacon_start_adhoc 0 ?s] => set (st := s)
      end.
      change (sc_opmode st) with (sc_opmode sc).
      rewrite (bool_decide_eq_false_2 _ Hibss). cbn [andb].
      subst st. cbn [mbind option_bind].
      rewrite ?sc_with_imask_called, ?sc_with_bmisscount_called,
        !called_called, <- ?app_assoc.
      reflexivity.
Qed.

(** X19.  In AP mode, unless the interface is a station that keeps the
    station timers to itself, [ath_beacon_config] returns whatever the
    clock reads and however few rounds its loops are given: the timer is
    programmed with the first beacon one interval from now, the interval
    split among the slots when beacons are staggered, a reset of the clock
    and the timer enabled; SWBA joins the interrupt mask, the miss
    count goes back to 0, and the calls are: interrupts off, the beacon
    queue parameters (aifs 1, no contention window) and its reset when
    they were taken, the timer, interrupts on with the new mask. *)
Theorem ath_beacon_config_ap (fuel : nat) (H : hal_readings) (if_id : Z)
    (sc : ath_softc) (m : hal_opmode) :
  sc_opmode sc = HAL_M_HOSTAP →
  beacon_config_opmode if_id sc = Some m →
  ¬ (m = HAL_M_STA ∧ sc_nostabeacons sc = true) →
  (sc_stagbeacons sc = true → u32 ATH_BCBUF ≠ 0) →
  let period := u32 (Z.land ATH_DEFAULT_BINTVAL HAL_BEACON_PERIOD) in
  let intval := if sc_stagbeacons sc then Z.quot period (u32 ATH_BCBUF)
                else period in
  let flags := u32 (Z.lor (u32 (Z.lor intval HAL_BEACON_RESET_TSF))
                      HAL_BEACON_ENA) in
  let imask := Z.lor (sc_imask sc) HAL_INT_SWBA in
  ath_beacon_config fuel H if_id sc
  = Some (ap_beacon_timers intval flags,
          called ([ath9k_hw_set_interrupts_ 0;
                   ath9k_hw_settxqueueprops_ (sc_bhalq sc)
                     {| tqi_aifs := 1; tqi_cwmin := 0; tqi_cwmax := 0 |}]
                  ++ (if ath9k_hw_settxqueueprops H
                      then [ath9k_hw_resettxqueue_ (sc_bhalq sc)] else [])
                  ++ [ath9k_hw_beaconinit_ intval flags;
                      ath9k_hw_set_interrupts_ imask])
            (sc_with_bmisscount 0 (sc_with_imask imask sc))).
Proof.
  intros Hap Hm Hnot Hnz period intval flags imask.
  assert (sta_timers m sc = false) as Hsta.
  { unfold sta_timers. rewrite Hap.
    rewrite (bool_decide_eq_false_2 (HAL_M_HOSTAP = HAL_M_STA)) by done.
    rewrite (bool_decide_eq_true_2 (HAL_M_HOSTAP = HAL_M_HOSTAP)) by done.
    cbn. destruct (decide (m = HAL_M_STA)) as [->|Hne].
    - destruct (sc_nostabeacons sc); [|done]. by destruct Hnot.
    - by rewrite (bool_decide_eq_false_2 _ Hne). }
  rewrite (ath_beacon_config_timer fuel H if_id sc m Hm Hsta);
    [|by intros _|by rewrite Hap].
  rewrite (bool_decide_eq_true_2 _ Hap).
  rewrite (bool_decide_eq_false_2 (sc_opmode sc = HAL_M_IBSS))
    by by rewrite Hap.
  cbn [orb andb]. unfold beaconq_calls.
  destruct (decide (sc_opmode sc = HAL_M_HOSTAP)) as [_|?]; [|done].
  reflexivity.
Qed.

(** X20.  In ad-hoc mode [ath_beacon_config] does not enter the loop that
    pulls [nexttbtt] forward: the first beacon is one interval from a
    reset clock.  Without VEOL it enables SWBA and queues nothing.  With
    VEOL it leaves the interrupt mask alone and, when interface 0 holds a
    beacon, loads it once: the descriptor is linked to itself and put on
    the beacon queue, which is started. *)
Theorem ath_beacon_config_adhoc (fuel : nat) (H : hal_readings) (if_id : Z)
    (sc sc' : ath_softc) (m : hal_opmode) (t : beacon_timers) :
  sc_opmode sc = HAL_M_IBSS →
  beacon_config_opmode if_id sc = Some m →
  0 < HAL_BEACON_RESET_TSF < 2^32 →
  ath_beacon_config fuel H if_id sc = Some (t, sc') →
  let period := u32 (Z.land ATH_DEFAULT_BINTVAL HAL_BEACON_PERIOD) in
  let flags := u32 (Z.lor (u32 (Z.lor period HAL_BEACON_RESET_TSF))
                      HAL_BEACON_ENA) in
  let imask := if sc_hasveol sc then sc_imask sc
               else Z.lor (sc_imask sc) HAL_INT_SWBA in
  let tr := [ath9k_hw_set_interrupts_ 0] ++ beaconq_calls H sc
            ++ [ath9k_hw_beaconinit_ period flags;
                ath9k_hw_set_interrupts_ imask] in
  t = ap_beacon_timers period flags
  ∧ sc_imask sc' = imask
  ∧ sc_bmisscount sc' = 0
  ∧ if sc_hasveol sc then
      ∃ avp, sc_vaps sc !! 0 = Some avp
        ∧ match av_bcbuf avp with
          | None => sc_trace sc' = sc_trace sc ++ tr
                    ∧ sc_descs sc' = sc_descs sc
          | Some bf =>
            ∃ skb seglen,
              bf_mpdu bf = Some skb
              ∧ sc_descs sc' !! bf_daddr bf
                = Some {| ds_link := bf_daddr bf; ds_data := bf_buf_addr bf |}
              ∧ sc_trace sc'
                = sc_trace sc ++ tr
                  ++ [ath9k_hw_set11n_txdesc_ (bf_daddr bf)
                        (skb_len skb + FCS_LEN) (txpower avp)
                        (Z.lor HAL_TXDESC_NOACK HAL_TXDESC_VEOL);
                      ath9k_hw_filltxdesc_ (bf_daddr bf) seglen;
                      ath9k_hw_set11n_ratescenario_ (bf_daddr bf);
                      ath_desc_swap_ (bf_daddr bf);
                      ath9k_hw_puttxbuf_ (sc_bhalq sc) (bf_daddr bf);
                      ath9k_hw_txstart_ (sc_bhalq sc)]
          end
    else sc_trace sc' = sc_trace sc ++ tr ∧ sc_descs sc' = sc_descs sc.
Proof.
  intros Hibss Hm Hr Hc period flags imask tr.
  assert (sta_timers m sc = false) as Hsta.
  { unfold sta_timers. rewrite Hibss. done. }
  rewrite (ath_beacon_config_timer fuel H if_id sc m Hm Hsta) in Hc;
    [|by rewrite Hibss|done].
  rewrite (bool_decide_eq_true_2 _ Hibss) in Hc.
  rewrite (bool_decide_eq_false_2 (sc_opmode sc = HAL_M_HOSTAP)) in Hc
    by by rewrite Hibss.
  cbn [orb andb] in Hc. fold period in Hc. fold flags in Hc.
  subst imask tr.
  destruct (sc_hasveol sc) eqn:Hveol; cbn [negb] in Hc.
  - match type of Hc with
    | context [ath_beacon_start_adhoc 0 ?s] => set (sc1 := s) in Hc
    end.
    destruct (ath_beacon_start_adhoc 0 sc1) as [sc2|] eqn:Hstart; [|done].
    cbn in Hc. injection Hc as <- <-.
    unfold ath_beacon_start_adhoc in Hstart.
    change (sc_vaps sc1) with (sc_vaps sc) in Hstart.
    destruct (sc_vaps sc !! 0) as [avp|] eqn:Havp; [|done].
    cbn [mbind option_bind] in Hstart.
    destruct (av_bcbuf avp) as [bf|] eqn:Hbf.
    + destruct (ath_beacon_setup avp bf sc1) as [sc3|] eqn:Hsetup; [|done].
      cbn [mbind option_bind] in Hstart. injection Hstart as <-.
      apply ath_beacon_setup_result in Hsetup
        as (skb & ds & seglen & Hskb & Hds & Hseg & ->).
      change (sc_opmode sc1) with (sc_opmode sc).
      change (sc_hasveol sc1) with (sc_hasveol sc).
      rewrite (bool_decide_eq_true_2 _ Hibss), Hveol. cbn [andb].
      split_and!; [done|done|done|].
      exists avp. split; [done|]. rewrite Hbf. exists skb, seglen.
      split; [done|]. split.
      * cbn. by rewrite lookup_insert_eq.
      * subst sc1. rewrite !sc_with_descs_called, !called_called.
        rewrite sc_trace_called.
        match goal with
        | |- context [sc_trace (sc_with_descs ?d ?s)] =>
          change (sc_trace (sc_with_descs d s)) with (sc_trace sc)
        end.
        rewrite <- ?app_assoc. reflexivity.
    + injection Hstart as <-. split_and!; [done|done|done|].
      exists avp. split; [done|]. by rewrite Hbf.
  - injection Hc as <- <-. done.
Qed.

(** *** What ath_beacon_config does to the state *)

Lemma beacon_config_base_bcbuf (m : hal_opmode) (sc : ath_softc)
    (x : Z * Z) :
  beacon_config_base default_conf m sc = Some x →
  sc_opmode sc = HAL_M_HOSTAP → sc_stagbeacons sc = true →
  u32 ATH_BCBUF ≠ 0.
Proof.
  unfold beacon_config_base. intros Hb Hap Hstag Hz.
  rewrite decide_True in Hb by done. rewrite Hstag in Hb.
  unfold c_div in Hb. rewrite decide_True in Hb by done. done.
Qed.

(** The station branch, when it returns. *)
Lemma ath_beacon_config_sta_state (fuel : nat) (H : hal_readings) (if_id : Z)
    (sc sc' : ath_softc) (m : hal_opmode) (t : beacon_timers) :
  beacon_config_opmode if_id sc = Some m →
  sta_timers m sc = true →
  ath_beacon_config fuel H if_id sc = Some (t, sc') →
  ∃ bs, t = sta_beacon_timers bs
    ∧ sc' = if sc_nostabeacons sc then sc
            else called [ath9k_hw_set_interrupts_ 0;
                         ath9k_hw_set_sta_beacon_timers_ bs;
                         ath9k_hw_set_interrupts_
                           (Z.lor (sc_imask sc) HAL_INT_BMISS)]
                   (sc_with_imask (Z.lor (sc_imask sc) HAL_INT_BMISS) sc).
Proof.
  intros Hm Hsta Hc. unfold ath_beacon_config in Hc.
  rewrite Hm in Hc. cbn [mbind option_bind] in Hc.
  destruct (beacon_config_base default_conf m sc) as [[intval n]|]; [|done].
  cbn [mbind option_bind] in Hc. rewrite Hsta in Hc.
  destruct (sta_beacon_state fuel _ _ intval n) as [bs|]; [|done].
  cbn [mbind option_bind] in Hc. exists bs.
  destruct (sc_nostabeacons sc); by simplify_eq.
Qed.

Lemma land_lor_absorb (a b : Z) : Z.land a (Z.lor a b) = a.
Proof.
  apply Z.bits_inj'. intros n _. rewrite Z.land_spec, Z.lor_spec.
  by destruct (Z.testbit a n), (Z.testbit b n).
Qed.

(** X21.  [ath_beacon_config] programs timers only between turning the
    interrupts off and turning them on again with the new mask, which has
    every bit of the old one; the one timer call in between is for the
    timers handed back.  What follows the new mask (the one load of the
    self-linked beacon in ad-hoc mode) sets neither timers nor
    interrupts.  It does so in every mode but one: in the station branch
    with [sc_nostabeacons] set the timers are computed and nothing is
    changed.  The slot table, the buffer pool, the interfaces and the
    count of beaconing interfaces are kept throughout. *)
Theorem ath_beacon_config_brackets (fuel : nat) (H : hal_readings)
    (if_id : Z) (sc sc' : ath_softc) (t : beacon_timers) :
  (sc_opmode sc = HAL_M_IBSS → 0 < HAL_BEACON_RESET_TSF < 2^32) →
  ath_beacon_config fuel H if_id sc = Some (t, sc') →
  Z.land (sc_imask sc) (sc_imask sc') = sc_imask sc
  ∧ sc_bslot sc' = sc_bslot sc
  ∧ sc_bbuf sc' = sc_bbuf sc
  ∧ sc_vaps sc' = sc_vaps sc
  ∧ sc_nbcnvaps sc' = sc_nbcnvaps sc
  ∧ ∃ m, beacon_config_opmode if_id sc = Some m
      ∧ if sta_timers m sc && sc_nostabeacons sc then sc' = sc
        else ∃ mid tail,
          sc_trace sc'
          = sc_trace sc ++ ath9k_hw_set_interrupts_ 0 :: mid
            ++ ath9k_hw_set_interrupts_ (sc_imask sc') :: tail
          ∧ List.filter is_set_interrupts (mid ++ tail) = []
          ∧ List.filter is_timer_call mid = [timer_call t]
          ∧ List.filter is_timer_call tail = [].
Proof.
  intros Hr Hc.
  destruct (beacon_config_opmode if_id sc) as [m|] eqn:Hm;
    [|by unfold ath_beacon_config in Hc; rewrite Hm in Hc].
  destruct (sta_timers m sc) eqn:Hsta.
  - destruct (ath_beacon_config_sta_state _ _ _ _ _ _ _ Hm Hsta Hc)
      as (bs & -> & ->).
    destruct (sc_nostabeacons sc) eqn:Hno.
    + split_and!; try done; [apply Z.land_diag|].
      exists m. split; [done|]. by rewrite Hsta.
    + split_and!; try done; [apply land_lor_absorb|].
      exists m. split; [done|]. rewrite Hsta. cbn [andb].
      exists [ath9k_hw_set_sta_beacon_timers_ bs], []. done.
  - assert (sc_opmode sc = HAL_M_HOSTAP → sc_stagbeacons sc = true →
            u32 ATH_BCBUF ≠ 0) as Hnz.
    { unfold ath_beacon_config in Hc. rewrite Hm in Hc.
      cbn [mbind option_bind] in Hc.
      destruct (beacon_config_base default_conf m sc) as [x|] eqn:Hb;
        [|done].
      by apply (beacon_config_base_bcbuf m sc x). }
    rewrite (ath_beacon_config_timer fuel H if_id sc m Hm Hsta Hnz Hr) in Hc.
    set (ap := bool_decide (sc_opmode sc = HAL_M_HOSTAP)) in *.
    set (ibss := bool_decide (sc_opmode sc = HAL_M_IBSS)) in *.
    match type of Hc with
    | context [ath_beacon_start_adhoc 0 ?s] => set (sc1 := s) in Hc
    end.
    match type of Hc with
    | context [ap_beacon_timers ?i ?f] =>
      set (intval := i) in *; set (flags := f) in *
    end.
    assert (Z.land (sc_imask sc) (sc_imask sc1) = sc_imask sc) as Hmask.
    { change (sc_imask sc1)
        with (if ap || ibss && negb (sc_hasveol sc)
              then Z.lor (sc_imask sc) HAL_INT_SWBA else sc_imask sc).
      destruct (ap || ibss && negb (sc_hasveol sc));
        [apply land_lor_absorb|apply Z.land_diag]. }
    assert (List.filter is_set_interrupts
              (if ap || ibss then beaconq_calls H sc else []) = []
            ∧ List.filter is_timer_call
                (if ap || ibss then beaconq_calls H sc else []) = [])
      as [Hq1 Hq2].
    { unfold beaconq_calls.
      by destruct (ap || ibss), (ath9k_hw_settxqueueprops H). }
    assert (sc_trace sc1
            = sc_trace sc ++ ath9k_hw_set_interrupts_ 0
              :: ((if ap || ibss then beaconq_calls H sc else [])
                  ++ [ath9k_hw_beaconinit_ intval flags])
              ++ [ath9k_hw_set_interrupts_ (sc_imask sc1)]) as Htr.
    { subst sc1. rewrite sc_trace_called. cbn [app]. rewrite <- app_assoc.
      reflexivity. }
    assert (sc_bslot sc1 = sc_bslot sc ∧ sc_bbuf sc1 = sc_bbuf sc
            ∧ sc_vaps sc1 = sc_vaps sc ∧ sc_nbcnvaps sc1 = sc_nbcnvaps sc)
      as (Hf1 & Hf2 & Hf3 & Hf4) by done.
    clearbody sc1.
    destruct (ibss && sc_hasveol sc) eqn:Hveol.
    + destruct (ath_beacon_start_adhoc 0 sc1) as [sc2|] eqn:Hstart; [|done].
      cbn in Hc. injection Hc as <- <-.
      unfold ath_beacon_start_adhoc in Hstart.
      destruct (sc_vaps sc1 !! 0) as [avp|]; [|done].
      cbn [mbind option_bind] in Hstart.
      destruct (av_bcbuf avp) as [bf|].
      * destruct (ath_beacon_setup avp bf sc1) as [sc3|] eqn:Hsetup; [|done].
        cbn [mbind option_bind] in Hstart. injection Hstart as <-.
        apply ath_beacon_setup_result in Hsetup
          as (skb & ds & seglen & Hskb & Hds & Hseg & ->).
        set (veol := bool_decide (sc_opmode sc1 = HAL_M_IBSS)
                     && sc_hasveol sc1).
        clearbody veol.
        split_and!; try done.
        exists m. split; [done|]. rewrite Hsta. cbn [andb].
        exists ((if ap || ibss then beaconq_calls H sc else [])
                ++ [ath9k_hw_beaconinit_ intval flags]),
          [ath9k_hw_set11n_txdesc_ (bf_daddr bf) (skb_len skb + FCS_LEN)
             (txpower avp)
             (if veol then Z.lor HAL_TXDESC_NOACK HAL_TXDESC_VEOL
              else HAL_TXDESC_NOACK);
           ath9k_hw_filltxdesc_ (bf_daddr bf) seglen;
           ath9k_hw_set11n_ratescenario_ (bf_daddr bf);
           ath_desc_swap_ (bf_daddr bf);
           ath9k_hw_puttxbuf_ (sc_bhalq sc1) (bf_daddr bf);
           ath9k_hw_txstart_ (sc_bhalq sc1)].
        split.
        { rewrite !sc_trace_called.
          match goal with
          | |- context [sc_trace (sc_with_descs ?d ?s)] =>
            change (sc_trace (sc_with_descs d s)) with (sc_trace sc1)
          end.
          match goal with
          | |- context [sc_imask (called ?a (called ?b (sc_with_descs ?d ?s)))] =>
            change (sc_imask (called a (called b (sc_with_descs d s))))
              with (sc_imask sc1)
          end.
          rewrite Htr, <- !app_assoc. cbn [app].
          rewrite <- ?app_assoc. cbn [app]. reflexivity. }
        rewrite !List.filter_app, Hq1, Hq2. done.
      * injection Hstart as <-. split_and!; try done.
        exists m. split; [done|]. rewrite Hsta. cbn [andb].
        eexists _, []. split; [exact Htr|].
        rewrite !List.filter_app, Hq1, Hq2. done.
    + injection Hc as <- <-. split_and!; try done.
        exists m. split; [done|]. rewrite Hsta. cbn [andb].
      eexists _, []. split; [exact Htr|].
      rewrite !List.filter_app, Hq1, Hq2. done.
Qed.

(** *** The DTIM schedule and the sleep duration of a station *)

(** With no PCF support the CFP count stays at 0, and after [k] rounds
    the DTIM count is the one at the start less [k], modulo the DTIM
    period. *)
Lemma tbtt_iter_counts (intval dp c0 n0 : Z) (k : nat) :
  0 < dp <= 2^31 → 0 <= c0 < dp →
  let s := Nat.iter k (tbtt_step intval dp 1)
             {| st_nexttbtt := n0; st_dtimcount := c0; st_cfpcount := 0 |} in
  st_dtimcount s = (c0 - Z.of_nat k) mod dp ∧ st_cfpcount s = 0.
Proof.
  intros Hdp Hc0. induction k as [|k IH].
  - cbn. split; [|done]. rewrite Z.sub_0_r, Z.mod_small; lia.
  - cbn zeta in *. rewrite Nat.iter_succ.
    destruct IH as [IHd IHc].
    set (s := Nat.iter k (tbtt_step intval dp 1) _) in *.
    pose proof (Z.mod_pos_bound (c0 - Z.of_nat k) dp ltac:(lia)) as Hb.
    rewrite tbtt_step_countdown by lia. cbn.
    rewrite IHc, IHd. split.
    + replace (c0 - Z.of_nat (S k)) with (c0 - Z.of_nat k - 1) by lia.
      set (x := c0 - Z.of_nat k) in *.
      case_decide as Hz.
      * apply (Z.mod_unique_pos _ _ (x / dp - 1)); [lia|].
        pose proof (Z.div_mod x dp ltac:(lia)). lia.
      * apply (Z.mod_unique_pos _ _ (x / dp)); [lia|].
        pose proof (Z.div_mod x dp ltac:(lia)). lia.
    + by repeat case_decide.
Qed.

(** While the loop goes on below [tsftu] its sums do not wrap. *)
Lemma tbtt_iter_nowrap (intval dp cp tsftu : Z) (s0 : tbtt_state) (k : nat) :
  0 < intval → 0 <= st_nexttbtt s0 → st_nexttbtt s0 + intval < 2^32 →
  tsftu + intval <= 2^32 →
  (∀ j : nat, (1 <= j < k)%nat →
     st_nexttbtt (Nat.iter j (tbtt_step intval dp cp) s0) < tsftu) →
  ∀ j : nat, (1 <= j <= k)%nat →
    st_nexttbtt (Nat.iter j (tbtt_step intval dp cp) s0)
    = st_nexttbtt s0 + Z.of_nat j * intval.
Proof.
  intros Hi H0 Hn Hw Hmin j. induction j as [|j IH]; [lia|].
  intros Hj. rewrite Nat.iter_succ, tbtt_step_nexttbtt.
  destruct j as [|j].
  - simpl Nat.iter. rewrite u32_small by lia. lia.
  - specialize (IH ltac:(lia)). specialize (Hmin (S j) ltac:(lia)).
    rewrite IH in *. rewrite u32_small by lia. lia.
Qed.

(** The station branch on clocks that do not wrap: the loop has run
    [k >= 1] rounds from [intval], and the fields are those of the
    source for the state it left. *)
Lemma ath_beacon_config_sta_fields (fuel : nat) (H : hal_readings)
    (if_id : Z) (sc sc' : ath_softc) (bs : hal_beacon_state) :
  ath_beacon_config fuel H if_id sc = Some (sta_beacon_timers bs, sc') →
  bs_intval bs < 2^31 →
  tsf_tu (ath9k_hw_gettsf64 H) + FUDGE + bs_intval bs <= 2^32 →
  let intval := bs_intval bs in
  let dp := sta_dtimperiod default_conf in
  ∃ (k : nat) (s : tbtt_state) (sleep : Z),
    0 < intval
    ∧ (1 <= k)%nat
    ∧ s = Nat.iter k (tbtt_step intval dp 1)
            {| st_nexttbtt := intval;
               st_dtimcount := sta_dtimcount default_conf;
               st_cfpcount := 0 |}
    ∧ st_nexttbtt s = intval + Z.of_nat k * intval
    ∧ roundup_int (IEEE80211_MS_TO_TU 100) intval = Some sleep
    ∧ bs = {| bs_intval := intval;
              bs_nexttbtt := st_nexttbtt s;
              bs_dtimperiod := u32 (dp * intval);
              bs_nextdtim := u32 (st_nexttbtt s + st_dtimcount s * intval);
              bs_cfpperiod := u32 (1 * u32 (dp * intval));
              bs_cfpnext := u32 (u32 (st_nexttbtt s + st_dtimcount s * intval)
                                 + st_cfpcount s * u32 (dp * intval));
              bs_cfpmaxduration := 0;
              bs_bmissthreshold := bs_bmissthreshold bs;
              bs_sleepduration := if decide (sleep > u32 (dp * intval))
                                  then u32 (dp * intval) else sleep |}.
Proof.
  intros Hc Hi Hw intval dp.
  apply ath_beacon_config_sta in Hc as (m & i & _ & _ & _ & Hpos & Hs).
  unfold sta_beacon_state in Hs. fold dp in Hs.
  destruct (tbtt_loop fuel i dp 1 _ _) as [s|] eqn:Hloop; [|done].
  cbn [mbind option_bind] in Hs.
  destruct (sta_bmissthreshold _ _ _) as [bm|]; [|done].
  cbn [mbind option_bind] in Hs.
  rewrite sta_sleepduration_default in Hs by lia.
  destruct (roundup_int _ _) as [sleep|] eqn:Hsleep; [|done].
  cbn [mbind option_bind] in Hs. injection Hs as <-.
  cbn [bs_intval bs_bmissthreshold] in *. subst intval.
  rewrite s32_small in Hsleep by lia.
  pose proof (tsf_tu_nonneg (ath9k_hw_gettsf64 H)) as Htu.
  unfold FUDGE in *.
  rewrite u32_small in Hloop by lia.
  apply tbtt_loop_exit in Hloop as (k & Hk & Hiter & Hge & Hmin).
  exists k, s, sleep. split_and!; try done; [lia|lia|].
  rewrite Hiter.
  exact (tbtt_iter_nowrap i dp 1 (tsf_tu (ath9k_hw_gettsf64 H) + 2)
           {| st_nexttbtt := i; st_dtimcount := sta_dtimcount default_conf;
              st_cfpcount := 0 |} k
           ltac:(lia) ltac:(cbn; lia) ltac:(cbn; lia) ltac:(lia) Hmin
           k ltac:(lia)).
Qed.

Lemma sta_dtimperiod_pos (conf : ath_beacon_config_t) :
  0 < sta_dtimperiod conf.
Proof. unfold sta_dtimperiod. destruct (decide (dtim_period conf <= 0)); lia. Qed.

Lemma sta_dtimcount_range :
  0 <= sta_dtimcount default_conf < sta_dtimperiod default_conf.
Proof.
  pose proof (sta_dtimperiod_pos default_conf) as Hp.
  unfold sta_dtimcount.
  change (dtim_count default_conf) with 1.
  destruct (decide (1 >= sta_dtimperiod default_conf)); lia.
Qed.

(** X22.  The DTIM schedule handed to the hardware by a station whose clock
    does not wrap: the next TBTT is a multiple of the interval, the DTIM
    period is [dtimperiod] intervals, and the next DTIM is the first TBTT
    from the next one on that lies a whole number of DTIM periods from
    beacon [1 + dtimcount] of the reset clock.  No PCF: the CFP period
    is the DTIM period, the next CFP is the next DTIM, and the maximal
    duration is 0. *)
Theorem sta_dtim_schedule (fuel : nat) (H : hal_readings) (if_id : Z)
    (sc sc' : ath_softc) (bs : hal_beacon_state) :
  ath_beacon_config fuel H if_id sc = Some (sta_beacon_timers bs, sc') →
  let intval := bs_intval bs in
  let dp := sta_dtimperiod default_conf in
  let c0 := sta_dtimcount default_conf in
  intval < 2^31 →
  tsf_tu (ath9k_hw_gettsf64 H) + FUDGE + intval <= 2^32 →
  dp <= 2^31 →
  bs_nexttbtt bs + dp * intval <= 2^32 →
  (∃ n, 2 <= n ∧ bs_nexttbtt bs = n * intval)
  ∧ bs_dtimperiod bs = dp * intval
  ∧ bs_nexttbtt bs <= bs_nextdtim bs < bs_nexttbtt bs + bs_dtimperiod bs
  ∧ (bs_nextdtim bs - (1 + c0) * intval) mod bs_dtimperiod bs = 0
  ∧ bs_cfpperiod bs = bs_dtimperiod bs
  ∧ bs_cfpnext bs = bs_nextdtim bs
  ∧ bs_cfpmaxduration bs = 0.
Proof.
  intros Hc intval dp c0 Hi Hw Hdp Hnw.
  destruct (ath_beacon_config_sta_fields fuel H if_id sc sc' bs Hc Hi Hw)
    as (k & s & sleep & Hpos & Hk & Hs & Hn & _ & Hbs).
  fold intval in Hpos, Hs, Hn, Hbs. fold dp in Hs, Hbs.
  assert (0 < dp) as Hdp0 by apply sta_dtimperiod_pos.
  assert (0 <= c0 < dp) as Hc0 by apply sta_dtimcount_range.
  destruct (tbtt_iter_counts intval dp c0 intval k ltac:(lia) Hc0)
    as [Hd Hcfp].
  cbn zeta in Hd, Hcfp. fold c0 in Hs. rewrite <- Hs in Hd, Hcfp.
  pose proof (Z.mod_pos_bound (c0 - Z.of_nat k) dp Hdp0) as Hb.
  set (d := (c0 - Z.of_nat k) mod dp) in *.
  assert (bs_nexttbtt bs = st_nexttbtt s) as Hbn by (by rewrite Hbs).
  rewrite Hbn in Hnw.
  assert (u32 (dp * intval) = dp * intval) as Hper.
  { apply u32_small. nia. }
  assert (u32 (st_nexttbtt s + d * intval) = st_nexttbtt s + d * intval)
    as Hnext.
  { apply u32_small. nia. }
  rewrite Hbs. cbn. rewrite Hd, Hcfp, !Hper, !Hnext.
  rewrite Z.mul_0_l, Z.add_0_r, Z.mul_1_l, Hper, Hnext.
  split_and!; try done.
  - exists (1 + Z.of_nat k). split; [lia|]. rewrite Hn. lia.
  - nia.
  - nia.
  - rewrite Hn. subst d.
    replace (intval + Z.of_nat k * intval
             + (c0 - Z.of_nat k) mod dp * intval - (1 + c0) * intval)
      with (- ((c0 - Z.of_nat k) / dp) * (dp * intval)).
    + apply Z.mod_mul. nia.
    + pose proof (Z.div_mod (c0 - Z.of_nat k) dp ltac:(lia)). nia.
Qed.

(** X23.  The sleep duration of a station is a whole number of beacon
    intervals: 100 ms in TU rounded up to the next multiple of the
    interval, and no more than the DTIM period, which takes its place
    when the rounded value is above it. *)
Theorem sta_sleepduration_multiple (fuel : nat) (H : hal_readings)
    (if_id : Z) (sc sc' : ath_softc) (bs : hal_beacon_state) :
  ath_beacon_config fuel H if_id sc = Some (sta_beacon_timers bs, sc') →
  let intval := bs_intval bs in
  let ms := IEEE80211_MS_TO_TU 100 in
  intval < 2^31 →
  tsf_tu (ath9k_hw_gettsf64 H) + FUDGE + intval <= 2^32 →
  0 <= ms → ms + intval <= 2^31 →
  sta_dtimperiod default_conf * intval < 2^32 →
  (∃ n, 0 <= n ∧ bs_sleepduration bs = n * intval)
  ∧ bs_sleepduration bs <= bs_dtimperiod bs
  ∧ bs_sleepduration bs < ms + intval
  ∧ (bs_sleepduration bs < ms → bs_sleepduration bs = bs_dtimperiod bs).
Proof.
  intros Hc intval ms Hi Hw Hms Hsum Hper.
  destruct (ath_beacon_config_sta_fields fuel H if_id sc sc' bs Hc Hi Hw)
    as (k & s & sleep & Hpos & _ & _ & _ & Hsleep & Hbs).
  fold intval in Hpos, Hsleep, Hbs. fold ms in Hsleep.
  set (dp := sta_dtimperiod default_conf) in *.
  assert (0 < dp) as Hdp0 by apply sta_dtimperiod_pos.
  unfold roundup_int, c_div in Hsleep.
  rewrite decide_False in Hsleep by lia. cbn in Hsleep.
  rewrite (s32_small (intval - 1)) in Hsleep by lia.
  rewrite (s32_small (ms + (intval - 1))) in Hsleep by lia.
  rewrite Z.quot_div_nonneg in Hsleep by lia.
  set (q := (ms + (intval - 1)) / intval) in *.
  assert (0 <= q ∧ ms <= q * intval < ms + intval) as [Hq Hqi].
  { subst q. pose proof (Z.div_mod (ms + (intval - 1)) intval ltac:(lia)).
    pose proof (Z.mod_pos_bound (ms + (intval - 1)) intval ltac:(lia)).
    split; [apply Z.div_pos; lia|nia]. }
  rewrite s32_small in Hsleep by lia. injection Hsleep as <-.
  rewrite u32_small in Hbs by nia.
  rewrite Hbs. cbn.
  case_decide as Hcap.
  - split_and!; [|lia|lia|done]. exists dp. split; [lia|done].
  - split_and!; [|lia|lia|lia]. exists q. done.
Qed.

End config_more.

(** ** The tasklet: the antenna check and the chain of burst beacons *)

Section tasklet_chain.
Context {K : core_h}.

(** *** The antenna check *)

Lemma antenna_flips_app (t1 t2 : list call) :
  antenna_flips (t1 ++ t2) = antenna_flips t1 ++ antenna_flips t2.
Proof. apply omap_app. Qed.

Lemma generate_calls_no_flip (tr : list call) :
  Forall (λ c, is_generate_call c = true) tr → antenna_flips tr = [].
Proof.
  unfold antenna_flips. induction 1 as [|c tr Hc _ IH]; [done|].
  cbn. by destruct c.
Qed.

(** [antenna_check], when it returns. *)
Lemma antenna_check_result (slot : Z) (sc sc2 : ath_softc) :
  antenna_check slot sc = Some sc2 →
  if (negb (sc_stagbeacons sc) || bool_decide (slot = 0))
     && negb (sc_diversity sc) then
    let otherant := if decide (Z.land (sc_defant sc) 1 ≠ 0) then 2 else 1 in
    ∃ other def,
      arr_get (sc_ant_tx sc) otherant = Some other
      ∧ arr_get (sc_ant_tx sc) (sc_defant sc) = Some def
      ∧ sc2 = sc_with_ant_tx (<[1%nat := 0]> (<[2%nat := 0]> (sc_ant_tx sc)))
                (called (if decide (other > def + ATH_ANTENNA_DIFF)
                         then [ath_setdefantenna_ otherant] else []) sc)
  else sc2 = sc.
Proof.
  unfold antenna_check. intros Hant.
  destruct ((negb (sc_stagbeacons sc) || bool_decide (slot = 0))
            && negb (sc_diversity sc)); [|by simplify_eq].
  set (otherant := if decide (Z.land (sc_defant sc) 1 ≠ 0) then 2 else 1) in *.
  destruct (arr_get (sc_ant_tx sc) otherant) as [other|]; [|done].
  cbn [mbind option_bind] in Hant.
  destruct (arr_get (sc_ant_tx sc) (sc_defant sc)) as [def|]; [|done].
  cbn [mbind option_bind] in Hant.
  exists other, def. split; [done|]. split; [done|].
  assert (∀ s : ath_softc, sc_ant_tx s = sc_ant_tx sc →
            (a ← arr_set (sc_ant_tx s) 2 0; a ← arr_set a 1 0;
             Some (sc_with_ant_tx a s)) = Some sc2 →
            sc2 = sc_with_ant_tx (<[1%nat := 0]> (<[2%nat := 0]> (sc_ant_tx sc)))
                    s) as Hset.
  { intros s Hs Hr. rewrite Hs in Hr. unfold arr_set in Hr.
    destruct (decide (0 <= 2 < Z.of_nat (length (sc_ant_tx sc)))); [|done].
    cbn [mbind option_bind] in Hr. rewrite length_insert in Hr.
    destruct (decide (0 <= 1 < Z.of_nat (length (sc_ant_tx sc)))); [|done].
    cbn [mbind option_bind] in Hr. by simplify_eq. }
  destruct (decide (other > def + ATH_ANTENNA_DIFF)).
  - by apply Hset in Hant.
  - apply Hset in Hant; [|done]. rewrite Hant, called_nil. done.
Qed.

(** X24.  The antenna check is made by the cycles that find the beacon queue
    drained, with diversity off: by every such cycle when beacons are
    burst, by the cycle of slot 0 when they are staggered.  It hands the
    other antenna (2 for an odd default antenna, else 1) to
    [ath_setdefantenna] if and only if the count of frames sent on it is
    above the count of the default antenna by more than
    [ATH_ANTENNA_DIFF], and sets the counts of antennas 1 and 2 to 0
    either way.  Other cycles leave counts and antenna alone. *)
Theorem tasklet_antenna_check (E : mac_env) (H : hal_readings)
    (sc sc' : ath_softc) :
  ¬ pending H sc →
  ath9k_beacon_tasklet E H sc = Some sc' →
  ∃ slot tr,
    (if sc_stagbeacons sc then stagger_slot (ath9k_hw_gettsf64 H) = Some slot
     else slot = Z.max 0 ATH_BCBUF)
    ∧ sc_trace sc' = sc_trace sc ++ tr
    ∧ if (negb (sc_stagbeacons sc) || bool_decide (slot = 0))
         && negb (sc_diversity sc) then
        let otherant :=
          if decide (Z.land (sc_defant sc) 1 ≠ 0) then 2 else 1 in
        ∃ other def,
          arr_get (sc_ant_tx sc) otherant = Some other
          ∧ arr_get (sc_ant_tx sc) (sc_defant sc) = Some def
          ∧ antenna_flips tr
            = (if decide (other > def + ATH_ANTENNA_DIFF) then [otherant]
               else [])
          ∧ sc_ant_tx sc' = <[1%nat := 0]> (<[2%nat := 0]> (sc_ant_tx sc))
      else antenna_flips tr = [] ∧ sc_ant_tx sc' = sc_ant_tx sc.
Proof.
  intros Hnp Ht.
  apply tasklet_drained_phases in Ht
    as (slot & bfaddr & bc & sc1 & sc2 & tr & Hgen & Hburst
        & (cq & v & d & ->) & Hall & _ & Hant & ->); [|done].
  pose proof (generate_calls_no_flip tr Hall) as Hflip.
  match type of Hant with
  | antenna_check slot ?s = _ => set (S1 := s) in *
  end.
  assert (sc_stagbeacons S1 = sc_stagbeacons sc
          ∧ sc_diversity S1 = sc_diversity sc
          ∧ sc_ant_tx S1 = sc_ant_tx sc
          ∧ sc_defant S1 = sc_defant sc
          ∧ ∃ ts, sc_trace S1 = sc_trace sc ++ tr ++ ts
                  ∧ antenna_flips ts = []) as (Hs1 & Hs2 & Hs3 & Hs4 & Hs5).
  { subst S1. unfold slot_time_update.
    destruct (decide (_ = UPDATE)); [|destruct (decide (_ ∧ _))].
    - split_and!; try done. exists []. by rewrite app_nil_r.
    - split_and!; try done. exists [ath_setslottime_]. split; [|done].
      change ((sc_trace sc ++ tr) ++ [ath_setslottime_]
              = sc_trace sc ++ tr ++ [ath_setslottime_]).
      by rewrite <- app_assoc.
    - split_and!; try done. exists []. by rewrite app_nil_r. }
  destruct Hs5 as (ts & Hts & Hfs).
  apply antenna_check_result in Hant. rewrite Hs1, Hs2, Hs3, Hs4 in Hant.
  clearbody S1.
  assert (∃ tb, sc_trace (beacon_submit bfaddr bc sc2) = sc_trace sc2 ++ tb
                ∧ antenna_flips tb = []
                ∧ sc_ant_tx (beacon_submit bfaddr bc sc2) = sc_ant_tx sc2)
    as (tb & Htb & Hfb & Hab).
  { unfold beacon_submit. destruct (decide (bfaddr ≠ 0)).
    - by eexists.
    - exists []. by rewrite app_nil_r. }
  assert (if sc_stagbeacons sc
          then stagger_slot (ath9k_hw_gettsf64 H) = Some slot
          else slot = Z.max 0 ATH_BCBUF) as Hslot.
  { destruct (sc_stagbeacons sc); [|by apply Hburst].
    by apply staggered_beacons_result in Hgen as [? _]. }
  clear Hgen Hburst.
  destruct ((negb (sc_stagbeacons sc) || bool_decide (slot = 0))
            && negb (sc_diversity sc)) eqn:Hcond.
  - destruct Hant as (other & def & Ho & Hd & ->).
    set (otherant := if decide (Z.land (sc_defant sc) 1 ≠ 0) then 2 else 1)
      in *.
    exists slot,
      (tr ++ ts ++ (if decide (other > def + ATH_ANTENNA_DIFF)
                    then [ath_setdefantenna_ otherant] else []) ++ tb).
    split; [done|]. rewrite Hcond, Htb, Hab. split.
    { match goal with
      | |- context [sc_trace (sc_with_ant_tx ?a (called ?t S1))] =>
        change (sc_trace (sc_with_ant_tx a (called t S1)))
          with (sc_trace S1 ++ t)
      end.
      rewrite Hts, <- !app_assoc. reflexivity. }
    cbv zeta. exists other, def. split_and!; [done|done| |done].
    rewrite !antenna_flips_app, Hflip, Hfs, Hfb, app_nil_r.
    by destruct (decide (other > def + ATH_ANTENNA_DIFF)).
  - subst sc2. exists slot, (tr ++ ts ++ tb). split; [done|].
    rewrite Hcond, Htb, Hab, Hts. split.
    { rewrite <- !app_assoc. reflexivity. }
    rewrite !antenna_flips_app, Hflip, Hfs, Hfb. done.
Qed.

(** *** The chain of burst beacons *)

(** What [ath_beacon_generate] does to the chain: the table and the
    buffers behind it stay, link pointers stay away from the descriptors
    they were away from, and the only descriptors written are the one of
    the beacon and the one at the link pointer of the CAB queue. *)
Lemma ath_beacon_generate_chain (E : mac_env) (if_id : Z)
    (sc sc1 : ath_softc) (r : option ath_buf) :
  ath_beacon_generate E if_id sc = Some (r, sc1) →
  if_id ≠ ATH_IF_ID_ANY →
  sc_bslot sc1 = sc_bslot sc
  ∧ (∀ id, slot_beacon sc1 id = slot_beacon sc id)
  ∧ (∀ l, links_apart sc l → links_apart sc1 l)
  ∧ slot_beacon sc if_id = bf_daddr <$> r
  ∧ (∀ x, Some x ≠ bf_daddr <$> r → axq_link (sc_cabq sc) ≠ Some x →
          sc_descs sc1 !! x = sc_descs sc !! x).
Proof.
  intros Hg Hany.
  apply ath_beacon_generate_result in Hg as (avp & Hv & Hg).
  destruct (av_bcbuf avp) as [bf|] eqn:Hbf.
  - destruct Hg as (skb & changed & skb' & tim & tim4 & bf' & mq & cq & d & tr
                    & _ & _ & _ & -> & Hda & _ & _ & -> & _ & _ & _ & Hframe
                    & _ & Hmq & Hcq).
    split_and!.
    + done.
    + intros id. unfold slot_beacon. case_decide; [done|].
      cbn [sc_vaps sc_with_cabq sc_with_vaps].
      destruct (decide (id = if_id)) as [->|Hne].
      * rewrite lookup_insert_eq, Hv. cbn. rewrite Hbf. cbn. by rewrite Hda.
      * by rewrite lookup_insert_ne.
    + intros l [Hc Hm]. split.
      * intros a Ha. cbn [sc_cabq sc_with_cabq].
        destruct Hcq as [->|[->| ->]]; [done|by apply Hc|by eapply Hm].
      * intros id avp0 a Hv0 Ha.
        cbn [sc_vaps sc_with_cabq sc_with_vaps] in Hv0.
        destruct (decide (id = if_id)) as [->|Hne].
        -- rewrite lookup_insert_eq in Hv0. injection Hv0 as <-. cbn.
           destruct Hmq as [->| ->]; [done|by eapply Hm].
        -- rewrite lookup_insert_ne in Hv0 by done. by eapply Hm.
    + unfold slot_beacon. rewrite decide_False by done.
      rewrite Hv. cbn. rewrite Hbf. cbn. by rewrite Hda.
    + intros x Hx Hl. cbn [sc_descs sc_with_cabq sc_with_vaps sc_with_descs].
      apply Hframe; [|done]. intros ->. apply Hx. cbn. by rewrite Hda.
  - destruct Hg as [-> ->]. split_and!; try done.
    unfold slot_beacon. rewrite decide_False by done.
    rewrite Hv. cbn. by rewrite Hbf.
Qed.

Lemma store_bflink_chain (bflink : option Z) (v bfaddr bfaddr1 : Z)
    (sc sc2 : ath_softc) :
  store_bflink bflink v bfaddr sc = Some (bfaddr1, sc2) →
  sc_bslot sc2 = sc_bslot sc ∧ sc_vaps sc2 = sc_vaps sc
  ∧ sc_cabq sc2 = sc_cabq sc
  ∧ match bflink with
    | None => bfaddr1 = u32 v ∧ sc_descs sc2 = sc_descs sc
    | Some p =>
      bfaddr1 = bfaddr
      ∧ ∃ ds, sc_descs sc !! p = Some ds
              ∧ sc_descs sc2 = <[p := ds_with_link (u32 v) ds]> (sc_descs sc)
    end.
Proof.
  unfold store_bflink. intros Hs. destruct bflink as [p|].
  - destruct (sc_descs sc !! p) as [ds|] eqn:Hds; [|done].
    cbn in Hs. simplify_eq. split_and!; try done. by exists ds.
  - by simplify_eq.
Qed.

Lemma slot_beacon_vaps (sc sc2 : ath_softc) (id : Z) :
  sc_vaps sc2 = sc_vaps sc → slot_beacon sc2 id = slot_beacon sc id.
Proof. unfold slot_beacon. by intros ->. Qed.

Lemma omap_slot_beacon_vaps (sc sc2 : ath_softc) (l : list Z) :
  sc_vaps sc2 = sc_vaps sc →
  omap (slot_beacon sc2) l = omap (slot_beacon sc) l.
Proof.
  intros Hv. induction l as [|x l IH]; [done|].
  cbn. by rewrite (slot_beacon_vaps sc sc2 x Hv), IH.
Qed.

Lemma links_apart_same (sc sc2 : ath_softc) (l : list Z) :
  sc_vaps sc2 = sc_vaps sc → sc_cabq sc2 = sc_cabq sc →
  links_apart sc l → links_apart sc2 l.
Proof. unfold links_apart. by intros -> ->. Qed.

(** The loop of the burst: with the chain so far [prev], linked but for
    its last descriptor, the loop links the beacons of the slots to come
    behind it. *)
Lemma burst_loop_chain (E : mac_env) (n : nat) :
  ∀ (slot : nat) (prev : list Z) (bfaddr bc : Z) (sc : ath_softc)
    (bflink' : option Z) (bfaddr' bc' : Z) (sc' : ath_softc),
  burst_loop E n (Z.of_nat slot) (last prev) bfaddr bc sc
  = Some (bflink', bfaddr', bc', sc') →
  let todo := omap (slot_beacon sc) (take n (drop slot (sc_bslot sc))) in
  NoDup (prev ++ todo) →
  links_apart sc (prev ++ todo) →
  (∀ (i : nat) a b, prev !! i = Some a → prev !! S i = Some b →
     ds_link <$> sc_descs sc !! a = Some (u32 b)) →
  (∀ a, head prev = Some a → bfaddr = u32 a) →
  0 <= bc → bc + Z.of_nat n < 2^32 →
  (∀ (i : nat) a b, (prev ++ todo) !! i = Some a →
     (prev ++ todo) !! S i = Some b →
     ds_link <$> sc_descs sc' !! a = Some (u32 b))
  ∧ bflink' = last (prev ++ todo)
  ∧ (∀ a, head (prev ++ todo) = Some a → bfaddr' = u32 a)
  ∧ (prev ++ todo = [] → bfaddr' = bfaddr)
  ∧ bc' = bc + Z.of_nat (length todo).
Proof.
  induction n as [|n IH];
    intros slot prev bfaddr bc sc bflink' bfaddr' bc' sc' Hl todo
           Hnd Hap Hopen Hhead Hbc0 Hbc.
  { cbn in Hl. simplify_eq. subst todo.
    change (take 0 (drop slot (sc_bslot sc'))) with (@nil Z) in *.
    cbn. rewrite app_nil_r. split_and!; try done. lia. }
  cbn [burst_loop] in Hl.
  destruct (arr_get (sc_bslot sc) (Z.of_nat slot)) as [if_id|] eqn:Hslot;
    [|done].
  cbn [mbind option_bind] in Hl.
  unfold arr_get in Hslot. rewrite decide_True in Hslot by lia.
  rewrite Nat2Z.id in Hslot.
  assert (todo = match slot_beacon sc if_id with
                 | Some a => [a] | None => []
                 end ++ omap (slot_beacon sc)
                          (take n (drop (S slot) (sc_bslot sc)))) as Htodo.
  { subst todo. rewrite (drop_S _ _ _ Hslot). cbn.
    by destruct (slot_beacon sc if_id). }
  clearbody todo. subst todo.
  replace (Z.of_nat slot + 1) with (Z.of_nat (S slot)) in Hl by lia.
  destruct (decide (if_id ≠ ATH_IF_ID_ANY)) as [Hany|Hany].
  - destruct (ath_beacon_generate E if_id sc) as [[r sc1]|] eqn:Hgen; [|done].
    cbn [mbind option_bind] in Hl.
    destruct (ath_beacon_generate_chain E if_id sc sc1 r Hgen Hany)
      as (Htbl & Hsb & Hla & Hr & Hframe).
    assert (omap (slot_beacon sc1) (take n (drop (S slot) (sc_bslot sc1)))
            = omap (slot_beacon sc) (take n (drop (S slot) (sc_bslot sc))))
      as Hsame.
    { rewrite Htbl. generalize (take n (drop (S slot) (sc_bslot sc))).
      intros l. induction l as [|x l IHl]; [done|].
      cbn. by rewrite Hsb, IHl. }
    set (rest := omap (slot_beacon sc)
                   (take n (drop (S slot) (sc_bslot sc)))) in *.
    (* the chain so far is as it was *)
    assert (∀ (i : nat) x y, prev !! i = Some x → prev !! S i = Some y →
              ds_link <$> sc_descs sc1 !! x = Some (u32 y)) as Hopen1.
    { intros i x y Hx Hy. rewrite Hframe; [by eapply Hopen| |].
      - rewrite <- Hr. intros Hsb'. symmetry in Hsb'. rewrite Hsb' in Hnd.
        apply NoDup_app in Hnd as (_ & Hdis & _).
        apply (Hdis x); [by eapply list_elem_of_lookup_2|]. cbn. left.
      - apply Hap. apply elem_of_app. left.
        by eapply list_elem_of_lookup_2. }
    destruct r as [bf|]; cbn in Hr; rewrite Hr in *; cbn [app] in *.
    + destruct (store_bflink (last prev) (bf_daddr bf) bfaddr sc1)
        as [[bfaddr1 sc2]|] eqn:Hst; [|done].
      cbn [mbind option_bind] in Hl.
      apply store_bflink_chain in Hst as (Htbl2 & Hv2 & Hc2 & Hst).
      set (a := bf_daddr bf) in *.
      rewrite <- (last_snoc a prev) in Hl.
      specialize (IH (S slot) (prev ++ [a]) bfaddr1 (u32 (bc + 1)) sc2
                    bflink' bfaddr' bc' sc' Hl).
      cbn zeta in IH.
      rewrite Htbl2, (omap_slot_beacon_vaps sc1 sc2 _ Hv2), Hsame in IH.
      rewrite <- app_assoc in IH. cbn [app] in IH.
      rewrite u32_small in IH by lia.
      assert (a ∉ prev) as Hnotin.
      { apply NoDup_app in Hnd as (_ & Hdis & _). intros Hin.
        apply (Hdis a Hin). left. }
      destruct IH as (Hopen' & Hlast & Hhead' & _ & Hbc').
      * done.
      * apply (links_apart_same sc1); [done|done|]. by apply Hla.
      * intros i x y Hx Hy.
        destruct (decide (S i < length prev)%nat) as [Hlt|Hge].
        -- rewrite lookup_app_l in Hx by lia.
           rewrite lookup_app_l in Hy by lia.
           assert (sc_descs sc2 !! x = sc_descs sc1 !! x) as ->;
             [|by eapply Hopen1].
           destruct (last prev) as [p|] eqn:Hp.
           ++ destruct Hst as (_ & ds & _ & ->).
              rewrite lookup_insert_ne; [done|]. intros ->.
              rewrite last_lookup in Hp.
              apply NoDup_app in Hnd as (Hndp & _).
              pose proof (NoDup_lookup _ _ _ _ Hndp Hx Hp). lia.
           ++ by destruct Hst as (_ & ->).
        -- assert (S i = length prev) as Hi.
           { apply lookup_lt_Some in Hy. rewrite length_app in Hy.
             cbn in Hy. lia. }
           rewrite lookup_app_r in Hy by lia.
           rewrite Hi, Nat.sub_diag in Hy. injection Hy as <-.
           rewrite lookup_app_l in Hx by lia.
           assert (last prev = Some x) as Hp.
           { rewrite last_lookup, <- Hi. done. }
           rewrite Hp in Hst. destruct Hst as (_ & ds & _ & ->).
           by rewrite lookup_insert_eq.
      * intros h Hh. destruct prev as [|h' prev'].
        -- cbn in Hh. injection Hh as <-. cbn in Hst. by destruct Hst.
        -- cbn in Hh. injection Hh as <-.
           destruct (last (h' :: prev')) as [p|] eqn:Hp.
           ++ destruct Hst as [-> _]. by apply Hhead.
           ++ by apply last_None in Hp.
      * lia.
      * lia.
      * split_and!; try done.
        -- intros Hnil. by destruct prev.
        -- cbn [length]. lia.
    + specialize (IH (S slot) prev bfaddr bc sc1 bflink' bfaddr' bc' sc' Hl).
      cbn zeta in IH. rewrite Hsame in IH. fold rest in IH.
      apply IH; try done; [by apply Hla|lia].
  - assert (if_id = ATH_IF_ID_ANY) as -> by (by destruct (decide (if_id = ATH_IF_ID_ANY)); [|exfalso; apply Hany]).
    assert (slot_beacon sc ATH_IF_ID_ANY = None) as Hnone.
    { unfold slot_beacon. by rewrite decide_True. }
    rewrite Hnone in *. cbn [app] in *.
    apply (IH (S slot) prev bfaddr bc sc); try done. lia.
Qed.


(** X25.  A cycle of burst beacons that finds the beacon queue drained chains
    the beacons of the occupied slots in slot order: each descriptor is
    linked to the next and the last to 0, provided the buffers are
    distinct and no link pointer of the CAB queue or of a multicast queue
    is at one of their descriptors.  The head of the chain is what is put
    on the beacon queue, after the queue is stopped and before it is
    started, and the count of beacons sent goes up by the length of the
    chain; with no beacon nothing is handed over. *)
Theorem burst_beacons_chain (E : mac_env) (H : hal_readings)
    (sc sc' : ath_softc) :
  sc_stagbeacons sc = false →
  ¬ pending H sc →
  ATH_BCBUF < 2^32 →
  NoDup (burst_chain sc) →
  links_apart sc (burst_chain sc) →
  ath9k_beacon_tasklet E H sc = Some sc' →
  linked (sc_descs sc') (burst_chain sc)
  ∧ ∃ tr, sc_trace sc' = sc_trace sc ++ tr
      ∧ match burst_chain sc with
        | [] => ast_be_xmit sc' = ast_be_xmit sc
                ∧ ∀ q, ath9k_hw_stoptxdma_ q ∉ tr
        | a :: _ =>
          u32 a ≠ 0 →
          ast_be_xmit sc'
          = ast_be_xmit sc + Z.of_nat (length (burst_chain sc))
          ∧ ∃ tr0, tr = tr0 ++ [ath9k_hw_stoptxdma_ (sc_bhalq sc);
                                ath9k_hw_puttxbuf_ (sc_bhalq sc) (u32 a);
                                ath9k_hw_txstart_ (sc_bhalq sc)]
        end.
Proof.
  intros Hstag Hnp Hbcbuf Hnd Hap Ht.
  apply tasklet_drained_phases in Ht
    as (slot & bfaddr & bc & sc1 & sc2 & tr & Hgen & _ & Hgd & Hall & _
        & Hant & ->); [|done].
  rewrite Hstag in Hgen. unfold burst_beacons in Hgen.
  destruct (burst_loop E _ 0 None 0 0 (sc_with_bmisscount 0 sc))
    as [[[[bflink a0] c0] scl]|] eqn:Hl; [|done].
  cbn [mbind option_bind] in Hgen.
  destruct (store_bflink bflink 0 a0 scl) as [[a1 sc3]|] eqn:Hst; [|done].
  cbn [mbind option_bind] in Hgen. injection Hgen as <- <- <- <-.
  pose proof (burst_loop_chain E (Z.to_nat ATH_BCBUF) 0 [] 0 0
                (sc_with_bmisscount 0 sc) bflink a0 c0 scl Hl) as Hchain.
  cbn zeta in Hchain.
  change (omap _ _) with (burst_chain sc) in Hchain.
  cbn [app] in Hchain.
  destruct Hchain as (Hopen & Hlast & Hhead & Hnil & Hc0);
    [done|exact Hap|done|done|lia|lia|].
  apply store_bflink_chain in Hst as (_ & _ & _ & Hst).
  destruct (tasklet_tail _ a1 c0 sc3 sc2 Hant)
    as (_ & _ & _ & Hd & _ & _ & _ & _ & _ & Hx & ta & Hta & Htr).
  assert (sc_trace sc3 = sc_trace sc ++ tr
          ∧ ast_be_xmit sc3 = ast_be_xmit sc
          ∧ sc_bhalq sc3 = sc_bhalq sc) as (Ht3 & Hx3 & Hq3)
    by (by destruct Hgd as (cq & v & d & ->)).
  rewrite Ht3, Hq3 in Htr. rewrite Hx3 in Hx. clear Ht3 Hx3 Hq3 Hgd Hl Hant.
  set (chain := burst_chain sc) in *. split.
  - (* the chain *)
    intros i x Hxi. rewrite Hd.
    pose proof (lookup_lt_Some _ _ _ Hxi) as Hlen.
    assert (last chain = chain !! pred (length chain)) as Hlk
      by apply last_lookup.
    destruct (chain !! pred (length chain)) as [p|] eqn:Hp;
      [|apply lookup_ge_None in Hp; lia].
    rewrite Hlast, Hlk in Hst. destruct Hst as (_ & ds & Hds & ->).
    destruct (chain !! S i) as [y|] eqn:Hy; cbn [fmap option_fmap option_map default].
    + pose proof (lookup_lt_Some _ _ _ Hy) as Hlen'.
      rewrite lookup_insert_ne; [by eapply Hopen|].
      intros ->. pose proof (NoDup_lookup _ _ _ _ Hnd Hxi Hp). lia.
    + apply lookup_ge_None in Hy.
      assert (i = pred (length chain)) as -> by lia.
      rewrite Hp in Hxi. injection Hxi as ->.
      by rewrite lookup_insert_eq.
  - (* the hand-over *)
    eexists. split; [rewrite Htr, <- !app_assoc; reflexivity|].
    destruct chain as [|a l] eqn:Hch.
    + cbn in Hlast. rewrite Hlast in Hst. destruct Hst as [-> _].
      rewrite Hx. change (u32 0) with 0.
      destruct (decide (0 ≠ 0)) as [?|_]; [done|]. split; [done|].
      intros q Hin. rewrite app_nil_r in Hin.
      apply elem_of_app in Hin as [Hin|Hin].
      { rewrite Forall_forall in Hall. by specialize (Hall _ Hin). }
      apply elem_of_app in Hin as [Hin|Hin].
      { case_decide; [|by apply not_elem_of_nil in Hin].
        by apply list_elem_of_singleton in Hin. }
      rewrite Forall_forall in Hta. by destruct (Hta _ Hin).
    + intros Hnz.
      assert (a1 = u32 a) as ->.
      { destruct (last (a :: l)) as [p|] eqn:Hp;
          [|by apply last_None in Hp].
        rewrite Hlast in Hst. destruct Hst as [-> _]. by apply Hhead. }
      rewrite Hx, Hc0.
      destruct (decide (u32 a ≠ 0)) as [_|?]; [|done]. split; [lia|].
      eexists. rewrite !app_assoc. reflexivity.
Qed.

End tasklet_chain.

(** ** The slot of a staggered cycle and the beacon it refreshes *)

Section stagger_dispatch.
Context {K : core_h}.


End stagger_dispatch.

(** ** More scenarios *)

Section more_scenarios.
Local Existing Instance scenario.

(** With every slot taken, interface 0 gets no beacon state. *)
Lemma ath_beacon_alloc_full_table_witness :
  sc_vaps sample_sc_full !! 0 = Some sample_vap
  ∧ av_bcbuf sample_vap = None
  ∧ needs_bslot sample_sc_full = true
  ∧ (∀ i, ¬ slot_empty (sc_bslot sample_sc_full) i)
  ∧ ath_beacon_alloc (sample_env 0) 0 sample_sc_full = None.
Proof.
  assert (sc_vaps sample_sc_full !! 0 = Some sample_vap) as H1 by reflexivity.
  assert (av_bcbuf sample_vap = None) as H2 by reflexivity.
  assert (needs_bslot sample_sc_full = true) as H3 by reflexivity.
  assert (∀ i, ¬ slot_empty (sc_bslot sample_sc_full) i) as H4.
  { intros i Hs. unfold slot_empty in Hs.
    pose proof (arr_get_Some_range _ _ _ Hs) as Hr. cbn in Hr.
    assert (i = 0 ∨ i = 1 ∨ i = 2 ∨ i = 3) as [->|[->|[->| ->]]] by lia;
      discriminate Hs. }
  split_and!; try assumption.
  exact (ath_beacon_alloc_full_table (sample_env 0) 0 sample_sc_full
           sample_vap H1 H2 H3 H4).
Defined.

(** The glue out of memory: interface 0 keeps the buffer and the slot it
    was given. *)
Lemma ath_beacon_alloc_enomem_witness :
  ∃ avp1 sc1,
    sc_vaps sample_sc !! 0 = Some sample_vap
    ∧ beacon_state_alloc 0 sample_vap sample_sc = Some (avp1, sc1)
    ∧ ath_get_beacon sample_env_nomem 0 = None
    ∧ ∃ sc' avp' bf,
        ath_beacon_alloc sample_env_nomem 0 sample_sc = Some (- ENOMEM, sc')
        ∧ av_bcbuf avp' = Some bf
        ∧ bf_mpdu bf = None
        ∧ sc_nbcnvaps sc' = sc_nbcnvaps sc1.
Proof.
  destruct (beacon_state_alloc 0 sample_vap sample_sc) as [[avp1 sc1]|] eqn:Hb;
    [|vm_compute in Hb; discriminate Hb].
  assert (sc_vaps sample_sc !! 0 = Some sample_vap) as H1 by reflexivity.
  assert (ath_get_beacon sample_env_nomem 0 = None) as H3 by reflexivity.
  exists avp1, sc1. split_and!; try done.
  destruct (ath_beacon_alloc_enomem sample_env_nomem 0 sample_sc sc1
              sample_vap avp1 H1 Hb H3)
    as (sc' & avp' & bf & Ha & _ & Hbf & Hm & _ & _ & Hn & _).
  exists sc', avp', bf. split_and!; assumption.
Defined.

(** After that, generating the beacon of interface 0 has no defined
    outcome. *)
Lemma ath_beacon_generate_after_enomem_witness :
  ∃ ret sc',
    ath_get_beacon sample_env_nomem 0 = None
    ∧ ath_beacon_alloc sample_env_nomem 0 sample_sc = Some (ret, sc')
    ∧ ath_beacon_generate (sample_env 0) 0 sc' = None.
Proof.
  destruct (ath_beacon_alloc sample_env_nomem 0 sample_sc) as [[ret sc']|]
    eqn:Ha; [|vm_compute in Ha; discriminate Ha].
  assert (ath_get_beacon sample_env_nomem 0 = None) as H1 by reflexivity.
  exists ret, sc'. split_and!; try done.
  exact (ath_beacon_generate_after_enomem sample_env_nomem (sample_env 0) 0
           ret sample_sc sc' H1 Ha).
Defined.


(** Allocation and release on the sample access point: slot table and
    count are back, the buffer is at the end of the list. *)
Lemma ath_beacon_alloc_return_round_trip_witness :
  ∃ ret sc1,
    bslot_inv sample_sc
    ∧ sc_vaps sample_sc !! 0 = Some sample_vap
    ∧ av_bcbuf sample_vap = None
    ∧ ath_beacon_alloc (sample_env 0) 0 sample_sc = Some (ret, sc1)
    ∧ ∃ sc2,
        ath_beacon_return 0 sc1 = Some sc2
        ∧ sc_bslot sc2 = sc_bslot sample_sc
        ∧ sc_nbcnvaps sc2 = sc_nbcnvaps sample_sc.
Proof.
  destruct (ath_beacon_alloc (sample_env 0) 0 sample_sc) as [[ret sc1]|]
    eqn:Ha; [|vm_compute in Ha; discriminate Ha].
  assert (sc_vaps sample_sc !! 0 = Some sample_vap) as H2 by reflexivity.
  assert (av_bcbuf sample_vap = None) as H3 by reflexivity.
  exists ret, sc1. split_and!; try done; [exact sample_sc_inv|].
  destruct (ath_beacon_alloc_return_round_trip (sample_env 0) 0 ret
              sample_sc sc1 sample_vap sample_sc_inv H2 H3 Ha)
    as (sc2 & bf & bf' & rest & avp2 & Hr & Hs & Hn & _).
  exists sc2. split_and!; assumption.
Defined.

(** Releasing the beacon state of interface 0 a second time. *)
Lemma ath_beacon_return_twice_witness :
  ∃ sc',
    ath_beacon_return 0 sample_sc_one = Some sc'
    ∧ ath_beacon_return 0 sc' = Some sc'.
Proof.
  destruct (ath_beacon_return 0 sample_sc_one) as [sc'|] eqn:Hr;
    [|vm_compute in Hr; discriminate Hr].
  exists sc'. split; [done|].
  exact (ath_beacon_return_twice 0 sample_sc_one sc' Hr).
Defined.

(** Two allocations and a release on the sample access point. *)
Lemma beacon_bufs_run_ops_witness :
  let os := [op_alloc (sample_env 0) 0; op_alloc (sample_env 0) 1;
             op_return 0] in
  ∃ sc',
    run_ops os sample_sc = Some sc'
    ∧ beacon_bufs sc' ≡ₚ beacon_bufs sample_sc.
Proof.
  intros os.
  destruct (run_ops os sample_sc) as [sc'|] eqn:Hr;
    [|vm_compute in Hr; discriminate Hr].
  exists sc'. split; [done|].
  exact (proj1 (beacon_bufs_run_ops os sample_sc sc' Hr)).
Defined.

Lemma ath_beacon_free_after_ops_witness :
  let os := [op_alloc (sample_env 0) 0; op_alloc (sample_env 0) 1;
             op_return 0] in
  ∃ sc',
    pool_clean sample_sc
    ∧ run_ops os sample_sc = Some sc'
    ∧ pool_clean sc' ∧ ath_beacon_free sc' = sc'.
Proof.
  intros os.
  assert (pool_clean sample_sc) as H1 by (repeat constructor).
  destruct (run_ops os sample_sc) as [sc'|] eqn:Hr;
    [|vm_compute in Hr; discriminate Hr].
  exists sc'. split; [done|]. split; [done|].
  exact (ath_beacon_free_after_ops os sample_sc sc' H1 Hr).
Defined.

(** The descriptor of the beacon of interface 0. *)
Lemma ath_beacon_setup_descriptor_witness :
  let bf := {| bf_daddr := 4096; bf_buf_addr := 12288;
               bf_mpdu := Some sample_frame |} in
  ∃ sc',
    ath_beacon_setup sample_vap bf sample_sc_one = Some sc'
    ∧ sc_descs sc' !! 4096 = Some {| ds_link := 0; ds_data := 12288 |}.
Proof.
  intros bf.
  destruct (ath_beacon_setup sample_vap bf sample_sc_one) as [sc'|] eqn:Hs;
    [|vm_compute in Hs; discriminate Hs].
  exists sc'. split; [done|].
  destruct (ath_beacon_setup_descriptor sample_vap bf sample_sc_one sc' Hs)
    as (skb & seglen & _ & Hd & _).
  exact Hd.
Defined.

(** A beacon of interface 0 that is no DTIM. *)
Lemma ath_beacon_generate_no_dtim_witness :
  let bf := {| bf_daddr := 4096; bf_buf_addr := 12288;
               bf_mpdu := Some sample_frame |} in
  ∃ avp r sc',
    sc_vaps sample_sc_one !! 0 = Some avp
    ∧ av_bcbuf avp = Some bf
    ∧ bf_mpdu bf = Some sample_frame
    ∧ ath_update_beacon (sample_env 0) 0 sample_frame
        (s32 (axq_depth (av_mcastq avp)))
      = (0, sample_frame, [5; 4; 0; 1; 0; 0])
    ∧ arr_get [5; 4; 0; 1; 0; 0] 4 = Some 0
    ∧ Z.land 0 1 = 0
    ∧ ath_beacon_generate (sample_env 0) 0 sample_sc_one = Some (r, sc')
    ∧ sc_cabq sc' = sc_cabq sample_sc_one.
Proof.
  intros bf.
  destruct (sc_vaps sample_sc_one !! 0) as [avp|] eqn:Hv;
    [|vm_compute in Hv; discriminate Hv].
  assert (av_bcbuf avp = Some bf) as H2.
  { vm_compute in Hv. injection Hv as <-. reflexivity. }
  assert (bf_mpdu bf = Some sample_frame) as H3 by reflexivity.
  assert (ath_update_beacon (sample_env 0) 0 sample_frame
            (s32 (axq_depth (av_mcastq avp)))
          = (0, sample_frame, [5; 4; 0; 1; 0; 0])) as H4 by reflexivity.
  assert (arr_get [5; 4; 0; 1; 0; 0] 4 = Some 0) as H5 by reflexivity.
  assert (Z.land 0 1 = 0) as H6 by reflexivity.
  destruct (ath_beacon_generate (sample_env 0) 0 sample_sc_one)
    as [[r sc']|] eqn:Hg; [|vm_compute in Hg; discriminate Hg].
  exists avp, r, sc'. split_and!; try done.
  exact (proj1 (ath_beacon_generate_no_dtim (sample_env 0) 0 sample_sc_one
                  sc' r avp bf sample_frame sample_frame 0 0
                  [5; 4; 0; 1; 0; 0] Hv H2 H3 H4 H5 H6 Hg)).
Defined.

Lemma ath_beacon_generate_buffer_witness :
  ∃ bf' sc',
    ath_beacon_generate (sample_env 0) 0 sample_sc_one = Some (Some bf', sc')
    ∧ ∃ ds', sc_descs sc' !! bf_daddr bf' = Some ds'
             ∧ ds_data ds' = bf_buf_addr bf'.
Proof.
  destruct (ath_beacon_generate (sample_env 0) 0 sample_sc_one)
    as [[[bf'|] sc']|] eqn:Hg;
    [|vm_compute in Hg; discriminate Hg|vm_compute in Hg; discriminate Hg].
  exists bf', sc'. split; [done|].
  destruct (ath_beacon_generate_buffer (sample_env 0) 0 sample_sc_one sc' bf'
              Hg)
    as (avp & avp' & bf & skb & skb' & changed & tim & ds' & H).
  exists ds'. split; apply H.
Defined.

(** The tasklet at 10 TU on the sample access point with interface 0 in
    slot 1. *)
Lemma ath9k_beacon_tasklet_keeps_witness :
  ∃ sc',
    ath9k_beacon_tasklet (sample_env 0) (sample_readings 0 (1024 * 10))
      sample_sc_one = Some sc'
    ∧ slot_state sc' = slot_state sample_sc_one.
Proof.
  destruct (ath9k_beacon_tasklet (sample_env 0)
              (sample_readings 0 (1024 * 10)) sample_sc_one)
    as [sc'|] eqn:Ht; [|vm_compute in Ht; discriminate Ht].
  exists sc'. split; [done|].
  exact (proj1 (ath9k_beacon_tasklet_keeps (sample_env 0)
                  (sample_readings 0 (1024 * 10)) sample_sc_one sc' Ht)).
Defined.

Lemma sample_sc_one_vaps (id : Z) (avp : ath_vap) :
  sc_vaps sample_sc_one !! id = Some avp →
  (id = 0
   ∧ avp = avp_with_bslot 1
             (avp_with_bcbuf
                (Some {| bf_daddr := 4096; bf_buf_addr := 12288;
                         bf_mpdu := Some sample_frame |})
                sample_vap))
  ∨ (id = 1 ∧ avp = sample_vap).
Proof.
  intros Hv. unfold sample_sc_one in Hv. cbn in Hv.
  apply lookup_insert_Some in Hv as [[<- <-]|[Hne Hv]]; [by left|].
  apply lookup_insert_Some in Hv as [[<- <-]|[_ Hv]]; [done|].
  apply lookup_singleton_Some in Hv as [<- <-]. by right.
Defined.

Lemma sample_sc_one_ready : beacon_ready sample_sc_one.
Proof.
  split.
  - split.
    + reflexivity.
    + intros id avp Hv.
      destruct (sample_sc_one_vaps id avp Hv) as [[-> _]|[-> _]]; discriminate.
    + intros s id Hs Hany.
      pose proof (arr_get_Some_range _ _ _ Hs) as Hr. cbn in Hr.
      assert (s = 0 ∨ s = 1 ∨ s = 2 ∨ s = 3) as [->|[->|[->| ->]]] by lia;
        cbv in Hs; injection Hs as <-; try (by destruct Hany).
      eexists. split; [reflexivity|]. split; [by eexists|reflexivity].
    + intros _ id avp Hv [bf Hbf].
      destruct (sample_sc_one_vaps id avp Hv) as [[-> ->]|[-> ->]];
        [reflexivity|discriminate Hbf].
    + discriminate.
    + reflexivity.
  - intros id avp bf Hv Hbf.
    destruct (sample_sc_one_vaps id avp Hv) as [[-> ->]|[-> ->]];
      [|discriminate Hbf].
    injection Hbf as <-. split; by eexists.
  - discriminate.
  - intros id avp p Hv Hp.
    destruct (sample_sc_one_vaps id avp Hv) as [[-> ->]|[-> ->]];
      discriminate Hp.
  - cbn. lia.
  - cbn. lia.
Defined.


(** Twelve runs of the tasklet, 10 TU apart, the beacon queue drained
    each time. *)
Lemma ath9k_beacon_tasklet_runs_witness :
  let Hs := (λ n, sample_readings 0 (1024 * 10 * Z.of_nat n)) <$> seq 0 12 in
  env_ready (sample_env 0)
  ∧ beacon_ready sample_sc_one
  ∧ 0 < u16 ATH_DEFAULT_BINTVAL
  ∧ 0 < ATH_BCBUF
  ∧ u16 ATH_DEFAULT_BINTVAL * ATH_BCBUF < 2^31
  ∧ ∃ sc', tasklet_run (sample_env 0) Hs sample_sc_one = Some sc'
           ∧ beacon_ready sc'.
Proof.
  intros Hs.
  assert (env_ready (sample_env 0)) as H1 by (intros id skb depth; by eexists).
  assert (0 < u16 ATH_DEFAULT_BINTVAL) as H3 by reflexivity.
  assert (0 < ATH_BCBUF) as H4 by reflexivity.
  assert (u16 ATH_DEFAULT_BINTVAL * ATH_BCBUF < 2^31) as H5 by reflexivity.
  split_and!; try assumption; [exact sample_sc_one_ready|].
  exact (ath9k_beacon_tasklet_runs (sample_env 0) Hs sample_sc_one
           H1 sample_sc_one_ready H3 H4 H5).
Defined.

(** A slot time change asked for before the tasklet runs at 10 TU. *)
Lemma tasklet_slot_time_change_witness :
  let sc := sc_with_updateslot UPDATE sample_sc_one in
  ∃ sc',
    ath9k_beacon_tasklet (sample_env 0) (sample_readings 0 (1024 * 10)) sc
    = Some sc'
    ∧ ∃ tr, sc_trace sc' = sc_trace sc ++ tr.
Proof.
  intros sc.
  destruct (ath9k_beacon_tasklet (sample_env 0)
              (sample_readings 0 (1024 * 10)) sc)
    as [sc'|] eqn:Ht; [|vm_compute in Ht; discriminate Ht].
  exists sc'. split; [done|].
  destruct (tasklet_slot_time_change (sample_env 0)
              (sample_readings 0 (1024 * 10)) sc sc' Ht) as (tr & Htr & _).
  by exists tr.
Defined.

(** Ten runs with a frame left on the beacon queue, resets disabled. *)
Lemma noreset_miss_run_witness :
  let Hs := replicate 10 (sample_readings 1 0) in
  sc_noreset sample_sc_noreset = true
  ∧ sc_bmisscount sample_sc_noreset = 0
  ∧ 0 < BSTUCK_THRESH
  ∧ Forall (λ H, pending H sample_sc_noreset) Hs
  ∧ ∃ sc' tr, tasklet_run (sample_env 0) Hs sample_sc_noreset = Some sc'
      ∧ sc_bmisscount sc' = 10
      ∧ sc_trace sc' = sc_trace sample_sc_noreset ++ tr
      ∧ resets tr = 0%nat
      ∧ reg_dumps tr = 1%nat.
Proof.
  intros Hs.
  assert (sc_noreset sample_sc_noreset = true) as H1 by reflexivity.
  assert (sc_bmisscount sample_sc_noreset = 0) as H2 by reflexivity.
  assert (0 < BSTUCK_THRESH) as H3 by reflexivity.
  assert (Forall (λ H, pending H sample_sc_noreset) Hs) as H4
    by (repeat constructor; discriminate).
  split_and!; try assumption.
  destruct (noreset_miss_run (sample_env 0) Hs sample_sc_noreset H1 H2 H3 H4)
    as (sc' & tr & Hr & Hn & Ht & Hres & Hd & _).
  exists sc', tr. split_and!; assumption.
Defined.

(** The staggered tasklet at 10 TU: the beacon of interface 0 is due. *)
Lemma staggered_cycle_submit_witness :
  let H := sample_readings 0 (1024 * 10) in
  ∃ sc',
    sc_stagbeacons sample_sc_one = true
    ∧ ¬ pending H sample_sc_one
    ∧ ath9k_beacon_tasklet (sample_env 0) H sample_sc_one = Some sc'
    ∧ ∃ tr, sc_trace sc' = sc_trace sample_sc_one ++ tr.
Proof.
  intros H.
  assert (sc_stagbeacons sample_sc_one = true) as H1 by reflexivity.
  assert (¬ pending H sample_sc_one) as H2 by (intros Hp; by apply Hp).
  destruct (ath9k_beacon_tasklet (sample_env 0) H sample_sc_one)
    as [sc'|] eqn:Ht; [|vm_compute in Ht; discriminate Ht].
  exists sc'. split_and!; try done.
  destruct (staggered_cycle_submit (sample_env 0) H sample_sc_one sc'
              H1 H2 Ht) as (tr & Htr & _).
  by exists tr.
Defined.

(** The sample access point: four staggered slots of 25 TU. *)
Lemma ath_beacon_config_ap_witness :
  sc_opmode sample_sc = HAL_M_HOSTAP
  ∧ beacon_config_opmode 255 sample_sc = Some HAL_M_HOSTAP
  ∧ ¬ (HAL_M_HOSTAP = HAL_M_STA ∧ sc_nostabeacons sample_sc = true)
  ∧ (sc_stagbeacons sample_sc = true → u32 ATH_BCBUF ≠ 0)
  ∧ ∃ sc', ath_beacon_config 0 sample_clock 255 sample_sc
           = Some (ap_beacon_timers 25 25165849, sc')
           ∧ sc_imask sc' = 65536.
Proof.
  assert (sc_opmode sample_sc = HAL_M_HOSTAP) as H1 by reflexivity.
  assert (beacon_config_opmode 255 sample_sc = Some HAL_M_HOSTAP) as H2
    by reflexivity.
  assert (¬ (HAL_M_HOSTAP = HAL_M_STA ∧ sc_nostabeacons sample_sc = true))
    as H3 by (intros [? _]; discriminate).
  assert (sc_stagbeacons sample_sc = true → u32 ATH_BCBUF ≠ 0) as H4
    by (intros _; discriminate).
  split_and!; try assumption.
  pose proof (ath_beacon_config_ap 0 sample_clock 255 sample_sc HAL_M_HOSTAP
                H1 H2 H3 H4) as Hc.
  eexists. split; [exact Hc|reflexivity].
Defined.

(** The ad-hoc station with VEOL: the beacon of interface 0 is linked
    to itself and the SWBA interrupt stays off. *)
Lemma ath_beacon_config_adhoc_witness :
  ∃ t sc',
    sc_opmode sample_adhoc = HAL_M_IBSS
    ∧ beacon_config_opmode 255 sample_adhoc = Some HAL_M_IBSS
    ∧ 0 < HAL_BEACON_RESET_TSF < 2^32
    ∧ ath_beacon_config 0 sample_clock 255 sample_adhoc = Some (t, sc')
    ∧ t = ap_beacon_timers 100 25165924
    ∧ sc_imask sc' = 1
    ∧ sc_bmisscount sc' = 0.
Proof.
  assert (sc_opmode sample_adhoc = HAL_M_IBSS) as H1 by reflexivity.
  assert (beacon_config_opmode 255 sample_adhoc = Some HAL_M_IBSS) as H2
    by reflexivity.
  assert (0 < HAL_BEACON_RESET_TSF < 2^32) as H3 by (split; reflexivity).
  destruct (ath_beacon_config 0 sample_clock 255 sample_adhoc)
    as [[t sc']|] eqn:Hc; [|vm_compute in Hc; discriminate Hc].
  destruct (ath_beacon_config_adhoc 0 sample_clock 255 sample_adhoc sc'
              HAL_M_IBSS t H1 H2 H3 Hc) as (Ht & Hi & Hb & _).
  exists t, sc'.
  split_and!; first [assumption|reflexivity|apply H3|exact Ht|exact Hi].
Defined.

(** A station at 1000 TU: the station timers are programmed between
    interrupts off and interrupts on with BMISS added. *)
Lemma ath_beacon_config_brackets_witness :
  ∃ t sc',
    (sc_opmode sample_sta = HAL_M_IBSS → 0 < HAL_BEACON_RESET_TSF < 2^32)
    ∧ ath_beacon_config 20 sample_clock 255 sample_sta = Some (t, sc')
    ∧ Z.land (sc_imask sample_sta) (sc_imask sc') = sc_imask sample_sta
    ∧ sc_imask sc' = HAL_INT_BMISS
    ∧ ∃ mid tail,
        sc_trace sc'
        = sc_trace sample_sta ++ ath9k_hw_set_interrupts_ 0 :: mid
          ++ ath9k_hw_set_interrupts_ (sc_imask sc') :: tail
        ∧ List.filter is_timer_call mid = [timer_call t]
        ∧ List.filter is_timer_call tail = [].
Proof.
  assert (sc_opmode sample_sta = HAL_M_IBSS → 0 < HAL_BEACON_RESET_TSF < 2^32)
    as H1 by (intros _; split; reflexivity).
  destruct (ath_beacon_config 20 sample_clock 255 sample_sta)
    as [[t sc']|] eqn:Hc; [|vm_compute in Hc; discriminate Hc].
  destruct (ath_beacon_config_brackets 20 sample_clock 255 sample_sta sc' t
              H1 Hc) as (Hm & _ & _ & _ & _ & m & Hop & Hbr).
  assert (m = HAL_M_STA) as -> by (injection Hop as <-; reflexivity).
  assert (sta_timers HAL_M_STA sample_sta && sc_nostabeacons sample_sta
          = false) as Hcond by reflexivity.
  rewrite Hcond in Hbr. destruct Hbr as (mid & tail & Htr & _ & Hmid & Htail).
  assert (sc_imask sc' = HAL_INT_BMISS) as Hmask.
  { vm_compute in Hc. injection Hc as _ <-. reflexivity. }
  exists t, sc'. split; [exact H1|]. split; [reflexivity|].
  split; [exact Hm|]. split; [exact Hmask|].
  exists mid, tail. split_and!; assumption.
Defined.

Lemma sample_sta_timers :
  ∃ bs sc',
    ath_beacon_config 20 sample_clock 255 sample_sta
    = Some (sta_beacon_timers bs, sc')
    ∧ bs_intval bs = 100 ∧ bs_nexttbtt bs = 1100.
Proof.
  destruct (ath_beacon_config 20 sample_clock 255 sample_sta)
    as [[[bs|] sc']|] eqn:Hc;
    [|vm_compute in Hc; discriminate Hc|vm_compute in Hc; discriminate Hc].
  exists bs, sc'. split; [done|].
  vm_compute in Hc. injection Hc as <- _. split; reflexivity.
Defined.

Lemma sta_dtim_schedule_witness :
  ∃ bs sc',
    ath_beacon_config 20 sample_clock 255 sample_sta
    = Some (sta_beacon_timers bs, sc')
    ∧ bs_intval bs < 2^31
    ∧ tsf_tu (ath9k_hw_gettsf64 sample_clock) + FUDGE + bs_intval bs <= 2^32
    ∧ sta_dtimperiod default_conf <= 2^31
    ∧ bs_nexttbtt bs + sta_dtimperiod default_conf * bs_intval bs <= 2^32
    ∧ bs_nexttbtt bs <= bs_nextdtim bs < bs_nexttbtt bs + bs_dtimperiod bs
    ∧ bs_cfpnext bs = bs_nextdtim bs.
Proof.
  destruct sample_sta_timers as (bs & sc' & Hc & Hi & Hn).
  exists bs, sc'.
  assert (bs_intval bs < 2^31) as H1 by (rewrite Hi; reflexivity).
  assert (tsf_tu (ath9k_hw_gettsf64 sample_clock) + FUDGE + bs_intval bs
          <= 2^32) as H2 by (rewrite Hi; discriminate).
  assert (sta_dtimperiod default_conf <= 2^31) as H3 by discriminate.
  assert (bs_nexttbtt bs + sta_dtimperiod default_conf * bs_intval bs
          <= 2^32) as H4 by (rewrite Hi, Hn; discriminate).
  destruct (sta_dtim_schedule 20 sample_clock 255 sample_sta sc' bs Hc
              H1 H2 H3 H4) as (_ & _ & Hd & _ & _ & Hcfp & _).
  split_and!; first [assumption|apply Hd].
Defined.

Lemma sta_sleepduration_multiple_witness :
  ∃ bs sc',
    ath_beacon_config 20 sample_clock 255 sample_sta
    = Some (sta_beacon_timers bs, sc')
    ∧ bs_intval bs < 2^31
    ∧ tsf_tu (ath9k_hw_gettsf64 sample_clock) + FUDGE + bs_intval bs <= 2^32
    ∧ 0 <= IEEE80211_MS_TO_TU 100
    ∧ IEEE80211_MS_TO_TU 100 + bs_intval bs <= 2^31
    ∧ sta_dtimperiod default_conf * bs_intval bs < 2^32
    ∧ ∃ n, 0 <= n ∧ bs_sleepduration bs = n * bs_intval bs.
Proof.
  destruct sample_sta_timers as (bs & sc' & Hc & Hi & Hn).
  exists bs, sc'.
  assert (bs_intval bs < 2^31) as H1 by (rewrite Hi; reflexivity).
  assert (tsf_tu (ath9k_hw_gettsf64 sample_clock) + FUDGE + bs_intval bs
          <= 2^32) as H2 by (rewrite Hi; discriminate).
  assert (0 <= IEEE80211_MS_TO_TU 100) as H3 by discriminate.
  assert (IEEE80211_MS_TO_TU 100 + bs_intval bs <= 2^31) as H4
    by (rewrite Hi; discriminate).
  assert (sta_dtimperiod default_conf * bs_intval bs < 2^32) as H5
    by (rewrite Hi; reflexivity).
  split_and!; try assumption.
  exact (proj1 (sta_sleepduration_multiple 20 sample_clock 255 sample_sta sc'
                  bs Hc H1 H2 H3 H4 H5)).
Defined.

(** A burst cycle with diversity off: antenna 2 has sent more than
    antenna 1 by more than 2 frames. *)
Lemma tasklet_antenna_check_witness :
  let H := sample_readings 0 0 in
  ∃ sc',
    ¬ pending H sample_sc_burst
    ∧ ath9k_beacon_tasklet (sample_env 0) H sample_sc_burst = Some sc'
    ∧ ∃ slot tr,
        sc_trace sc' = sc_trace sample_sc_burst ++ tr
        ∧ slot = Z.max 0 ATH_BCBUF.
Proof.
  intros H.
  assert (¬ pending H sample_sc_burst) as H1 by (intros Hp; by apply Hp).
  destruct (ath9k_beacon_tasklet (sample_env 0) H sample_sc_burst)
    as [sc'|] eqn:Ht; [|vm_compute in Ht; discriminate Ht].
  exists sc'. split; [exact H1|]. split; [reflexivity|].
  destruct (tasklet_antenna_check (sample_env 0) H sample_sc_burst sc' H1 Ht)
    as (slot & tr & Hs & Htr & _).
  exists slot, tr. split; assumption.
Defined.

(** The burst of the beacons of slots 0 and 2. *)
Lemma burst_beacons_chain_witness :
  let H := sample_readings 0 0 in
  ∃ sc',
    sc_stagbeacons sample_sc_burst = false
    ∧ ¬ pending H sample_sc_burst
    ∧ ATH_BCBUF < 2^32
    ∧ NoDup (burst_chain sample_sc_burst)
    ∧ links_apart sample_sc_burst (burst_chain sample_sc_burst)
    ∧ ath9k_beacon_tasklet (sample_env 0) H sample_sc_burst = Some sc'
    ∧ burst_chain sample_sc_burst = [4096; 4160]
    ∧ linked (sc_descs sc') (burst_chain sample_sc_burst).
Proof.
  intros H.
  assert (sc_stagbeacons sample_sc_burst = false) as H1 by reflexivity.
  assert (¬ pending H sample_sc_burst) as H2 by (intros Hp; by apply Hp).
  assert (ATH_BCBUF < 2^32) as H3 by reflexivity.
  assert (burst_chain sample_sc_burst = [4096; 4160]) as Hch by reflexivity.
  assert (NoDup (burst_chain sample_sc_burst)) as H4.
  { rewrite Hch. apply NoDup_cons_2; [|apply NoDup_singleton].
    intros Hin. apply list_elem_of_singleton in Hin. discriminate Hin. }
  assert (links_apart sample_sc_burst (burst_chain sample_sc_burst)) as H5.
  { split; [discriminate|]. intros id avp a Hv _.
    unfold sample_sc_burst in Hv. cbn in Hv.
    apply lookup_insert_Some in Hv as [[<- <-]|[_ Hv]]; [discriminate|].
    apply lookup_singleton_Some in Hv as [<- <-]. discriminate. }
  destruct (ath9k_beacon_tasklet (sample_env 0) H sample_sc_burst)
    as [sc'|] eqn:Ht; [|vm_compute in Ht; discriminate Ht].
  exists sc'.
  split_and!; first [assumption|reflexivity|idtac].
  exact (proj1 (burst_beacons_chain (sample_env 0) H sample_sc_burst sc'
                  H1 H2 H3 H4 H5 Ht)).
Defined.

End more_scenarios.
